(* ===== verification/_CoqProject ===== *)
-Q . S2P
Prelude.v
Log.v
Json.v
RefJson.v
Message.v
Conversation.v
Entries.v
MessageStore.v
RefSqlite.v
StoreFacts.v
TlsContext.v
Connection.v
ConnectionFacts.v
ConnectionThreads.v
ConnectionThreadsFacts.v
ConnectionShutdown.v
Codec.v
RefBase64.v
RefNet.v
CryptoProxy.v
CryptoProxyFacts.v
Ratchet.v
CryptoProxyWin.v
CryptoProxyLifecycle.v
RefCrypto.v
RefRatchet.v
RefProcess.v
App.v
AppFacts.v
AppView.v
AppThreads.v
Client.v
ClientSafety.v
Https.v
RefHttps.v
ClientTransport.v
ClientFacts.v
ClientSession.v
ClientMessages.v
EndToEnd.v
Replica.v
FirstContact.v
ClientFrames.v
ReadLoop.v
Wire.v
Main.v
RefWorld.v
RefEndToEnd.v
RefReplica.v
RefWire.v
RefMain.v
