(* ===== verification/Prelude.v ===== *)
(** * EPIC client: verification library

    The C++ client of the EPIC secure messenger (client/src): a terminal UI, a client
    that keeps the conversations, a TLS/WebSocket connection to the server, a local SQLite
    store and a Python subprocess that does all cryptography.  This library embeds the
    client's code in Rocq, function by function, and proves what it does.

    ** How the program is put together, and where it is modelled

    - [Message], [Conversation]: messaging/Message.h, Conversation.{h,cpp}: the message
      record, the enum, the edit window, a conversation and its updates.
    - [MessageStore]: messaging/MessageStore.cpp.  The database is a record of tables, each
      SQL statement its effect on them ([prepare_ok] says when it can be prepared at
      all); schema creation and the two migrations are [open_store].  [StoreFacts] has the proofs.
    - [TlsContext]: construction and destruction of the OpenSSL context (TlsContext.cpp).
    - [Connection]: connection/Connection.cpp, TlsContext.cpp: TCP, TLS with certificate
      pinning, the WebSocket upgrade, framing and reassembly, over an abstract endpoint
      (OpenSSL, Boost.Asio).  [ConnectionFacts] has the proofs.
    - [ConnectionThreads]: the same class as three interleaved threads (read_loop,
      ping_loop, and the caller of connect, send_text and disconnect) sharing the
      atomics, the write mutex, the socket and the SSL pointer.  One step is one statement of one
      thread.  [ConnectionThreadsFacts] has the invariants, [ConnectionShutdown] what makes
      disconnect return.
    - [CryptoProxy]: crypto/CryptoProxy.cpp on POSIX: spawning the subprocess, one request
      line, one reply line, and the typed wrappers.  [CryptoProxyWin] is the Windows half, with its
      equivalence; [CryptoProxyFacts] the refinement of the remote call; [CryptoProxyLifecycle]
      what start and stop open and close.  [Ratchet] states what two subprocesses promise
      each other: what one encrypts, the other decrypts, in order.
    - [Codec]: Base64 and the JSON content of a message (Client.cpp, first part);
      [Json] is the interface of nlohmann::json that the code uses.
    - [App]: ui/App.cpp: state, posted updates, lockout countdown, buttons and key
      bindings ([AppFacts]); [AppView]: the two screens as FTXUI documents, start and end of run;
      [AppThreads]: the UI, repainting, countdown and network threads around run, as
      interleaved steps.
    - [Client]: client/Client.cpp: every handler.  [Https]: the registration exchange.
      [ClientTransport] shows that [Connection] and [Https] are a [Transport], the interface [Client]
      is written against.  Proofs: [ClientSafety] (no undefined behaviour), [ClientFacts] (login,
      storage encryption), [ClientSession] (restoring, PIN, ending a session), [ClientMessages]
      (sending, receiving, editing, deleting), [ClientFrames] (the frames that leave).
    - [ReadLoop]: Connection::read_loop with the two callbacks do_login installs, the client over
      the connection itself: from the bytes of the stream to the handlers and to on_disconnect.
    - [EndToEnd]: two clients with their own states, clocks and environments, and between them
      the frame that handle_send_message of the server (Python) relays.  [Entries]: the
      conversation as both sides know it, and the operations of two writers on it; [Replica]:
      both clients act on it, interleaved with the server; [FirstContact]: the first messages,
      which make the session and lead to the state [Replica] starts from; [Wire]: the
      convergence over the byte streams of the two connections.
    - [Main]: main.cpp and Client::run; [Log]: log.h, its file and the terminal that tails it.
    - The [Ref*] files instantiate the interfaces with concrete functions (a JSON printer and
      parser, Base64, SHA-1, a byte stream, a subprocess, process tables, a server) and
      apply the theorems to concrete states.

    ** Conventions

    A statement over a state [S] is [M S A := S -> outcome A * S]: it returns, throws ([Exn],
    with the text of [what()]) or is [Stuck].  A throw keeps the writes made before it.
    [Stuck] is undefined behaviour (null dereference, index out of range, signed
    overflow, relocking a mutex), a self join, or a loop out of fuel: nothing catches it,
    so a theorem that a handler is not stuck is about all of these.  [wp] is the weakest precondition
    with one postcondition for a return and one for a throw; it excludes [Stuck].
    Integers are [Z] with the width written out where it matters ([u64], [u16], [in_s]);
    bytes of the network are [Z], strings are Rocq strings of bytes; [c_str] cuts at the first NUL where the
    code passes a C string.

    Third-party code (OpenSSL, Boost.Asio, nlohmann::json, SQLite's ordering and file
    access, the subprocess, the clock) is a type class of operations; what the proofs
    need of it is a class of laws next to it ([NetIoLaws], [NlohmannJsonLaws], [PosixLaws],
    [FdLaws], [HandleLaws], [StorageCipherLaws], [RatchetLaws], [TransportLaws], ...).  Each class has an instance in a [Ref*] file.

    ** Fuel

    Reading or writing n bytes takes at most n rounds, since each successful call moves at least
    one byte; ssl_read_exact, ssl_write_all, read_head (8193 rounds, the size limit) and
    https_post get their bound inside the definition, and [https_post_total], [ws_handshake_sound]
    and [ws_decode_frame_safe] show it is enough.  [ws_decode_frame] takes one unit per frame, and its
    theorems give the number that suffices for a stream; [read_loop] has that fuel for each message and one
    round per message and one more ([read_loop_delivers]).  The pipe loops of the proxy also need the
    number of interruptions by signals; [call_refines] and [win_call_refines] give a bound above which
    the result does not depend on the fuel.

    ** What the theorems show

    - No handler of the client is stuck, over any sequence of user actions, frames and drops
      from start-up ([client_never_stuck]); no UI event or posted update leaves the selection out
      of range ([ui_events_safe], [posted_updates_keep_ui_consistent]) and both screens can
      be drawn ([screens_are_defined]).
    - From one client to the other: a text sent in a session is shown by the peer with the
      same id, text and ciphertext ([sent_text_delivered]); the texts queued until the keys of the peer
      arrive all get there, in order, and leave both sides with the same conversation
      ([first_texts_delivered]); whatever the two write, forward, edit
      and delete, at once and while frames are on their way, both copies of the conversation have the
      same entries once those have arrived ([replicas_converge]), down to the bytes of the two
      connections ([bytes_converge]).
    - The read thread hands the messages of a stream to the client in order and each once, and tells it
      exactly once that the stream is over ([read_loop_delivers]).
    - Refinements: the pipes implement the remote call ([call_refines], [win_call_refines]); deleting a
      row in the store is deleting the message in memory ([mark_deleted_refines]).
    - The wire: frames are those of RFC 6455 ([ws_encode_frame_rfc]), fragments are reassembled
      and pings answered ([ws_decode_frame_reassembles]), bad frames refused, sizes bounded.  Every frame the
      client ever sends is one of the messages the server's schemas accept ([sent_frames_typed]).
    - Threads: frames do not mix ([frames_not_interleaved]), the SSL object is not used after it is
      freed ([ssl_not_used_after_free]), on_disconnect fires at most once
      ([on_disconnect_once]), disconnect ends once the socket is shut down ([disconnect_terminates]); leaving the UI loop
      ends App::run under every scheduling ([run_returns]).
    - Trust: credentials only go to the pinned server ([login_pins_server]), a login does not
      touch the keys before the server accepts ([login_leaves_keys_locked]), a wrong PIN keeps everybody
      out ([wrong_pin_keeps_out]), a changed identity key drops the message
      ([identity_change_dropped]).
    - Messages: round trips through the codec, the storage cipher and the database; queued texts go
      out in order ([queued_texts_sent_in_order]), received ones are kept ([received_message_kept]),
      deletions and edits are local first, a login restores every conversation, a logout leaves nothing.
    - Resources: starting and stopping the subprocess leaks nothing ([start_stop_balanced]); main
      exits with everything closed, joined and reaped ([main_exits_clean]); the OpenSSL context
      is freed exactly when it was made ([tls_context_owned]).
    - Defects of the code, as theorems: the migration that disables messages
      ([migration_disables_messages]), edits that reach other conversations
      ([remote_edit_reaches_any_conversation]), the reason of a drop that is erased
      ([disconnect_hides_reason]), status messages the chat screen never shows
      ([chat_status_never_shown]), the text that goes to another peer
      ([remove_conversation_changes_recipient]), the shutdown that hangs after a failed ping
      ([ping_failure_hangs_disconnect]), the screen pointer that is used after the loop ended
      ([posting_races_with_quit]), the login that loses to the drop of the old connection
      ([login_races_with_drop]), the keys a second login keeps ([login_reuses_keys]), the peer that
      starts over and is not heard ([invitation_in_session_ignored]), the edit that changes another message of
      the same millisecond ([same_millisecond_edit_misses]), the long message that logs its
      recipient out ([oversized_message_ends_session]).

    ** Not modelled, and why

    - A handler of [Client] runs as one step; of the data races between the UI thread and the read thread on
      members outside mutex_ (connection_, store_ in do_login), [login_interleaved] has the one between
      do_login and a drop, the others are outside this model.  The threads inside
      Connection and App are interleaved; a callback there is opaque.  [ReadLoop] has the callbacks and
      one thread.
    - The clients of [Replica] and [Wire] stay connected, in the session and in one conversation; a
      message is edited by its own id, so messages of one millisecond are excluded.  The two may see
      the messages of one another in a different order.
    - SSL_read and SSL_write on one SSL object from two threads are taken to be independent, as the comment
      above ping_loop assumes.
    - The FTXUI component tree (focus order, mouse) and the command-line parser are third-party behaviour:
      what the loop does with events and what the parser answers are arguments of the definitions.
    - The Windows branches of bin_dir and db_path_for, which only take the path from elsewhere, and a failing
      create_directories.
    - The structs RatchetHeader, X3DHHeader, MessageContent, EncryptedPayload, MessageEnvelope and
      User are declared and not used.
    - The Python subprocess and, but for the frame it relays and the schemas it checks, the Python server,
      the Solidity contract and the web verifier are other programs; the client's theorems see them
      through the interfaces above. *)

From Stdlib Require Export Ascii.
From stdpp Require Export sorting pretty.
From stdpp Require Export prelude strings gmap numbers option list.

(** ** Exceptional results and the effect monad *)

(** A C++ expression that either yields a value or throws an exception whose
    [what()] text is carried along; every handler of the program catches
    [std::exception] (or everything) and looks at nothing but that text. *)
Inductive result (A : Type) : Type :=
| Ok (a : A)
| Err (what : string).
Arguments Ok {A} a.
Arguments Err {A} what.

#[global] Instance result_ret : MRet result := λ A a, Ok a.
#[global] Instance result_bind : MBind result := λ A B f r,
  match r with Ok a => f a | Err e => Err e end.

(** What running a statement can do.  [Stuck] collects the behaviours C++ leaves
    undefined (null dereference, relocking a [std::mutex], ...) and the ones that
    never return (self join): no handler of the program catches it. *)
Inductive outcome (A : Type) : Type :=
| Ret (a : A)
| Exn (what : string)
| Stuck (why : string).
Arguments Ret {A} a.
Arguments Exn {A} what.
Arguments Stuck {A} why.

(** Statements over a state [S].  A throw keeps the writes made before it. *)
Definition M (S A : Type) : Type := S → outcome A * S.

#[global] Instance M_ret S : MRet (M S) := λ A a s, (Ret a, s).
#[global] Instance M_bind S : MBind (M S) := λ A B f m s,
  match m s with
  | (Ret a, s') => f a s'
  | (Exn e, s') => (Exn e, s')
  | (Stuck w, s') => (Stuck w, s')
  end.

Definition throw {S A} (e : string) : M S A := λ s, (Exn e, s).
Definition stuck {S A} (w : string) : M S A := λ s, (Stuck w, s).
Definition gets {S A} (f : S → A) : M S A := λ s, (Ret (f s), s).
Definition modify {S} (f : S → S) : M S unit := λ s, (Ret tt, f s).
Definition lift {S A} (r : result A) : M S A :=
  match r with Ok a => mret a | Err e => throw e end.

(** [try { m } catch (const std::exception& e) { h(e.what()) }] *)
Definition try_catch {S A} (m : M S A) (h : string → M S A) : M S A := λ s,
  match m s with
  | (Exn e, s') => h e s'
  | r => r
  end.

(** A run that returns, from its computed outcome. *)
Lemma run_ret {S A} (m : M S A) s a : (m s).1 = Ret a → m s = (Ret a, (m s).2).
Proof. destruct (m s). cbn. by intros ->. Qed.

Lemma run_exn {S A} (m : M S A) s e : (m s).1 = Exn e → m s = (Exn e, (m s).2).
Proof. destruct (m s). cbn. by intros ->. Qed.

Definition when {S} (b : bool) (m : M S unit) : M S unit :=
  if b then m else mret tt.

(** [for (x : xs) body(x)] *)
Fixpoint for_each {S A} (xs : list A) (body : A → M S unit) : M S unit :=
  match xs with
  | [] => mret tt
  | x :: xs => body x ;; for_each xs body
  end.

(** Running a statement of a component inside the state that owns it. *)
Definition zoom {S T A} (get : S → T) (put : T → S → S) (m : M T A) : M S A := λ s,
  let '(o, t) := m (get s) in (o, put t s).

(** ** A program logic for [M]

    [wp m Q E s]: from [s], [m] does not get stuck, satisfies [Q] when it
    returns and [E] when it throws. *)
Definition wp {S A} (m : M S A) (Q : A → S → Prop) (E : string → S → Prop) (s : S) : Prop :=
  match m s with
  | (Ret a, s') => Q a s'
  | (Exn e, s') => E e s'
  | (Stuck _, _) => False
  end.

Create HintDb wp.

Section wp_rules.
Context {S : Type}.
Implicit Types s : S.

Lemma wp_ret {A} (a : A) (Q : A → S → Prop) (E : string → S → Prop) s : Q a s → wp (mret a) Q E s.
Proof. done. Qed.

Lemma wp_throw {A} e (Q : A → S → Prop) (E : string → S → Prop) s :
  E e s → wp (throw e) Q E s.
Proof. done. Qed.

Lemma wp_gets {A} (f : S → A) (Q : A → S → Prop) (E : string → S → Prop) s : Q (f s) s → wp (gets f) Q E s.
Proof. done. Qed.

Lemma wp_modify (f : S → S) (Q : unit → S → Prop) (E : string → S → Prop) s : Q tt (f s) → wp (modify f) Q E s.
Proof. done. Qed.

Lemma wp_lift {A} (r : result A) Q E s :
  match r with Ok a => Q a s | Err e => E e s end → wp (lift r) Q E s.
Proof. by destruct r. Qed.

Lemma wp_bind {A B} (m : M S A) (f : A → M S B) Q E s :
  wp m (λ a s', wp (f a) Q E s') E s → wp (m ≫= f) Q E s.
Proof. unfold wp, mbind, M_bind. by destruct (m s) as [[] ?]. Qed.

Lemma wp_assoc {A B C} (m : M S A) (f : A → M S B) (g : B → M S C) Q E s :
  wp ((m ≫= f) ≫= g) Q E s → wp (m ≫= λ a, f a ≫= g) Q E s.
Proof. unfold wp, mbind, M_bind. by destruct (m s) as [[] ?]. Qed.

Lemma wp_try {A} (m : M S A) h Q E s :
  wp m Q (λ e s', wp (h e) Q E s') s → wp (try_catch m h) Q E s.
Proof. unfold wp, try_catch. by destruct (m s) as [[] ?]. Qed.

Lemma wp_when (b : bool) (m : M S unit) (Q : unit → S → Prop) (E : string → S → Prop) s :
  (if b then wp m Q E s else Q tt s) → wp (when b m) Q E s.
Proof. by destruct b. Qed.

Lemma wp_mono {A} (m : M S A) (Q Q' : A → S → Prop) (E E' : string → S → Prop) s :
  wp m Q E s → (∀ a s', Q a s' → Q' a s') → (∀ e s', E e s' → E' e s') → wp m Q' E' s.
Proof. unfold wp. destruct (m s) as [[] ?]; naive_solver. Qed.

Lemma wp_for_each {A} (xs : list A) (body : A → M S unit) (I : S → Prop) (E : string → S → Prop) s :
  I s → (∀ x s, x ∈ xs → I s → wp (body x) (λ _, I) E s) →
  wp (for_each xs body) (λ _, I) E s.
Proof.
  revert s. induction xs as [|x xs IH]; intros s Hs Hb; [done|]. simpl.
  apply wp_bind. eapply wp_mono; [apply Hb; [left|done]| |done]. intros [] s' Hs'.
  apply IH; [done|]. intros y s'' Hy. apply Hb. by right.
Qed.
End wp_rules.

Lemma wp_zoom {S T A} (get : S → T) put (m : M T A) Q E s :
  wp m (λ a t, Q a (put t s)) (λ e t, E e (put t s)) (get s) → wp (zoom get put m) Q E s.
Proof. unfold wp, zoom. by destruct (m (get s)) as [[] ?]. Qed.

(** What a computed run says through a specification. *)
Lemma wp_run_ret {S A} (m : M S A) Q E s a : wp m Q E s → (m s).1 = Ret a → Q a (m s).2.
Proof. unfold wp. destruct (m s) as [o s']. cbn. by intros HQ ->. Qed.

(** A statement that can only return. *)
Lemma wp_returns {S A} (m : M S A) Q s :
  wp m Q (λ _ _, False) s → ∃ a s', m s = (Ret a, s') ∧ Q a s'.
Proof. unfold wp. destruct (m s) as [[a|e|x] s']; [eauto|done..]. Qed.

Lemma wp_returns_ret {S} (m : M S unit) (Q : S → Prop) s :
  wp m (λ _, Q) (λ _ _, False) s → ∃ s', m s = (Ret tt, s') ∧ Q s'.
Proof. intros Hwp. destruct (wp_returns _ _ _ Hwp) as ([] & s' & ? & ?). by exists s'. Qed.

Lemma wp_run_exn {S A} (m : M S A) Q E s e : wp m Q E s → (m s).1 = Exn e → E e (m s).2.
Proof. unfold wp. destruct (m s) as [o s']. cbn. by intros HQ ->. Qed.

#[export] Hint Resolve wp_ret wp_throw wp_gets wp_modify : wp.

(** *** Invariants of statements

    [keeps I m]: started in a state that satisfies [I], [m] does not get stuck and
    leaves one, whether it returns or throws. *)
Definition keeps {S A} (I : S → Prop) (m : M S A) : Prop :=
  ∀ s, I s → wp m (λ _, I) (λ _, I) s.

Create HintDb keeps.

Section keeps_rules.
Context {S : Type} (I : S → Prop).

Lemma keeps_wp {A} (m : M S A) s : keeps I m → I s → wp m (λ _, I) (λ _, I) s.
Proof. intros Hm Hs. by apply Hm. Qed.
Lemma keeps_ret {A} (a : A) : keeps I (mret a).
Proof. by intros s. Qed.
Lemma keeps_throw {A} e : keeps I (@throw S A e).
Proof. by intros s. Qed.
Lemma keeps_gets {A} (f : S → A) : keeps I (gets f).
Proof. by intros s. Qed.
Lemma keeps_lift {A} (r : result A) : keeps I (lift r).
Proof. intros s Hs. by destruct r. Qed.
Lemma keeps_modify (f : S → S) : (∀ s, I s → I (f s)) → keeps I (modify f).
Proof. intros Hf s Hs. by apply Hf. Qed.
Lemma keeps_bind {A B} (m : M S A) (f : A → M S B) :
  keeps I m → (∀ a, keeps I (f a)) → keeps I (m ≫= f).
Proof.
  intros Hm Hf s Hs. apply wp_bind. eapply wp_mono; [by apply Hm| |done].
  intros a s' Hs'. by apply Hf.
Qed.
Lemma keeps_try {A} (m : M S A) h :
  keeps I m → (∀ e, keeps I (h e)) → keeps I (try_catch m h).
Proof.
  intros Hm Hh s Hs. apply wp_try. eapply wp_mono; [by apply Hm|done|].
  intros e s' Hs'. by apply Hh.
Qed.
Lemma keeps_when (b : bool) (m : M S unit) : keeps I m → keeps I (when b m).
Proof. intros Hm. destruct b; [done|]. apply keeps_ret. Qed.
Lemma keeps_for_each {A} (xs : list A) (body : A → M S unit) :
  (∀ x, keeps I (body x)) → keeps I (for_each xs body).
Proof. intros Hb s Hs. apply wp_for_each; [done|]. intros x s' _. apply Hb. Qed.
End keeps_rules.

Lemma keeps_and {S A} (I I' : S → Prop) (m : M S A) :
  keeps I m → keeps I' m → keeps (λ s, I s ∧ I' s) m.
Proof.
  intros H H' s [Hs Hs']. specialize (H s Hs). specialize (H' s Hs'). unfold wp in *.
  by destruct (m s) as [[] ?].
Qed.

#[export] Hint Resolve keeps_ret keeps_throw keeps_gets keeps_lift keeps_bind keeps_try
  keeps_when keeps_for_each : keeps.

(** Decomposes a statement down to the primitives in the database. *)
Ltac keeps_solve :=
  repeat (intros; first
    [ solve [eauto 2 with keeps nocore]
    | apply keeps_bind | apply keeps_try | apply keeps_when | apply keeps_for_each
    | match goal with |- keeps _ (match ?x with _ => _ end) => destruct x end ]).

(** *** Relations between the state before and after

    [moves R m]: however [m] ends, the states before and after it are related. *)
Definition moves {S A} (R : S → S → Prop) (m : M S A) : Prop := ∀ s, R s (m s).2.

Create HintDb moves.

Section moves_rules.
Context {S : Type} (R : S → S → Prop) `{!PreOrder R}.

Lemma moves_ret {A} (a : A) : moves R (mret a).
Proof. intros s. cbn. reflexivity. Qed.
Lemma moves_throw {A} e : moves R (@throw S A e).
Proof. intros s. cbn. reflexivity. Qed.
Lemma moves_stuck {A} e : moves R (@stuck S A e).
Proof. intros s. cbn. reflexivity. Qed.
Lemma moves_gets {A} (f : S → A) : moves R (gets f).
Proof. intros s. cbn. reflexivity. Qed.
Lemma moves_lift {A} (r : result A) : moves R (lift r).
Proof. destruct r; [apply moves_ret|apply moves_throw]. Qed.
Lemma moves_bind {A B} (m : M S A) (f : A → M S B) :
  moves R m → (∀ a, moves R (f a)) → moves R (m ≫= f).
Proof.
  intros Hm Hf s. specialize (Hm s). unfold mbind, M_bind.
  destruct (m s) as [[a|e|x] s']; cbn in *; [|done..]. etrans; [done|apply Hf].
Qed.
Lemma moves_try {A} (m : M S A) h :
  moves R m → (∀ e, moves R (h e)) → moves R (try_catch m h).
Proof.
  intros Hm Hh s. specialize (Hm s). unfold try_catch.
  destruct (m s) as [[a|e|x] s']; cbn in *; [done| |done]. etrans; [done|apply Hh].
Qed.
Lemma moves_when (b : bool) (m : M S unit) : moves R m → moves R (when b m).
Proof. intros Hm. destruct b; [done|]. apply moves_ret. Qed.
Lemma moves_for_each {A} (xs : list A) (body : A → M S unit) :
  (∀ x, moves R (body x)) → moves R (for_each xs body).
Proof.
  intros Hb. induction xs as [|x xs IH]; [apply moves_ret|]. cbn. by apply moves_bind.
Qed.
End moves_rules.

#[export] Hint Resolve moves_ret moves_throw moves_stuck moves_gets moves_lift : moves.

Ltac moves_solve :=
  repeat (intros; first
    [ solve [eauto 2 with moves nocore typeclass_instances]
    | apply moves_bind; [apply _| |] | apply moves_try; [apply _| |]
    | apply moves_when; [apply _|] | apply moves_for_each; [apply _|]
    | match goal with |- moves _ (match ?x with _ => _ end) => destruct x end ]).

(** [f] has the same value in both states. *)
Definition same {S B} (f : S → B) (s s' : S) : Prop := f s' = f s.
#[global] Instance same_preorder {S B} (f : S → B) : PreOrder (same f).
Proof. split; unfold same; [done|]. intros ??? E1 E2. congruence. Qed.

(** One step of symbolic execution. *)
Ltac wp_step :=
  lazymatch goal with
  | |- wp (mbind _ _) _ _ _ => apply wp_bind
  | |- wp (mret _) _ _ _ => apply wp_ret
  | |- wp (throw _) _ _ _ => apply wp_throw
  | |- wp (gets _) _ _ _ => apply wp_gets
  | |- wp (modify _) _ _ _ => apply wp_modify
  | |- wp (lift _) _ _ _ => apply wp_lift
  | |- wp (when _ _) _ _ _ => apply wp_when
  | |- wp (try_catch _ _) _ _ _ => apply wp_try
  | |- wp (zoom _ _ _) _ _ _ => apply wp_zoom
  | |- wp (match ?x with _ => _ end) _ _ _ => let E := fresh "Heq" in destruct x eqn:E
  end.
Ltac wp_run := repeat (wp_step; cbn beta iota).

(** ** Bytes and strings

    [std::string] is a sequence of bytes: [string], whose [ascii] characters have
    eight bits.  The wire formats compute with bytes as integers. *)
Abbreviation bytes := (list Z).

Definition is_byte (z : Z) : Prop := (0 ≤ z < 256)%Z.

Definition byte_of_ascii (c : ascii) : Z := Z.of_N (N_of_ascii c).
Definition ascii_of_byte (z : Z) : ascii := ascii_of_N (Z.to_N z).

Fixpoint bytes_of_string (s : string) : bytes :=
  match s with
  | EmptyString => []
  | String c s => byte_of_ascii c :: bytes_of_string s
  end.

Fixpoint string_of_bytes (bs : bytes) : string :=
  match bs with
  | [] => EmptyString
  | b :: bs => String (ascii_of_byte b) (string_of_bytes bs)
  end.

Lemma byte_of_ascii_is_byte c : is_byte (byte_of_ascii c).
Proof.
  unfold is_byte, byte_of_ascii. pose proof (N_ascii_bounded c). lia.
Qed.

Lemma ascii_of_byte_of_ascii c : ascii_of_byte (byte_of_ascii c) = c.
Proof. unfold ascii_of_byte, byte_of_ascii. by rewrite N2Z.id, ascii_N_embedding. Qed.

Lemma byte_of_ascii_of_byte z : is_byte z → byte_of_ascii (ascii_of_byte z) = z.
Proof.
  unfold is_byte, ascii_of_byte, byte_of_ascii. intros ?.
  rewrite N_ascii_embedding; lia.
Qed.

Lemma string_of_bytes_of_string s : string_of_bytes (bytes_of_string s) = s.
Proof. induction s; simpl; [done|]. by rewrite ascii_of_byte_of_ascii, IHs. Qed.

Lemma bytes_of_string_of_bytes bs :
  Forall is_byte bs → bytes_of_string (string_of_bytes bs) = bs.
Proof. induction 1; simpl; [done|]. by rewrite byte_of_ascii_of_byte, IHForall. Qed.

Lemma bytes_of_string_bytes s : Forall is_byte (bytes_of_string s).
Proof. induction s; simpl; constructor; auto using byte_of_ascii_is_byte. Qed.

Lemma bytes_of_string_app s t :
  bytes_of_string (s +:+ t) = bytes_of_string s ++ bytes_of_string t.
Proof. induction s; simpl; [done|]. by f_equal. Qed.

Lemma length_bytes_of_string s : length (bytes_of_string s) = String.length s.
Proof. induction s; simpl; auto. Qed.

Lemma length_string_of_bytes bs : String.length (string_of_bytes bs) = length bs.
Proof. induction bs; simpl; auto. Qed.

#[global] Instance bytes_of_string_inj : Inj (=) (=) bytes_of_string.
Proof. intros s t H. by rewrite <-(string_of_bytes_of_string s), H, string_of_bytes_of_string. Qed.

(** [s.empty()] *)
Definition str_empty (s : string) : bool :=
  match s with EmptyString => true | _ => false end.

Lemma str_empty_true s : str_empty s = true ↔ s = EmptyString.
Proof. by destruct s. Qed.
Lemma str_empty_false s : str_empty s = false ↔ s ≠ EmptyString.
Proof. by destruct s. Qed.

(** Only seven-bit characters. *)
Fixpoint is_ascii (s : string) : bool :=
  match s with
  | EmptyString => true
  | String c s => Z.ltb (byte_of_ascii c) 128 && is_ascii s
  end.

(** Numbers are printed in ASCII. *)
Lemma pretty_N_go_ascii x s : is_ascii s = true → is_ascii (pretty_N_go x s) = true.
Proof.
  revert s. induction (N.lt_wf_0 x) as [x _ IH]; intros s Hs.
  destruct (decide (x = 0)%N) as [->|Hx]; [by rewrite pretty_N_go_0|].
  rewrite pretty_N_go_step by lia. apply IH; [apply N.div_lt; lia|]. cbn [is_ascii].
  rewrite Hs, andb_true_r. unfold pretty_N_char. by repeat case_match.
Qed.

Lemma pretty_Z_ascii (z : Z) : is_ascii (pretty z) = true.
Proof.
  assert (∀ x : N, is_ascii (pretty x) = true) as HN.
  { intros x. unfold pretty, pretty_N. case_decide; [done|by apply pretty_N_go_ascii]. }
  destruct z as [|p|p]; [done|apply (HN (N.pos p))|]. change (is_ascii (pretty (N.pos p)) = true). apply HN.
Qed.

(** [s.find(sub) != std::string::npos] *)
Definition str_contains (sub s : string) : bool := bool_decide (is_Some (String.index 0 sub s)).

(** [std::tolower], [std::isspace] and [std::isalnum] of the "C" locale. *)
Definition tolower (c : ascii) : ascii :=
  let b := byte_of_ascii c in
  if (65 <=? b)%Z && (b <=? 90)%Z then ascii_of_byte (b + 32) else c.
Definition isspace (c : ascii) : bool :=
  let b := byte_of_ascii c in ((9 <=? b) && (b <=? 13) || (b =? 32))%Z.
Definition isdigit (c : ascii) : bool :=
  let b := byte_of_ascii c in ((48 <=? b) && (b <=? 57))%Z.
Definition isalnum (c : ascii) : bool :=
  let b := byte_of_ascii c in
  ((48 <=? b) && (b <=? 57) || (65 <=? b) && (b <=? 90) || (97 <=? b) && (b <=? 122))%Z.

Fixpoint to_lower (s : string) : string :=
  match s with
  | EmptyString => EmptyString
  | String c s => String (tolower c) (to_lower s)
  end.

(** A value without the white space around it. *)
Fixpoint drop_space (cs : list ascii) : list ascii :=
  match cs with
  | c :: cs' => if isspace c then drop_space cs' else cs
  | [] => []
  end.
Definition trim (s : string) : string :=
  String.string_of_list_ascii
    (reverse (drop_space (reverse (drop_space (String.list_ascii_of_string s))))).

Definition crlf : string := String (ascii_of_nat 13) (String (ascii_of_nat 10) EmptyString).

Definition newline : ascii := ascii_of_nat 10.

(** No newline inside. *)
Fixpoint one_line (s : string) : bool :=
  match s with
  | EmptyString => true
  | String c s => negb (bool_decide (c = newline)) && one_line s
  end.

(** [s.c_str()] read back as a C string: everything before the first NUL. *)
Fixpoint c_str (s : string) : string :=
  match s with
  | EmptyString => EmptyString
  | String c s => if bool_decide (c = Ascii.zero) then EmptyString else String c (c_str s)
  end.

(** No NUL byte inside. *)
Fixpoint nul_free (s : string) : bool :=
  match s with
  | EmptyString => true
  | String c s => negb (bool_decide (c = Ascii.zero)) && nul_free s
  end.

Lemma c_str_nul_free s : nul_free s = true → c_str s = s.
Proof.
  induction s as [|c s IH]; simpl; [done|]. case_bool_decide; simpl; [done|].
  intros Hs. by rewrite IH.
Qed.

Lemma nul_free_c_str s : nul_free (c_str s) = true.
Proof. induction s as [|c s IH]; simpl; [done|]. by case_bool_decide; simpl; [|case_bool_decide]. Qed.

Lemma c_str_idemp s : c_str (c_str s) = c_str s.
Proof. apply c_str_nul_free, nul_free_c_str. Qed.

(** *** Concatenation *)

Lemma string_cons_app c s t : String c s +:+ t = String c (s +:+ t).
Proof. done. Qed.
Lemma string_nil_app t : "" +:+ t = t.
Proof. done. Qed.

Lemma substring_full s : String.substring 0 (String.length s) s = s.
Proof. induction s as [|c s IH]; [done|]. cbn. by rewrite IH. Qed.

Lemma substring_split n s :
  (n ≤ String.length s)%nat →
  s = String.substring 0 n s +:+ String.substring n (String.length s - n) s.
Proof.
  revert n. induction s as [|c s IH]; intros n Hn.
  - cbn in Hn. by replace n with 0%nat by lia.
  - destruct n as [|n].
    + rewrite Nat.sub_0_r, substring_full. done.
    + cbn in *. rewrite string_cons_app. f_equal. apply IH. lia.
Qed.

Lemma length_substring_prefix n s :
  (n ≤ String.length s)%nat → String.length (String.substring 0 n s) = n.
Proof.
  revert n. induction s as [|c s IH]; intros [|n] Hn; cbn in *; try lia. f_equal. apply IH. lia.
Qed.

Lemma string_app_nil_r s : s +:+ "" = s.
Proof. induction s as [|c s IH]; [done|]. by rewrite string_cons_app, IH. Qed.
Lemma string_app_assoc s t u : s +:+ (t +:+ u) = (s +:+ t) +:+ u.
Proof. induction s as [|c s IH]; [done|]. by rewrite !string_cons_app, IH. Qed.
Lemma string_length_app s t : String.length (s +:+ t) = (String.length s + String.length t)%nat.
Proof. induction s as [|c s IH]; [done|]. rewrite string_cons_app. cbn. by rewrite IH. Qed.

Lemma string_app_empty s t : s +:+ t = "" → s = "" ∧ t = "".
Proof. by destruct s. Qed.

Lemma string_app_inj_l p s t : p +:+ s = p +:+ t → s = t.
Proof. induction p; simpl; intros; simplify_eq; auto. Qed.

(** ** Machine integers *)

(** Conversion to the unsigned and the signed integer type of [w] bits. *)
Definition wrap_u (w : Z) (z : Z) : Z := (z mod 2 ^ w)%Z.
Definition wrap_s (w : Z) (z : Z) : Z :=
  ((z + 2 ^ (w - 1)) mod 2 ^ w - 2 ^ (w - 1))%Z.

Abbreviation u16 := (wrap_u 16).
Abbreviation u64 := (wrap_u 64).
Abbreviation i32 := (wrap_s 32).
Abbreviation i64 := (wrap_s 64).

Definition in_u (w z : Z) : Prop := (0 ≤ z < 2 ^ w)%Z.
Definition in_s (w z : Z) : Prop := (- 2 ^ (w - 1) ≤ z < 2 ^ (w - 1))%Z.

Lemma wrap_u_id w z : in_u w z → wrap_u w z = z.
Proof. unfold in_u, wrap_u. intros. by apply Z.mod_small. Qed.

Lemma wrap_s_id w z : (0 < w)%Z → in_s w z → wrap_s w z = z.
Proof.
  unfold in_s, wrap_s. intros Hw Hz. rewrite Z.mod_small; [lia|].
  replace (2 ^ w)%Z with (2 * 2 ^ (w - 1))%Z; [lia|].
  rewrite <-Z.pow_succ_r by lia. f_equal; lia.
Qed.

Lemma wrap_s_range w z : (0 < w)%Z → in_s w (wrap_s w z).
Proof.
  unfold in_s, wrap_s. intros Hw.
  assert (2 ^ w = 2 * 2 ^ (w - 1))%Z as Hp
    by (rewrite <-Z.pow_succ_r by lia; f_equal; lia).
  pose proof (Z.mod_pos_bound (z + 2 ^ (w - 1)) (2 ^ w)).
  assert (0 < 2 ^ w)%Z by (apply Z.pow_pos_nonneg; lia). lia.
Qed.

(** The cast of a row id to [sqlite3_int64] and back is the identity on [uint64_t]. *)
Lemma u64_i64 z : in_u 64 z → u64 (i64 z) = z.
Proof.
  unfold in_u, wrap_u, wrap_s. intros Hz.
  rewrite Zminus_mod_idemp_l. replace (z + 2 ^ (64 - 1) - 2 ^ (64 - 1))%Z with z by lia.
  by apply Z.mod_small.
Qed.

Lemma i64_u64 z : in_s 64 z → i64 (u64 z) = z.
Proof.
  unfold in_s, wrap_u, wrap_s. intros Hz. rewrite Zplus_mod_idemp_l.
  rewrite Z.mod_small; lia.
Qed.

(** ** Lists *)

(** [for (auto& m : l) if (p(m)) { f(m); return; }]: the first match is updated. *)
Fixpoint update_first {A} (p : A → bool) (f : A → A) (l : list A) : list A :=
  match l with
  | [] => []
  | x :: l => if p x then f x :: l else x :: update_first p f l
  end.

Section update_first.
Context {A : Type} (p : A → bool) (f : A → A).

Lemma length_update_first l : length (update_first p f l) = length l.
Proof. induction l; simpl; [done|]. case_match; simpl; auto. Qed.

Lemma update_first_none l : Forall (λ x, p x = false) l → update_first p f l = l.
Proof. induction 1 as [|x l Hx _ IH]; simpl; [done|]. by rewrite Hx, IH. Qed.

Lemma update_first_split l1 x l2 :
  Forall (λ y, p y = false) l1 → p x = true →
  update_first p f (l1 ++ x :: l2) = l1 ++ f x :: l2.
Proof.
  intros Hl Hx. induction Hl as [|y l1 Hy _ IH]; simpl; [by rewrite Hx|].
  by rewrite Hy, IH.
Qed.

Lemma update_first_fmap_eq {B} (g : A → B) l :
  (∀ x, g (f x) = g x) → g <$> update_first p f l = g <$> l.
Proof.
  intros Hg. induction l as [|x l IH]; [done|]. cbn [update_first].
  by destruct (p x); rewrite !fmap_cons, ?Hg, ?IH.
Qed.

Lemma update_first_fmap {B} (g : A → B) (p' : B → bool) (f' : B → B) l :
  (∀ x, x ∈ l → p' (g x) = p x) → (∀ x, g (f x) = f' (g x)) →
  g <$> update_first p f l = update_first p' f' (g <$> l).
Proof.
  intros Hp Hf. induction l as [|x l IH]; [done|]. rewrite fmap_cons. cbn [update_first].
  rewrite Hp by left. destruct (p x); rewrite fmap_cons, ?Hf; [done|]. f_equal. apply IH.
  intros y Hy. apply Hp. by right.
Qed.

Lemma elem_of_update_first y l :
  y ∈ update_first p f l → y ∈ l ∨ ∃ x, x ∈ l ∧ p x = true ∧ y = f x.
Proof.
  induction l as [|x l IH]; simpl; [by left|]. destruct (p x) eqn:Hp.
  - intros [->|?]%elem_of_cons; [right|left; by right].
    exists x. split; [left|done].
  - intros [->|Hy]%elem_of_cons; [left; left|].
    destruct (IH Hy) as [?|(z & ? & ? & ?)]; [left; by right|right].
    exists z. split; [by right|done].
Qed.

(** On a list where the predicate selects at most one element, updating the
    first match is the same as updating every match. *)
Lemma update_first_map_unique {K} `{EqDecision K} (k : A → K) l :
  NoDup (k <$> l) → (∀ x y, p x = true → p y = true → k x = k y) →
  update_first p f l = (λ x, if p x then f x else x) <$> l.
Proof.
  intros Hnd Hp. induction l as [|x l IH]; [done|]. cbn [update_first]. rewrite fmap_cons in *.
  apply NoDup_cons in Hnd as [Hx Hnd]. destruct (p x) eqn:Hpx.
  - f_equal. symmetry. rewrite <-(list_fmap_id l) at 2.
    apply list_fmap_ext. intros i y Hy. destruct (p y) eqn:Hpy; [|done].
    destruct Hx. rewrite (Hp x y) by done. apply list_elem_of_fmap.
    exists y. split; [done|]. by eapply list_elem_of_lookup_2.
  - f_equal. by apply IH.
Qed.
End update_first.
