(* ===== verification/Log.v ===== *)
(** * Log: [client/src/log.h]

    The line [epic_log] appends to the log file, the file it opens on its first call, and
    the terminal [open_log_terminal] starts.  The C library's clock, file system and
    command processor are the classes [LogEnv] and [Shell]; [snprintf] into a buffer of
    [n] bytes keeps at most [n - 1] characters. *)

From S2P Require Import Prelude.
Local Open Scope Z_scope.

Definition log_path : string := "/tmp/epic-client.log".

(** [std::snprintf(buf, n, "%s", s)] *)
Definition snprintf (n : nat) (s : string) : string := String.substring 0 (n - 1) s.

Lemma snprintf_fits n s : (String.length s < n)%nat → snprintf n s = s.
Proof.
  intros Hn. unfold snprintf. rewrite <-(substring_full s) at 2.
  revert n Hn. induction s as [|c s IH]; intros [|[|n]] Hn; cbn in *; try done; try lia.
  f_equal. specialize (IH (S n)). rewrite Nat.sub_succ, Nat.sub_0_r in IH. apply IH. lia.
Qed.

(** [printf("%0<w>lld", z)]: zeros go between the sign and the digits. *)
Definition pad_zeros (w : nat) (z : Z) : string :=
  let digits := pretty (Z.to_N (Z.abs z)) in
  let sign := if z <? 0 then "-" else "" in
  sign +:+ String.concat "" (replicate (w - String.length sign - String.length digits) "0") +:+ digits.

(** ** [_epic_log_path] (Windows) *)

Definition MAX_PATH : nat := 260.

(** The static buffer is filled once, from what [GetTempPathA] gives on the first call. *)
Definition _epic_log_path (tmp : string) (ready : option string) : string * option string :=
  match ready with
  | Some path => (path, ready)
  | None => let path := snprintf MAX_PATH (tmp +:+ "epic-client.log") in (path, Some path)
  end.

(** ** [epic_log] *)

(** [localtime] as hours, minutes and seconds, and whether [fopen(path, "a")] succeeds. *)
Class LogEnv := {
  localtime : Z → Z * Z * Z;
  fopen_append : string → bool;
}.

Class LogEnvLaws `{LogEnv} : Prop := {
  localtime_range t h m s : localtime t = (h, m, s) → 0 ≤ h < 24 ∧ 0 ≤ m < 60 ∧ 0 ≤ s ≤ 60;
}.

(** [static FILE* f]: not initialised yet, null, or the file's contents. *)
Inductive log_file : Type :=
  | Uninitialised (contents : string)
  | NoFile
  | Appending (contents : string).

Section log.
Context `{LogEnv}.

(** [strftime(ts, 24, "%H:%M:%S", localtime(&t))]: the text, and its length with the
    terminator against the buffer; [None] when it does not fit. *)
Definition strftime (size : nat) (t : Z) : option string :=
  let '(h, m, s) := localtime t in
  let text := pad_zeros 2 h +:+ ":" +:+ pad_zeros 2 m +:+ ":" +:+ pad_zeros 2 s in
  if (String.length text <? size)%nat then Some text else None.

(** The line for the time [now], in nanoseconds since the epoch; [None] when the buffer's
    contents are indeterminate. *)
Definition log_line (now : Z) (msg : string) : option string :=
  let t := Z.quot now (10 ^ 9) in
  let ms := Z.rem (Z.quot now (10 ^ 6)) 1000 in
  ts ← strftime 24 t;
  Some ("[" +:+ ts +:+ "." +:+ pad_zeros 3 ms +:+ "] " +:+ c_str msg +:+ String newline "").

Definition epic_log (now : Z) (msg : string) : M log_file unit := λ f,
  let f := match f with
           | Uninitialised contents => if fopen_append log_path then Appending contents else NoFile
           | _ => f
           end in
  match f with
  | Appending contents =>
    match log_line now msg with
    | Some line => (Ret tt, Appending (contents +:+ line))
    | None => (Stuck "epic_log: indeterminate time stamp", f)
    end
  | _ => (Ret tt, f)
  end.
End log.

(** *** The lines *)

Lemma pad_zeros_length w z :
  (w = 2%nat ∧ 0 ≤ z < 100) ∨ (w = 3%nat ∧ 0 ≤ z < 1000) → String.length (pad_zeros w z) = w.
Proof.
  assert (∀ w n z, forallb (λ k, String.length (pad_zeros w (Z.of_nat k)) =? w)%nat (seq 0 n) = true →
    0 ≤ z < Z.of_nat n → String.length (pad_zeros w z) = w) as Hall.
  { intros w0 n z0 Hf Hz. rewrite forallb_forall in Hf.
    specialize (Hf (Z.to_nat z0) ltac:(apply in_seq; lia)). rewrite Z2Nat.id in Hf by lia.
    by apply Nat.eqb_eq. }
  intros [[-> Hz]|[-> Hz]].
  - apply (Hall 2%nat 100%nat); [by vm_compute|lia].
  - apply (Hall 3%nat 1000%nat); [by vm_compute|lia].
Qed.

Lemma length_append s t : String.length (s +:+ t) = (String.length s + String.length t)%nat.
Proof. induction s as [|c s IH]; [done|]. rewrite string_cons_app. cbn. by rewrite IH. Qed.

(** The time stamp is fifteen characters: the buffer is large enough. *)
Lemma log_line_shape `{LogEnv} `{!LogEnvLaws} now msg :
  0 ≤ now → ∃ stamp, String.length stamp = 15%nat ∧
    log_line now msg = Some (stamp +:+ c_str msg +:+ String newline "").
Proof.
  intros Hn. unfold log_line, strftime.
  destruct (localtime _) as [[h m] s] eqn:Ht. apply localtime_range in Ht as (Hh & Hm & Hs).
  pose proof (pad_zeros_length 2 h ltac:(left; lia)) as Lh.
  pose proof (pad_zeros_length 2 m ltac:(left; lia)) as Lm.
  pose proof (pad_zeros_length 2 s ltac:(left; lia)) as Ls.
  set (ms := Z.rem _ 1000).
  assert (0 ≤ ms < 1000) as Hms by (apply Z.rem_bound_pos; [apply Z.quot_pos; lia|lia]).
  pose proof (pad_zeros_length 3 ms ltac:(right; lia)) as Lms.
  rewrite !length_append, Lh, Lm, Ls. cbn [String.length Nat.add Nat.ltb Nat.leb mbind option_bind].
  exists ("[" +:+ (pad_zeros 2 h +:+ ":" +:+ pad_zeros 2 m +:+ ":" +:+ pad_zeros 2 s) +:+ "." +:+
    pad_zeros 3 ms +:+ "] ").
  split; [by rewrite !length_append, Lh, Lm, Ls, Lms|].
  f_equal. by rewrite !string_app_assoc.
Qed.

(** Messages logged one after the other: the file grows by one line for each, in order. *)
Theorem log_lines_appended `{LogEnv} `{!LogEnvLaws} (entries : list (Z * string)) contents :
  Forall (λ e, 0 ≤ e.1) entries →
  ∃ lines, for_each entries (λ e, epic_log e.1 e.2) (Appending contents)
    = (Ret tt, Appending (foldl String.append contents lines)) ∧
    Forall2 (λ e line, ∃ stamp, String.length stamp = 15%nat ∧
      line = stamp +:+ c_str e.2 +:+ String newline "") entries lines.
Proof.
  intros He. revert contents. induction He as [|[now msg] es Hn _ IH]; intros contents.
  { exists []. by split. }
  cbn in Hn. destruct (log_line_shape now msg Hn) as (stamp & Hl & Hline).
  destruct (IH (contents +:+ (stamp +:+ c_str msg +:+ String newline ""))) as (lines & Hr & Hf).
  eexists (_ :: lines). cbn [for_each foldl]. unfold mbind, M_bind, epic_log at 1. cbn [fst snd].
  rewrite Hline. split; [exact Hr|]. constructor; [by exists stamp|done].
Qed.

(** ** [open_log_terminal] (POSIX; a no-op on Windows) *)

(** [fopen] and [fclose] on the log file, and [std::system]. *)
Class Shell := {
  shell : Type;
  touch : shell → string → shell;
  system : shell → string → shell * Z;
}.

(** The terminals tried, with their arguments. *)
Definition terms : list (string * string) :=
  [("xterm", "-title 'EPIC Logs' -e 'tail -f /tmp/epic-client.log'");
   ("gnome-terminal", "--title 'EPIC Logs' -- bash -c 'tail -f /tmp/epic-client.log'");
   ("alacritty", "--title 'EPIC Logs' -e bash -c 'tail -f /tmp/epic-client.log'");
   ("kitty", "--title 'EPIC Logs' bash -c 'tail -f /tmp/epic-client.log'");
   ("konsole", "-e bash -c 'tail -f /tmp/epic-client.log'");
   ("xfce4-terminal", "-e 'tail -f /tmp/epic-client.log'")].

Definition which_command (bin : string) : string := "which " +:+ bin +:+ " >/dev/null 2>&1".
Definition launch_command (bin args : string) : string := bin +:+ " " +:+ args +:+ " &".

(** The state of the machine and the commands run on it. *)
Record Terminal `{Shell} : Type := mkTerminal { machine : shell; commands : list string }.
Arguments mkTerminal {_} _ _.

Section terminal.
Context `{Shell}.

Definition run_system (cmd : string) : M Terminal Z := λ t,
  let '(s, rc) := system (machine t) cmd in (Ret rc, mkTerminal s (commands t ++ [cmd])).

Fixpoint try_terms (ts : list (string * string)) : M Terminal unit :=
  match ts with
  | [] => mret tt
  | (bin, args) :: ts =>
    rc ← run_system (snprintf 64 (which_command bin));
    if rc =? 0 then run_system (snprintf 256 (launch_command bin args)) ;; mret tt
    else try_terms ts
  end.

Definition open_log_terminal : M Terminal unit :=
  modify (λ t, mkTerminal (touch (machine t) log_path) (commands t)) ;;
  try_terms terms.

(** ** Facts *)

(** Every command fits its buffer. *)
Lemma commands_fit :
  Forall (λ t, snprintf 64 (which_command t.1) = which_command t.1 ∧
    snprintf 256 (launch_command t.1 t.2) = launch_command t.1 t.2) terms.
Proof.
  apply Forall_forall. intros t Ht.
  assert (forallb (λ t, (String.length (which_command t.1) <? 64)%nat &&
    (String.length (launch_command t.1 t.2) <? 256)%nat) terms = true) as Hall by by vm_compute.
  rewrite forallb_forall in Hall. apply list_elem_of_In, Hall, andb_prop in Ht as [H1 H2].
  split; apply snprintf_fits; by apply Nat.ltb_lt.
Qed.

(** The exit codes of the commands of a run that starts on machine [s]. *)
Fixpoint answers (s : shell) (cmds : list string) : list Z :=
  match cmds with
  | [] => []
  | c :: cmds => (system s c).2 :: answers (system s c).1 cmds
  end.

(** The first terminal of [ts] that is installed is launched, after the ones before it
    were looked for in vain; without any, all are looked for. *)
Definition launches_first (ts : list (string * string)) (s : shell) (cmds : list string) : Prop :=
  (∃ before bin args after, ts = before ++ (bin, args) :: after ∧
     cmds = (which_command <$> before.*1) ++ [which_command bin; launch_command bin args] ∧
     Forall (λ rc, rc ≠ 0) (answers s (which_command <$> before.*1)) ∧
     last (answers s (which_command <$> before.*1 ++ [bin])) = Some 0) ∨
  (cmds = which_command <$> ts.*1 ∧ Forall (λ rc, rc ≠ 0) (answers s cmds)).

Lemma try_terms_launches ts t :
  Forall (λ t, snprintf 64 (which_command t.1) = which_command t.1 ∧
    snprintf 256 (launch_command t.1 t.2) = launch_command t.1 t.2) ts →
  ∃ cmds s', try_terms ts t = (Ret tt, mkTerminal s' (commands t ++ cmds)) ∧
    launches_first ts (machine t) cmds.
Proof.
  intros Hfit. revert t. induction Hfit as [|[bin args] ts [F1 F2] _ IH]; intros [s cmds0]; cbn in *.
  { exists [], s. rewrite app_nil_r. split; [done|]. right. split; [done|constructor]. }
  unfold mbind, M_bind, run_system at 1. cbn [machine commands]. rewrite F1.
  destruct (system s (which_command bin)) as [s1 rc] eqn:Hsys. cbn.
  destruct (Z.eqb_spec rc 0) as [->|Hrc].
  - unfold run_system. cbn. rewrite F2. destruct (system s1 (launch_command bin args)) as [s2 rc2].
    exists [which_command bin; launch_command bin args], s2. rewrite <-app_assoc. split; [done|].
    left. exists [], bin, args, ts. split; [done|]. split; [done|]. split; [constructor|].
    cbn. by rewrite Hsys.
  - destruct (IH (mkTerminal s1 (cmds0 ++ [which_command bin]))) as (cmds & s' & Hr & Hspec).
    exists (which_command bin :: cmds), s'. cbn [commands] in Hr. rewrite <-app_assoc in Hr.
    split; [exact Hr|]. cbn in Hspec.
    destruct Hspec as [(before & b & a & after & -> & -> & Hb & Hl)|(-> & Hall)]; [left|right].
    + exists ((bin, args) :: before), b, a, after. split; [done|]. split; [done|]. cbn. rewrite Hsys.
      split; [by constructor|]. cbn. rewrite last_cons, Hl. done.
    + split; [done|]. cbn. rewrite Hsys. by constructor.
Qed.

(** [--log-terminal] opens at most one terminal, the first of the list that is
    installed, and runs no other command than the complete text of the look-ups before it
    and of its launch: no buffer cuts a command off. *)
Theorem open_log_terminal_launches t :
  ∃ cmds s', open_log_terminal t = (Ret tt, mkTerminal s' (commands t ++ cmds)) ∧
    launches_first terms (touch (machine t) log_path) cmds.
Proof.
  destruct (try_terms_launches terms (mkTerminal (touch (machine t) log_path) (commands t))
    commands_fit) as (cmds & s' & Hr & Hs). by exists cmds, s'.
Qed.
End terminal.
