(* ===== verification/Json.v ===== *)
(** * Json: the interface of nlohmann::json that the client uses

    The JSON library is third-party code: its values and functions are the
    operations of a class, and what the client relies on (the documented
    behaviour of those functions) is a second class of laws.  [RefJson] gives
    an instance of both, so every theorem that assumes the laws can be applied. *)

From S2P Require Import Prelude.

(** [json_of_object] is the braced list of key/value pairs, [json_value_*] is
    [value(key, default)], [json_at] is [at(key)], [json_get_*] is [get<T>()]. *)
Class NlohmannJson := {
  json : Type;
  json_null : json;
  json_of_string : string → json;
  json_of_int : Z → json;
  json_of_array : list json → json;
  json_of_object : list (string * json) → json;
  json_is_null : json → bool;
  json_empty : json → bool;
  json_contains : json → string → bool;
  json_at : json → string → result json;
  json_get_string : json → result string;
  json_get_int : json → result Z;
  json_value_string : json → string → string → result string;
  json_value_int : json → string → Z → result Z;
  json_value : json → string → json → result json;
  json_parse : string → result json;
  json_dump : json → result string;
}.

(** A value whose text form parses back to it (a non-finite number does not). *)
Definition roundtrips `{NlohmannJson} (j : json) : Prop :=
  ∀ s, json_dump j = Ok s → json_parse s = Ok j.

(** The values of a parsed text, at any depth. *)
Inductive parsed `{NlohmannJson} : json → Prop :=
  | parsed_text s j : json_parse s = Ok j → parsed j
  | parsed_member j k v : parsed j → json_at j k = Ok v → parsed v.

(** The documented behaviour the client relies on. *)
Class NlohmannJsonLaws `{J : NlohmannJson} : Prop := {
  is_null_null : json_is_null json_null = true;
  is_null_object kvs : json_is_null (json_of_object kvs) = false;
  is_null_string s : json_is_null (json_of_string s) = false;

  contains_object kvs k :
    json_contains (json_of_object kvs) k = bool_decide (k ∈ kvs.*1);
  at_object kvs k v :
    NoDup (kvs.*1) → (k, v) ∈ kvs → json_at (json_of_object kvs) k = Ok v;
  at_contains j k v : json_at j k = Ok v → json_contains j k = true;
  contains_at j k : json_contains j k = true → ∃ v, json_at j k = Ok v;

  get_string_string s : json_get_string (json_of_string s) = Ok s;
  get_int_int z : in_s 32 z → json_get_int (json_of_int z) = Ok z;

  value_string_present j k d :
    json_contains j k = true →
    json_value_string j k d = (v ← json_at j k; json_get_string v);
  value_string_absent kvs k d :
    k ∉ kvs.*1 → json_value_string (json_of_object kvs) k d = Ok d;
  value_int_present j k d :
    json_contains j k = true →
    json_value_int j k d = (v ← json_at j k; json_get_int v);
  value_int_absent kvs k d :
    k ∉ kvs.*1 → json_value_int (json_of_object kvs) k d = Ok d;
  value_present j k d :
    json_contains j k = true → json_value j k d = json_at j k;
  value_absent j k d v :
    json_contains j k = false → json_value j k d = Ok v → v = d;

  dump_ascii s : is_ascii s = true → ∃ t, json_dump (json_of_string s) = Ok t;
  dump_null : ∃ s, json_dump json_null = Ok s;
  dump_int z : ∃ s, json_dump (json_of_int z) = Ok s;
  dump_object_ok kvs :
    (∀ k v, (k, v) ∈ kvs →
       (∃ s, json_dump (json_of_string k) = Ok s) ∧ ∃ s, json_dump v = Ok s) →
    ∃ s, json_dump (json_of_object kvs) = Ok s;
  dump_object_brace kvs s :
    json_dump (json_of_object kvs) = Ok s → ∃ t, s = String "{" t;
  (** without indentation the text is a single line: control characters are escaped *)
  dump_one_line j s : json_dump j = Ok s → one_line s = true;
  dump_nul_free j s : json_dump j = Ok s → nul_free s = true;

  roundtrips_null : roundtrips json_null;
  roundtrips_string s : roundtrips (json_of_string s);
  roundtrips_int z : in_s 32 z → roundtrips (json_of_int z);
  roundtrips_object kvs :
    Forall roundtrips (kvs.*2) → roundtrips (json_of_object kvs);
  (** what was read from a text can be written again: it has no invalid UTF-8 and no
      non-finite number *)
  parsed_roundtrips j : parsed j → roundtrips j ∧ ∃ s, json_dump j = Ok s;
  parse_empty : ∃ e, json_parse "" = Err e;
  (** a text form is UTF-8, and so are two UTF-8 texts one after the other *)
  dump_text j s : json_dump j = Ok s → ∃ t, json_dump (json_of_string s) = Ok t;
  dump_app s1 s2 t1 t2 :
    json_dump (json_of_string s1) = Ok t1 → json_dump (json_of_string s2) = Ok t2 →
    ∃ t, json_dump (json_of_string (s1 +:+ s2)) = Ok t;
}.

Create HintDb json.
#[export] Hint Resolve roundtrips_null roundtrips_string roundtrips_int roundtrips_object : json.

(** Text nlohmann can serialise: [dump] rejects strings that are not UTF-8. *)
Definition dumpable `{NlohmannJson} (s : string) : Prop :=
  ∃ t, json_dump (json_of_string s) = Ok t.

Section derived.
Context `{J : NlohmannJson} `{!NlohmannJsonLaws}.

(** Reading back a member of an object just built. *)
Lemma value_string_object kvs k s d :
  NoDup (kvs.*1) → (k, json_of_string s) ∈ kvs →
  json_value_string (json_of_object kvs) k d = Ok s.
Proof.
  intros Hnd Hin. rewrite value_string_present.
  - rewrite (at_object kvs k _ Hnd Hin). cbn. apply get_string_string.
  - rewrite contains_object. apply bool_decide_eq_true.
    apply list_elem_of_fmap. by exists (k, json_of_string s).
Qed.

Lemma value_int_object kvs k z d :
  NoDup (kvs.*1) → (k, json_of_int z) ∈ kvs → in_s 32 z →
  json_value_int (json_of_object kvs) k d = Ok z.
Proof.
  intros Hnd Hin Hz. rewrite value_int_present.
  - rewrite (at_object kvs k _ Hnd Hin). cbn. by apply get_int_int.
  - rewrite contains_object. apply bool_decide_eq_true.
    apply list_elem_of_fmap. by exists (k, json_of_int z).
Qed.

Lemma parse_dump_object kvs s :
  Forall roundtrips (kvs.*2) → json_dump (json_of_object kvs) = Ok s →
  json_parse s = Ok (json_of_object kvs).
Proof. intros Hf Hd. by apply (roundtrips_object kvs Hf). Qed.

Lemma dumpable_app s1 s2 : dumpable s1 → dumpable s2 → dumpable (s1 +:+ s2).
Proof. intros [t1 H1] [t2 H2]. by eapply dump_app. Qed.
End derived.

(** Side conditions on literal objects: distinct keys, membership of a key. *)
Ltac json_keys :=
  cbn; first
    [ by apply (bool_decide_unpack _)
    | solve [repeat first [by left | right]] ].
