(* ===== verification/RefJson.v ===== *)
(** * RefJson: a reference instance of the JSON interface

    Values are the generic trees of stdpp: a leaf is a string or an integer, a
    node labelled 0, 1 or 2 is null, an array or an object, whose members are
    nodes labelled 3 holding a key and a value.  The text form is a type marker
    followed by the words of the tree in postfix order, each closed by a semicolon,
    with the four characters that must not occur in a word escaped; it is not JSON
    syntax, which the laws of the interface do not mention.  The instance shows that
    the laws are satisfiable and makes the definitions of the client computable. *)

From S2P Require Import Prelude Json.

Abbreviation tree := (gen_tree (string + Z)).

Definition t_null : tree := GenNode 0 [].
Definition t_str (s : string) : tree := GenLeaf (inl s).
Definition t_int (z : Z) : tree := GenLeaf (inr z).
Definition t_arr (l : list tree) : tree := GenNode 1 l.
Definition t_member (kv : string * tree) : tree := GenNode 3 [t_str kv.1; kv.2].
Definition t_obj (kvs : list (string * tree)) : tree := GenNode 2 (t_member <$> kvs).

Fixpoint t_find (k : string) (ms : list tree) : option tree :=
  match ms with
  | GenNode 3 [GenLeaf (inl k'); v] :: ms =>
    if bool_decide (k = k') then Some v else t_find k ms
  | _ :: ms => t_find k ms
  | [] => None
  end.

Definition t_lookup (j : tree) (k : string) : option tree :=
  match j with GenNode 2 ms => t_find k ms | _ => None end.

Definition t_is_obj (j : tree) : bool :=
  match j with GenNode 2 _ => true | _ => false end.

Definition t_at (j : tree) (k : string) : result tree :=
  match t_lookup j k with
  | Some v => Ok v
  | None => if t_is_obj j then Err "[json.exception.out_of_range.403]"
            else Err "[json.exception.type_error.304]"
  end.

Definition t_get_string (j : tree) : result string :=
  match j with
  | GenLeaf (inl s) => Ok s
  | _ => Err "[json.exception.type_error.302]"
  end.

Definition t_get_int (j : tree) : result Z :=
  match j with
  | GenLeaf (inr z) => Ok (i32 z)
  | _ => Err "[json.exception.type_error.302]"
  end.

Definition t_value {A} (conv : tree → result A) (j : tree) (k : string) (d : A) : result A :=
  match t_lookup j k with
  | Some v => conv v
  | None => if t_is_obj j then Ok d else Err "[json.exception.type_error.306]"
  end.

Fixpoint bits (p : positive) : string :=
  match p with
  | xH => EmptyString
  | xO p => String "0" (bits p)
  | xI p => String "1" (bits p)
  end.

Fixpoint unbits (s : string) : positive :=
  match s with
  | EmptyString => xH
  | String "0" s => xO (unbits s)
  | String _ s => xI (unbits s)
  end.

(** A word, a semicolon and what follows; and the words of a text. *)
Fixpoint escape (s rest : string) : string :=
  match s with
  | EmptyString => String ";" rest
  | String c s =>
    if bool_decide (c = ";"%char) then String "\" (String ":" (escape s rest))
    else if bool_decide (c = "\"%char) then String "\" (String "\" (escape s rest))
    else if bool_decide (c = newline) then String "\" (String "n" (escape s rest))
    else if bool_decide (c = Ascii.zero) then String "\" (String "0" (escape s rest))
    else String c (escape s rest)
  end.

Definition unescape (c : ascii) : ascii :=
  if bool_decide (c = ":"%char) then ";"%char else if bool_decide (c = "n"%char) then newline
  else if bool_decide (c = "0"%char) then Ascii.zero else c.

Definition push_char (c : ascii) (ws : list string) : list string :=
  match ws with w :: ws => String c w :: ws | [] => [String c EmptyString] end.

Fixpoint words (s : string) : list string :=
  match s with
  | EmptyString => []
  | String c s =>
    if bool_decide (c = ";"%char) then EmptyString :: words s
    else if bool_decide (c = "\"%char)
    then match s with String c s => push_char (unescape c) (words s) | EmptyString => [] end
    else push_char c (words s)
  end.

(** What a word stands for: an inner node, a string or an integer. *)
Abbreviation token := (nat * nat + (string + Z))%type.

Definition token_word (t : token) : string :=
  match t with
  | inl node => String "n" (bits (encode node))
  | inr (inl s) => String "s" s
  | inr (inr z) => String "i" (bits (encode z))
  end.

Definition word_token (w : string) : option token :=
  match w with
  | String "n" b => inl <$> decode (unbits b)
  | String "s" s => Some (inr (inl s))
  | String "i" b => (λ z, inr (inr z)) <$> decode (unbits b)
  | _ => None
  end.

Definition escape_all (ws : list string) : string := foldr escape EmptyString ws.

Definition t_dump (j : tree) : string :=
  String (if t_is_obj j then "{" else "_")%char (escape_all (token_word <$> gen_tree_to_list j)).

Definition t_parse (s : string) : result tree :=
  match s with
  | String _ b =>
    match ts ← mapM word_token (words b); gen_tree_of_list [] ts with
    | Some j => Ok j
    | None => Err "[json.exception.parse_error.101]"
    end
  | EmptyString => Err "[json.exception.parse_error.101]"
  end.

#[global] Instance ref_json : NlohmannJson := {|
  json := tree;
  json_null := t_null;
  json_of_string := t_str;
  json_of_int := t_int;
  json_of_array := t_arr;
  json_of_object := t_obj;
  json_is_null j := match j with GenNode 0 [] => true | _ => false end;
  json_empty j := match j with GenLeaf _ => false | GenNode _ l => bool_decide (l = []) end;
  json_contains j k := bool_decide (is_Some (t_lookup j k));
  json_at := t_at;
  json_get_string := t_get_string;
  json_get_int := t_get_int;
  json_value_string := t_value t_get_string;
  json_value_int := t_value t_get_int;
  json_value := t_value Ok;
  json_parse := t_parse;
  json_dump j := Ok (t_dump j);
|}.

Lemma unbits_bits p : unbits (bits p) = p.
Proof. induction p; simpl; congruence. Qed.

Lemma words_escape w t : words (escape w t) = w :: words t.
Proof.
  induction w as [|c w IH]; [done|]. cbn [escape].
  repeat (case_bool_decide; [subst; cbn; by rewrite IH|]). cbn [words].
  rewrite !bool_decide_eq_false_2 by done. by rewrite IH.
Qed.

Lemma words_escape_all ws : words (escape_all ws) = ws.
Proof. induction ws as [|w ws IH]; [done|]. unfold escape_all in *. cbn. by rewrite words_escape, IH. Qed.

Lemma word_token_word t : word_token (token_word t) = Some t.
Proof. destruct t as [n|[s|z]]; cbn; rewrite ?unbits_bits, ?decode_encode; done. Qed.

Lemma t_parse_dump j : t_parse (t_dump j) = Ok j.
Proof.
  unfold t_parse, t_dump. rewrite words_escape_all.
  assert (mapM word_token (token_word <$> gen_tree_to_list j) = Some (gen_tree_to_list j)) as ->.
  { apply mapM_Some, Forall2_fmap_l, Forall_Forall2_diag, Forall_forall. intros t _. apply word_token_word. }
  cbn. rewrite <-(app_nil_r (gen_tree_to_list j)). by rewrite gen_tree_of_to_list.
Qed.

Lemma escape_one_line w t : one_line (escape w t) = one_line t.
Proof.
  induction w as [|c w IH]; [done|]. cbn [escape].
  repeat (case_bool_decide; [subst; cbn; exact IH|]). cbn [one_line]. by rewrite bool_decide_eq_false_2.
Qed.

Lemma escape_nul_free w t : nul_free (escape w t) = nul_free t.
Proof.
  induction w as [|c w IH]; [done|]. cbn [escape].
  repeat (case_bool_decide; [subst; cbn; exact IH|]). cbn [nul_free]. by rewrite bool_decide_eq_false_2.
Qed.

Lemma dump_plain j : one_line (t_dump j) = true ∧ nul_free (t_dump j) = true.
Proof.
  unfold t_dump, escape_all. cbn [one_line nul_free].
  assert (∀ ws, one_line (foldr escape EmptyString ws) = true ∧ nul_free (foldr escape EmptyString ws) = true)
    as Hws by (induction ws; cbn; by rewrite ?escape_one_line, ?escape_nul_free).
  destruct (Hws (token_word <$> gen_tree_to_list j)) as [-> ->]. by destruct (t_is_obj j).
Qed.

Lemma t_find_members k kvs : is_Some (t_find k (t_member <$> kvs)) ↔ k ∈ kvs.*1.
Proof.
  induction kvs as [|[k' v] kvs IH]; simpl.
  - split; [by intros []|]. set_solver.
  - case_bool_decide as Hk; [subst|].
    + split; [set_solver|by eexists].
    + rewrite IH. set_solver.
Qed.

Lemma t_find_member k v kvs :
  NoDup (kvs.*1) → (k, v) ∈ kvs → t_find k (t_member <$> kvs) = Some v.
Proof.
  induction kvs as [|[k' v'] kvs IH]; intros Hnd Hin; [set_solver|].
  rewrite fmap_cons in Hnd. apply NoDup_cons in Hnd as [Hk Hnd]. cbn.
  apply elem_of_cons in Hin as [[= <- <-]|Hin]; [by case_bool_decide|].
  case_bool_decide as Heq; [|by apply IH]. subst k'. destruct Hk.
  apply list_elem_of_fmap. by exists (k, v).
Qed.

Lemma t_value_present {A} (conv : tree → result A) j k d :
  is_Some (t_lookup j k) → t_value conv j k d = (v ← t_at j k; conv v).
Proof. intros [v Hv]. unfold t_value, t_at. by rewrite Hv. Qed.

Lemma t_value_absent {A} (conv : tree → result A) kvs k d :
  k ∉ kvs.*1 → t_value conv (t_obj kvs) k d = Ok d.
Proof.
  intros Hk. unfold t_value. cbn.
  destruct (t_find k _) eqn:E; [|done]. destruct Hk. apply t_find_members. by eexists.
Qed.

#[global] Instance ref_json_laws : NlohmannJsonLaws (J := ref_json).
Proof.
  split; cbn.
  - done.
  - done.
  - done.
  - intros kvs k. apply bool_decide_ext, t_find_members.
  - intros kvs k v Hnd Hin. unfold t_at. cbn. by rewrite (t_find_member k v).
  - intros j k v. unfold t_at. intros H. apply bool_decide_eq_true.
    destruct (t_lookup j k); [by eexists|by destruct (t_is_obj j)].
  - intros j k [v Hv]%bool_decide_eq_true. unfold t_at. rewrite Hv. by exists v.
  - done.
  - intros z Hz. by rewrite wrap_s_id.
  - intros j k d H%bool_decide_eq_true. by apply t_value_present.
  - intros. by apply t_value_absent.
  - intros j k d H%bool_decide_eq_true. by apply t_value_present.
  - intros. by apply t_value_absent.
  - intros j k d H%bool_decide_eq_true. rewrite t_value_present by done.
    by destruct (t_at j k).
  - intros j k d v H%bool_decide_eq_false. unfold t_value.
    destruct (t_lookup j k); [by destruct H|]. destruct (t_is_obj j); congruence.
  - eauto.
  - eauto.
  - eauto.
  - eauto.
  - intros kvs s [= <-]. by eexists.
  - intros j s [= <-]. apply dump_plain.
  - intros j s [= <-]. apply dump_plain.
  - intros s [= <-]. apply t_parse_dump.
  - intros s t [= <-]. apply t_parse_dump.
  - intros z _ t [= <-]. apply t_parse_dump.
  - intros kvs _ s [= <-]. apply t_parse_dump.
  - intros j _. split; [intros t [= <-]; apply t_parse_dump|eauto].
  - eauto.
  - eauto.
  - eauto.
Qed.
