(* ===== verification/Message.v ===== *)
(** * Message: the data model of [client/src/messaging/Message.h]

    The message record kept in memory and in the local database, its type tag
    and the edit window. *)

From S2P Require Import Prelude.
Local Open Scope Z_scope.

(** [enum class MessageType].  Its underlying type is [int], and the program
    casts integers that arrive from a peer or from the database into it without
    a range check, so a value need not be one of the enumerators. *)
Inductive MessageType : Type :=
| Standard | Edit | Delete | Forward | ReadReceipt | DeliveryReceipt
| TamperWarning | Reply
| Unnamed (z : Z).

#[global] Instance MessageType_eq_dec : EqDecision MessageType.
Proof. solve_decision. Defined.

(** [static_cast<int>(type)] *)
Definition int_of_type (t : MessageType) : Z :=
  match t with
  | Standard => 0 | Edit => 1 | Delete => 2 | Forward => 3 | ReadReceipt => 4
  | DeliveryReceipt => 5 | TamperWarning => 6 | Reply => 7
  | Unnamed z => z
  end.

(** [static_cast<MessageType>(z)] *)
Definition type_of_int (z : Z) : MessageType :=
  match z with
  | 0 => Standard | 1 => Edit | 2 => Delete | 3 => Forward | 4 => ReadReceipt
  | 5 => DeliveryReceipt | 6 => TamperWarning | 7 => Reply
  | _ => Unnamed z
  end.

(** [Unnamed] is only used for the values that have no enumerator. *)
Definition type_wf (t : MessageType) : Prop :=
  in_s 32 (int_of_type t) ∧
  match t with Unnamed z => ¬ (0 ≤ z ≤ 7) | _ => True end.

(** [struct Message] *)
Record Message : Type := mkMessage {
  msg_id : Z;
  msg_peer : string;
  msg_sender : string;
  msg_recipient : string;
  msg_timestamp_ms : Z;
  msg_type : MessageType;
  msg_body : string;
  msg_edited : bool;
  msg_deleted : bool;
  msg_target_id : option Z;
  msg_target_mid : string;
  msg_wire_ciphertext : string;
  msg_mid : string;
}.

#[global] Instance Message_eq_dec : EqDecision Message.
Proof. solve_decision. Defined.

(** [Message m;] *)
Definition default_message : Message :=
  mkMessage 0 "" "" "" 0 Standard "" false false None "" "" "".

Definition set_body (b : string) (m : Message) : Message :=
  mkMessage (msg_id m) (msg_peer m) (msg_sender m) (msg_recipient m) (msg_timestamp_ms m)
    (msg_type m) b (msg_edited m) (msg_deleted m) (msg_target_id m) (msg_target_mid m)
    (msg_wire_ciphertext m) (msg_mid m).

Definition set_id (i : Z) (m : Message) : Message :=
  mkMessage i (msg_peer m) (msg_sender m) (msg_recipient m) (msg_timestamp_ms m)
    (msg_type m) (msg_body m) (msg_edited m) (msg_deleted m) (msg_target_id m)
    (msg_target_mid m) (msg_wire_ciphertext m) (msg_mid m).

(** [m.body = new_body; m.edited = true;] *)
Definition edit_message (b : string) (m : Message) : Message :=
  mkMessage (msg_id m) (msg_peer m) (msg_sender m) (msg_recipient m) (msg_timestamp_ms m)
    (msg_type m) b true (msg_deleted m) (msg_target_id m) (msg_target_mid m)
    (msg_wire_ciphertext m) (msg_mid m).

(** [m.deleted = true; m.body.clear();] *)
Definition delete_message_in_place (m : Message) : Message :=
  mkMessage (msg_id m) (msg_peer m) (msg_sender m) (msg_recipient m) (msg_timestamp_ms m)
    (msg_type m) "" (msg_edited m) true (msg_target_id m) (msg_target_mid m)
    (msg_wire_ciphertext m) (msg_mid m).

(** ** The edit window *)

Definition EDIT_WINDOW_MS : Z := 10 * 60 * 1000.

(** Subtraction of two [int64_t]: [None] is signed overflow, undefined in C++. *)
Definition sub_int64 (a b : Z) : option Z :=
  if bool_decide (in_s 64 (a - b)) then Some (a - b) else None.

(** [is_editable]: the subtraction is only evaluated when the guard holds. *)
Definition is_editable (message_timestamp_ms now_ms : Z) : option bool :=
  if now_ms >=? message_timestamp_ms then
    delta ← sub_int64 now_ms message_timestamp_ms; Some (delta <? EDIT_WINDOW_MS)
  else Some false.

(** ** Properties *)

Lemma type_of_int_of_type t : type_wf t → type_of_int (int_of_type t) = t.
Proof.
  destruct t as [| | | | | | | |z]; try done. intros [_ Hz]. cbn in *.
  unfold type_of_int. destruct z as [|p|p]; [lia| |done].
  repeat (destruct p as [p|p|]; try done; try lia).
Qed.

Lemma int_of_type_of_int z : int_of_type (type_of_int z) = z.
Proof.
  unfold type_of_int. destruct z as [|p|p]; try done.
  repeat (destruct p as [p|p|]; try done).
Qed.

Lemma type_of_int_wf z : in_s 32 z → type_wf (type_of_int z).
Proof.
  intros Hz. split; [by rewrite int_of_type_of_int|].
  unfold type_of_int. destruct z as [|p|p]; try done; [|lia].
  repeat (destruct p as [p|p|]; try done; try lia).
Qed.

Lemma set_body_set_body b b' m : set_body b (set_body b' m) = set_body b m.
Proof. done. Qed.

(** A message can be edited exactly during the ten minutes after its
    timestamp, and on non-negative [int64_t] clocks the window test never
    overflows. *)
Lemma is_editable_window ts now :
  0 ≤ ts < 2 ^ 63 → 0 ≤ now < 2 ^ 63 →
  is_editable ts now = Some (bool_decide (ts ≤ now < ts + EDIT_WINDOW_MS)).
Proof.
  intros Hts Hnow. unfold is_editable, sub_int64, EDIT_WINDOW_MS.
  rewrite Z.geb_leb. destruct (Z.leb_spec ts now).
  - rewrite bool_decide_true by (unfold in_s; cbn; lia). cbn. f_equal.
    destruct (Z.ltb_spec (now - ts) (10 * 60 * 1000)); symmetry;
      [apply bool_decide_true|apply bool_decide_false]; lia.
  - rewrite bool_decide_false by lia. done.
Qed.
