(* ===== verification/Conversation.v ===== *)
(** * Conversation: [client/src/messaging/Conversation.{h,cpp}]

    The messages exchanged with one peer and the cryptographic state of the
    session.  Every method is a pure function on the record. *)

From S2P Require Import Prelude Message.

Record Conversation : Type := mkConversation {
  peer_ : string;
  messages_ : list Message;
  ratchet_state_ : string;
  associated_data_ : string;
  pinned_ik_pub_ : string;
}.

#[global] Instance Conversation_eq_dec : EqDecision Conversation.
Proof. solve_decision. Defined.

(** [Conversation::Conversation] *)
Definition new_conversation (peer_username : string) : Conversation :=
  mkConversation peer_username [] "" "" "".

Definition set_messages (ms : list Message) (c : Conversation) : Conversation :=
  mkConversation (peer_ c) ms (ratchet_state_ c) (associated_data_ c) (pinned_ik_pub_ c).

Definition add_message (msg : Message) (c : Conversation) : Conversation :=
  set_messages (messages_ c ++ [msg]) c.

Definition has_id (id : Z) (m : Message) : bool := bool_decide (msg_id m = id).
Definition has_mid (mid : string) (m : Message) : bool := bool_decide (msg_mid m = mid).

Definition update_message_body (id : Z) (new_body : string) (c : Conversation) : Conversation :=
  set_messages (update_first (has_id id) (edit_message new_body) (messages_ c)) c.

Definition update_message_body_by_mid (mid new_body : string) (c : Conversation) : Conversation :=
  set_messages (update_first (has_mid mid) (edit_message new_body) (messages_ c)) c.

Definition mark_message_deleted (id : Z) (c : Conversation) : Conversation :=
  set_messages (update_first (has_id id) delete_message_in_place (messages_ c)) c.

Definition mark_message_deleted_by_mid (mid : string) (c : Conversation) : Conversation :=
  set_messages (update_first (has_mid mid) delete_message_in_place (messages_ c)) c.

(** erase-remove: every message with the id goes. *)
Definition remove_message (id : Z) (c : Conversation) : Conversation :=
  set_messages (filter (λ m, has_id id m = false) (messages_ c)) c.

Fixpoint first_mid (id : Z) (ms : list Message) : string :=
  match ms with
  | [] => ""
  | m :: ms => if has_id id m then msg_mid m else first_mid id ms
  end.

Definition get_message_mid (id : Z) (c : Conversation) : string := first_mid id (messages_ c).

Definition set_ratchet_state (state : string) (c : Conversation) : Conversation :=
  mkConversation (peer_ c) (messages_ c) state (associated_data_ c) (pinned_ik_pub_ c).

Definition set_associated_data (ad : string) (c : Conversation) : Conversation :=
  mkConversation (peer_ c) (messages_ c) (ratchet_state_ c) ad (pinned_ik_pub_ c).

Definition set_pinned_ik_pub (ik_pub : string) (c : Conversation) : Conversation :=
  mkConversation (peer_ c) (messages_ c) (ratchet_state_ c) (associated_data_ c) ik_pub.

(** ** Properties *)

(** What every method but the three setters keeps. *)
Definition same_session (c c' : Conversation) : Prop :=
  peer_ c' = peer_ c ∧ ratchet_state_ c' = ratchet_state_ c ∧
  associated_data_ c' = associated_data_ c ∧ pinned_ik_pub_ c' = pinned_ik_pub_ c.

#[global] Instance same_session_equiv : Equivalence same_session.
Proof. split; unfold same_session; repeat intros ?; intuition congruence. Qed.

Lemma set_messages_same_session ms c : same_session c (set_messages ms c).
Proof. done. Qed.

Create HintDb conversation.
#[export] Hint Resolve set_messages_same_session : conversation.
#[export] Hint Unfold add_message update_message_body update_message_body_by_mid
  mark_message_deleted mark_message_deleted_by_mid remove_message : conversation.

(** The message with a given id, when ids are pairwise distinct. *)
Lemma first_mid_lookup id ms i m :
  NoDup (msg_id <$> ms) → ms !! i = Some m → msg_id m = id → first_mid id ms = msg_mid m.
Proof.
  revert i. induction ms as [|x ms IH]; intros i Hnd Hi Hid; [done|].
  rewrite fmap_cons in Hnd. apply NoDup_cons in Hnd as [Hx Hnd]. cbn. unfold has_id.
  destruct i as [|i]; cbn in Hi; [simplify_eq; by rewrite bool_decide_true|].
  rewrite bool_decide_false; [by eapply IH|]. intros Heq. destruct Hx.
  rewrite Heq, <-Hid. apply list_elem_of_fmap. exists m. split; [done|].
  by eapply list_elem_of_lookup_2.
Qed.

Lemma first_mid_absent id ms : id ∉ msg_id <$> ms → first_mid id ms = "".
Proof.
  induction ms as [|m ms IH]; [done|]. rewrite fmap_cons. cbn. unfold has_id. intros H.
  rewrite bool_decide_false by set_solver. apply IH. set_solver.
Qed.

Lemma mark_message_deleted_ids id c :
  msg_id <$> messages_ (mark_message_deleted id c) = msg_id <$> messages_ c.
Proof. by apply update_first_fmap_eq. Qed.

Lemma update_message_body_ids id b c :
  msg_id <$> messages_ (update_message_body id b c) = msg_id <$> messages_ c.
Proof. by apply update_first_fmap_eq. Qed.
