(* ===== verification/Entries.v ===== *)
(** * Entries: a conversation as both its sides know it

    What the messages of a conversation have in common on both sides, the operations that
    writing, editing and deleting are on it, and what keeps the operations of the two
    writers apart: a message id begins with the name of the one who wrote the message, and
    each edits and deletes only what is his own. *)

From S2P Require Import Prelude Message Conversation.

(** Row id and time stamp of a message are local. *)
Record Entry : Type := mkEntry {
  en_mid : string;
  en_sender : string;
  en_type : MessageType;
  en_body : string;
  en_edited : bool;
  en_deleted : bool;
  en_wire : string;
}.

Definition entry (m : Message) : Entry :=
  mkEntry (msg_mid m) (msg_sender m) (msg_type m) (msg_body m) (msg_edited m) (msg_deleted m)
    (msg_wire_ciphertext m).

(** What one frame does to the conversation. *)
Inductive Op : Type :=
  | Op_text (ty : MessageType) (body wire mid : string)
  | Op_edit (target body : string)
  | Op_delete (target : string).

Definition named (mid : string) (e : Entry) : bool := bool_decide (en_mid e = mid).

Definition edit_entry (body : string) (e : Entry) : Entry :=
  mkEntry (en_mid e) (en_sender e) (en_type e) body true (en_deleted e) (en_wire e).

Definition delete_entry (e : Entry) : Entry :=
  mkEntry (en_mid e) (en_sender e) (en_type e) "" (en_edited e) true (en_wire e).

Definition apply_op (sender : string) (es : list Entry) (o : Op) : list Entry :=
  match o with
  | Op_text ty body wire mid => es ++ [mkEntry mid sender ty body false false wire]
  | Op_edit target body => update_first (named target) (edit_entry body) es
  | Op_delete target => update_first (named target) delete_entry es
  end.

(** The operation a content makes. *)
Definition op_of (ty : MessageType) (body target wire mid : string) : Op :=
  match ty with
  | Edit => Op_edit target body
  | Delete => Op_delete target
  | _ => Op_text ty body wire mid
  end.

(** ** Whose entry it is *)

Definition colon_free (s : string) : Prop := ":"%char ∉ String.list_ascii_of_string s.

(** The id begins with the name and a colon. *)
Definition stamped (name mid : string) : Prop := ∃ rest, mid = name +:+ ":" +:+ rest.

Lemma stamped_inj n1 n2 mid :
  colon_free n1 → colon_free n2 → stamped n1 mid → stamped n2 mid → n1 = n2.
Proof.
  unfold colon_free. intros H1 H2 [r1 E1] [r2 E2]. rewrite E1 in E2. clear E1 mid.
  revert n2 H2 E2. induction n1 as [|a n1 IH]; intros [|b n2] H2 E2; cbn in *; [done|..].
  - injection E2 as <- _. destruct H2. left.
  - injection E2 as -> _. destruct H1. left.
  - injection E2 as <- E2. f_equal. apply IH; [..|done].
    + intros Hin. apply H1. by right.
    + intros Hin. apply H2. by right.
Qed.

Lemma stamped_nonempty n mid : stamped n mid → mid ≠ "".
Proof. intros [rest ->] E. by destruct n. Qed.

(** An entry of one of the two. *)
Definition signed (n1 n2 : string) (e : Entry) : Prop :=
  (en_sender e = n1 ∨ en_sender e = n2) ∧ stamped (en_sender e) (en_mid e).

Definition op_signed (name : string) (o : Op) : Prop :=
  match o with
  | Op_text _ _ _ mid => stamped name mid
  | Op_edit target _ | Op_delete target => stamped name target
  end.

Definition own (name : string) (es : list Entry) : list Entry :=
  filter (λ e, en_sender e = name) es.

Lemma own_update name p f es :
  (∀ e, en_sender (f e) = en_sender e) → (∀ e, e ∈ es → p e = true → en_sender e = name) →
  own name (update_first p f es) = update_first p f (own name es) ∧
  ∀ other, other ≠ name → own other (update_first p f es) = own other es.
Proof.
  unfold own. intros Hf. induction es as [|e es IH]; intros Hp; [done|]. cbn [update_first].
  destruct IH as [IH1 IH2]; [intros e' He'; apply Hp; by right|]. destruct (p e) eqn:Hpe.
  - pose proof (Hp e ltac:(left) Hpe) as He. split.
    + rewrite !filter_cons_True by (rewrite ?Hf; done). cbn [update_first]. by rewrite Hpe.
    + intros other Ho. rewrite !filter_cons_False by (rewrite ?Hf; congruence). done.
  - split.
    + rewrite !filter_cons. destruct (decide (en_sender e = name)); cbn [update_first]; [|done].
      by rewrite Hpe, IH1.
    + intros other Ho. rewrite !filter_cons. destruct (decide _); by rewrite IH2.
Qed.

Section two_writers.
Context (n1 n2 : string) (Hne : n1 ≠ n2) (Hc1 : colon_free n1) (Hc2 : colon_free n2).

Lemma named_own n target es :
  n = n1 ∨ n = n2 → Forall (signed n1 n2) es → stamped n target →
  ∀ e, e ∈ es → named target e = true → en_sender e = n.
Proof.
  intros Hn Hes Ht e He Hnamed%bool_decide_eq_true. rewrite Forall_forall in Hes.
  destruct (Hes e He) as [Hs Hst]. rewrite Hnamed in Hst.
  eapply stamped_inj; [..|exact Hst|exact Ht]; [by destruct Hs as [-> | ->]|by destruct Hn as [-> | ->]].
Qed.

(** An operation of [n] works on the entries of [n]. *)
Lemma own_apply n es o :
  n = n1 ∨ n = n2 → Forall (signed n1 n2) es → op_signed n o →
  own n (apply_op n es o) = apply_op n (own n es) o ∧
  ∀ other, other ≠ n → own other (apply_op n es o) = own other es.
Proof.
  intros Hn Hes Ho. destruct o as [ty body wire mid|target body|target]; cbn [apply_op op_signed] in *.
  - unfold own. split.
    + by rewrite filter_app, (filter_cons_True _ _ []).
    + intros other Ho'. rewrite filter_app, (filter_cons_False _ _ []) by done. by rewrite app_nil_r.
  - apply own_update; [done|]. by apply named_own.
  - apply own_update; [done|]. by apply named_own.
Qed.

Lemma signed_apply n es o :
  n = n1 ∨ n = n2 → Forall (signed n1 n2) es → op_signed n o → Forall (signed n1 n2) (apply_op n es o).
Proof.
  intros Hn Hes Ho. destruct o as [ty body wire mid|target body|target]; cbn [apply_op op_signed] in *.
  { apply Forall_app. split; [done|]. apply Forall_singleton. by split. }
  all: apply Forall_forall; intros e [He|(e' & He & _ & ->)]%elem_of_update_first;
    rewrite Forall_forall in Hes; by apply Hes in He.
Qed.

(** The entries of both are all entries. *)
Lemma own_split es : Forall (signed n1 n2) es → own n1 es ++ own n2 es ≡ₚ es.
Proof.
  intros Hes. rewrite <-(filter_app_complement (λ e, en_sender e = n1) es) at 3. apply Permutation_app; [done|].
  unfold own.
  apply reflexive_eq. induction Hes as [|e es [Hs _] _ IH]; [done|].
  rewrite (filter_cons (λ e, en_sender e = n2)), (filter_cons (λ e, ¬ en_sender e = n1)), IH.
  destruct (decide (en_sender e = n2)), (decide (¬ en_sender e = n1)); [done|..|done].
  all: exfalso; destruct (decide (en_sender e = n1)), Hs; first [congruence|tauto].
Qed.
End two_writers.
