(* ===== verification/MessageStore.v ===== *)
(** * MessageStore: [client/src/messaging/MessageStore.{h,cpp}]

    The local SQLite database.  A database file is a record of its four tables;
    each method is the effect of the SQL statement it runs.  SQLite itself is
    third-party code: the choices its documentation leaves open (the order of
    rows with equal sort keys, the row id once the largest one is taken) are the
    operations of a class with their documented laws.

    [sqlite3_prepare_v2] fails when a statement names a column the table does not
    have, the methods ignore that failure, and a null statement makes [bind] and
    [step] do nothing: a method whose columns are missing has no effect. *)

From S2P Require Import Prelude Message Conversation.
Local Open Scope Z_scope.

(** ** Tables *)

(** A row of [messages], without its primary key. *)
Record Row : Type := mkRow {
  r_peer : string;
  r_sender : string;
  r_recipient : string;
  r_timestamp_ms : Z;
  r_type : Z;
  r_body : string;
  r_edited : Z;
  r_deleted : Z;
  r_target_id : option Z;
  r_wire_ciphertext : string;
  r_mid : string;
}.

#[global] Instance Row_eq_dec : EqDecision Row.
Proof. solve_decision. Defined.

(** [messages]: its columns in order, and its rows by [id].  A field of a row is
    meaningful when its column exists. *)
Record Table : Type := mkTable {
  t_cols : list string;
  t_rows : gmap Z Row;
}.

Record Db : Type := mkDb {
  db_messages : option Table;
  db_conversations : gmap string (string * string);
  db_pinned_keys : gmap string string;
  db_key_store : gmap string string;
}.

(** A file that does not exist yet. *)
Definition empty_db : Db := mkDb None ∅ ∅ ∅.

(** An open database: the file and [sqlite3_last_insert_rowid]. *)
Record Store : Type := mkStore {
  st_db : Db;
  st_last_rowid : Z;
}.

Definition cols (d : Db) : list string :=
  match db_messages d with Some t => t_cols t | None => [] end.
Definition rows (d : Db) : gmap Z Row :=
  match db_messages d with Some t => t_rows t | None => ∅ end.

Definition set_rows (rs : gmap Z Row) (d : Db) : Db :=
  mkDb (Some (mkTable (cols d) rs)) (db_conversations d) (db_pinned_keys d) (db_key_store d).
Definition set_table (t : Table) (d : Db) : Db :=
  mkDb (Some t) (db_conversations d) (db_pinned_keys d) (db_key_store d).
Definition set_conversations (c : gmap string (string * string)) (d : Db) : Db :=
  mkDb (db_messages d) c (db_pinned_keys d) (db_key_store d).
Definition set_pinned_keys (p : gmap string string) (d : Db) : Db :=
  mkDb (db_messages d) (db_conversations d) p (db_key_store d).
Definition set_key_store (k : gmap string string) (d : Db) : Db :=
  mkDb (db_messages d) (db_conversations d) (db_pinned_keys d) k.

Definition on_db (f : Db → Db) (st : Store) : Store := mkStore (f (st_db st)) (st_last_rowid st).

(** ** What SQLite decides *)

Class Sqlite := {
  (** [ORDER BY timestamp_ms] *)
  order_by_timestamp : list (Z * Row) → list (Z * Row);
  (** [ORDER BY MAX(timestamp_ms) DESC] over the groups *)
  order_by_latest : list (string * Z) → list (string * Z);
  (** the row id tried once the largest possible one is in use *)
  random_rowid : gmap Z Row → option Z;
}.

Class SqliteLaws `{Sqlite} : Prop := {
  order_by_timestamp_perm l : order_by_timestamp l ≡ₚ l;
  order_by_timestamp_sorted l :
    Sorted (λ a b, r_timestamp_ms a.2 ≤ r_timestamp_ms b.2) (order_by_timestamp l);
  order_by_latest_perm l : order_by_latest l ≡ₚ l;
  order_by_latest_sorted l : Sorted (λ a b, b.2 ≤ a.2) (order_by_latest l);
  random_rowid_fresh rs k : random_rowid rs = Some k → rs !! k = None ∧ 0 < k < 2 ^ 63;
}.

Definition MAX_ROWID : Z := 2 ^ 63 - 1.

Definition max_rowid (rs : gmap Z Row) : Z :=
  map_fold (λ k _ m, Z.max k m) (- 2 ^ 63) rs.

(** The automatic value of an [INTEGER PRIMARY KEY] bound to NULL. *)
Definition new_rowid `{Sqlite} (rs : gmap Z Row) : option Z :=
  if bool_decide (rs = ∅) then Some 1
  else if max_rowid rs =? MAX_ROWID then random_rowid rs
  else Some (max_rowid rs + 1).

(** ** Opening a database *)

Definition canonical_cols : list string :=
  ["id"; "peer"; "sender"; "recipient"; "timestamp_ms"; "type"; "body"; "edited";
   "deleted"; "target_id"; "wire_ciphertext"; "mid"].

(** [exec_or_throw(db_, kSchema)]: each table is created when it does not exist. *)
Definition create_schema (d : Db) : Db :=
  match db_messages d with
  | None => set_table (mkTable canonical_cols ∅) d
  | Some _ => d
  end.

(** The default the new column takes in the rows that exist. *)
Definition reset_col (c : string) (r : Row) : Row :=
  mkRow (r_peer r)
    (if bool_decide (c = "sender") then "" else r_sender r)
    (r_recipient r) (r_timestamp_ms r) (r_type r) (r_body r)
    (if bool_decide (c = "edited") then 0 else r_edited r)
    (if bool_decide (c = "deleted") then 0 else r_deleted r)
    (r_target_id r)
    (if bool_decide (c = "wire_ciphertext") then "" else r_wire_ciphertext r)
    (if bool_decide (c = "mid") then "" else r_mid r).

(** [ALTER TABLE messages ADD COLUMN c ... DEFAULT ...]: appended at the end; an
    error, which the code ignores, when the column exists. *)
Definition alter_add_column (c : string) (d : Db) : Db :=
  if bool_decide (c ∈ cols d) then d
  else set_table (mkTable (cols d ++ [c]) (reset_col c <$> rows d)) d.

Definition add_missing_columns (d : Db) : Db :=
  foldl (flip alter_add_column) d ["wire_ciphertext"; "edited"; "mid"; "sender"; "deleted"].

(** [PRAGMA table_info(messages)] scanned for [sender]; -1 when absent. *)
Fixpoint find_cid (c : string) (cs : list string) (i : Z) : Z :=
  match cs with
  | [] => -1
  | c' :: cs => if bool_decide (c' = c) then i else find_cid c cs (i + 1)
  end.
Definition sender_cid (d : Db) : Z := find_cid "sender" (cols d) 0.

(** The columns of [messages_reordered] and of the SELECT that fills it. *)
Definition reordered_cols : list string :=
  ["id"; "peer"; "sender"; "recipient"; "timestamp_ms"; "type"; "body"; "edited";
   "target_id"; "wire_ciphertext"; "mid"].

Definition prepare_ok (needed : list string) (d : Db) : bool :=
  forallb (λ c, bool_decide (c ∈ cols d)) needed.

(** The transaction that recreates the table; it throws, and is rolled back,
    when the table lacks one of the columns. *)
Definition recreate_table : M Db unit :=
  d ← gets id;
  if prepare_ok reordered_cols d
  then modify (set_table (mkTable reordered_cols (rows d)))
  else throw "MessageStore: no such column".

(** [MessageStore::MessageStore] after [sqlite3_open] succeeded. *)
Definition open_store : M Db unit :=
  modify create_schema ;;
  modify add_missing_columns ;;
  d ← gets id;
  if sender_cid d =? 2 then mret tt else recreate_table.

(** ** Messages *)

Definition all_cols : list string := canonical_cols.

(** The values [save_message] binds. *)
Definition row_of_message (m : Message) : Row :=
  mkRow (c_str (msg_peer m)) (c_str (msg_sender m)) (c_str (msg_recipient m))
    (msg_timestamp_ms m) (int_of_type (msg_type m)) (c_str (msg_body m))
    (if msg_edited m then 1 else 0) (if msg_deleted m then 1 else 0)
    (i64 <$> msg_target_id m) (c_str (msg_wire_ciphertext m)) (c_str (msg_mid m)).

(** The [Message] [load_conversation] builds from a row. *)
Definition message_of_row (k : Z) (r : Row) : Message :=
  mkMessage (u64 k) (r_peer r) (r_sender r) (r_recipient r) (r_timestamp_ms r)
    (type_of_int (i32 (r_type r))) (r_body r)
    (negb (i32 (r_edited r) =? 0)) (negb (i32 (r_deleted r) =? 0))
    (u64 <$> r_target_id r) "" (r_wire_ciphertext r) (r_mid r).

Section statements.
Context `{Sqlite}.

(** [save_message]: the id it returns is [sqlite3_last_insert_rowid], also when
    the statement did nothing. *)
Definition save_message (msg : Message) (st : Store) : Z * Store :=
  let d := st_db st in
  let key := if msg_id msg =? 0 then new_rowid (rows d) else Some (i64 (msg_id msg)) in
  match (if prepare_ok all_cols d then key else None) with
  | Some k => (u64 k, mkStore (set_rows (<[k := row_of_message msg]> (rows d)) d) k)
  | None => (u64 (st_last_rowid st), st)
  end.

Definition update_rows (needed : list string) (p : Z → Row → bool) (f : Row → Row) (d : Db) : Db :=
  if prepare_ok needed d
  then set_rows (map_imap (λ k r, Some (if p k r then f r else r)) (rows d)) d
  else d.

Definition row_edit (b : string) (r : Row) : Row :=
  mkRow (r_peer r) (r_sender r) (r_recipient r) (r_timestamp_ms r) (r_type r) b 1
    (r_deleted r) (r_target_id r) (r_wire_ciphertext r) (r_mid r).
Definition row_delete (r : Row) : Row :=
  mkRow (r_peer r) (r_sender r) (r_recipient r) (r_timestamp_ms r) (r_type r) "" (r_edited r)
    1 (r_target_id r) (r_wire_ciphertext r) (r_mid r).

Definition delete_message (id : Z) (d : Db) : Db :=
  if prepare_ok ["id"] d then set_rows (delete (i64 id) (rows d)) d else d.

Definition update_message_body (id : Z) (encrypted_body : string) : Db → Db :=
  update_rows ["body"; "edited"; "id"] (λ k _, bool_decide (k = i64 id))
    (row_edit (c_str encrypted_body)).

Definition update_message_body_by_mid (mid encrypted_body : string) : Db → Db :=
  update_rows ["body"; "edited"; "mid"] (λ _ r, bool_decide (r_mid r = c_str mid))
    (row_edit (c_str encrypted_body)).

Definition mark_message_deleted (id : Z) : Db → Db :=
  update_rows ["deleted"; "body"; "id"] (λ k _, bool_decide (k = i64 id)) row_delete.

Definition mark_message_deleted_by_mid (mid : string) : Db → Db :=
  update_rows ["deleted"; "body"; "mid"] (λ _ r, bool_decide (r_mid r = c_str mid)) row_delete.

Definition load_pinned_identity_key (username : string) (d : Db) : option string :=
  db_pinned_keys d !! c_str username.

(** [SELECT ... FROM messages WHERE peer = ? ORDER BY timestamp_ms] *)
Definition select_messages (peer : string) (d : Db) : list (Z * Row) :=
  if prepare_ok all_cols d
  then order_by_timestamp
         (filter (λ kr, r_peer kr.2 = c_str peer) (map_to_list (rows d)))
  else [].

Definition load_conversation (peer : string) (d : Db) : option Conversation :=
  match select_messages peer d with
  | [] => None
  | rs =>
    let conv := Conversation.set_messages ((λ kr, message_of_row kr.1 kr.2) <$> rs)
                  (new_conversation peer) in
    let conv := match db_conversations d !! c_str peer with
                | Some (rs, ad) => set_associated_data ad (set_ratchet_state rs conv)
                | None => conv
                end in
    Some (match load_pinned_identity_key peer d with
          | Some ik => set_pinned_ik_pub ik conv
          | None => conv
          end)
  end.

(** [MAX(timestamp_ms)] of every peer's group. *)
Definition latest_by_peer (rs : gmap Z Row) : gmap string Z :=
  map_fold (λ _ r m,
    <[r_peer r := match m !! r_peer r with
                  | Some t => Z.max (r_timestamp_ms r) t
                  | None => r_timestamp_ms r
                  end]> m) ∅ rs.

(** [SELECT peer FROM messages GROUP BY peer ORDER BY MAX(timestamp_ms) DESC] *)
Definition list_peers (d : Db) : list string :=
  if prepare_ok ["peer"; "timestamp_ms"] d
  then (order_by_latest (map_to_list (latest_by_peer (rows d)))).*1
  else [].
End statements.

(** ** Conversation state, pinned keys and the key store *)

(** [INSERT ... ON CONFLICT(peer) DO UPDATE SET ratchet_state = excluded.ratchet_state] *)
Definition save_ratchet_state (peer state : string) (d : Db) : Db :=
  let ad := match db_conversations d !! c_str peer with Some (_, ad) => ad | None => "" end in
  set_conversations (<[c_str peer := (c_str state, ad)]> (db_conversations d)) d.

Definition save_associated_data (peer ad : string) (d : Db) : Db :=
  let rs := match db_conversations d !! c_str peer with Some (rs, _) => rs | None => "" end in
  set_conversations (<[c_str peer := (rs, c_str ad)]> (db_conversations d)) d.

Definition pin_identity_key (username ik_pub : string) (d : Db) : Db :=
  set_pinned_keys (<[c_str username := c_str ik_pub]> (db_pinned_keys d)) d.

Definition save_key (key value : string) (d : Db) : Db :=
  set_key_store (<[c_str key := c_str value]> (db_key_store d)) d.
Definition load_key (key : string) (d : Db) : option string := db_key_store d !! c_str key.

Definition save_dek (username encrypted_dek_json : string) : Db → Db :=
  save_key ("dek:" +:+ username) encrypted_dek_json.
Definition load_dek (username : string) : Db → option string := load_key ("dek:" +:+ username).

Definition save_encrypted_state (username state_json : string) : Db → Db :=
  save_key ("state:" +:+ username) state_json.
Definition load_encrypted_state (username : string) : Db → option string :=
  load_key ("state:" +:+ username).

Definition save_server_cert (host fingerprint : string) : Db → Db :=
  save_key ("cert:" +:+ host) fingerprint.
Definition load_server_cert (host : string) : Db → option string := load_key ("cert:" +:+ host).
