(* ===== verification/RefSqlite.v ===== *)
(** * RefSqlite: a reference instance of the SQLite interface

    Merge sort for [ORDER BY], and no row id to try once the largest is in use.
    It makes the statements of [MessageStore] computable and shows that the laws
    assumed of SQLite can be met. *)

From S2P Require Import Prelude Message Conversation MessageStore.
Local Open Scope Z_scope.

Definition by_timestamp (a b : Z * Row) : Prop := r_timestamp_ms a.2 ≤ r_timestamp_ms b.2.
Definition by_latest (a b : string * Z) : Prop := b.2 ≤ a.2.

#[global] Instance by_timestamp_dec : RelDecision by_timestamp.
Proof. intros a b. unfold by_timestamp. apply _. Defined.
#[global] Instance by_latest_dec : RelDecision by_latest.
Proof. intros a b. unfold by_latest. apply _. Defined.

#[global] Instance by_timestamp_total : Total by_timestamp.
Proof. intros a b. unfold by_timestamp. lia. Qed.
#[global] Instance by_latest_total : Total by_latest.
Proof. intros a b. unfold by_latest. lia. Qed.

#[global] Instance ref_sqlite : Sqlite := {|
  order_by_timestamp := merge_sort by_timestamp;
  order_by_latest := merge_sort by_latest;
  random_rowid _ := None;
|}.

#[global] Instance ref_sqlite_laws : SqliteLaws.
Proof.
  split; cbn.
  - intros l. apply merge_sort_Permutation.
  - intros l. apply (Sorted_merge_sort by_timestamp).
  - intros l. apply merge_sort_Permutation.
  - intros l. apply (Sorted_merge_sort by_latest).
  - done.
Qed.
