(* ===== verification/StoreFacts.v ===== *)
(** * StoreFacts: properties of the local database

    Well-formedness and its preservation by every statement, the round trip of a
    message through the database, the order of what is read back, the
    independence of the key-value namespaces, the agreement of the statements
    with the in-memory operations of [Conversation], and the schema migration. *)

From S2P Require Import Prelude Message Conversation MessageStore RefSqlite.
Local Open Scope Z_scope.

(** ** Well-formed databases *)

(** What a row read through the C API can be. *)
Record row_wf (r : Row) : Prop := {
  wf_texts : Forall (λ s, nul_free s = true)
    [r_peer r; r_sender r; r_recipient r; r_body r; r_wire_ciphertext r; r_mid r];
  wf_timestamp : in_s 64 (r_timestamp_ms r);
  wf_type : in_s 32 (r_type r);
  wf_edited : r_edited r = 0 ∨ r_edited r = 1;
  wf_deleted : r_deleted r = 0 ∨ r_deleted r = 1;
  wf_target : from_option (in_s 64) True (r_target_id r);
}.

(** The table has every column the statements use and its rows are well-formed. *)
Definition db_wf (d : Db) : Prop :=
  all_cols ⊆ cols d ∧ map_Forall (λ k r, in_s 64 k ∧ row_wf r) (rows d).

(** A message whose fields have their C++ ranges and no embedded NUL. *)
Record message_ok (m : Message) : Prop := {
  ok_texts : Forall (λ s, nul_free s = true)
    [msg_peer m; msg_sender m; msg_recipient m; msg_body m; msg_wire_ciphertext m; msg_mid m];
  ok_timestamp : in_s 64 (msg_timestamp_ms m);
  ok_type : type_wf (msg_type m);
  ok_target : from_option (in_u 64) True (msg_target_id m);
}.

Create HintDb store.

Lemma prepare_ok_subseteq needed d : prepare_ok needed d = true ↔ needed ⊆ cols d.
Proof.
  unfold prepare_ok. rewrite forallb_forall. setoid_rewrite bool_decide_eq_true.
  setoid_rewrite <-list_elem_of_In. done.
Qed.

Lemma db_wf_prepare needed d : db_wf d → needed ⊆ all_cols → prepare_ok needed d = true.
Proof. intros [Hc _] Hn. apply prepare_ok_subseteq. by etrans. Qed.

(** The columns a statement names are columns of the current schema. *)
Ltac solve_cols := apply db_wf_prepare; [done|]; apply (bool_decide_unpack _); vm_compute; exact I.

(** ** Row ids *)

Lemma max_rowid_ge rs k r : rs !! k = Some r → k ≤ max_rowid rs.
Proof.
  revert k r. unfold max_rowid.
  apply (map_fold_weak_ind (λ m (rs : gmap Z Row), ∀ k r, rs !! k = Some r → k ≤ m)).
  - intros k r. by rewrite lookup_empty.
  - intros i x m r Hi IH k y. rewrite lookup_insert.
    case_decide; [intros _; lia|]. intros Hk. specialize (IH k y Hk). lia.
Qed.

Lemma max_rowid_in_s rs :
  map_Forall (λ k _, in_s 64 k) rs → in_s 64 (max_rowid rs).
Proof.
  unfold max_rowid.
  apply (map_fold_weak_ind (λ m (rs : gmap Z Row), map_Forall (λ k _, in_s 64 k) rs → in_s 64 m)).
  - intros _. unfold in_s. cbn. lia.
  - intros i x m r Hi IH Hf. rewrite map_Forall_insert in Hf by done.
    destruct Hf as [Hx Hf]. specialize (IH Hf). unfold in_s in *. lia.
Qed.

Lemma rows_keys_in_s d : db_wf d → map_Forall (λ k _, in_s 64 k) (rows d).
Proof. intros [_ Hr] k r Hk. by destruct (Hr k r Hk). Qed.

Section with_sqlite.
Context `{Sqlite} `{!SqliteLaws}.

Lemma new_rowid_fresh d k :
  db_wf d → new_rowid (rows d) = Some k → rows d !! k = None ∧ in_s 64 k.
Proof.
  intros Hwf. unfold new_rowid, MAX_ROWID. case_bool_decide as He.
  - intros [= <-]. rewrite He, lookup_empty. split; [done|]. unfold in_s. cbn. lia.
  - pose proof (max_rowid_in_s _ (rows_keys_in_s d Hwf)) as Hm.
    destruct (Z.eqb_spec (max_rowid (rows d)) (2 ^ 63 - 1)).
    + intros [Hf Hk]%random_rowid_fresh. split; [done|]. unfold in_s. cbn in *. lia.
    + intros [= <-]. split.
      * destruct (rows d !! _) as [r|] eqn:E; [|done]. apply max_rowid_ge in E. lia.
      * unfold in_s in *. cbn in *. lia.
Qed.

(** Unless every row id is taken, a fresh one is found. *)
Lemma new_rowid_some d :
  max_rowid (rows d) ≠ MAX_ROWID → is_Some (new_rowid (rows d)).
Proof.
  intros Hm. unfold new_rowid. case_bool_decide; [by eexists|].
  destruct (Z.eqb_spec (max_rowid (rows d)) MAX_ROWID); [done|by eexists].
Qed.
End with_sqlite.

(** ** Rows and messages *)

Lemma message_ok_row_wf m : message_ok m → row_wf (row_of_message m).
Proof.
  intros [Ht Hts [Hty _] Htg]. split; cbn.
  - repeat constructor; apply nul_free_c_str.
  - done.
  - done.
  - destruct (msg_edited m); auto.
  - destruct (msg_deleted m); auto.
  - destruct (msg_target_id m); cbn; [|done]. by apply wrap_s_range.
Qed.

(** A message survives the trip through a row, but for [target_mid], which has
    no column. *)
Lemma message_of_row_of_message k m :
  message_ok m →
  message_of_row k (row_of_message m) =
  mkMessage (u64 k) (msg_peer m) (msg_sender m) (msg_recipient m) (msg_timestamp_ms m)
    (msg_type m) (msg_body m) (msg_edited m) (msg_deleted m) (msg_target_id m) ""
    (msg_wire_ciphertext m) (msg_mid m).
Proof.
  intros [Ht Hts Hty Htg]. unfold message_of_row, row_of_message. cbn.
  repeat (apply Forall_cons in Ht as [? Ht]). rewrite !c_str_nul_free by done.
  rewrite wrap_s_id by (destruct Hty; done || lia). rewrite type_of_int_of_type by done.
  f_equal.
  - by destruct (msg_edited m).
  - by destruct (msg_deleted m).
  - destruct (msg_target_id m); cbn in *; [|done]. by rewrite u64_i64.
Qed.

(** ** Preservation of well-formedness *)

Lemma cols_set_rows rs d : cols (set_rows rs d) = cols d.
Proof. done. Qed.
Lemma rows_set_rows rs d : rows (set_rows rs d) = rs.
Proof. done. Qed.

Lemma update_rows_wf needed p f d :
  db_wf d → (∀ r, row_wf r → row_wf (f r)) → db_wf (update_rows needed p f d).
Proof.
  intros [Hc Hr] Hf. unfold update_rows. destruct (prepare_ok needed d); [|done].
  split; [done|]. rewrite rows_set_rows. intros k r.
  rewrite map_lookup_imap, bind_Some. intros (r' & Hk & [= <-]).
  destruct (Hr k r' Hk). split; [done|]. destruct (p k r'); auto.
Qed.

Lemma row_edit_wf b r : nul_free b = true → row_wf r → row_wf (row_edit b r).
Proof.
  intros Hb [Ht ?????]. repeat (apply Forall_cons in Ht as [? Ht]).
  split; cbn; auto; by repeat constructor.
Qed.

Lemma row_delete_wf r : row_wf r → row_wf (row_delete r).
Proof.
  intros [Ht ?????]. repeat (apply Forall_cons in Ht as [? Ht]).
  split; cbn; auto; by repeat constructor.
Qed.

#[export] Hint Resolve row_edit_wf row_delete_wf nul_free_c_str update_rows_wf : store.

Lemma save_message_wf `{Sqlite} `{!SqliteLaws} msg st :
  db_wf (st_db st) → message_ok msg → db_wf (st_db (save_message msg st).2).
Proof.
  intros Hwf Hm. unfold save_message.
  destruct (prepare_ok all_cols (st_db st)); [|done].
  destruct (if msg_id msg =? 0 then _ else _) as [k|] eqn:Hk; [|done]. cbn.
  assert (in_s 64 k) as Hin.
  { destruct (msg_id msg =? 0); [by apply (new_rowid_fresh (st_db st))|].
    simplify_eq. by apply wrap_s_range. }
  destruct Hwf as [Hc Hr]. split; [done|]. rewrite rows_set_rows.
  apply map_Forall_insert_2; [|done]. split; [done|]. by apply message_ok_row_wf.
Qed.

Lemma delete_message_wf id d : db_wf d → db_wf (delete_message id d).
Proof.
  intros [Hc Hr]. unfold delete_message. destruct (prepare_ok _ _); [|done].
  split; [done|]. rewrite rows_set_rows. by apply map_Forall_delete.
Qed.

(** The writing methods of the class as data, and sequences of them. *)
Inductive store_op : Type :=
| SaveMessage (m : Message)
| DeleteMessage (id : Z)
| UpdateBody (id : Z) (b : string)
| UpdateBodyByMid (mid b : string)
| MarkDeleted (id : Z)
| MarkDeletedByMid (mid : string)
| SaveRatchetState (peer s : string)
| SaveAssociatedData (peer ad : string)
| PinIdentityKey (u ik : string)
| SaveDek (u j : string)
| SaveEncryptedState (u j : string)
| SaveServerCert (h f : string).

Definition run_op `{Sqlite} (o : store_op) (st : Store) : Store :=
  match o with
  | SaveMessage m => (save_message m st).2
  | DeleteMessage i => on_db (delete_message i) st
  | UpdateBody i b => on_db (MessageStore.update_message_body i b) st
  | UpdateBodyByMid m b => on_db (MessageStore.update_message_body_by_mid m b) st
  | MarkDeleted i => on_db (MessageStore.mark_message_deleted i) st
  | MarkDeletedByMid m => on_db (MessageStore.mark_message_deleted_by_mid m) st
  | SaveRatchetState p s => on_db (save_ratchet_state p s) st
  | SaveAssociatedData p a => on_db (save_associated_data p a) st
  | PinIdentityKey u k => on_db (pin_identity_key u k) st
  | SaveDek u j => on_db (save_dek u j) st
  | SaveEncryptedState u j => on_db (save_encrypted_state u j) st
  | SaveServerCert h f => on_db (save_server_cert h f) st
  end.

Definition op_ok (o : store_op) : Prop :=
  match o with SaveMessage m => message_ok m | _ => True end.

Lemma run_op_wf `{Sqlite} `{!SqliteLaws} o st :
  op_ok o → db_wf (st_db st) → db_wf (st_db (run_op o st)).
Proof.
  intros Ho Hwf. destruct o; cbn [run_op on_db st_db]; try done.
  - by apply save_message_wf.
  - by apply delete_message_wf.
  - apply update_rows_wf; eauto with store.
  - apply update_rows_wf; eauto with store.
  - apply update_rows_wf; eauto with store.
  - apply update_rows_wf; eauto with store.
Qed.

Lemma run_ops_wf `{Sqlite} `{!SqliteLaws} ops st :
  Forall op_ok ops → db_wf (st_db st) → db_wf (st_db (foldl (flip run_op) st ops)).
Proof.
  intros Hops. revert st. induction Hops; intros st Hwf; [done|]. cbn.
  apply IHHops. by apply run_op_wf.
Qed.

(** No statement changes the columns. *)
Lemma run_op_cols `{Sqlite} o st : cols (st_db (run_op o st)) = cols (st_db st).
Proof.
  destruct o; cbn [run_op on_db st_db]; try done.
  - unfold save_message. by repeat case_match.
  - unfold delete_message. by case_match.
  - unfold MessageStore.update_message_body, update_rows. by case_match.
  - unfold MessageStore.update_message_body_by_mid, update_rows. by case_match.
  - unfold MessageStore.mark_message_deleted, update_rows. by case_match.
  - unfold MessageStore.mark_message_deleted_by_mid, update_rows. by case_match.
Qed.

Lemma run_ops_cols `{Sqlite} ops st :
  cols (st_db (foldl (flip run_op) st ops)) = cols (st_db st).
Proof.
  revert st. induction ops as [|o ops IH]; intros st; [done|]. cbn. rewrite IH. apply run_op_cols.
Qed.

(** ** Reading messages back *)

Definition loaded_messages `{Sqlite} (peer : string) (d : Db) : list Message :=
  match load_conversation peer d with Some c => messages_ c | None => [] end.

Lemma loaded_messages_select `{Sqlite} peer d :
  loaded_messages peer d = (λ kr, message_of_row kr.1 kr.2) <$> select_messages peer d.
Proof.
  unfold loaded_messages, load_conversation.
  destruct (select_messages peer d) as [|kr l]; [done|].
  destruct (db_conversations d !! _) as [[]|], (load_pinned_identity_key peer d); done.
Qed.

Lemma load_conversation_is_some `{Sqlite} peer d :
  is_Some (load_conversation peer d) ↔ loaded_messages peer d ≠ [].
Proof.
  rewrite loaded_messages_select. unfold load_conversation.
  destruct (select_messages peer d); [|by split; [|by eexists]].
  split; [by intros []|done].
Qed.

(** The rows of one peer, in no particular order. *)
Definition peer_rows (peer : string) (d : Db) : list (Z * Row) :=
  filter (λ kr, r_peer kr.2 = c_str peer) (map_to_list (rows d)).

Section reading.
Context `{Sqlite} `{!SqliteLaws}.

Lemma select_messages_perm peer d : db_wf d → select_messages peer d ≡ₚ peer_rows peer d.
Proof.
  intros Hwf. unfold select_messages.
  replace (prepare_ok all_cols d) with true by (symmetry; solve_cols).
  apply order_by_timestamp_perm.
Qed.

Lemma elem_of_peer_rows k r peer d :
  (k, r) ∈ peer_rows peer d ↔ rows d !! k = Some r ∧ r_peer r = c_str peer.
Proof. unfold peer_rows. rewrite list_elem_of_filter, elem_of_map_to_list. tauto. Qed.

Lemma peer_rows_nodup peer d : NoDup ((peer_rows peer d).*1).
Proof.
  eapply sublist_NoDup; [apply (NoDup_fst_map_to_list (rows d))|].
  apply fmap_sublist, sublist_filter.
Qed.

Lemma peer_rows_insert peer k r d :
  rows d !! k = None →
  peer_rows peer (set_rows (<[k := r]> (rows d)) d) ≡ₚ
  (if bool_decide (r_peer r = c_str peer) then [(k, r)] else []) ++ peer_rows peer d.
Proof.
  intros Hk. unfold peer_rows. rewrite rows_set_rows.
  rewrite (map_to_list_insert _ _ _ Hk), filter_cons. cbn.
  case_decide; case_bool_decide; done.
Qed.
End reading.

(** ** Sorted lists with distinct keys *)

(** Two orderings of the same items by pairwise distinct keys are equal. *)
Lemma sorted_perm_unique {A} (key : A → Z) (l1 l2 : list A) :
  Sorted (λ a b, key a ≤ key b) l1 → Sorted (λ a b, key a ≤ key b) l2 →
  l1 ≡ₚ l2 → NoDup (key <$> l1) → l1 = l2.
Proof.
  intros H1 H2 Hp Hnd.
  assert (Transitive (λ a b, key a ≤ key b)) as Htr by (intros ?????; cbn in *; lia).
  apply Sorted_StronglySorted in H1, H2; [|exact Htr..].
  eapply StronglySorted_unique_strong; [|exact H1|exact H2|exact Hp].
  intros x y Hx Hy Hxy Hyx.
  assert (key x = key y) as Heq by (cbn in *; lia).
  apply list_elem_of_lookup in Hx as [i Hi]. rewrite <-Hp in Hy.
  apply list_elem_of_lookup in Hy as [j Hj].
  assert (i = j) as ->; [|congruence].
  eapply (NoDup_lookup (key <$> l1)); [done| |].
  - rewrite list_lookup_fmap, Hi. done.
  - rewrite list_lookup_fmap, Hj. cbn. by rewrite Heq.
Qed.

(** ** The round trip of a message *)

(** C27: Saving a new message stores it under a row id not used before, and
    afterwards the history of its peer is the old history plus that message
    ([target_mid], which the schema has no column for, reads back empty), while
    the history of any other peer is unchanged. *)
Theorem save_then_load `{Sqlite} `{!SqliteLaws} msg st :
  db_wf (st_db st) → message_ok msg → msg_id msg = 0 →
  max_rowid (rows (st_db st)) ≠ MAX_ROWID →
  let '(id, st') := save_message msg st in
  rows (st_db st) !! i64 id = None ∧
  ∀ peer, nul_free peer = true →
    loaded_messages peer (st_db st') ≡ₚ
    (if bool_decide (msg_peer msg = peer) then [set_id id (mkMessage 0 (msg_peer msg)
        (msg_sender msg) (msg_recipient msg) (msg_timestamp_ms msg) (msg_type msg)
        (msg_body msg) (msg_edited msg) (msg_deleted msg) (msg_target_id msg) ""
        (msg_wire_ciphertext msg) (msg_mid msg))] else [])
    ++ loaded_messages peer (st_db st).
Proof.
  intros Hwf Hm Hid Hmax. destruct (new_rowid_some _ Hmax) as [k Hk].
  destruct (new_rowid_fresh _ _ Hwf Hk) as [Hfresh Hin].
  pose proof (save_message_wf msg st Hwf Hm) as Hwf'.
  unfold save_message in *. rewrite Hid, Hk in *. cbn [Z.eqb] in *.
  replace (prepare_ok all_cols (st_db st)) with true in * by (symmetry; solve_cols).
  split; [by rewrite i64_u64|]. intros peer Hpeer.
  rewrite !loaded_messages_select, (select_messages_perm peer _ Hwf'),
    (select_messages_perm peer _ Hwf). cbn [st_db].
  rewrite (peer_rows_insert peer k (row_of_message msg) _ Hfresh), fmap_app.
  assert (nul_free (msg_peer msg) = true) as Hp.
  { destruct Hm as [Ht _ _ _]. by apply Forall_cons in Ht as [? _]. }
  cbn [r_peer row_of_message]. rewrite !c_str_nul_free by done.
  case_bool_decide; [|done]. rewrite list_fmap_singleton. cbn [fst snd].
  by rewrite message_of_row_of_message.
Qed.

(** What is loaded for a peer is exactly that peer's rows, each once, ordered
    by timestamp. *)
Theorem load_conversation_sorted `{Sqlite} `{!SqliteLaws} peer d conv :
  db_wf d → load_conversation peer d = Some conv →
  messages_ conv ≡ₚ (λ kr, message_of_row kr.1 kr.2) <$> peer_rows peer d ∧
  Sorted (λ a b, msg_timestamp_ms a ≤ msg_timestamp_ms b) (messages_ conv) ∧
  peer_ conv = peer ∧
  pinned_ik_pub_ conv = default "" (load_pinned_identity_key peer d).
Proof.
  intros Hwf Hl. assert (loaded_messages peer d = messages_ conv) as Hm
    by (unfold loaded_messages; by rewrite Hl).
  rewrite loaded_messages_select in Hm. rewrite <-Hm. split_and!.
  - by rewrite (select_messages_perm peer d Hwf).
  - unfold select_messages. destruct (prepare_ok all_cols d); [|constructor].
    generalize (order_by_timestamp_sorted
      (filter (λ kr, r_peer kr.2 = c_str peer) (map_to_list (rows d)))).
    induction 1 as [|a l Hs IH Hhd]; cbn; constructor; [done|].
    by destruct Hhd; constructor.
  - unfold load_conversation in Hl. destruct (select_messages peer d); [done|].
    destruct (db_conversations d !! _) as [[]|], (load_pinned_identity_key peer d);
      by simplify_eq.
  - unfold load_conversation in Hl. destruct (select_messages peer d); [done|].
    destruct (db_conversations d !! _) as [[]|], (load_pinned_identity_key peer d);
      by simplify_eq.
Qed.

(** ** The list of peers *)

(** [t] is the timestamp of the newest row of [p]. *)
Definition newest (rs : gmap Z Row) (p : string) (t : Z) : Prop :=
  (∃ k r, rs !! k = Some r ∧ r_peer r = p ∧ r_timestamp_ms r = t) ∧
  (∀ k r, rs !! k = Some r → r_peer r = p → r_timestamp_ms r ≤ t).

Lemma newest_insert_other (rs : gmap Z Row) k r p t :
  rs !! k = None → r_peer r ≠ p → newest rs p t → newest (<[k := r]> rs) p t.
Proof.
  intros Hk Hp [(k' & r' & Hk' & ? & ?) Hmax]. split.
  - exists k', r'. rewrite lookup_insert_ne by congruence. done.
  - intros k2 r2. rewrite lookup_insert. case_decide; naive_solver.
Qed.

Lemma newest_insert_same (rs : gmap Z Row) k r t :
  rs !! k = None → newest rs (r_peer r) t →
  newest (<[k := r]> rs) (r_peer r) (Z.max (r_timestamp_ms r) t).
Proof.
  intros Hk [(k' & r' & Hk' & Hp & Ht) Hmax]. split.
  - destruct (Z.max_spec (r_timestamp_ms r) t) as [[_ ->]|[_ ->]].
    + exists k', r'. rewrite lookup_insert_ne by congruence. done.
    + exists k, r. by rewrite lookup_insert_eq.
  - intros k2 r2. rewrite lookup_insert. case_decide; [naive_solver lia|].
    intros H2 Hp2. specialize (Hmax k2 r2 H2 Hp2). lia.
Qed.

Lemma latest_by_peer_spec rs p :
  match latest_by_peer rs !! p with
  | Some t => newest rs p t
  | None => ∀ k r, rs !! k = Some r → r_peer r ≠ p
  end.
Proof.
  revert p. unfold latest_by_peer.
  apply (map_fold_weak_ind (λ m (rs : gmap Z Row), ∀ p, match m !! p with
    | Some t => newest rs p t | None => ∀ k r, rs !! k = Some r → r_peer r ≠ p end)).
  - intros p. rewrite lookup_empty. intros k r. by rewrite lookup_empty.
  - intros i x m r Hi IH p. rewrite lookup_insert. case_decide as Hp.
    + subst p. specialize (IH (r_peer x)). destruct (r !! r_peer x) as [t|].
      * by apply newest_insert_same.
      * split; [exists i, x; by rewrite lookup_insert_eq|].
        intros k y. rewrite lookup_insert. case_decide; [naive_solver lia|naive_solver].
    + specialize (IH p). destruct (r !! p) as [t|].
      * by apply newest_insert_other.
      * intros k y. rewrite lookup_insert. case_decide; naive_solver.
Qed.

Lemma elem_of_list_peers `{Sqlite} `{!SqliteLaws} d p :
  db_wf d → p ∈ list_peers d ↔ ∃ k r, rows d !! k = Some r ∧ r_peer r = p.
Proof.
  intros Hwf. unfold list_peers.
  replace (prepare_ok ["peer"; "timestamp_ms"] d) with true by (symmetry; solve_cols).
  rewrite order_by_latest_perm, list_elem_of_fmap. setoid_rewrite elem_of_map_to_list'.
  pose proof (latest_by_peer_spec (rows d) p) as Hspec. split.
  - intros ([p' t] & -> & Hl). cbn in *. rewrite Hl in Hspec.
    destruct Hspec as [(k & r & ? & ? & ?) _]. eauto.
  - intros (k & r & Hk & Hr). destruct (latest_by_peer (rows d) !! p) as [t|] eqn:E.
    + by exists (p, t).
    + by destruct (Hspec k r Hk).
Qed.

(** [list_peers] names every peer that has a message, once, and a peer comes
    before another when its newest message is not older. *)
Theorem list_peers_spec `{Sqlite} `{!SqliteLaws} d :
  db_wf d →
  NoDup (list_peers d) ∧
  (∀ p, p ∈ list_peers d ↔ ∃ k r, rows d !! k = Some r ∧ r_peer r = p) ∧
  (∃ ts, Sorted (λ a b, b ≤ a) ts ∧ Forall2 (newest (rows d)) (list_peers d) ts).
Proof.
  intros Hwf. split_and!; [|by intros; apply elem_of_list_peers|]; unfold list_peers;
    replace (prepare_ok ["peer"; "timestamp_ms"] d) with true by (symmetry; solve_cols);
    pose proof (order_by_latest_perm (map_to_list (latest_by_peer (rows d)))) as Hp;
    pose proof (order_by_latest_sorted (map_to_list (latest_by_peer (rows d)))) as Hs;
    set (l := order_by_latest _) in *.
  - rewrite Hp. apply NoDup_fst_map_to_list.
  - exists (l.*2). split.
    + clear Hp. induction Hs as [|a l' Hs IH Hhd]; cbn; constructor; [done|].
      by destruct Hhd; constructor.
    + assert (∀ pt, pt ∈ l → newest (rows d) pt.1 pt.2) as Hin.
      { intros [p t] Hpt. rewrite Hp, elem_of_map_to_list in Hpt.
        pose proof (latest_by_peer_spec (rows d) p) as Hspec. by rewrite Hpt in Hspec. }
      clearbody l. clear Hp Hs. induction l as [|pt l IH]; cbn; constructor.
      * apply Hin. left.
      * apply IH. intros pt' Hpt'. apply Hin. by right.
Qed.

(** Every listed peer has a conversation to load. *)
Lemma list_peers_load `{Sqlite} `{!SqliteLaws} d p :
  db_wf d → p ∈ list_peers d → is_Some (load_conversation p d).
Proof.
  intros Hwf Hp. apply (elem_of_list_peers d p Hwf) in Hp as (k & r & Hk & Hr).
  apply load_conversation_is_some. rewrite loaded_messages_select.
  assert ((k, r) ∈ select_messages p d) as Hin.
  { rewrite (select_messages_perm p d Hwf). apply elem_of_peer_rows. split; [done|].
    rewrite Hr. symmetry. apply c_str_nul_free. destruct Hwf as [_ Hr'].
    destruct (Hr' k r Hk) as [_ [Ht _ _ _ _ _]]. apply Forall_cons in Ht as [? _].
    by subst p. }
  intros Heq%fmap_nil_inv. rewrite Heq in Hin. set_solver.
Qed.

(** ** Statements and in-memory operations agree *)

(** A statement that rewrites the rows satisfying [p] with [f], seen from what is
    read back for one peer. *)
Lemma select_update_rows `{Sqlite} `{!SqliteLaws} peer needed p f d :
  db_wf d → needed ⊆ all_cols →
  (∀ r, r_peer (f r) = r_peer r ∧ r_timestamp_ms (f r) = r_timestamp_ms r) →
  NoDup ((λ kr, r_timestamp_ms kr.2) <$> peer_rows peer d) →
  select_messages peer (update_rows needed p f d) =
  (λ kr, (kr.1, if p kr.1 kr.2 then f kr.2 else kr.2)) <$> select_messages peer d.
Proof.
  intros Hwf Hn Hf Hnd. set (G := λ kr : Z * Row, (kr.1, if p kr.1 kr.2 then f kr.2 else kr.2)).
  assert (∀ kr, r_timestamp_ms (G kr).2 = r_timestamp_ms kr.2) as Hts.
  { intros [k r]. cbn. destruct (p k r); [apply Hf|done]. }
  assert (peer_rows peer (update_rows needed p f d) ≡ₚ G <$> peer_rows peer d) as Hp.
  { apply NoDup_Permutation.
    - eapply NoDup_fmap_1, peer_rows_nodup.
    - apply (NoDup_fmap_1 fst). rewrite <-list_fmap_compose. apply peer_rows_nodup.
    - intros [k r]. rewrite elem_of_peer_rows, list_elem_of_fmap.
      unfold update_rows. rewrite (db_wf_prepare needed d Hwf Hn), rows_set_rows.
      rewrite map_lookup_imap, bind_Some. split.
      + intros [(r' & Hk & [= <-]) Hr]. exists (k, r'). split; [done|].
        apply elem_of_peer_rows. split; [done|]. destruct (p k r'); [|done].
        by destruct (Hf r') as [<- _].
      + intros ([k' r'] & [= -> ->] & [Hk Hr]%elem_of_peer_rows). split; [eauto|].
        destruct (p k' r'); [|done]. by destruct (Hf r') as [-> _]. }
  assert (prepare_ok all_cols (update_rows needed p f d) = true) as Hok.
  { unfold update_rows. rewrite (db_wf_prepare needed d Hwf Hn). apply prepare_ok_subseteq, Hwf. }
  assert (prepare_ok all_cols d = true) as Hok' by (apply prepare_ok_subseteq, Hwf).
  unfold select_messages. rewrite Hok, Hok'. fold (peer_rows peer d).
  fold (peer_rows peer (update_rows needed p f d)).
  apply (sorted_perm_unique (λ kr, r_timestamp_ms kr.2)).
  - apply order_by_timestamp_sorted.
  - generalize (order_by_timestamp_sorted (peer_rows peer d)).
    induction 1 as [|a l Hs IH Hhd]; [constructor|]. rewrite fmap_cons. constructor; [done|].
    destruct Hhd; rewrite ?fmap_cons; constructor. by rewrite !Hts.
  - by rewrite !order_by_timestamp_perm, Hp.
  - rewrite order_by_timestamp_perm, Hp, <-list_fmap_compose.
    erewrite list_fmap_ext; [exact Hnd|]. intros i kr _. apply Hts.
Qed.

Lemma select_messages_ids_nodup `{Sqlite} `{!SqliteLaws} peer d :
  db_wf d → NoDup ((λ kr, u64 kr.1) <$> select_messages peer d).
Proof.
  intros Hwf. rewrite (select_messages_perm peer d Hwf).
  change (λ kr : Z * Row, u64 kr.1) with (u64 ∘ fst (A := Z) (B := Row)).
  rewrite list_fmap_compose.
  apply NoDup_fmap_2_strong; [|apply peer_rows_nodup].
  assert (∀ k, k ∈ (peer_rows peer d).*1 → in_s 64 k) as Hin.
  { intros k ([k' r] & -> & [Hk _]%elem_of_peer_rows)%list_elem_of_fmap.
    by destruct (rows_keys_in_s d Hwf k' r Hk). }
  intros x y Hx Hy Heq. rewrite <-(i64_u64 x), <-(i64_u64 y) by auto. by rewrite Heq.
Qed.

(** The pieces of a loaded conversation other than its messages do not depend
    on the [messages] table, but for its having a row of the peer. *)
Lemma load_conversation_update `{Sqlite} peer d d' (F : list Message → list Message) :
  loaded_messages peer d' = F (loaded_messages peer d) →
  (∀ l, F l = [] ↔ l = []) →
  db_conversations d' = db_conversations d → db_pinned_keys d' = db_pinned_keys d →
  load_conversation peer d' =
  (λ c, Conversation.set_messages (F (messages_ c)) c) <$> load_conversation peer d.
Proof.
  intros HF Hnil Hc Hp. rewrite !loaded_messages_select in HF.
  unfold load_conversation, load_pinned_identity_key. rewrite Hc, Hp.
  destruct (select_messages peer d) as [|x l], (select_messages peer d') as [|x' l'].
  - done.
  - assert (F [] = []) as Hnil' by by apply Hnil. cbn in HF. by rewrite Hnil' in HF.
  - symmetry in HF. apply (proj1 (Hnil _)), fmap_nil_inv in HF. done.
  - rewrite HF. by destruct (db_conversations d !! _) as [[]|], (db_pinned_keys d !! _).
Qed.

Lemma update_first_nil {A} p (f : A → A) l : update_first p f l = [] ↔ l = [].
Proof. destruct l; cbn; [done|]. by destruct (p a). Qed.

Section refinement.
Context `{Sqlite} `{!SqliteLaws}.

(** The statements that select one row by its id. *)
Lemma update_by_id_refines peer needed f g id d :
  db_wf d → needed ⊆ all_cols → in_u 64 id →
  (∀ r, r_peer (f r) = r_peer r ∧ r_timestamp_ms (f r) = r_timestamp_ms r) →
  (∀ k r, message_of_row k (f r) = g (message_of_row k r)) →
  NoDup ((λ kr, r_timestamp_ms kr.2) <$> peer_rows peer d) →
  load_conversation peer (update_rows needed (λ k _, bool_decide (k = i64 id)) f d) =
  (λ c, Conversation.set_messages (update_first (has_id id) g (messages_ c)) c)
    <$> load_conversation peer d.
Proof.
  intros Hwf Hn Hid Hf Hg Hnd.
  apply (load_conversation_update peer d _ (update_first (has_id id) g)).
  - rewrite !loaded_messages_select, select_update_rows by done.
    rewrite (update_first_map_unique (has_id id) g msg_id); [|by rewrite <-list_fmap_compose;
      apply select_messages_ids_nodup|unfold has_id; intros x y ?%bool_decide_eq_true
      ?%bool_decide_eq_true; congruence].
    rewrite <-!list_fmap_compose. apply list_fmap_ext. intros i [k r] Hkr. cbn.
    assert (in_s 64 k) as Hk.
    { apply list_elem_of_lookup_2 in Hkr.
      rewrite (select_messages_perm peer d Hwf), elem_of_peer_rows in Hkr.
      apply (rows_keys_in_s d Hwf k r), Hkr. }
    unfold has_id. cbn [msg_id message_of_row].
    rewrite (bool_decide_ext (u64 k = id) (k = i64 id)).
    + case_bool_decide; [apply Hg|done].
    + split; [intros <-; by rewrite i64_u64|intros ->; by apply u64_i64].
  - intros l. apply update_first_nil.
  - unfold update_rows. by destruct (prepare_ok _ _).
  - unfold update_rows. by destruct (prepare_ok _ _).
Qed.
End refinement.

(** C28: Deleting a message in the database and then loading the conversation gives
    what loading first and deleting in memory gives: the two copies of a
    conversation stay in step (for pairwise distinct timestamps, since the order
    of equal ones is SQLite's choice). *)
Theorem mark_deleted_refines `{Sqlite} `{!SqliteLaws} peer id d :
  db_wf d → in_u 64 id → NoDup ((λ kr, r_timestamp_ms kr.2) <$> peer_rows peer d) →
  load_conversation peer (MessageStore.mark_message_deleted id d) =
  Conversation.mark_message_deleted id <$> load_conversation peer d.
Proof.
  intros Hwf Hid Hnd. unfold MessageStore.mark_message_deleted.
  apply update_by_id_refines; try done.
  apply (bool_decide_unpack _). by vm_compute.
Qed.

(** The same for an edit: the stored body is what the in-memory edit would hold,
    as long as the text stored has no NUL byte. *)
Theorem update_body_refines `{Sqlite} `{!SqliteLaws} peer id body d :
  db_wf d → in_u 64 id → nul_free body = true →
  NoDup ((λ kr, r_timestamp_ms kr.2) <$> peer_rows peer d) →
  load_conversation peer (MessageStore.update_message_body id body d) =
  Conversation.update_message_body id body <$> load_conversation peer d.
Proof.
  intros Hwf Hid Hb Hnd. unfold MessageStore.update_message_body.
  rewrite c_str_nul_free by done. apply update_by_id_refines; try done.
  apply (bool_decide_unpack _). by vm_compute.
Qed.

(** ** The key-value store *)

(** The three namespaces of [key_store]. *)
Inductive key_kind : Type := KDek | KState | KCert.

#[global] Instance key_kind_eq_dec : EqDecision key_kind.
Proof. solve_decision. Defined.

Definition save_kind (k : key_kind) : string → string → Db → Db :=
  match k with KDek => save_dek | KState => save_encrypted_state | KCert => save_server_cert end.
Definition load_kind (k : key_kind) : string → Db → option string :=
  match k with KDek => load_dek | KState => load_encrypted_state | KCert => load_server_cert end.

(** The text key behind a namespace and a name. *)
Definition key_text (k : key_kind) (name : string) : string :=
  match k with KDek => "dek:" | KState => "state:" | KCert => "cert:" end +:+ name.

Lemma key_text_inj k k' u u' : key_text k u = key_text k' u' → k = k' ∧ u = u'.
Proof. destruct k, k'; cbn; intros H; by simplify_eq. Qed.

Lemma c_str_key_text k u : c_str (key_text k u) = key_text k (c_str u).
Proof. by destruct k. Qed.

Lemma save_kind_lookup k u v d : db_key_store (save_kind k u v d) =
  <[c_str (key_text k u) := c_str v]> (db_key_store d).
Proof. by destruct k. Qed.
Lemma load_kind_lookup k u d : load_kind k u d = db_key_store d !! c_str (key_text k u).
Proof. by destruct k. Qed.

(** The wrapped data key, the wrapped X3DH state and the certificate pin live in
    one SQL table and never disturb each other: the table behaves as a map from
    (kind, name) pairs, whatever the names are. *)
Theorem key_store_refines_map k u k' u' v d :
  nul_free u = true → nul_free u' = true →
  load_kind k u (save_kind k' u' v d) =
  if bool_decide (k = k' ∧ u = u') then Some (c_str v) else load_kind k u d.
Proof.
  intros Hu Hu'. rewrite !load_kind_lookup, save_kind_lookup, lookup_insert.
  rewrite !c_str_key_text, !c_str_nul_free by done.
  case_decide as Heq; case_bool_decide as Hk; try done.
  - destruct Hk. by apply key_text_inj.
  - destruct Heq. by destruct Hk as [-> ->].
Qed.

(** The two columns of a session row are written independently: saving one
    keeps the other, the order does not matter, and neither touches another
    peer or the messages. *)
Theorem session_columns_independent peer rs ad d :
  let d1 := save_ratchet_state peer rs (save_associated_data peer ad d) in
  let d2 := save_associated_data peer ad (save_ratchet_state peer rs d) in
  d1 = d2 ∧ db_conversations d1 !! c_str peer = Some (c_str rs, c_str ad) ∧
  db_messages d1 = db_messages d ∧ db_key_store d1 = db_key_store d ∧
  ∀ q, c_str q ≠ c_str peer → db_conversations d1 !! c_str q = db_conversations d !! c_str q.
Proof.
  unfold save_ratchet_state, save_associated_data. cbn.
  rewrite !lookup_insert_eq, !insert_insert_eq. split_and!; try done.
  intros q Hq. by rewrite lookup_insert_ne.
Qed.

(** ** Opening a database *)

Lemma alter_add_column_present c d : c ∈ cols d → alter_add_column c d = d.
Proof. intros Hc. unfold alter_add_column. by rewrite bool_decide_true. Qed.

Lemma alter_add_column_cols c d : cols d ⊆ cols (alter_add_column c d) ∧ c ∈ cols (alter_add_column c d).
Proof.
  unfold alter_add_column. case_bool_decide; [done|]. cbn. split.
  - intros x Hx. apply elem_of_app. by left.
  - apply elem_of_app. right. by left.
Qed.

Lemma add_missing_columns_id d : all_cols ⊆ cols d → add_missing_columns d = d.
Proof.
  intros Hc. unfold add_missing_columns. cbn.
  assert (∀ c, c ∈ all_cols → alter_add_column c d = d) as Hid
    by (intros c Hin; by apply alter_add_column_present, Hc).
  rewrite (Hid "wire_ciphertext"), (Hid "edited"), (Hid "mid"), (Hid "sender"), (Hid "deleted");
    [done|apply (bool_decide_unpack _); by vm_compute..].
Qed.

Lemma open_store_unfold d :
  open_store d =
  let d1 := add_missing_columns (create_schema d) in
  if sender_cid d1 =? 2 then (Ret tt, d1) else recreate_table d1.
Proof.
  unfold open_store, mbind, M_bind, modify, gets, id. cbn zeta.
  by destruct (sender_cid (add_missing_columns (create_schema d)) =? 2).
Qed.

Lemma open_store_id d :
  all_cols ⊆ cols d → sender_cid d = 2 → open_store d = (Ret tt, d).
Proof.
  intros Hc Hs. rewrite open_store_unfold. cbn zeta.
  assert (create_schema d = d) as ->.
  { unfold create_schema, cols in *. destruct (db_messages d); [done|].
    exfalso. apply (not_elem_of_nil "id"), Hc. by left. }
  rewrite add_missing_columns_id by done. by rewrite Hs.
Qed.

(** What the schema creates in a new file. *)
Definition fresh_db : Db := set_table (mkTable canonical_cols ∅) empty_db.

Lemma fresh_db_wf : db_wf fresh_db.
Proof. split; [done|apply map_Forall_empty]. Qed.

(** C26: Opening a file that does not exist creates a well-formed empty database, and
    after any sequence of statements on it, closing it and opening it again
    changes nothing: the whole history is found as it was left. *)
Theorem open_store_persistent `{Sqlite} `{!SqliteLaws} ops :
  Forall op_ok ops →
  ∃ d, open_store empty_db = (Ret tt, d) ∧
    let d' := st_db (foldl (flip run_op) (mkStore d 0) ops) in
    db_wf d' ∧ open_store d' = (Ret tt, d').
Proof.
  intros Hops. exists fresh_db. split; [reflexivity|]. cbn zeta.
  pose proof (run_ops_wf ops (mkStore fresh_db 0) Hops fresh_db_wf) as Hwf.
  split; [done|]. apply open_store_id; [apply Hwf|].
  unfold sender_cid. by rewrite run_ops_cols.
Qed.

(** The schemas of the releases before the [sender] column, as the migration
    code lets one read them off: the oldest table and what each [ALTER TABLE]
    appended to it. *)
Definition base_cols : list string :=
  ["id"; "peer"; "recipient"; "timestamp_ms"; "type"; "body"; "target_id"].
Definition legacy_schemas : list (list string) :=
  (λ n, base_cols ++ take n ["wire_ciphertext"; "edited"; "mid"]) <$> seq 0 4.

Lemma dom_rows_add_missing_columns d : dom (rows (add_missing_columns d)) = dom (rows d).
Proof.
  assert (∀ c d, dom (rows (alter_add_column c d)) = dom (rows d)) as Halter.
  { intros c d'. unfold alter_add_column. case_bool_decide; [done|].
    unfold rows at 1. cbn. by rewrite dom_fmap_L. }
  unfold add_missing_columns. cbn [foldl flip]. by rewrite !Halter.
Qed.

(** Opening such a database rebuilds the table. *)
Lemma open_store_legacy d t :
  db_messages d = Some t → t_cols t ∈ legacy_schemas →
  ∃ d', open_store d = (Ret tt, d') ∧ cols d' = reordered_cols ∧
    dom (rows d') = dom (rows d).
Proof.
  intros Ht Hc. exists (set_table (mkTable reordered_cols (rows (add_missing_columns d)))
    (add_missing_columns d)).
  split; [|split; [done|apply dom_rows_add_missing_columns]].
  rewrite open_store_unfold. unfold create_schema. rewrite Ht. cbn zeta.
  destruct d as [m cs pk ks], t as [tc rs]. cbn in Ht, Hc. subst m.
  unfold legacy_schemas in Hc. cbn in Hc.
  repeat (apply elem_of_cons in Hc as [->|Hc]); [reflexivity..|by apply not_elem_of_nil in Hc].
Qed.

(** C37: Opening a database written by a release without the [sender] column leaves
    a table without the [deleted] column the statements need.  Until it is opened
    once more, no history can be loaded, no peer has a conversation, and saving a
    message stores nothing and returns a stale row id. *)
Theorem migration_disables_messages `{Sqlite} d t :
  db_messages d = Some t → t_cols t ∈ legacy_schemas →
  ∃ d', open_store d = (Ret tt, d') ∧ dom (rows d') = dom (rows d) ∧
    (∀ peer, load_conversation peer d' = None) ∧
    (∀ m last, save_message m (mkStore d' last) = (u64 last, mkStore d' last)).
Proof.
  intros Ht Hc. destruct (open_store_legacy d t Ht Hc) as (d' & Ho & Hcols & Hdom).
  assert (prepare_ok all_cols d' = false) as Hp by (unfold prepare_ok; by rewrite Hcols).
  exists d'. split_and!; [done|done| |].
  - intros peer. unfold load_conversation, select_messages. by rewrite Hp.
  - intros m last. unfold save_message. cbn [st_db st_last_rowid]. by rewrite Hp.
Qed.

(** The next opening adds the column back: the rows are all there, and every one
    of them has its deletion mark reset. *)
Theorem migration_second_open d' :
  cols d' = reordered_cols →
  ∃ d'', open_store d' = (Ret tt, d'') ∧ all_cols ⊆ cols d'' ∧
    dom (rows d'') = dom (rows d') ∧
    map_Forall (λ _ r, r_deleted r = 0) (rows d'').
Proof.
  intros Hc. destruct d' as [[[tc rs]|] cs pk ks]; unfold cols in Hc; cbn in Hc; [|done].
  subst tc. set (d := mkDb _ _ _ _). exists (add_missing_columns d). split_and!.
  - reflexivity.
  - by apply (bool_decide_unpack _); vm_compute.
  - apply dom_rows_add_missing_columns.
  - assert (rows (add_missing_columns d) = reset_col "deleted" <$> rs) as -> by reflexivity.
    intros k r. rewrite lookup_fmap, fmap_Some. intros (r' & _ & ->). done.
Qed.

(** ** The theorems at concrete inputs *)

(** A received message and a database holding two older ones of the same peer. *)
Definition demo_message (ts : Z) (body : string) : Message :=
  mkMessage 0 "bob" "bob" "alice" ts Standard body false false None "" "{}" "bob:alice:1".

Definition demo_store : Store :=
  foldl (flip run_op) (mkStore fresh_db 0)
    [SaveMessage (demo_message 20 "second"); SaveMessage (demo_message 10 "first");
     SaveRatchetState "bob" "rs"; PinIdentityKey "bob" "ik"].

Lemma demo_message_ok ts body :
  in_s 64 ts → nul_free body = true → message_ok (demo_message ts body).
Proof. intros. split; cbn; [by repeat constructor|done| |done]. split; [|done]. unfold in_s. cbn. lia. Qed.

Lemma demo_store_wf : db_wf (st_db demo_store).
Proof.
  apply run_ops_wf; [|apply fresh_db_wf].
  repeat constructor; apply demo_message_ok; done || (unfold in_s; cbn; lia).
Qed.

Lemma save_then_load_witness :
  loaded_messages "bob" (st_db (save_message (demo_message 30 "third") demo_store).2) ≡ₚ
  set_id 3 (demo_message 30 "third") :: loaded_messages "bob" (st_db demo_store).
Proof.
  assert (message_ok (demo_message 30 "third")) as Hok
    by (apply demo_message_ok; [unfold in_s; cbn; lia|done]).
  assert (max_rowid (rows (st_db demo_store)) ≠ MAX_ROWID) as Hmax by (vm_compute; congruence).
  pose proof (save_then_load (demo_message 30 "third") demo_store demo_store_wf Hok eq_refl Hmax)
    as H.
  destruct (save_message (demo_message 30 "third") demo_store) as [id st'] eqn:E.
  destruct H as [_ H]. apply (f_equal fst) in E. vm_compute in E. subst id.
  apply (H "bob"). reflexivity.
Defined.

Lemma load_conversation_sorted_witness :
  ∃ conv, load_conversation "bob" (st_db demo_store) = Some conv ∧
    msg_body <$> messages_ conv = ["first"; "second"] ∧ pinned_ik_pub_ conv = "ik" ∧
    Sorted (λ a b, msg_timestamp_ms a ≤ msg_timestamp_ms b) (messages_ conv).
Proof.
  destruct (load_conversation "bob" (st_db demo_store)) as [conv|] eqn:E; [|by vm_compute in E].
  exists conv.
  destruct (load_conversation_sorted "bob" (st_db demo_store) conv demo_store_wf E)
    as (_ & Hs & _ & Hp).
  split; [done|]. split; [|split; [by rewrite Hp|done]].
  vm_compute in E. by injection E as <-.
Defined.

Lemma list_peers_spec_witness :
  list_peers (st_db demo_store) = ["bob"] ∧ NoDup (list_peers (st_db demo_store)).
Proof.
  split; [by vm_compute|]. apply (list_peers_spec (st_db demo_store) demo_store_wf).
Defined.

Lemma demo_store_timestamps :
  NoDup ((λ kr, r_timestamp_ms kr.2) <$> peer_rows "bob" (st_db demo_store)).
Proof. apply (bool_decide_unpack _). by vm_compute. Qed.

Lemma mark_deleted_refines_witness :
  load_conversation "bob" (MessageStore.mark_message_deleted 1 (st_db demo_store)) =
  Conversation.mark_message_deleted 1 <$> load_conversation "bob" (st_db demo_store).
Proof.
  apply (mark_deleted_refines "bob" 1 (st_db demo_store));
    [apply demo_store_wf|unfold in_u; lia|apply demo_store_timestamps].
Defined.

Lemma update_body_refines_witness :
  load_conversation "bob" (MessageStore.update_message_body 2 "new" (st_db demo_store)) =
  Conversation.update_message_body 2 "new" <$> load_conversation "bob" (st_db demo_store).
Proof.
  apply (update_body_refines "bob" 2 "new" (st_db demo_store));
    [apply demo_store_wf|unfold in_u; lia|done|apply demo_store_timestamps].
Defined.

Lemma key_store_refines_map_witness :
  load_kind KDek "bob" (save_kind KState "bob" "s" (save_dek "bob" "d" fresh_db)) = Some "d".
Proof.
  rewrite (key_store_refines_map KDek "bob" KState "bob" "s"); [|reflexivity..].
  reflexivity.
Defined.

Lemma open_store_persistent_witness :
  ∃ d, open_store empty_db = (Ret tt, d) ∧
    let d' := st_db (foldl (flip run_op) (mkStore d 0) [SaveMessage (demo_message 1 "x")]) in
    db_wf d' ∧ open_store d' = (Ret tt, d').
Proof.
  apply (open_store_persistent [SaveMessage (demo_message 1 "x")]).
  apply Forall_singleton. apply demo_message_ok; [unfold in_s; cbn; lia|reflexivity].
Defined.

(** A database of the oldest release with one message in it. *)
Definition legacy_db : Db :=
  set_table (mkTable base_cols {[1 := row_of_message (demo_message 5 "old")]}) empty_db.

Lemma migration_disables_messages_witness :
  ∃ d', open_store legacy_db = (Ret tt, d') ∧ size (rows d') = 1%nat ∧
    load_conversation "bob" d' = None.
Proof.
  destruct (migration_disables_messages legacy_db
    (mkTable base_cols {[1 := row_of_message (demo_message 5 "old")]}) eq_refl)
    as (d' & Ho & Hd & Hl & _).
  - apply (bool_decide_unpack _). vm_compute. exact I.
  - exists d'. split; [done|]. split; [|apply Hl].
    rewrite <-size_dom, Hd. by vm_compute.
Defined.

Lemma migration_second_open_witness :
  ∃ d'', open_store (set_table (mkTable reordered_cols {[1 := row_delete (row_of_message
      (demo_message 5 "old"))]}) empty_db) = (Ret tt, d'') ∧
    map_Forall (λ _ r, r_deleted r = 0) (rows d'').
Proof.
  destruct (migration_second_open (set_table (mkTable reordered_cols {[1 := row_delete
    (row_of_message (demo_message 5 "old"))]}) empty_db) eq_refl) as (d'' & Ho & _ & _ & Hr).
  by exists d''.
Defined.
