(* ===== verification/TlsContext.v ===== *)
(** * TlsContext: the constructor and the destructor of [client/src/connection/TlsContext.cpp]

    The owner of the OpenSSL context.  OpenSSL's functions are the class [SslCtxLib], with
    the contexts that exist and their settings as what the laws speak of.  Verification
    and pinning, which work on a connection, are in [Connection]. *)

From S2P Require Import Prelude.
Local Open Scope Z_scope.

Definition TLS1_3_VERSION : Z := 772.  (* 0x0304 *)

(** OpenSSL's context functions; [None] is the null pointer, [false] a failure. *)
Class SslCtxLib := {
  ssl_lib : Type;
  SSL_CTX_new : ssl_lib → ssl_lib * option Z;
  SSL_CTX_set_min_proto_version : ssl_lib → Z → Z → ssl_lib * bool;
  SSL_CTX_set_max_proto_version : ssl_lib → Z → Z → ssl_lib * bool;
  SSL_CTX_set_default_verify_paths : ssl_lib → Z → ssl_lib * bool;
  SSL_CTX_load_verify_locations : ssl_lib → Z → string → ssl_lib * bool;
  SSL_CTX_free : ssl_lib → Z → ssl_lib;
}.

(** The settings of a context: the least and the greatest protocol version. *)
Record SslCtx : Type := mkSslCtx { min_proto : Z; max_proto : Z }.

Definition set_min_proto (v : Z) (c : SslCtx) : SslCtx := mkSslCtx v (max_proto c).
Definition set_max_proto (v : Z) (c : SslCtx) : SslCtx := mkSslCtx (min_proto c) v.

(** [contexts] are the contexts allocated and not yet freed. *)
Class SslCtxLaws `{SslCtxLib} := {
  contexts : ssl_lib → gmap Z SslCtx;
  ctx_new_ok l l' p : SSL_CTX_new l = (l', Some p) →
    contexts l !! p = None ∧ ∃ c, contexts l' = <[p := c]> (contexts l);
  ctx_new_null l l' : SSL_CTX_new l = (l', None) → contexts l' = contexts l;
  ctx_set_min l l' p v ok : SSL_CTX_set_min_proto_version l p v = (l', ok) →
    contexts l' = if ok then alter (set_min_proto v) p (contexts l) else contexts l;
  ctx_set_max l l' p v ok : SSL_CTX_set_max_proto_version l p v = (l', ok) →
    contexts l' = if ok then alter (set_max_proto v) p (contexts l) else contexts l;
  ctx_verify_paths l l' p ok :
    SSL_CTX_set_default_verify_paths l p = (l', ok) → contexts l' = contexts l;
  ctx_load l l' p f ok :
    SSL_CTX_load_verify_locations l p f = (l', ok) → contexts l' = contexts l;
  ctx_free l p : contexts (SSL_CTX_free l p) = delete p (contexts l);
}.

Section tls_context.
Context `{SslCtxLib}.

Definition ssl_call {A} (f : ssl_lib → ssl_lib * A) : M ssl_lib A := λ l,
  let '(l', a) := f l in (Ret a, l').

(** [TlsContext::TlsContext], returning [ctx_]; [windows] says which build it is.  The
    answers of the two version calls and of the extra bundle are not looked at. *)
Definition TlsContext_new (windows : bool) : M ssl_lib Z :=
  ctx_ ← ssl_call SSL_CTX_new;
  match ctx_ with
  | None => throw "SSL_CTX_new failed"
  | Some ctx_ =>
    ssl_call (λ l, SSL_CTX_set_min_proto_version l ctx_ TLS1_3_VERSION) ;;
    ssl_call (λ l, SSL_CTX_set_max_proto_version l ctx_ TLS1_3_VERSION) ;;
    ok ← ssl_call (λ l, SSL_CTX_set_default_verify_paths l ctx_);
    if negb ok then
      modify (λ l, SSL_CTX_free l ctx_) ;;
      throw "SSL_CTX_set_default_verify_paths failed"
    else
      when windows
        (ssl_call (λ l, SSL_CTX_load_verify_locations l ctx_
           "C:/msys64/mingw64/etc/ssl/certs/ca-bundle.crt") ;; mret tt) ;;
      mret ctx_
  end.

(** [TlsContext::~TlsContext]; a null [ctx_] is not freed. *)
Definition TlsContext_delete (ctx_ : option Z) : M ssl_lib unit :=
  match ctx_ with
  | Some p => modify (λ l, SSL_CTX_free l p)
  | None => mret tt
  end.

Context `{!SslCtxLaws}.

Lemma wp_ssl_call {A} (f : ssl_lib → ssl_lib * A) (Q : A → ssl_lib → Prop) E l :
  (∀ l' a, f l = (l', a) → Q a l') → wp (ssl_call f) Q E l.
Proof. intros HQ. unfold wp, ssl_call. destruct (f l) as [l' a]. by apply HQ. Qed.

(** The context belongs to its owner: a constructor that throws leaves no context behind, one
    that returns leaves exactly one, restricted to TLS 1.3 when the library can restrict
    it, and the destructor frees it. *)
Theorem tls_context_owned windows l :
  wp (TlsContext_new windows)
    (λ p l', ∃ c, contexts l' = <[p := c]> (contexts l) ∧
       (∃ l2, TlsContext_delete (Some p) l' = (Ret tt, l2) ∧ contexts l2 = contexts l) ∧
       ((∀ l0 p0 v, (SSL_CTX_set_min_proto_version l0 p0 v).2 = true ∧
                    (SSL_CTX_set_max_proto_version l0 p0 v).2 = true) →
        c = mkSslCtx TLS1_3_VERSION TLS1_3_VERSION))
    (λ _ l', contexts l' = contexts l) l.
Proof.
  unfold TlsContext_new. apply wp_bind, wp_ssl_call. intros l1 [p|] H1.
  2:{ apply wp_throw. by apply ctx_new_null. }
  apply ctx_new_ok in H1 as [Hp [c1 Hc1]].
  apply wp_bind, wp_ssl_call. intros l2 ok2 H2. apply wp_bind, wp_ssl_call. intros l3 ok3 H3.
  assert (∃ c, contexts l3 = <[p := c]> (contexts l) ∧
    (ok2 = true → ok3 = true → c = mkSslCtx TLS1_3_VERSION TLS1_3_VERSION)) as (c & Hc & Htls).
  { pose proof (ctx_set_min _ _ _ _ _ H2) as E2. pose proof (ctx_set_max _ _ _ _ _ H3) as E3.
    rewrite E3, E2, Hc1. destruct ok2, ok3; rewrite ?alter_insert_eq; by eexists. }
  apply wp_bind, wp_ssl_call. intros l4 ok4 H4. apply ctx_verify_paths in H4.
  destruct ok4; cbn [negb].
  2:{ apply wp_bind, wp_modify, wp_throw. rewrite ctx_free, H4, Hc. by apply delete_insert_id. }
  assert (∀ l5, contexts l5 = contexts l4 → ∃ c, contexts l5 = <[p := c]> (contexts l) ∧
    (∃ l2, TlsContext_delete (Some p) l5 = (Ret tt, l2) ∧ contexts l2 = contexts l) ∧
    ((∀ l0 p0 v, (SSL_CTX_set_min_proto_version l0 p0 v).2 = true ∧
                 (SSL_CTX_set_max_proto_version l0 p0 v).2 = true) →
     c = mkSslCtx TLS1_3_VERSION TLS1_3_VERSION)) as Hend.
  { intros l5 H5. exists c. rewrite H5, H4, Hc. split; [done|]. split.
    - eexists. split; [reflexivity|]. rewrite ctx_free, H5, H4, Hc. by apply delete_insert_id.
    - intros Hok. apply Htls.
      + destruct (Hok l1 p TLS1_3_VERSION) as [E _]. by rewrite H2 in E.
      + destruct (Hok l2 p TLS1_3_VERSION) as [_ E]. by rewrite H3 in E. }
  apply wp_bind, wp_when. destruct windows; [|by apply wp_ret, Hend].
  apply wp_bind, wp_ssl_call. intros l5 ok5 H5. apply wp_ret, wp_ret, Hend. by eapply ctx_load.
Qed.
End tls_context.

(** ** A library that always works *)

Definition ref_ssl : SslCtxLib := {|
  ssl_lib := gmap Z SslCtx;
  SSL_CTX_new l := (<[fresh (dom l) := mkSslCtx 0 0]> l, Some (fresh (dom l)));
  SSL_CTX_set_min_proto_version l p v := (alter (set_min_proto v) p l, true);
  SSL_CTX_set_max_proto_version l p v := (alter (set_max_proto v) p l, true);
  SSL_CTX_set_default_verify_paths l p := (l, true);
  SSL_CTX_load_verify_locations l p f := (l, true);
  SSL_CTX_free l p := delete p l;
|}.

#[refine] Instance ref_ssl_laws : @SslCtxLaws ref_ssl := {| contexts := λ l : @ssl_lib ref_ssl, l |}.
Proof.
  - intros l l' p [= <- <-]. split; [|by eexists]. apply not_elem_of_dom, is_fresh.
  - done.
  - by intros l l' p v ok [= <- <-].
  - by intros l l' p v ok [= <- <-].
  - by intros l l' p ok [= <- <-].
  - by intros l l' p f ok [= <- <-].
  - done.
Qed.
