(* ===== verification/Connection.v ===== *)
(** * Connection: [client/src/connection/{Connection,TlsContext}.cpp]

    The byte transport over TLS, certificate pinning, the WebSocket upgrade and
    the WebSocket framing.  OpenSSL, Boost.Asio and the random generator are
    third-party code: a class of operations on an abstract network endpoint.  Their documented behaviour is
    the class [NetIoLaws]: what a successful read hands out is the next part of
    the incoming byte stream, what a successful write takes is appended to the
    outgoing one. *)

From S2P Require Import Prelude.
Local Open Scope Z_scope.

(** ** The network interface *)

Class NetIo := {
  net : Type;
  (** bytes read (at least one, at most the limit), or the [SSL_get_error] code *)
  SSL_read : net → nat → net * (bytes + Z);
  (** number of bytes written, or the [SSL_get_error] code *)
  SSL_write : net → bytes → net * (nat + Z);
  (** reads exactly that many bytes, or [ec.message()] *)
  asio_read : net → nat → net * (bytes + string);
  (** writes everything, or [ec.message()] *)
  asio_write : net → bytes → net * (unit + string);
  RAND_bytes : net → nat → net * option bytes;
  SHA1 : bytes → bytes;
  EVP_EncodeBlock_raw : bytes → string;
  (** name resolution and [connect], with [what()] of the exception it throws *)
  tcp_connect_io : net → string → Z → net * (unit + string);
  (** [shutdown] and [close] of the socket *)
  sock_close : net → net;
  SSL_new : net → net * bool;
  SSL_set_tlsext_host_name : net → string → net * bool;
  SSL_set1_host : net → string → net * bool;
  SSL_connect : net → net * bool;
  SSL_get_verify_result : net → Z;
  X509_verify_cert_error_string : Z → string;
  (** the texts of the OpenSSL error queue, oldest first *)
  ERR_queue : net → list string;
  (** the peer's certificate: none, or the SHA-256 digest ([None] when
      [X509_digest] fails) *)
  SSL_get1_peer_certificate : net → option (option bytes);
}.

(** The two byte streams of an endpoint, and how the operations move them. *)
Class NetIoLaws `{NetIo} := {
  incoming : net → bytes;
  outgoing : net → bytes;
  SSL_read_ok s n s' bs :
    (0 < n)%nat → SSL_read s n = (s', inl bs) →
    (0 < length bs ≤ n)%nat ∧ incoming s = bs ++ incoming s' ∧ outgoing s' = outgoing s;
  SSL_read_err s n s' e :
    SSL_read s n = (s', inr e) → incoming s' = incoming s ∧ outgoing s' = outgoing s;
  SSL_write_ok s d s' k :
    d ≠ [] → SSL_write s d = (s', inl k) →
    (0 < k ≤ length d)%nat ∧ outgoing s' = outgoing s ++ take k d ∧ incoming s' = incoming s;
  SSL_write_err s d s' e :
    SSL_write s d = (s', inr e) → incoming s' = incoming s ∧ outgoing s' = outgoing s;
  asio_read_ok s n s' bs :
    asio_read s n = (s', inl bs) →
    length bs = n ∧ incoming s = bs ++ incoming s' ∧ outgoing s' = outgoing s;
  asio_read_err s n s' e :
    asio_read s n = (s', inr e) →
    suffix (incoming s') (incoming s) ∧ outgoing s' = outgoing s;
  asio_write_ok s d s' u :
    asio_write s d = (s', inl u) → outgoing s' = outgoing s ++ d ∧ incoming s' = incoming s;
  asio_write_err s d s' e :
    asio_write s d = (s', inr e) → incoming s' = incoming s;
  RAND_bytes_ok s n s' bs :
    RAND_bytes s n = (s', Some bs) →
    length bs = n ∧ Forall is_byte bs ∧ incoming s' = incoming s ∧ outgoing s' = outgoing s;
  RAND_bytes_err s n s' :
    RAND_bytes s n = (s', None) → incoming s' = incoming s ∧ outgoing s' = outgoing s;
  incoming_bytes s : Forall is_byte (incoming s);
}.

(** [class Connection].  [ssl_], [read_thread_] and [ping_thread_] record whether
    the pointer is non-null and whether the threads are joinable. *)
Record Conn `{NetIo} : Type := mkConn {
  host_ : string;
  port_ : Z;
  tls_ : bool;
  connected_ : bool;
  running_ : bool;
  sock_open : bool;
  ssl_ : bool;
  read_thread_ : bool;
  ping_thread_ : bool;
  server_cert_fp_ : string;
  io : net;
}.
Arguments mkConn {_} _ _ _ _ _ _ _ _ _ _ _.

(** [Connection::Connection] *)
Definition new_connection `{NetIo} (host : string) (port : Z) (tls : bool) (s : net) : Conn :=
  mkConn host port tls false false false false false false "" s.

Definition set_io `{NetIo} (s : net) (c : Conn) : Conn :=
  mkConn (host_ c) (port_ c) (tls_ c) (connected_ c) (running_ c) (sock_open c) (ssl_ c)
    (read_thread_ c) (ping_thread_ c) (server_cert_fp_ c) s.
Definition set_flags `{NetIo} (connected running : bool) (c : Conn) : Conn :=
  mkConn (host_ c) (port_ c) (tls_ c) connected running (sock_open c) (ssl_ c)
    (read_thread_ c) (ping_thread_ c) (server_cert_fp_ c) (io c).
Definition set_sock_open `{NetIo} (b : bool) (c : Conn) : Conn :=
  mkConn (host_ c) (port_ c) (tls_ c) (connected_ c) (running_ c) b (ssl_ c)
    (read_thread_ c) (ping_thread_ c) (server_cert_fp_ c) (io c).
Definition set_ssl `{NetIo} (b : bool) (c : Conn) : Conn :=
  mkConn (host_ c) (port_ c) (tls_ c) (connected_ c) (running_ c) (sock_open c) b
    (read_thread_ c) (ping_thread_ c) (server_cert_fp_ c) (io c).
Definition set_threads `{NetIo} (r p : bool) (c : Conn) : Conn :=
  mkConn (host_ c) (port_ c) (tls_ c) (connected_ c) (running_ c) (sock_open c) (ssl_ c)
    r p (server_cert_fp_ c) (io c).
Definition set_server_cert_fp `{NetIo} (fp : string) (c : Conn) : Conn :=
  mkConn (host_ c) (port_ c) (tls_ c) (connected_ c) (running_ c) (sock_open c) (ssl_ c)
    (read_thread_ c) (ping_thread_ c) fp (io c).

Section connection.
Context `{NetIo}.

(** Running one operation of the endpoint. *)
Definition on_io {A} (f : net → net * A) : M Conn A := λ c,
  let '(s, a) := f (io c) in (Ret a, set_io s c).

(** ** Raw I/O *)

(** The loop of [ssl_read_exact]: [n - total] bytes are still missing.  Each
    successful [SSL_read] delivers at least one of them, so [n] rounds suffice. *)
Fixpoint ssl_read_loop (fuel n : nat) (buf : bytes) : M Conn bytes :=
  if (length buf <? n)%nat then
    match fuel with
    | O => stuck "ssl_read_exact: out of fuel"
    | S fuel =>
      got ← on_io (λ s, SSL_read s (n - length buf));
      match got with
      | inl bs => ssl_read_loop fuel n (buf ++ bs)
      | inr err => throw ("SSL_read failed: error code " +:+ pretty err)
      end
    end
  else mret buf.

Definition ssl_read_exact (n : nat) : M Conn bytes :=
  tls ← gets tls_;
  if (tls : bool) then ssl_read_loop n n []
  else
    got ← on_io (λ s, asio_read s n);
    match got with
    | inl bs => mret bs
    | inr e => throw ("read failed: " +:+ e)
    end.

(** The loop of [ssl_write_all] on the part of [data] not written yet. *)
Fixpoint ssl_write_loop (fuel : nat) (data : bytes) : M Conn unit :=
  match data with
  | [] => mret tt
  | _ =>
    match fuel with
    | O => stuck "ssl_write_all: out of fuel"
    | S fuel =>
      written ← on_io (λ s, SSL_write s data);
      match written with
      | inl k => ssl_write_loop fuel (drop k data)
      | inr err => throw ("SSL_write failed: error code " +:+ pretty err)
      end
    end
  end.

Definition ssl_write_all (data : bytes) : M Conn unit :=
  tls ← gets tls_;
  if (tls : bool) then ssl_write_loop (length data) data
  else
    r ← on_io (λ s, asio_write s data);
    match r with
    | inl _ => mret tt
    | inr e => throw ("write failed: " +:+ e)
    end.

(** ** Sending frames *)

(** Byte 0 and the length bytes of [ws_encode_frame]. *)
Definition encode_header (opcode : Z) (len : Z) : bytes :=
  Z.lor 0x80 (Z.land opcode 0x0f) ::
  (if len <? 126 then [Z.lor 0x80 len]
   else if len <? 65536 then
     [Z.lor 0x80 126; Z.land (Z.shiftr len 8) 0xff; Z.land len 0xff]
   else
     Z.lor 0x80 127 ::
     ((λ i, Z.land (Z.shiftr len (8 * i)) 0xff) <$> [7; 6; 5; 4; 3; 2; 1; 0])).

(** [payload[i] ^ mask[i % 4]], from position [i] on. *)
Fixpoint mask_from (mask : bytes) (i : nat) (payload : bytes) : bytes :=
  match payload with
  | [] => []
  | b :: payload => Z.lxor b (nth (i mod 4) mask 0) :: mask_from mask (S i) payload
  end.

Definition ws_encode_frame (opcode : Z) (payload : bytes) : M Conn bytes :=
  mask ← on_io (λ s, RAND_bytes s 4);
  match mask with
  | None => throw "RAND_bytes failed generating WS mask"
  | Some mask =>
    mret (encode_header opcode (u64 (Z.of_nat (length payload))) ++ mask
          ++ mask_from mask 0 payload)
  end.

Definition ws_send_frame (opcode : Z) (payload : bytes) : M Conn unit :=
  frame ← ws_encode_frame opcode payload; ssl_write_all frame.

Definition send_text (payload : string) : M Conn unit :=
  connected ← gets connected_;
  if (connected : bool) then ws_send_frame 0x01 (bytes_of_string payload)
  else throw "not connected".

(** ** Receiving frames *)

Definition kMaxFramePayload : Z := 16384.

(** The length bytes after the second header byte. *)
Definition read_payload_len (len7 : Z) : M Conn Z :=
  if len7 =? 126 then
    ext ← ssl_read_exact 2;
    mret (Z.lor (Z.shiftl (nth 0 ext 0) 8) (nth 1 ext 0))
  else if len7 =? 127 then
    ext ← ssl_read_exact 8;
    mret (foldl (λ p b, Z.lor (u64 (Z.shiftl p 8)) b) 0 ext)
  else mret len7.

(** The exception a close frame raises. *)
Definition close_text (payload : bytes) : string :=
  match payload with
  | hi :: lo :: reason =>
    let code := u16 (Z.lor (Z.shiftl hi 8) lo) in
    let reason := string_of_bytes reason in
    "ws: close " +:+ pretty code +:+ (if str_empty reason then "" else ": " +:+ reason)
  | _ => "ws: server sent close frame"
  end.

(** What [ws_decode_frame] does with one complete frame; [again] is the next
    iteration of its loop, with the values of [message] and [assembling]. *)
Definition dispatch_frame (again : bytes → bool → M Conn bytes) (fin : bool) (opcode : Z)
    (payload message : bytes) (assembling : bool) : M Conn bytes :=
  if opcode =? 0x08 then throw (close_text payload)
  else if opcode =? 0x09 then ws_send_frame 0x0a payload ;; again message assembling
  else if opcode =? 0x0a then again message assembling
  else if (opcode =? 0x01) || (opcode =? 0x02) then
    if assembling then throw "ws: new data frame during fragmented message"
    else if fin then mret payload
    else again payload true
  else if opcode =? 0x00 then
    if negb assembling then throw "ws: continuation frame with no message in progress"
    else if kMaxFramePayload <? Z.of_nat (length message + length payload)
    then throw "ws: reassembled message exceeds limit"
    else if fin then mret (message ++ payload)
    else again (message ++ payload) assembling
  else throw "ws: unknown opcode".

(** The loop of [ws_decode_frame], one iteration per frame. *)
Fixpoint ws_decode_loop (fuel : nat) (message : bytes) (assembling : bool) : M Conn bytes :=
  match fuel with
  | O => stuck "ws_decode_frame: out of fuel"
  | S fuel =>
    hdr ← ssl_read_exact 2;
    let b0 := nth 0 hdr 0 in
    let b1 := nth 1 hdr 0 in
    let fin := negb (Z.land b0 0x80 =? 0) in
    let opcode := Z.land b0 0x0f in
    let server_mask := negb (Z.land b1 0x80 =? 0) in
    payload_len ← read_payload_len (Z.land b1 0x7f);
    if kMaxFramePayload <? payload_len then throw "ws: frame payload exceeds limit"
    else if server_mask then throw "ws: server frame is masked (protocol violation)"
    else if negb (Z.land opcode 0x08 =? 0) && (negb fin || (125 <? payload_len))
    then throw "ws: malformed control frame"
    else
      payload ← ssl_read_exact (Z.to_nat payload_len);
      dispatch_frame (ws_decode_loop fuel) fin opcode payload message assembling
  end.

Definition ws_decode_frame (fuel : nat) : M Conn string :=
  msg ← ws_decode_loop fuel [] false; mret (string_of_bytes msg).

(** ** The WebSocket upgrade *)

Definition kGuid : string := "258EAFA5-E914-47DA-95CA-C5AB0DC85B11".

Definition ws_compute_accept (client_key : string) : string :=
  String.substring 0 28 (EVP_EncodeBlock_raw (SHA1 (bytes_of_string (client_key +:+ kGuid)))).

Definition ws_key_base64 : M Conn string :=
  r ← on_io (λ s, RAND_bytes s 16);
  match r with
  | None => throw "RAND_bytes failed generating WS key"
  | Some buf => mret (String.substring 0 24 (EVP_EncodeBlock_raw buf))
  end.

(** [ws_header_value]: the text after the first case-insensitive occurrence of
    ["name:"], up to the end of its line, without surrounding white space. *)
Definition ws_header_value (response name : string) : string :=
  let lower := to_lower response in
  let lname := to_lower name in
  match String.index 0 (lname +:+ ":") lower with
  | None => ""
  | Some key =>
    let start := (key + String.length lname + 1)%nat in
    let value :=
      match String.index start crlf response with
      | Some e => String.substring start (e - start) response
      | None => String.substring start (String.length response - start) response
      end in
    trim value
  end.

Definition ws_request (host key : string) : string :=
  "GET /backend/ws HTTP/1.1" +:+ crlf +:+
  "Host: " +:+ host +:+ crlf +:+
  "Upgrade: websocket" +:+ crlf +:+
  "Connection: Upgrade" +:+ crlf +:+
  "Sec-WebSocket-Key: " +:+ key +:+ crlf +:+
  "Sec-WebSocket-Version: 13" +:+ crlf +:+ crlf.

(** [response.size() >= 4 && response.substr(size - 4) == "\r\n\r\n"] *)
Definition ends_headers (resp : bytes) : bool :=
  bool_decide ((4 ≤ length resp)%nat ∧ drop (length resp - 4) resp = [13; 10; 13; 10]).

(** Reads the response head byte by byte; the size limit bounds the rounds. *)
Fixpoint read_head (fuel : nat) (resp : bytes) : M Conn bytes :=
  if ends_headers resp then mret resp
  else
    match fuel with
    | O => stuck "ws_handshake: out of fuel"
    | S fuel =>
      b ← ssl_read_exact 1;
      let resp := resp ++ b in
      if 8192 <? Z.of_nat (length resp) then throw "ws_handshake: response header too large"
      else read_head fuel resp
    end.

Definition head_fuel : nat := Z.to_nat 8193.

Definition status_line (response : string) : string :=
  match String.index 0 crlf response with
  | Some e => String.substring 0 e response
  | None => response
  end.

Definition check_upgrade (key : string) (response : string) : M Conn unit :=
  if negb (String.prefix "HTTP/1.1 101" (status_line response)) then
    throw ("ws_handshake: expected 101 Switching Protocols, got: " +:+ status_line response)
  else if negb (bool_decide (ws_header_value response "sec-websocket-accept"
                             = ws_compute_accept key)) then
    throw "ws_handshake: invalid Sec-WebSocket-Accept"
  else mret tt.

Definition ws_handshake : M Conn unit :=
  key ← ws_key_base64;
  host ← gets host_;
  ssl_write_all (bytes_of_string (ws_request host key)) ;;
  resp ← read_head head_fuel [];
  check_upgrade key (string_of_bytes resp).

(** ** TLS and certificate pinning ([TlsContext.cpp]) *)

Definition hex_digit (z : Z) : ascii :=
  nth (Z.to_nat z) (String.list_ascii_of_string "0123456789abcdef") Ascii.zero.

(** [TlsContext::cert_sha256_fingerprint] on the digest *)
Fixpoint hex_of_bytes (digest : bytes) : string :=
  match digest with
  | [] => EmptyString
  | b :: digest =>
    String (hex_digit (Z.land (Z.shiftr b 4) 0xf))
      (String (hex_digit (Z.land b 0xf)) (hex_of_bytes digest))
  end.

Definition verify_and_pin (host pinned_fp : string) : M Conn string :=
  s ← gets io;
  let result := SSL_get_verify_result s in
  if negb (result =? 0) then
    throw ("cert verify failed: " +:+ X509_verify_cert_error_string result)
  else
    match SSL_get1_peer_certificate s with
    | None => throw ("no peer certificate from " +:+ host)
    | Some None => throw "X509_digest failed"
    | Some (Some digest) =>
      let fp := hex_of_bytes digest in
      if negb (str_empty pinned_fp) && negb (bool_decide (fp = pinned_fp)) then
        throw ("certificate pin mismatch for " +:+ host +:+
               " — cert changed, possible MITM")
      else mret fp
    end.

(** Turning an OpenSSL status into the exception the code throws. *)
Definition require (what : string) (f : net → net * bool) : M Conn unit :=
  ok ← on_io f; if (ok : bool) then mret tt else throw what.

Definition connect_error (s : net) : string :=
  let verify := SSL_get_verify_result s in
  "SSL_connect failed" +:+
  (if verify =? 0 then "" else ": " +:+ X509_verify_cert_error_string verify) +:+
  foldr (λ e msg, "; " +:+ e +:+ msg) "" (ERR_queue s).

Definition tls_handshake (pinned_fp : string) : M Conn unit :=
  modify (set_ssl false) ;;
  require "SSL_new failed" SSL_new ;;
  modify (set_ssl true) ;;
  host ← gets host_;
  require "SSL_set_tlsext_host_name failed" (λ s, SSL_set_tlsext_host_name s host) ;;
  require "SSL_set1_host failed" (λ s, SSL_set1_host s host) ;;
  ok ← on_io SSL_connect;
  if (ok : bool) then
    fp ← verify_and_pin host pinned_fp;
    modify (set_server_cert_fp fp)
  else s ← gets io; throw (connect_error s).

(** ** Lifecycle *)

Definition tcp_connect : M Conn unit :=
  host ← gets host_;
  port ← gets port_;
  r ← on_io (λ s, tcp_connect_io s host port);
  match r with
  | inl _ => modify (set_sock_open true)
  | inr what => throw what
  end.

(** [disconnect], called from a thread other than the two it joins. *)
Definition disconnect : M Conn unit :=
  modify (set_flags false false) ;;
  opened ← gets sock_open;
  when opened (modify (λ c, set_sock_open false (set_io (sock_close (io c)) c))) ;;
  modify (set_threads false false) ;;
  modify (set_ssl false).

Definition connect (pinned_fp : string) : M Conn unit :=
  disconnect ;;
  tcp_connect ;;
  tls ← gets tls_;
  when tls (tls_handshake pinned_fp) ;;
  ws_handshake ;;
  modify (set_flags true true) ;;
  modify (set_threads true true).
End connection.
