(* ===== verification/ConnectionFacts.v ===== *)
(** * ConnectionFacts: properties of the transport and the WebSocket framing *)

From S2P Require Import Prelude Connection.
Local Open Scope Z_scope.

#[local] Arguments encode_header : simpl never.

(** ** Bits *)

Lemma testbit_high b n i : 0 ≤ b < 2 ^ n → 0 ≤ n → n ≤ i → Z.testbit b i = false.
Proof.
  intros Hb Hn Hi. destruct (decide (b = 0)) as [->|]; [apply Z.bits_0|].
  apply Z.bits_above_log2; [lia|]. apply Z.lt_le_trans with n; [|done].
  apply Z.log2_lt_pow2; lia.
Qed.

Lemma lor_shiftl a b n :
  0 ≤ n → 0 ≤ b < 2 ^ n → Z.lor (Z.shiftl a n) b = a * 2 ^ n + b.
Proof.
  intros Hn Hb. rewrite <-Z.add_nocarry_lor; [by rewrite Z.shiftl_mul_pow2|].
  apply Z.bits_inj'. intros i Hi. rewrite Z.land_spec, Z.bits_0.
  destruct (decide (i < n)).
  - by rewrite Z.shiftl_spec_low.
  - rewrite (testbit_high b n i) by lia. apply andb_false_r.
Qed.

Lemma lor_high_bit b : 0 ≤ b < 128 → Z.lor 0x80 b = 128 + b.
Proof. intros Hb. etrans; [apply (lor_shiftl 1 b 7); cbn; lia|cbn; lia]. Qed.

Lemma land_ff z : Z.land z 0xff = z mod 256.
Proof. change 0xff with (Z.ones 8). by rewrite Z.land_ones. Qed.
Lemma land_0f z : Z.land z 0x0f = z mod 16.
Proof. change 0x0f with (Z.ones 4). by rewrite Z.land_ones. Qed.
Lemma land_7f z : Z.land z 0x7f = z mod 128.
Proof. change 0x7f with (Z.ones 7). by rewrite Z.land_ones. Qed.

Lemma land_80_small b : 0 ≤ b < 128 → Z.land b 0x80 = 0.
Proof.
  intros Hb. apply Z.bits_inj'. intros i Hi. rewrite Z.land_spec, Z.bits_0.
  destruct (decide (i = 7)) as [->|Hne].
  - by rewrite (testbit_high b 7 7) by lia.
  - change 0x80 with (2 ^ 7). rewrite Z.pow2_bits_false by lia. apply andb_false_r.
Qed.

Lemma lxor_byte a b : is_byte a → is_byte b → is_byte (Z.lxor a b).
Proof.
  unfold is_byte. intros Ha Hb. assert (0 ≤ Z.lxor a b) as H0 by (apply Z.lxor_nonneg; lia).
  split; [done|]. destruct (decide (Z.lxor a b = 0)) as [->|]; [lia|].
  change 256 with (2 ^ 8). apply Z.log2_lt_pow2; [lia|].
  pose proof (Z.log2_lxor a b ltac:(lia) ltac:(lia)) as Hl.
  assert (∀ x, 0 ≤ x < 256 → Z.log2 x < 8) as Hlog.
  { intros x Hx. destruct (decide (x = 0)) as [->|]; [cbn; lia|].
    apply Z.log2_lt_pow2; cbn; lia. }
  pose proof (Hlog a Ha). pose proof (Hlog b Hb). lia.
Qed.

Lemma lxor_involutive a b : Z.lxor (Z.lxor a b) b = a.
Proof. by rewrite Z.lxor_assoc, Z.lxor_nilpotent, Z.lxor_0_r. Qed.

(** ** What the raw I/O functions do to the streams *)

Section io.
Context `{NetIo} `{!NetIoLaws}.
Implicit Types c : Conn.

(** [c'] is [c] with another state of the network. *)
Definition only_io (c c' : Conn) : Prop := c' = set_io (io c') c.

#[global] Instance only_io_preorder : PreOrder only_io.
Proof.
  split; unfold only_io.
  - by intros [].
  - intros c1 c2 c3 H1 H2. rewrite H2 at 1. by rewrite H1 at 1.
Qed.

Lemma only_io_set_io c s : only_io c (set_io s c).
Proof. done. Qed.

Lemma on_io_run {A} (f : net → net * A) c s a :
  f (io c) = (s, a) → on_io f c = (Ret a, set_io s c).
Proof. unfold on_io. by intros ->. Qed.

Lemma wp_on_io {A} (f : net → net * A) Q E c :
  (∀ s a, f (io c) = (s, a) → Q a (set_io s c)) → wp (on_io f) Q E c.
Proof. intros HQ. unfold wp, on_io. destruct (f (io c)) as [s a]. by apply HQ. Qed.

(** [bs] was read from the incoming stream, nothing was sent. *)
Definition reads (bs : bytes) (c c' : Conn) : Prop :=
  incoming (io c) = bs ++ incoming (io c') ∧ outgoing (io c') = outgoing (io c) ∧ only_io c c'.

Lemma reads_nil c : reads [] c c.
Proof. split_and!; [done..|reflexivity]. Qed.

Lemma reads_app bs1 bs2 c1 c2 c3 : reads bs1 c1 c2 → reads bs2 c2 c3 → reads (bs1 ++ bs2) c1 c3.
Proof.
  intros (H1 & H2 & H3) (H4 & H5 & H6). split_and!.
  - by rewrite H1, H4, (assoc_L (++)).
  - congruence.
  - by etrans.
Qed.

(** A network on which reads only fail at the end of the stream and writes and
    the random generator do not fail. *)
Record Reliable : Prop := {
  reliable_read s n :
    (0 < n)%nat → incoming s ≠ [] → ∃ s' bs, SSL_read s n = (s', inl bs);
  reliable_asio_read s n :
    (n ≤ length (incoming s))%nat → ∃ s' bs, asio_read s n = (s', inl bs);
  reliable_write s d : d ≠ [] → ∃ s' k, SSL_write s d = (s', inl k);
  reliable_asio_write s d : ∃ s', asio_write s d = (s', inl tt);
  reliable_rand s n : ∃ s' bs, RAND_bytes s n = (s', Some bs);
}.

(** A failed read: some bytes were taken, and on a reliable network there were
    fewer than [n] left. *)
Definition read_fails (n : nat) (c c' : Conn) : Prop :=
  (∃ got, reads got c c') ∧ (Reliable → (length (incoming (io c)) < n)%nat).

Lemma ssl_read_loop_spec fuel n buf c :
  (n ≤ fuel + length buf)%nat → (length buf ≤ n)%nat →
  wp (ssl_read_loop fuel n buf)
    (λ bs c', ∃ got, bs = buf ++ got ∧ length bs = n ∧ reads got c c')
    (λ _ c', (∃ got, reads got c c') ∧
      (Reliable → (length (incoming (io c)) + length buf < n)%nat)) c.
Proof.
  revert buf c. induction fuel as [|fuel IH]; intros buf c Hf Hn; cbn [ssl_read_loop].
  - destruct (Nat.ltb_spec (length buf) n); [lia|]. apply wp_ret.
    exists []. rewrite (right_id_L [] (++)). split_and!; [done|lia|apply reads_nil].
  - destruct (Nat.ltb_spec (length buf) n) as [Hlt|Hge].
    + apply wp_bind, wp_on_io. intros s [bs|e] Hr.
      * apply SSL_read_ok in Hr as (Hl & Hin & Hout); [|lia].
        eapply wp_mono; [apply IH; rewrite length_app; lia| |].
        -- intros bs' c' (got & -> & Hlen & Hreads). exists (bs ++ got).
           rewrite (assoc_L (++)). split_and!; [done|done|].
           eapply reads_app; [|done]. by split_and!.
        -- intros e c' [(got & Hreads) Hrel]. split.
           ++ exists (bs ++ got). eapply reads_app; [|done]. by split_and!.
           ++ intros R. specialize (Hrel R). rewrite Hin, length_app.
              rewrite length_app in Hrel. cbn in *. lia.
      * pose proof Hr as Hr'. apply SSL_read_err in Hr as [Hin Hout]. apply wp_throw. split.
        -- exists []. by split_and!.
        -- intros R. destruct (incoming (io c)) as [|b l] eqn:E; [done|]. exfalso.
           destruct (reliable_read R (io c) (n - length buf)) as (? & ? & ?);
             [lia|by rewrite E|congruence].
    + apply wp_ret. exists []. rewrite (right_id_L [] (++)).
      split_and!; [done|lia|apply reads_nil].
Qed.

(** [ssl_read_exact n] returns exactly the next [n] bytes of the stream, or
    throws after having consumed some of them. *)
Lemma ssl_read_exact_spec n c :
  wp (ssl_read_exact n) (λ bs c', length bs = n ∧ reads bs c c')
    (λ _ c', read_fails n c c') c.
Proof.
  unfold ssl_read_exact. apply wp_bind, wp_gets. destruct (tls_ c).
  - eapply wp_mono; [apply (ssl_read_loop_spec n n []); cbn; lia| |].
    + intros bs c' (got & -> & Hl & Hr). done.
    + intros e c' [Hr Hrel]. split; [done|]. intros R. specialize (Hrel R). cbn in Hrel. lia.
  - apply wp_bind, wp_on_io. intros s [bs|e] Hr.
    + apply asio_read_ok in Hr as (Hl & Hin & Hout). apply wp_ret. by split_and!.
    + pose proof Hr as Hr'. apply asio_read_err in Hr as [[got Hin] Hout]. apply wp_throw.
      split; [exists got; by split_and!|]. intros R.
      destruct (decide (length (incoming (io c)) < n)%nat); [done|]. exfalso.
      destruct (reliable_asio_read R (io c) n) as (? & ? & ?); [lia|congruence].
Qed.

(** Only the outgoing stream moved. *)
Definition writes (bs : bytes) (c c' : Conn) : Prop :=
  outgoing (io c') = outgoing (io c) ++ bs ∧ incoming (io c') = incoming (io c) ∧ only_io c c'.

Lemma ssl_write_loop_spec fuel data c :
  (length data ≤ fuel)%nat →
  wp (ssl_write_loop fuel data) (λ _ c', writes data c c')
    (λ _ c', incoming (io c') = incoming (io c) ∧ only_io c c' ∧ ¬ Reliable) c.
Proof.
  revert data c. induction fuel as [|fuel IH]; intros [|b data] c Hf; cbn in Hf; try lia.
  - apply wp_ret. split_and!; [by rewrite (right_id_L [] (++))|done|reflexivity].
  - apply wp_ret. split_and!; [by rewrite (right_id_L [] (++))|done|reflexivity].
  - cbn [ssl_write_loop]. apply wp_bind, wp_on_io. intros s [k|e] Hw.
    + apply SSL_write_ok in Hw as (Hk & Hout & Hin); [|done].
      eapply wp_mono; [apply IH; rewrite length_drop; cbn in *; lia| |].
      * intros _ c' (H1 & H2 & H3). split_and!; cbn in *.
        -- rewrite H1, Hout, <-(assoc_L (++)). f_equal. apply take_drop.
        -- congruence.
        -- etrans; [apply (only_io_set_io c s)|done].
      * intros e c' (H1 & H2 & H3). cbn in *. split_and!; [congruence| |done].
        etrans; [apply (only_io_set_io c s)|done].
    + pose proof Hw as Hw'. apply SSL_write_err in Hw as [Hin _]. apply wp_throw.
      split_and!; [done|done|]. intros R.
      destruct (reliable_write R (io c) (b :: data)) as (? & ? & ?); [done|congruence].
Qed.

(** [ssl_write_all] sends exactly its argument, in order, or throws. *)
Lemma ssl_write_all_spec data c :
  wp (ssl_write_all data) (λ _ c', writes data c c')
    (λ _ c', incoming (io c') = incoming (io c) ∧ only_io c c' ∧ ¬ Reliable) c.
Proof.
  unfold ssl_write_all. apply wp_bind, wp_gets. destruct (tls_ c).
  - by apply ssl_write_loop_spec.
  - apply wp_bind, wp_on_io. intros s [u|e] Hw.
    + apply asio_write_ok in Hw as [Hout Hin]. apply wp_ret. by split_and!.
    + pose proof Hw as Hw'. apply asio_write_err in Hw. apply wp_throw.
      split_and!; [done|done|]. intros R.
      destruct (reliable_asio_write R (io c) data) as (? & ?). congruence.
Qed.
End io.

(** ** Safety of the decoder *)

Section decode_safety.
Context `{NetIo} `{!NetIoLaws}.
Implicit Types c : Conn.

(** Part of the incoming stream was consumed; the rest of it is unchanged. *)
Definition consumes (c c' : Conn) : Prop :=
  suffix (incoming (io c')) (incoming (io c)) ∧ only_io c c'.

#[global] Instance consumes_preorder : PreOrder consumes.
Proof. split; unfold consumes; [done|]. intros c1 c2 c3 [] []. split; by etrans. Qed.

Lemma reads_consumes bs c c' : reads bs c c' → consumes c c'.
Proof. intros (H1 & _ & H2). split; [|done]. by exists bs. Qed.
Lemma writes_consumes bs c c' : writes bs c c' → consumes c c'.
Proof. intros (_ & H1 & H2). split; [by rewrite H1|done]. Qed.

Lemma read_fails_consumes n c c' : read_fails n c c' → consumes c c'.
Proof. intros [[got Hr] _]. by eapply reads_consumes. Qed.

Lemma ws_send_frame_spec opcode payload c :
  wp (ws_send_frame opcode payload)
    (λ _ c', ∃ mask, length mask = 4%nat ∧ Forall is_byte mask ∧
      writes (encode_header opcode (u64 (Z.of_nat (length payload))) ++ mask
              ++ mask_from mask 0 payload) c c')
    (λ _ c', incoming (io c') = incoming (io c) ∧ only_io c c' ∧ ¬ Reliable) c.
Proof.
  unfold ws_send_frame, ws_encode_frame. apply wp_bind, wp_bind, wp_on_io.
  intros s [mask|] Hr.
  - apply RAND_bytes_ok in Hr as (Hl & Hb & Hin & Hout). apply wp_ret.
    eapply wp_mono; [apply ssl_write_all_spec| |].
    + intros _ c' (H1 & H2 & H3). exists mask. split_and!; [done|done|]. cbn in *.
      split_and!; [congruence|congruence|].
      etrans; [apply (only_io_set_io c s)|done].
    + intros e c' (H1 & H2 & H3). cbn in *. split_and!; [congruence| |done].
      etrans; [apply (only_io_set_io c s)|done].
  - pose proof Hr as Hr'. apply RAND_bytes_err in Hr as [Hin _]. apply wp_throw.
    split_and!; [done|done|]. intros R.
    destruct (reliable_rand R (io c) 4) as (? & ? & ?). congruence.
Qed.

Lemma read_payload_len_spec len7 c :
  wp (read_payload_len len7) (λ _, consumes c) (λ _, consumes c) c.
Proof.
  unfold read_payload_len. destruct (len7 =? 126); [|destruct (len7 =? 127)].
  3: apply wp_ret; reflexivity.
  all: apply wp_bind; eapply wp_mono; [apply ssl_read_exact_spec| |].
  all: intros x c' Hr; first [exact (read_fails_consumes _ _ _ Hr)
    |destruct Hr as [_ Hr]; exact (reads_consumes _ _ _ Hr)].
Qed.

(** A frame has at least the two bytes of its header. *)
Definition consumes_frame (c c' : Conn) : Prop :=
  consumes c c' ∧ (2 + length (incoming (io c')) ≤ length (incoming (io c)))%nat.

Lemma ws_decode_loop_safe fuel message assembling c :
  (length (incoming (io c)) < fuel)%nat → Z.of_nat (length message) ≤ kMaxFramePayload →
  wp (ws_decode_loop fuel message assembling)
    (λ msg c', Z.of_nat (length msg) ≤ kMaxFramePayload ∧ consumes_frame c c')
    (λ _, consumes c) c.
Proof.
  revert message assembling c.
  induction fuel as [|fuel IH]; intros message assembling c Hf Hm; [lia|].
  cbn [ws_decode_loop]. apply wp_bind.
  eapply wp_mono; [apply ssl_read_exact_spec| |]; cbn;
    [|intros e c' Hr; by eapply read_fails_consumes].
  intros hdr c1 [Hhdr Hr1]. pose proof (reads_consumes _ _ _ Hr1) as Hc1.
  assert (∀ c2, consumes c1 c2 → consumes_frame c c2) as Hframe.
  { intros c2 Hc2. split; [by etrans|]. destruct Hc2 as [Hs%suffix_length _], Hr1 as [Hin _].
    rewrite Hin, length_app. lia. }
  assert (length (incoming (io c1)) < fuel)%nat as Hf1.
  { destruct Hr1 as (Hin & _). rewrite Hin, length_app in Hf. lia. }
  assert (∀ c2, consumes c1 c2 → length (incoming (io c2)) < fuel)%nat as Hf2.
  { intros c2 [Hs _]. apply suffix_length in Hs. lia. }
  apply wp_bind. eapply wp_mono; [apply read_payload_len_spec| |]; cbn;
    [|intros e c' Hc; by etrans].
  intros len c2 Hc2. destruct (Z.ltb_spec kMaxFramePayload len) as [|Hlen];
    [apply wp_throw; by etrans|].
  destruct (negb (Z.land (nth 1 hdr 0) 0x80 =? 0)); [apply wp_throw; by etrans|].
  destruct (negb (Z.land _ 0x08 =? 0) && _); [apply wp_throw; by etrans|].
  apply wp_bind. eapply wp_mono; [apply ssl_read_exact_spec| |]; cbn;
    [|intros e c' Hr; apply read_fails_consumes in Hr; by do 2 etrans].
  intros payload c3 [Hp Hr3].
  assert (consumes c1 c3) as Hc3 by (etrans; [done|by eapply reads_consumes]).
  assert (consumes c c3) as Hc by by etrans.
  assert (Z.of_nat (length payload) ≤ kMaxFramePayload) as Hpl
    by (rewrite Hp; unfold kMaxFramePayload in *; lia).
  assert (∀ msg a c4, consumes c1 c4 → Z.of_nat (length msg) ≤ kMaxFramePayload →
    wp (ws_decode_loop fuel msg a)
      (λ msg c', Z.of_nat (length msg) ≤ kMaxFramePayload ∧ consumes_frame c c')
      (λ _, consumes c) c4) as Hrec.
  { intros msg a c4 Hc4 Hl. eapply wp_mono; [apply IH; auto| |]; cbn.
    - intros m c' [? [? _]]. split; [done|]. apply Hframe. by etrans.
    - intros e c' ?. etrans; [exact Hc1|]. by etrans. }
  unfold dispatch_frame. repeat case_match; try (by apply wp_throw); try (by apply wp_ret; auto); eauto.
  - apply wp_bind. eapply wp_mono; [apply ws_send_frame_spec| |]; cbn.
    + intros _ c4 (mask & _ & _ & Hw). apply Hrec; [|done].
      etrans; [done|by eapply writes_consumes].
    + intros e c4 (Hin & Ho & _). etrans; [exact Hc|]. split; [by rewrite Hin|done].
  - apply wp_ret. split; [|by apply Hframe]. rewrite length_app. by apply Z.ltb_ge.
  - apply Hrec; [done|]. rewrite length_app. by apply Z.ltb_ge.
Qed.

Lemma ws_decode_frame_spec fuel c :
  (length (incoming (io c)) < fuel)%nat →
  wp (ws_decode_frame fuel)
    (λ msg c', Z.of_nat (String.length msg) ≤ kMaxFramePayload ∧ consumes_frame c c')
    (λ _, consumes c) c.
Proof.
  intros Hf. unfold ws_decode_frame. apply wp_bind.
  eapply wp_mono; [by apply ws_decode_loop_safe| |done].
  intros msg c' [Hm Hc]. apply wp_ret. by rewrite length_string_of_bytes.
Qed.
End decode_safety.

(** C13: Whatever the server sends, in whatever pieces TLS delivers it, decoding a
    message terminates (a round per byte of the incoming stream is enough), gets
    stuck nowhere, and any message it returns is at most 16 KiB long and has taken at least
    a frame header from the stream. *)
Theorem ws_decode_frame_safe `{NetIo} `{!NetIoLaws} fuel c :
  (length (incoming (io c)) < fuel)%nat →
  wp (ws_decode_frame fuel)
    (λ msg c', Z.of_nat (String.length msg) ≤ kMaxFramePayload ∧ consumes_frame c c')
    (λ _, consumes c) c.
Proof. apply ws_decode_frame_spec. Qed.

(** ** Frames the client sends *)

(** RFC 6455, section 5.2, read by a server: a masked frame gives FIN, the opcode
    and the unmasked payload. *)
Definition be_value (bs : bytes) : Z := foldl (λ p b, p * 256 + b) 0 bs.

Definition rfc_length (b1 : Z) (rest : bytes) : Z * bytes :=
  if b1 mod 128 =? 126 then (be_value (take 2 rest), drop 2 rest)
  else if b1 mod 128 =? 127 then (be_value (take 8 rest), drop 8 rest)
  else (b1 mod 128, rest).

Definition rfc_server_decode (frame : bytes) : option (bool * Z * bytes) :=
  match frame with
  | b0 :: b1 :: rest =>
    let '(len, rest) := rfc_length b1 rest in
    let mask := take 4 rest in
    let body := drop 4 rest in
    if (128 <=? b1) && bool_decide (length mask = 4%nat ∧ Z.of_nat (length body) = len)
    then Some (128 <=? b0, b0 mod 16, imap (λ i b, Z.lxor b (nth (i mod 4) mask 0)) body)
    else None
  | _ => None
  end.

Lemma mask_from_imap mask i payload :
  mask_from mask i payload = imap (λ j b, Z.lxor b (nth ((i + j) mod 4) mask 0)) payload.
Proof.
  revert i. induction payload as [|b payload IH]; intros i; [done|]. cbn [mask_from].
  rewrite IH, imap_cons. f_equal; [by rewrite Nat.add_0_r|].
  apply imap_ext. intros j x _. cbn. by rewrite Nat.add_succ_r.
Qed.

Lemma length_mask_from mask i payload : length (mask_from mask i payload) = length payload.
Proof. rewrite mask_from_imap. apply length_imap. Qed.

(** Masking twice with the same key is the identity. *)
Lemma unmask_mask mask payload :
  imap (λ i b, Z.lxor b (nth (i mod 4) mask 0)) (mask_from mask 0 payload) = payload.
Proof.
  rewrite mask_from_imap. apply list_eq. intros i. rewrite !list_lookup_imap.
  destruct (payload !! i) as [b|]; cbn; [|done]. by rewrite lxor_involutive.
Qed.

Lemma be_value_8 len :
  0 ≤ len < 2 ^ 64 →
  be_value ((λ i, Z.land (Z.shiftr len (8 * i)) 0xff) <$> [7; 6; 5; 4; 3; 2; 1; 0]) = len.
Proof.
  intros Hl. unfold be_value. cbn [fmap list_fmap foldl].
  rewrite !land_ff, !Z.shiftr_div_pow2 by lia. cbn [Z.mul Pos.mul]. cbn.
  Z.to_euclidean_division_equations. lia.
Qed.

(** The length bytes decode to the length. *)
Lemma rfc_length_encode opcode len rest :
  0 ≤ len < 2 ^ 64 →
  ∃ b1 ext, encode_header opcode len = Z.lor 0x80 (Z.land opcode 0x0f) :: b1 :: ext ∧
    128 ≤ b1 ∧ rfc_length b1 (ext ++ rest) = (len, rest).
Proof.
  intros Hl. unfold encode_header. destruct (Z.ltb_spec len 126) as [H1|H1].
  - eexists _, []. split; [done|]. rewrite lor_high_bit by lia. split; [lia|].
    unfold rfc_length. replace ((128 + len) mod 128) with len
      by (Z.to_euclidean_division_equations; lia).
    rewrite (proj2 (Z.eqb_neq len 126)), (proj2 (Z.eqb_neq len 127)) by lia. done.
  - destruct (Z.ltb_spec len 65536) as [H2|H2].
    + eexists _, [_; _]. split; [done|]. split; [done|].
      unfold rfc_length. cbn -[Z.land Z.shiftr be_value]. rewrite take_0, ?drop_0. f_equal.
      unfold be_value. cbn [foldl]. rewrite !land_ff, Z.shiftr_div_pow2 by lia.
      change (2 ^ 8) with 256. Z.to_euclidean_division_equations. lia.
    + eexists _, _. split; [done|]. split; [done|].
      unfold rfc_length. change (Z.lor 0x80 127 mod 128 =? 126) with false.
      change (Z.lor 0x80 127 mod 128 =? 127) with true. cbn match.
      rewrite take_app_length', drop_app_length' by done. by rewrite be_value_8.
Qed.

Lemma client_frame_decodes opcode payload mask :
  0 ≤ opcode < 16 → Z.of_nat (length payload) < 2 ^ 64 → length mask = 4%nat →
  rfc_server_decode (encode_header opcode (u64 (Z.of_nat (length payload))) ++ mask
    ++ mask_from mask 0 payload) = Some (true, opcode, payload).
Proof.
  intros Hop Hlen Hm. rewrite wrap_u_id by (unfold in_u; lia).
  destruct (rfc_length_encode opcode (Z.of_nat (length payload))
    (mask ++ mask_from mask 0 payload)) as (b1 & ext & -> & Hb1 & Hext); [lia|].
  cbn. rewrite Hext. rewrite (take_app_length' mask), (drop_app_length' mask) by done.
  rewrite Hm, length_mask_from.
  rewrite (proj2 (Z.leb_le _ _) Hb1), bool_decide_true by done. cbn [andb].
  rewrite unmask_mask, land_0f, (Z.mod_small opcode), lor_high_bit by lia.
  rewrite (proj2 (Z.leb_le 128 (128 + opcode))) by lia. do 2 f_equal. f_equal.
  Z.to_euclidean_division_equations; lia.
Qed.

(** C14: Every frame the client sends is, for a server that follows RFC 6455, a final
    masked frame with the given opcode and exactly the given payload, at all three
    length encodings. *)
Theorem ws_encode_frame_rfc `{NetIo} `{!NetIoLaws} opcode payload c frame c' :
  0 ≤ opcode < 16 → Z.of_nat (length payload) < 2 ^ 64 →
  ws_encode_frame opcode payload c = (Ret frame, c') →
  rfc_server_decode frame = Some (true, opcode, payload).
Proof.
  intros Hop Hlen. unfold ws_encode_frame, mbind, M_bind, on_io.
  destruct (RAND_bytes (io c) 4) as [s [mask|]] eqn:Hr; [|done]. intros Heq.
  apply RAND_bytes_ok in Hr as (Hm & _ & _ & _).
  assert (frame = encode_header opcode (u64 (Z.of_nat (length payload))) ++ mask
    ++ mask_from mask 0 payload) as -> by (unfold mret, M_ret in Heq; congruence).
  by apply client_frame_decodes.
Qed.

(** ** Messages the server sends *)

(** An unmasked frame as RFC 6455 has a server write it, payloads below 64 KiB. *)
Definition server_len (len : Z) : bytes :=
  if len <? 126 then [len] else [126; len / 256; len mod 256].

Definition server_frame (fin : bool) (opcode : Z) (payload : bytes) : bytes :=
  ((if fin then 128 else 0) + opcode) :: server_len (Z.of_nat (length payload)) ++ payload.

(** [message_wire asm data pings w]: the bytes [w] carry the rest of a message
    ([asm]: its first fragment has been sent) with data [data], cut into fragments
    anywhere, with pings carrying [pings] and any pongs between the fragments. *)
Inductive message_wire : bool → bytes → list bytes → bytes → Prop :=
| wire_single op data :
    op = 1 ∨ op = 2 → message_wire false data [] (server_frame true op data)
| wire_first op data1 data2 pings w :
    op = 1 ∨ op = 2 → message_wire true data2 pings w →
    message_wire false (data1 ++ data2) pings (server_frame false op data1 ++ w)
| wire_next data1 data2 pings w :
    message_wire true data2 pings w →
    message_wire true (data1 ++ data2) pings (server_frame false 0 data1 ++ w)
| wire_last data : message_wire true data [] (server_frame true 0 data)
| wire_ping asm data p pings w :
    (length p ≤ 125)%nat → message_wire asm data pings w →
    message_wire asm data (p :: pings) (server_frame true 9 p ++ w)
| wire_pong asm data p pings w :
    (length p ≤ 125)%nat → message_wire asm data pings w →
    message_wire asm data pings (server_frame true 10 p ++ w).

Lemma land_header_fin (fin : bool) op :
  0 ≤ op < 16 → negb (Z.land ((if fin then 128 else 0) + op) 0x80 =? 0) = fin.
Proof.
  intros Hop. destruct fin.
  - rewrite <-lor_high_bit by lia. rewrite Z.land_lor_distr_l, (land_80_small op) by lia. done.
  - rewrite land_80_small by lia. done.
Qed.

Lemma land_header_opcode (fin : bool) op :
  0 ≤ op < 16 → Z.land ((if fin then 128 else 0) + op) 0x0f = op.
Proof. intros Hop. rewrite land_0f. destruct fin; Z.to_euclidean_division_equations; lia. Qed.

Lemma land_control op : 0 ≤ op < 16 → Z.land op 0x08 ≠ 0 → 8 ≤ op.
Proof.
  intros Hop Hb. destruct (decide (8 ≤ op)); [done|]. destruct Hb.
  apply Z.bits_inj'. intros i Hi. rewrite Z.land_spec, Z.bits_0.
  destruct (decide (i = 3)) as [->|Hne].
  - by rewrite (testbit_high op 3 3) by lia.
  - change 0x08 with (2 ^ 3). rewrite Z.pow2_bits_false by lia. apply andb_false_r.
Qed.

Lemma length_server_frame fin op payload : (2 ≤ length (server_frame fin op payload))%nat.
Proof.
  unfold server_frame, server_len. destruct (Z.of_nat (length payload) <? 126); cbn; lia.
Qed.

Section reassembly.
Context `{NetIo} `{!NetIoLaws}.
Context (Hreliable : Reliable).

Lemma wp_read_exact n pre rest Q E c :
  incoming (io c) = pre ++ rest → length pre = n →
  (∀ c', reads pre c c' → incoming (io c') = rest → Q pre c') →
  wp (ssl_read_exact n) Q E c.
Proof.
  intros Hin Hn HQ. eapply wp_mono; [apply ssl_read_exact_spec| |].
  - intros bs c' [Hl Hr]. pose proof Hr as (Hin' & _ & _). rewrite Hin in Hin'.
    assert (length pre = length bs) as Hlen by congruence.
    destruct (app_inj_1 _ _ _ _ Hlen Hin') as [<- Hrest]. by apply HQ.
  - intros e c' [_ Hrel]. specialize (Hrel Hreliable). rewrite Hin, length_app in Hrel. lia.
Qed.

Lemma wp_read_payload_len len rest Q E c :
  0 ≤ len < 65536 → incoming (io c) = tail (server_len len) ++ rest →
  (∀ c', reads (tail (server_len len)) c c' → incoming (io c') = rest → Q len c') →
  wp (read_payload_len (Z.land (nth 0 (server_len len) 0) 0x7f)) Q E c.
Proof.
  intros Hlen. unfold server_len. rewrite land_7f.
  destruct (Z.ltb_spec len 126) as [Hl|Hl]; cbn [nth tail]; intros Hin HQ.
  - rewrite Z.mod_small by lia. unfold read_payload_len.
    rewrite (proj2 (Z.eqb_neq len 126)), (proj2 (Z.eqb_neq len 127)) by lia.
    apply wp_ret. apply HQ; [apply reads_nil|done].
  - change (126 mod 128) with 126. unfold read_payload_len. rewrite Z.eqb_refl.
    apply wp_bind. eapply wp_read_exact; [done|done|]. intros c' Hr Hrest.
    apply wp_ret. cbn [nth].
    rewrite lor_shiftl by (Z.to_euclidean_division_equations; lia).
    replace (len / 256 * 2 ^ 8 + len mod 256) with len
      by (change (2 ^ 8) with 256; Z.to_euclidean_division_equations; lia).
    by apply HQ.
Qed.

(** One frame of the server reaches the dispatcher with its fields. *)
Lemma ws_decode_loop_frame fuel message assembling fin op payload rest Q E c :
  0 ≤ op < 16 → Z.of_nat (length payload) ≤ kMaxFramePayload →
  (8 ≤ op → fin = true ∧ (length payload ≤ 125)%nat) →
  incoming (io c) = server_frame fin op payload ++ rest →
  (∀ c', reads (server_frame fin op payload) c c' → incoming (io c') = rest →
     wp (dispatch_frame (ws_decode_loop fuel) fin op payload message assembling) Q E c') →
  wp (ws_decode_loop (S fuel) message assembling) Q E c.
Proof.
  intros Hop Hlen Hctl Hin HQ. unfold kMaxFramePayload in Hlen. cbn [ws_decode_loop].
  set (len := Z.of_nat (length payload)) in *. set (b0 := (if fin then 128 else 0) + op).
  assert (server_len len = nth 0 (server_len len) 0 :: tail (server_len len)) as Hsl
    by (unfold server_len; by case_match).
  assert (0 ≤ nth 0 (server_len len) 0 < 128) as Hb1
    by (unfold server_len; destruct (Z.ltb_spec len 126); cbn; lia).
  assert (server_frame fin op payload =
    [b0; nth 0 (server_len len) 0] ++ tail (server_len len) ++ payload) as Hframe.
  { unfold server_frame. fold len b0. rewrite Hsl at 1. done. }
  rewrite Hframe, <-!(assoc_L (++)) in Hin.
  apply wp_bind. eapply wp_read_exact; [exact Hin|done|]. intros c1 Hr1 Hin1. cbn [nth].
  apply wp_bind. eapply wp_read_payload_len; [lia|exact Hin1|]. intros c2 Hr2 Hin2.
  unfold b0. rewrite land_header_fin, land_header_opcode, (land_80_small (nth _ _ _)) by lia.
  rewrite (proj2 (Z.ltb_ge kMaxFramePayload len)) by (unfold kMaxFramePayload; lia).
  assert (negb (Z.land op 8 =? 0) && (negb fin || (125 <? len)) = false) as ->.
  { destruct (Z.eqb_spec (Z.land op 8) 0) as [|Hne]; [done|].
    apply land_control in Hne; [|done]. destruct (Hctl Hne) as [-> Hp]. cbn.
    apply Z.ltb_ge. lia. }
  cbn [negb Z.eqb]. apply wp_bind. eapply wp_read_exact; [exact Hin2|lia|].
  intros c3 Hr3 Hin3. apply HQ; [|done]. rewrite Hframe.
  eapply reads_app; [exact Hr1|]. by eapply reads_app.
Qed.

(** [out] is one pong per ping, carrying its payload. *)
Definition pongs_sent (pings : list bytes) (out : bytes) : Prop :=
  ∃ frames, out = concat frames ∧
    Forall2 (λ p f, rfc_server_decode f = Some (true, 0x0a, p)) pings frames.

(** What receiving the rest of a message gives. *)
Definition received (data : bytes) (pings : list bytes) (rest : bytes) (c : Conn)
    (m : bytes) (c' : Conn) : Prop :=
  m = data ∧ incoming (io c') = rest ∧ only_io c c' ∧
  ∃ out, outgoing (io c') = outgoing (io c) ++ out ∧ pongs_sent pings out.

Lemma received_reads bs data pings rest c c1 m c' :
  reads bs c c1 → received data pings rest c1 m c' → received data pings rest c m c'.
Proof.
  intros (_ & Ho & Hio) (-> & Hin & Hio' & out & Hout & Hp).
  split_and!; [done|done|by etrans|]. exists out. by rewrite Hout, Ho.
Qed.

Lemma received_ping p data pings rest c c1 mask m c' :
  (length p ≤ 125)%nat → length mask = 4%nat →
  writes (encode_header 0x0a (u64 (Z.of_nat (length p))) ++ mask ++ mask_from mask 0 p) c c1 →
  received data pings rest c1 m c' → received data (p :: pings) rest c m c'.
Proof.
  intros Hp Hm (Ho & _ & Hio) (-> & Hin & Hio' & out & Hout & frames & -> & Hf).
  split_and!; [done|done|by etrans|]. eexists. split.
  - by rewrite Hout, Ho, <-(assoc_L (++)).
  - eexists (_ :: frames). split; [done|]. constructor; [|done].
    apply client_frame_decodes; [lia|lia|done].
Qed.

(** The first frame of [server_frame ... ++ w'] reaches the dispatcher, with
    enough fuel left for [w']. *)
Lemma wp_wire_frame fin op payload w' Q E fuel message asm rest c :
  0 ≤ op < 16 → Z.of_nat (length payload) ≤ kMaxFramePayload →
  (8 ≤ op → fin = true ∧ (length payload ≤ 125)%nat) →
  (length (server_frame fin op payload ++ w') ≤ fuel)%nat →
  incoming (io c) = (server_frame fin op payload ++ w') ++ rest →
  (∀ fuel' c', (length w' ≤ fuel')%nat → reads (server_frame fin op payload) c c' →
    incoming (io c') = w' ++ rest →
    wp (dispatch_frame (ws_decode_loop fuel') fin op payload message asm) Q E c') →
  wp (ws_decode_loop fuel message asm) Q E c.
Proof.
  intros Hop Hl Hctl Hf Hin HQ.
  pose proof (length_server_frame fin op payload) as H2. rewrite length_app in Hf.
  destruct fuel as [|fuel]; [lia|].
  eapply ws_decode_loop_frame; [done..|by rewrite Hin, <-(assoc_L (++))|].
  intros c' Hr Hin'. eapply HQ; [lia|done|done].
Qed.

(** The same for the last frame of a message. *)
Lemma wp_wire_last op payload Q E fuel message asm rest c :
  0 ≤ op < 8 → Z.of_nat (length payload) ≤ kMaxFramePayload →
  (length (server_frame true op payload) ≤ fuel)%nat →
  incoming (io c) = server_frame true op payload ++ rest →
  (∀ fuel' c', reads (server_frame true op payload) c c' → incoming (io c') = rest →
    wp (dispatch_frame (ws_decode_loop fuel') true op payload message asm) Q E c') →
  wp (ws_decode_loop fuel message asm) Q E c.
Proof.
  intros Hop Hl Hf Hin HQ.
  assert (server_frame true op payload ++ [] = server_frame true op payload) as Hnil
    by apply (right_id_L [] (++)).
  apply (wp_wire_frame true op payload [] _ _ _ _ _ rest); [lia|done|lia|by rewrite Hnil..|].
  intros fuel' c' _. apply HQ.
Qed.

Lemma received_now data rest c c' bs :
  reads bs c c' → incoming (io c') = rest → received data [] rest c data c'.
Proof.
  intros Hr Hin. eapply received_reads; [done|]. split_and!; [done|done|reflexivity|].
  exists []. split; [by rewrite (right_id_L [] (++))|]. by exists [].
Qed.

Lemma wp_received_reads bs data pings rest (m : M Conn bytes) c c' :
  reads bs c c' → wp m (received data pings rest c') (λ _ _, False) c' →
  wp m (received data pings rest c) (λ _ _, False) c'.
Proof. intros Hr Hm. eapply wp_mono; [done| |done]. intros x c2. by eapply received_reads. Qed.

Lemma ws_decode_loop_wire asm data pings w :
  message_wire asm data pings w → ∀ fuel message rest c,
  (asm = false → message = []) → (length w ≤ fuel)%nat →
  Z.of_nat (length (message ++ data)) ≤ kMaxFramePayload →
  incoming (io c) = w ++ rest →
  wp (ws_decode_loop fuel message asm) (received (message ++ data) pings rest c)
    (λ _ _, False) c.
Proof.
  induction 1 as [op data Hop|op data1 data2 pings w Hop Hw IH|data1 data2 pings w Hw IH
    |data|asm data p pings w Hp Hw IH|asm data p pings w Hp Hw IH];
    intros fuel message rest c Hmsg Hf Hl Hin; rewrite ?length_app in Hl.
  - rewrite (Hmsg eq_refl) in *. eapply (wp_wire_last op data); [lia|cbn in Hl; lia|done..|].
    intros fuel' c' Hr Hin'. destruct Hop as [-> | ->]; by apply wp_ret; eapply received_now.
  - rewrite (Hmsg eq_refl) in *.
    eapply (wp_wire_frame false op data1 w); [lia|cbn in Hl; lia|lia|done..|].
    intros fuel' c' Hf' Hr Hin'. eapply wp_received_reads; [done|].
    destruct Hop as [-> | ->]; (eapply IH; [done|done|rewrite length_app; cbn in Hl; lia|done]).
  - eapply (wp_wire_frame false 0 data1 w); [lia|lia|lia|done..|].
    intros fuel' c' Hf' Hr Hin'. eapply wp_received_reads; [done|].
    unfold dispatch_frame. cbn [Z.eqb orb negb]. rewrite (proj2 (Z.ltb_ge _ _)) by lia.
    rewrite (assoc_L (++)). eapply IH; [done|done|rewrite !length_app; lia|done].
  - eapply (wp_wire_last 0 data); [lia|lia|done..|]. intros fuel' c' Hr Hin'.
    unfold dispatch_frame. cbn [Z.eqb orb negb]. rewrite (proj2 (Z.ltb_ge _ _)) by lia.
    apply wp_ret. by eapply received_now.
  - eapply (wp_wire_frame true 9 p w); [lia|unfold kMaxFramePayload; lia|done|done|done|].
    intros fuel' c' Hf' Hr Hin'. unfold dispatch_frame. cbn [Z.eqb].
    apply wp_bind. eapply wp_mono; [apply ws_send_frame_spec| |by intros ?? (_ & _ & Hn)].
    intros _ c2 (mask & Hm & _ & Hwr). pose proof Hwr as (_ & Hin2 & _).
    eapply wp_mono; [eapply (IH _ _ rest); [done|done|rewrite length_app; lia|by rewrite Hin2]| |done].
    intros m c3 Hrec. eapply received_reads; [done|]. by eapply received_ping.
  - eapply (wp_wire_frame true 10 p w); [lia|unfold kMaxFramePayload; lia|done|done|done|].
    intros fuel' c' Hf' Hr Hin'. unfold dispatch_frame. cbn [Z.eqb].
    eapply wp_received_reads; [done|]. eapply IH; [done|done|rewrite length_app; lia|done].
Qed.
End reassembly.

(** C8: A message the server sends, in one frame or cut into fragments anywhere, with
    pings and pongs in between and delivered by TLS in any pieces, is received as
    exactly its bytes; the bytes after it are left for the next call, and every
    ping is answered by one pong carrying its payload. *)
Theorem ws_decode_frame_reassembles `{NetIo} `{!NetIoLaws} data pings w rest fuel c :
  Reliable → message_wire false data pings w →
  Z.of_nat (length data) ≤ kMaxFramePayload →
  incoming (io c) = w ++ rest → (length w ≤ fuel)%nat →
  ∃ c' out, ws_decode_frame fuel c = (Ret (string_of_bytes data), c') ∧
    incoming (io c') = rest ∧ outgoing (io c') = outgoing (io c) ++ out ∧ pongs_sent pings out.
Proof.
  intros R Hw Hl Hin Hf.
  pose proof (ws_decode_loop_wire R false data pings w Hw fuel [] rest c
    ltac:(done) Hf Hl Hin) as Hwp.
  unfold wp in Hwp. unfold ws_decode_frame, mbind, M_bind.
  destruct (ws_decode_loop fuel [] false c) as [[m|e|x] c'] eqn:E; [|done..].
  destruct Hwp as (-> & Hin' & _ & out & Hout & Hp). by exists c', out.
Qed.

(** The big-endian lengths are read without overflow. *)
Lemma read_be_value bs p k :
  Forall is_byte bs → 0 ≤ p < 2 ^ (8 * k) → 0 ≤ k → k + Z.of_nat (length bs) ≤ 8 →
  foldl (λ p b, Z.lor (u64 (Z.shiftl p 8)) b) p bs = foldl (λ p b, p * 256 + b) p bs.
Proof.
  intros Hbs. revert p k. induction Hbs as [|b bs Hb _ IH]; intros p k Hp Hk Hlen; [done|].
  cbn [foldl]. cbn [length] in Hlen. unfold is_byte in Hb.
  assert (2 ^ (8 * k) ≤ 2 ^ 56) as Hle by (apply Z.pow_le_mono_r; lia).
  assert (0 ≤ Z.shiftl p 8 < 2 ^ 64) as Hs by (rewrite Z.shiftl_mul_pow2; lia).
  assert (2 ^ (8 * (k + 1)) = 2 ^ (8 * k) * 256) as Hpow
    by (replace (8 * (k + 1)) with (8 * k + 8) by lia; rewrite Z.pow_add_r by lia; done).
  rewrite wrap_u_id by done. rewrite lor_shiftl by lia. change (2 ^ 8) with 256.
  apply (IH _ (k + 1)); lia.
Qed.

Lemma length_take_ge {A} n (l : list A) : (n ≤ length l)%nat → length (take n l) = n.
Proof. intros. rewrite length_take. lia. Qed.

(** Enough bytes follow the second header byte for the length it announces. *)
Definition has_length (b1 : Z) (rest : bytes) : Prop :=
  (b1 mod 128 = 126 → (2 ≤ length rest)%nat) ∧ (b1 mod 128 = 127 → (8 ≤ length rest)%nat).

Lemma wp_read_rfc_length `{NetIo} `{!NetIoLaws} (R : Reliable) b1 rest Q E c :
  has_length b1 rest → incoming (io c) = rest →
  (∀ c', outgoing (io c') = outgoing (io c) →
     incoming (io c') = (rfc_length b1 rest).2 → Q (rfc_length b1 rest).1 c') →
  wp (read_payload_len (Z.land b1 0x7f)) Q E c.
Proof.
  intros [H126 H127] Hin HQ. pose proof (incoming_bytes (io c)) as Hb. rewrite Hin in Hb.
  unfold read_payload_len, rfc_length in *. rewrite land_7f.
  destruct (Z.eqb_spec (b1 mod 128) 126) as [H1|H1].
  - specialize (H126 H1). apply wp_bind.
    apply (wp_read_exact R 2 (take 2 rest) (drop 2 rest));
      [by rewrite take_drop|by apply length_take_ge|].
    intros c' (_ & Ho & _) Hin'. apply wp_ret.
    destruct rest as [|x [|y rest]]; cbn in H126; try lia. cbn [nth take].
    apply Forall_cons in Hb as [Hx Hb]. apply Forall_cons in Hb as [Hy _].
    rewrite lor_shiftl by (unfold is_byte in *; lia). by apply HQ.
  - destruct (Z.eqb_spec (b1 mod 128) 127) as [H2|H2].
    + specialize (H127 H2). apply wp_bind.
      apply (wp_read_exact R 8 (take 8 rest) (drop 8 rest));
        [by rewrite take_drop|by apply length_take_ge|].
      intros c' (_ & Ho & _) Hin'. apply wp_ret.
      rewrite (read_be_value _ 0 0); [by apply HQ|by apply Forall_take|lia|lia|].
      rewrite length_take_ge; lia.
    + apply wp_ret. by apply HQ.
Qed.

Lemma land_80_large b : 128 ≤ b < 256 → Z.land b 0x80 ≠ 0.
Proof.
  intros Hb. replace b with (128 + (b - 128)) by lia. rewrite <-lor_high_bit by lia.
  rewrite Z.land_lor_distr_l, (land_80_small (b - 128)) by lia. done.
Qed.

Lemma land_08_large op : 8 ≤ op < 16 → Z.land op 0x08 ≠ 0.
Proof.
  intros Hop Hc.
  assert (op = 8 ∨ op = 9 ∨ op = 10 ∨ op = 11 ∨ op = 12 ∨ op = 13 ∨ op = 14 ∨ op = 15) by lia.
  destruct_or!; subst; done.
Qed.

(** The decoder refuses, before it reads the payload, a frame longer than 16 KiB,
    a masked frame, and a control frame that is fragmented or longer than 125
    bytes, whatever the other header bits and the rest of the stream. *)
Theorem ws_decode_frame_rejects `{NetIo} `{!NetIoLaws} b0 b1 rest fuel c :
  Reliable → has_length b1 rest → incoming (io c) = b0 :: b1 :: rest →
  (kMaxFramePayload < (rfc_length b1 rest).1 ∨ 128 ≤ b1 ∨
   (8 ≤ b0 mod 16 ∧ (b0 < 128 ∨ 125 < (rfc_length b1 rest).1))) →
  ∃ e c', ws_decode_frame (S fuel) c = (Exn e, c') ∧
    incoming (io c') = (rfc_length b1 rest).2 ∧ outgoing (io c') = outgoing (io c).
Proof.
  intros R Hlen Hin Hbad.
  pose proof (incoming_bytes (io c)) as Hb. rewrite Hin in Hb.
  apply Forall_cons in Hb as [Hb0 Hb]. apply Forall_cons in Hb as [Hb1 _]. unfold is_byte in *.
  assert (wp (ws_decode_loop (S fuel) [] false) (λ _ _, False) (λ _ c',
    incoming (io c') = (rfc_length b1 rest).2 ∧ outgoing (io c') = outgoing (io c)) c) as Hwp.
  { cbn [ws_decode_loop]. apply wp_bind.
    apply (wp_read_exact R 2 [b0; b1] rest); [done|done|]. intros c1 (_ & Ho1 & _) Hin1.
    cbn [nth]. apply wp_bind, (wp_read_rfc_length R b1 rest); [done|done|].
    intros c2 Ho2 Hin2. rewrite Ho1 in Ho2. rewrite land_0f.
    destruct (Z.ltb_spec kMaxFramePayload (rfc_length b1 rest).1); [by apply wp_throw|].
    destruct (Z.eqb_spec (Z.land b1 128) 0) as [Hm|]; [|by apply wp_throw]. cbn [negb].
    destruct Hbad as [|[Hm'|[Hop Hctl]]]; [lia|by destruct (land_80_large b1); [lia|]|].
    pose proof (Z.mod_pos_bound b0 16 ltac:(lia)).
    rewrite (proj2 (Z.eqb_neq (Z.land (b0 mod 16) 8) 0)) by (apply land_08_large; lia).
    assert (negb (negb (Z.land b0 128 =? 0)) || (125 <? (rfc_length b1 rest).1) = true) as ->;
      [|by apply wp_throw].
    destruct Hctl as [Hfin|Hl]; [by rewrite (land_80_small b0) by lia|].
    by rewrite (proj2 (Z.ltb_lt _ _) Hl), orb_true_r. }
  unfold wp in Hwp. unfold ws_decode_frame, mbind, M_bind.
  destruct (ws_decode_loop (S fuel) [] false c) as [[m|e|x] c'] eqn:E; [done| |done].
  exists e, c'. by destruct Hwp.
Qed.

(** ** The upgrade handshake *)

Section handshake.
Context `{NetIo} `{!NetIoLaws}.
Implicit Types c : Conn.

Lemma read_head_spec fuel resp c :
  Z.of_nat (length resp) ≤ 8192 → 8192 < Z.of_nat (fuel + length resp) →
  wp (read_head fuel resp)
    (λ r c', ∃ got, r = resp ++ got ∧ reads got c c' ∧ ends_headers r = true ∧
      Z.of_nat (length r) ≤ 8192)
    (λ _, consumes c) c.
Proof.
  revert resp c. induction fuel as [|fuel IH]; intros resp c Hl Hf; [lia|].
  cbn [read_head]. destruct (ends_headers resp) eqn:He.
  - apply wp_ret. exists []. rewrite (right_id_L [] (++)).
    split_and!; [done|apply reads_nil|done|done].
  - apply wp_bind. eapply wp_mono; [apply ssl_read_exact_spec| |];
      [|intros e c' Hr; exact (read_fails_consumes _ _ _ Hr)].
    intros b c1 [Hb Hr]. cbn beta. rewrite length_app, Hb.
    destruct (Z.ltb_spec 8192 (Z.of_nat (length resp + 1))) as [|Hle];
      [apply wp_throw; by eapply reads_consumes|].
    eapply wp_mono; [apply IH; rewrite length_app, Hb; lia| |].
    + intros r c2 (got & -> & Hr2 & Hend & Hlen). exists (b ++ got).
      rewrite (assoc_L (++)). split_and!; [done|by eapply reads_app|done|done].
    + intros e c2 Hc. etrans; [by eapply reads_consumes|done].
Qed.

(** What a response must be for the upgrade to be accepted. *)
Definition accepted_response (key response : string) : Prop :=
  String.prefix "HTTP/1.1 101" (status_line response) = true ∧
  ws_header_value response "sec-websocket-accept" = ws_compute_accept key.

Lemma check_upgrade_spec key response c :
  wp (check_upgrade key response) (λ _ c', c' = c ∧ accepted_response key response)
    (λ _ c', c' = c) c.
Proof.
  unfold check_upgrade, accepted_response.
  destruct (String.prefix "HTTP/1.1 101" (status_line response)) eqn:Hp; [|by apply wp_throw].
  cbn [negb]. case_bool_decide as Ha; [by apply wp_ret|by apply wp_throw].
Qed.
End handshake.

Lemma ws_handshake_spec `{NetIo} `{!NetIoLaws} c :
  wp ws_handshake
    (λ _ c', ∃ key resp,
      outgoing (io c') = outgoing (io c) ++ bytes_of_string (ws_request (host_ c) key) ∧
      incoming (io c) = resp ++ incoming (io c') ∧
      Z.of_nat (length resp) ≤ 8192 ∧ ends_headers resp = true ∧
      accepted_response key (string_of_bytes resp) ∧ only_io c c')
    (λ _ c', only_io c c') c.
Proof.
  unfold ws_handshake, ws_key_base64. apply wp_bind, wp_bind, wp_on_io.
  intros s [buf|] Hr; [|apply wp_throw; apply only_io_set_io].
  apply RAND_bytes_ok in Hr as (_ & _ & Hin1 & Hout1). apply wp_ret.
  apply wp_bind, wp_gets, wp_bind.
  eapply wp_mono; [apply ssl_write_all_spec| |];
    [|intros e c2 (_ & Ho & _); etrans; [apply (only_io_set_io c s)|done]].
  intros _ c2 (Hout2 & Hin2 & Hio2). apply wp_bind.
  assert (only_io c c2) as Hio by (etrans; [apply (only_io_set_io c s)|done]).
  eapply wp_mono; [apply read_head_spec; unfold head_fuel; cbn [length]; lia| |];
    [|intros e c3 [_ Ho]; by etrans].
  intros resp c3 (got & -> & (Hin3 & Hout3 & Hio3) & Hend & Hlen). cbn beta.
  eapply wp_mono; [apply check_upgrade_spec| |]; [|intros e c4 ->; by etrans].
  intros _ c4 [-> Hacc]. eexists _, _. cbn in *.
  split_and!; [|by rewrite <-Hin1, <-Hin2, Hin3|done|done|exact Hacc|by etrans].
  by rewrite Hout3, Hout2, Hout1.
Qed.

(** C31: The upgrade always finishes, reading at most 8 KiB of response head.  When it
    succeeds, the request carrying a fresh key was sent, and the head read from
    the stream is a 101 response whose Sec-WebSocket-Accept is the digest of that
    key; in every other case it throws. *)
Theorem ws_handshake_sound `{NetIo} `{!NetIoLaws} c :
  wp ws_handshake
    (λ _ c', ∃ key resp,
      outgoing (io c') = outgoing (io c) ++ bytes_of_string (ws_request (host_ c) key) ∧
      incoming (io c) = resp ++ incoming (io c') ∧
      Z.of_nat (length resp) ≤ 8192 ∧ ends_headers resp = true ∧
      accepted_response key (string_of_bytes resp) ∧ only_io c c')
    (λ _ c', only_io c c') c.
Proof. apply ws_handshake_spec. Qed.

(** ** Certificate pinning *)

Lemma hex_digit_inj a b : 0 ≤ a < 16 → 0 ≤ b < 16 → hex_digit a = hex_digit b → a = b.
Proof.
  intros Ha Hb Heq.
  assert (∀ z, 0 ≤ z < 16 →
    list_find (λ c, c = hex_digit z) (String.list_ascii_of_string "0123456789abcdef")
    = Some (Z.to_nat z, hex_digit z)) as Hf.
  { intros z Hz. assert (z ∈ (Z.of_nat <$> seq 0 16)) as Hin.
    { apply list_elem_of_fmap. exists (Z.to_nat z). rewrite elem_of_seq. lia. }
    revert Hin. clear Hz. revert z. apply Forall_forall. by repeat constructor. }
  pose proof (Hf a Ha) as Hfa. rewrite Heq, (Hf b Hb) in Hfa. simplify_eq. lia.
Qed.

(** Different certificates have different fingerprints. *)
Lemma hex_of_bytes_inj bs bs' :
  Forall is_byte bs → Forall is_byte bs' → hex_of_bytes bs = hex_of_bytes bs' → bs = bs'.
Proof.
  assert (∀ b, is_byte b → 0 ≤ Z.land (Z.shiftr b 4) 0xf < 16 ∧ 0 ≤ Z.land b 0xf < 16 ∧
    b = 16 * Z.land (Z.shiftr b 4) 0xf + Z.land b 0xf) as Hnib.
  { intros b Hb. unfold is_byte in Hb. rewrite !land_0f, Z.shiftr_div_pow2 by lia.
    change (2 ^ 4) with 16. Z.to_euclidean_division_equations. lia. }
  intros Hbs. revert bs'. induction Hbs as [|b bs Hb _ IH]; intros bs' Hbs' Heq.
  - by destruct Hbs'.
  - destruct Hbs' as [|b' bs' Hb' Hbs']; [done|]. cbn [hex_of_bytes] in Heq.
    injection Heq as H1 H2 Heq. destruct (Hnib b Hb) as (? & ? & Hv), (Hnib b' Hb') as (? & ? & Hv').
    apply hex_digit_inj in H1, H2; [|done..]. f_equal; [congruence|]. by apply IH.
Qed.

(** The certificate presented has digest [digest] and was verified. *)
Definition presents `{NetIo} (s : net) (digest : bytes) : Prop :=
  SSL_get_verify_result s = 0 ∧ SSL_get1_peer_certificate s = Some (Some digest).

Lemma verify_and_pin_spec `{NetIo} host pinned c :
  wp (verify_and_pin host pinned)
    (λ fp c', c' = c ∧ (∃ digest, presents (io c) digest ∧ fp = hex_of_bytes digest) ∧
       (pinned = "" ∨ pinned = fp))
    (λ _ c', c' = c) c.
Proof.
  unfold verify_and_pin. apply wp_bind, wp_gets.
  destruct (Z.eqb_spec (SSL_get_verify_result (io c)) 0) as [Hv|]; [|by apply wp_throw].
  cbn [negb]. destruct (SSL_get1_peer_certificate (io c)) as [[digest|]|] eqn:Hc;
    [|by apply wp_throw..].
  destruct (str_empty pinned) eqn:He; cbn [negb andb].
  - apply wp_ret. apply str_empty_true in He. split_and!; [done|by exists digest|by left].
  - case_bool_decide as Hp; cbn [negb]; [|by apply wp_throw].
    apply wp_ret. split_and!; [done|by exists digest|by right].
Qed.

(** Everything of the connection but the network, [ssl_] and the fingerprint. *)
Definition same_session_flags `{NetIo} (c c' : Conn) : Prop :=
  connected_ c' = connected_ c ∧ running_ c' = running_ c ∧
  read_thread_ c' = read_thread_ c ∧ ping_thread_ c' = ping_thread_ c ∧
  tls_ c' = tls_ c ∧ sock_open c' = sock_open c.

(** The TLS session the handshake leaves behind. *)
Definition pinned_session `{NetIo} (pinned : string) (c : Conn) : Prop :=
  ssl_ c = true ∧ (pinned = "" ∨ pinned = server_cert_fp_ c) ∧
  ∃ digest, presents (io c) digest ∧ server_cert_fp_ c = hex_of_bytes digest.

Lemma wp_require `{NetIo} what f (Q : unit → Conn → Prop) (E : string → Conn → Prop) c :
  (∀ s, f (io c) = (s, true) → Q tt (set_io s c)) →
  (∀ s, f (io c) = (s, false) → E what (set_io s c)) →
  wp (require what f) Q E c.
Proof.
  intros HQ HE. unfold require. apply wp_bind, wp_on_io. intros s [] Hs.
  - apply wp_ret. by apply HQ.
  - apply wp_throw. by apply HE.
Qed.

Lemma tls_handshake_spec `{NetIo} pinned c :
  wp (tls_handshake pinned)
    (λ _ c', same_session_flags c c' ∧ pinned_session pinned c')
    (λ _ c', same_session_flags c c') c.
Proof.
  unfold tls_handshake. apply wp_bind, wp_modify, wp_bind, wp_require; [|done].
  intros s1 _. apply wp_bind, wp_modify, wp_bind, wp_gets.
  apply wp_bind, wp_require; [|done]. intros s2 _.
  apply wp_bind, wp_require; [|done]. intros s3 _.
  apply wp_bind, wp_on_io. intros s4 [] _; cbn iota.
  - apply wp_bind. eapply wp_mono; [apply verify_and_pin_spec| |]; [|by intros e c' ->].
    intros fp c' (-> & (digest & Hp & ->) & Hpin). apply wp_modify.
    split; [done|]. split_and!; [done|done|]. by exists digest.
  - by apply wp_bind, wp_gets, wp_throw.
Qed.

(** The same pin is never satisfied by two different certificates: when two TLS
    handshakes succeed with the same non-empty pin, both servers presented a
    verified certificate with the same digest. *)
Theorem pin_identifies_certificate `{NetIo} pinned c1 c1' c2 c2' d1 d2 :
  pinned ≠ "" →
  tls_handshake pinned c1 = (Ret tt, c1') → tls_handshake pinned c2 = (Ret tt, c2') →
  presents (io c1') d1 → presents (io c2') d2 →
  Forall is_byte d1 → Forall is_byte d2 → d1 = d2.
Proof.
  intros Hne H1 H2 [_ P1] [_ P2] B1 B2.
  pose proof (tls_handshake_spec pinned c1) as W1. pose proof (tls_handshake_spec pinned c2) as W2.
  unfold wp in W1, W2. rewrite H1 in W1. rewrite H2 in W2.
  destruct W1 as (_ & _ & Hp1 & d1' & [_ P1'] & F1), W2 as (_ & _ & Hp2 & d2' & [_ P2'] & F2).
  destruct Hp1 as [?|Hp1]; [done|]. destruct Hp2 as [?|Hp2]; [done|].
  apply hex_of_bytes_inj; [done..|]. congruence.
Qed.

(** No session: both flags are down and no thread is left to join. *)
Definition idle `{NetIo} (c : Conn) : Prop :=
  connected_ c = false ∧ running_ c = false ∧ read_thread_ c = false ∧ ping_thread_ c = false.

Lemma idle_flags `{NetIo} c c' : idle c → same_session_flags c c' → idle c'.
Proof. intros (? & ? & ? & ?) (? & ? & ? & ? & _). split_and!; congruence. Qed.

Lemma disconnect_spec `{NetIo} c :
  wp disconnect (λ _ c', idle c' ∧ tls_ c' = tls_ c ∧ sock_open c' = false ∧ ssl_ c' = false)
    (λ _ _, False) c.
Proof.
  unfold disconnect. apply wp_bind, wp_modify, wp_bind, wp_gets, wp_bind, wp_when.
  destruct (sock_open (set_flags false false c)) eqn:E.
  - by apply wp_modify, wp_bind, wp_modify, wp_modify.
  - by apply wp_bind, wp_modify, wp_modify.
Qed.

Lemma tcp_connect_spec `{NetIo} c :
  wp tcp_connect
    (λ _ c', (∃ s, c' = set_sock_open true (set_io s c))) (λ _ c', ∃ s, c' = set_io s c) c.
Proof.
  unfold tcp_connect. apply wp_bind, wp_gets, wp_bind, wp_gets, wp_bind, wp_on_io.
  intros s [u|e] _; [apply wp_modify|apply wp_throw]; by exists s.
Qed.

Lemma connect_spec `{NetIo} `{!NetIoLaws} pinned c :
  wp (connect pinned)
    (λ _ c', connected_ c' = true ∧ running_ c' = true ∧
      read_thread_ c' = true ∧ ping_thread_ c' = true ∧ sock_open c' = true ∧
      (tls_ c = true → ssl_ c' = true ∧
        (pinned = "" ∨ pinned = server_cert_fp_ c') ∧
        ∃ s digest, presents s digest ∧ server_cert_fp_ c' = hex_of_bytes digest))
    (λ _ c', idle c') c.
Proof.
  unfold connect. apply wp_bind. eapply wp_mono; [apply disconnect_spec| |done].
  intros _ c1 (Hid1 & Ht1 & _ & _). apply wp_bind.
  eapply wp_mono; [apply tcp_connect_spec| |]; [|by intros e c2 [s ->]].
  intros _ c2 [s ->]. apply wp_bind, wp_gets, wp_bind, wp_when.
  assert (idle (set_sock_open true (set_io s c1))) as Hid2 by exact Hid1.
  assert (∀ c3 : Conn, idle c3 → sock_open c3 = true →
    (tls_ c = true → pinned_session pinned c3) →
    wp (ws_handshake ;; modify (set_flags true true) ;; modify (set_threads true true))
      (λ _ c', connected_ c' = true ∧ running_ c' = true ∧
        read_thread_ c' = true ∧ ping_thread_ c' = true ∧ sock_open c' = true ∧
        (tls_ c = true → ssl_ c' = true ∧ (pinned = "" ∨ pinned = server_cert_fp_ c') ∧
          ∃ s digest, presents s digest ∧ server_cert_fp_ c' = hex_of_bytes digest))
      (λ _ c', idle c') c3) as Hrest.
  { intros c3 Hid Hso Hp. apply wp_bind.
    eapply wp_mono; [apply ws_handshake_spec| |]; [|by intros e c4 ->].
    intros _ c4 (key & resp & _ & _ & _ & _ & _ & ->).
    apply wp_bind, wp_modify, wp_modify. split_and!; try done.
    intros Ht. destruct (Hp Ht) as (? & ? & digest & ? & ?). split_and!; [done|done|].
    by exists (io c3), digest. }
  cbn [tls_ set_sock_open set_io]. destruct (tls_ c1) eqn:Ht.
  - eapply wp_mono; [apply tls_handshake_spec| |].
    + intros _ c3 [Hf Hp]. pose proof (idle_flags _ _ Hid2 Hf).
      destruct Hf as (_ & _ & _ & _ & _ & Hso). by apply Hrest.
    + intros e c3 Hf. by apply (idle_flags _ _ Hid2 Hf).
  - apply Hrest; [done|done|]. congruence.
Qed.

(** C30: [connect] either ends in a session with its two threads running or throws and
    leaves none, whatever session there was before.  Over TLS a session only
    starts on a verified certificate whose fingerprint is recorded and, unless the
    pin is empty, equals the pin. *)
Theorem connect_outcome `{NetIo} `{!NetIoLaws} pinned c :
  wp (connect pinned)
    (λ _ c', connected_ c' = true ∧ running_ c' = true ∧
      read_thread_ c' = true ∧ ping_thread_ c' = true ∧ sock_open c' = true ∧
      (tls_ c = true → ssl_ c' = true ∧
        (pinned = "" ∨ pinned = server_cert_fp_ c') ∧
        ∃ s digest, presents s digest ∧ server_cert_fp_ c' = hex_of_bytes digest))
    (λ _ c', idle c') c.
Proof. apply connect_spec. Qed.
