(* ===== verification/ConnectionThreads.v ===== *)
(** * ConnectionThreads: the threads of [client/src/connection/Connection.cpp]

    [connect] starts a read thread and a ping thread, which share the socket, the
    [SSL] object, the atomics [running_] and [connected_] and [write_mutex_] with the
    thread that calls [connect], [send_text] and [disconnect].  Each thread is a
    program counter that names the next statement it runs; a step runs one
    statement of one thread, or lets the network act.  What a single thread does
    with the bytes of a frame is the matter of [Connection]: here the read thread
    takes whole frames, and only the writes are split into the pieces [SSL_write]
    takes. *)

From S2P Require Import Prelude Connection.
Local Open Scope Z_scope.

Inductive Tid := Main | Reader | Pinger.
#[global] Instance Tid_eq_dec : EqDecision Tid.
Proof. solve_decision. Defined.

(** What [ws_decode_frame] finds next on the stream: a complete text message (whose
    handler will call [send_text] at most [sends] times), a ping, a pong, or something
    that makes it throw. *)
Inductive Inbound :=
| I_text (msg : string) (sends : nat)
| I_ping (payload : bytes)
| I_pong
| I_error (what : string).

(** ** Shared state *)

(** [sock_open] is [tcp_sock_.is_open()]; [shut] that [shutdown] reached the socket,
    and [peer_closed] that the peer or the network ended the connection.  The last three fields
    record what happened since [connect]: the frames whose write completed, whether a write
    failed part-way, and the calls of [on_disconnect_cb_]. *)
Record Shared : Type := mkShared {
  tls : bool;
  running : bool;
  connected : bool;
  sock_open : bool;
  shut : bool;
  peer_closed : bool;
  ssl : bool;
  write_mutex : option Tid;
  inbox : list Inbound;
  wire : bytes;
  frames : list bytes;
  torn : bool;
  notified : list string;
}.

Definition set_running (b : bool) (s : Shared) : Shared :=
  mkShared (tls s) b (connected s) (sock_open s) (shut s) (peer_closed s) (ssl s) (write_mutex s)
    (inbox s) (wire s) (frames s) (torn s) (notified s).
Definition set_connected (b : bool) (s : Shared) : Shared :=
  mkShared (tls s) (running s) b (sock_open s) (shut s) (peer_closed s) (ssl s) (write_mutex s)
    (inbox s) (wire s) (frames s) (torn s) (notified s).
Definition set_sock (opened shut : bool) (s : Shared) : Shared :=
  mkShared (tls s) (running s) (connected s) opened shut (peer_closed s) (ssl s) (write_mutex s)
    (inbox s) (wire s) (frames s) (torn s) (notified s).
Definition set_peer_closed (s : Shared) : Shared :=
  mkShared (tls s) (running s) (connected s) (sock_open s) (shut s) true (ssl s) (write_mutex s)
    (inbox s) (wire s) (frames s) (torn s) (notified s).
Definition set_ssl (b : bool) (s : Shared) : Shared :=
  mkShared (tls s) (running s) (connected s) (sock_open s) (shut s) (peer_closed s) b (write_mutex s)
    (inbox s) (wire s) (frames s) (torn s) (notified s).
Definition set_write_mutex (o : option Tid) (s : Shared) : Shared :=
  mkShared (tls s) (running s) (connected s) (sock_open s) (shut s) (peer_closed s) (ssl s) o
    (inbox s) (wire s) (frames s) (torn s) (notified s).
Definition set_inbox (q : list Inbound) (s : Shared) : Shared :=
  mkShared (tls s) (running s) (connected s) (sock_open s) (shut s) (peer_closed s) (ssl s)
    (write_mutex s) q (wire s) (frames s) (torn s) (notified s).
Definition set_wire (w : bytes) (fs : list bytes) (t : bool) (s : Shared) : Shared :=
  mkShared (tls s) (running s) (connected s) (sock_open s) (shut s) (peer_closed s) (ssl s)
    (write_mutex s) (inbox s) w fs t (notified s).
Definition notify (e : string) (s : Shared) : Shared :=
  mkShared (tls s) (running s) (connected s) (sock_open s) (shut s) (peer_closed s) (ssl s)
    (write_mutex s) (inbox s) (wire s) (frames s) (torn s) (notified s ++ [e]).

(** A connection just opened: new streams, nothing sent, nothing reported. *)
Definition opened (q : list Inbound) (s : Shared) : Shared :=
  mkShared (tls s) (running s) (connected s) true false false (tls s) (write_mutex s)
    q [] [] false [].

(** ** [ws_send_frame] *)

(** Where a thread is in [ws_send_frame]: at the lock, at [ws_encode_frame], or in
    [ssl_write_all] with [n] bytes of the frame written. *)
Inductive Sending :=
| S_lock (opcode : Z) (payload : bytes)
| S_encode (opcode : Z) (payload : bytes)
| S_write (frame : bytes) (n : nat).

Inductive SendResult :=
| More (p : Sending)
| Sent
| Threw.

(** The frame [ws_encode_frame] makes with a mask. *)
Definition masked_frame (opcode : Z) (mask payload : bytes) : bytes :=
  encode_header opcode (u64 (Z.of_nat (length payload))) ++ mask ++ mask_from mask 0 payload.

(** A throw leaves the block of the [lock_guard], which unlocks. *)
Inductive send_step (t : Tid) : Sending → Shared → SendResult → Shared → Prop :=
| send_lock op p s :
    write_mutex s = None →
    send_step t (S_lock op p) s (More (S_encode op p)) (set_write_mutex (Some t) s)
| send_no_random op p s :
    send_step t (S_encode op p) s Threw (set_write_mutex None s)
| send_encode op p mask s :
    length mask = 4%nat →
    send_step t (S_encode op p) s (More (S_write (masked_frame op mask p) 0)) s
| send_piece f n k s :
    (0 < k)%nat → (n + k ≤ length f)%nat → sock_open s = true → shut s = false →
    send_step t (S_write f n) s (More (S_write f (n + k)))
      (set_wire (wire s ++ take k (drop n f)) (frames s) (torn s) s)
| send_fails f n s :
    (n < length f)%nat →
    send_step t (S_write f n) s Threw
      (set_write_mutex None (set_wire (wire s) (frames s) true s))
| send_complete f s :
    send_step t (S_write f (length f)) s Sent
      (set_write_mutex None (set_wire (wire s) (frames s ++ [f]) (torn s) s)).

(** ** The read thread *)

(** [R_off]: not joinable; [R_done]: returned, not joined.  [R_decode] is at the read
    of [ws_decode_frame], [R_blocked] inside it; [R_callback n] is in [on_message_cb_],
    which will call [send_text] at most [n] more times. *)
Inductive ReaderPc :=
| R_off
| R_check
| R_decode
| R_blocked
| R_pong (p : Sending)
| R_callback (n : nat)
| R_callback_send (p : Sending) (n : nat)
| R_catch (what : string)
| R_exchange (what : string)
| R_notify (what : string)
| R_done.

(** The frame the read thread takes from the stream. *)
Definition received (i : Inbound) : ReaderPc :=
  match i with
  | I_text _ n => R_callback n
  | I_ping payload => R_pong (S_lock 0x0a payload)
  | I_pong => R_decode
  | I_error what => R_catch what
  end.

Inductive reader_step : ReaderPc → Shared → ReaderPc → Shared → Prop :=
| reader_check s :
    reader_step R_check s (if running s then R_decode else R_done) s
| reader_bad_fd what s :
    sock_open s = false → reader_step R_decode s (R_catch what) s
| reader_block s :
    sock_open s = true → reader_step R_decode s R_blocked s
| reader_frame i q s :
    inbox s = i :: q → reader_step R_blocked s (received i) (set_inbox q s)
| reader_eof what s :
    peer_closed s = true ∨ shut s = true → reader_step R_blocked s (R_catch what) s
| reader_pong_more p p' s s' :
    send_step Reader p s (More p') s' → reader_step (R_pong p) s (R_pong p') s'
| reader_pong_sent p s s' :
    send_step Reader p s Sent s' → reader_step (R_pong p) s R_decode s'
| reader_pong_threw p what s s' :
    send_step Reader p s Threw s' → reader_step (R_pong p) s (R_catch what) s'
| reader_send payload n s :
    reader_step (R_callback (S n)) s
      (if connected s then R_callback_send (S_lock 0x01 payload) n else R_callback n) s
| reader_send_more p p' n s s' :
    send_step Reader p s (More p') s' →
    reader_step (R_callback_send p n) s (R_callback_send p' n) s'
| reader_send_end p r n s s' :
    send_step Reader p s r s' → r = Sent ∨ r = Threw →
    reader_step (R_callback_send p n) s (R_callback n) s'
| reader_returns n s : reader_step (R_callback n) s R_check s
| reader_throws n what s : reader_step (R_callback n) s (R_catch what) s
| reader_catch what s :
    reader_step (R_catch what) s (R_exchange what) (set_connected false s)
| reader_exchange what s :
    reader_step (R_exchange what) s
      (if running s then R_notify what else R_check) (set_running false s)
| reader_notify what s :
    reader_step (R_notify what) s R_check (notify what s).

(** ** The ping thread *)

Inductive PingerPc :=
| P_off
| P_check
| P_sleep (i : nat)
| P_recheck
| P_send (p : Sending)
| P_close
| P_done.

Inductive pinger_step : PingerPc → Shared → PingerPc → Shared → Prop :=
| pinger_check s :
    pinger_step P_check s (if running s then P_sleep 0 else P_done) s
| pinger_sleep i s :
    pinger_step (P_sleep i) s
      (if (i <? 50)%nat && running s then P_sleep (S i) else P_recheck) s
| pinger_recheck s :
    pinger_step P_recheck s (if running s then P_send (S_lock 0x09 []) else P_done) s
| pinger_more p p' s s' :
    send_step Pinger p s (More p') s' → pinger_step (P_send p) s (P_send p') s'
| pinger_sent p s s' :
    send_step Pinger p s Sent s' → pinger_step (P_send p) s P_check s'
| pinger_threw p s s' :
    send_step Pinger p s Threw s' → pinger_step (P_send p) s P_close s'
| pinger_close s :
    pinger_step P_close s P_done (set_sock false (shut s) s).

(** ** The calling thread *)

(** The statements of [disconnect]; those of [connect] follow it when [again] is set. *)
Inductive MainPc :=
| M_idle
| M_send (p : Sending)
| D_running (again : bool)
| D_connected (again : bool)
| D_is_open (again : bool)
| D_shutdown (again : bool)
| D_close (again : bool)
| D_join_read (again : bool)
| D_join_ping (again : bool)
| D_free (again : bool)
| C_open
| C_connected
| C_running
| C_read_thread
| C_ping_thread.

(** [C_open] stands for [tcp_connect], [tls_handshake] and [ws_handshake], which run
    while there is no other thread ([Connection.connect]). *)
Inductive main_step : MainPc → ReaderPc → PingerPc → Shared →
    MainPc → ReaderPc → PingerPc → Shared → Prop :=
| main_send payload r p s :
    connected s = true → main_step M_idle r p s (M_send (S_lock 0x01 payload)) r p s
| main_send_more q q' r p s s' :
    send_step Main q s (More q') s' → main_step (M_send q) r p s (M_send q') r p s'
| main_send_end q res r p s s' :
    send_step Main q s res s' → res = Sent ∨ res = Threw →
    main_step (M_send q) r p s M_idle r p s'
| main_begin again r p s : main_step M_idle r p s (D_running again) r p s
| main_stop_running again r p s :
    main_step (D_running again) r p s (D_connected again) r p (set_running false s)
| main_stop_connected again r p s :
    main_step (D_connected again) r p s (D_is_open again) r p (set_connected false s)
| main_is_open again r p s :
    main_step (D_is_open again) r p s
      (if sock_open s then D_shutdown again else D_join_read again) r p s
| main_shutdown again r p s :
    main_step (D_shutdown again) r p s (D_close again) r p
      (set_sock (sock_open s) (shut s || sock_open s) s)
| main_close again r p s :
    main_step (D_close again) r p s (D_join_read again) r p (set_sock false (shut s) s)
| main_join_read again r p s :
    r = R_off ∨ r = R_done →
    main_step (D_join_read again) r p s (D_join_ping again) R_off p s
| main_join_ping again r p s :
    p = P_off ∨ p = P_done →
    main_step (D_join_ping again) r p s (D_free again) r P_off s
| main_free again r p s :
    main_step (D_free again) r p s (if again then C_open else M_idle) r p (set_ssl false s)
| main_open_fails opened has_ssl r p s :
    (has_ssl = true → tls s = true) →
    main_step C_open r p s M_idle r p (set_ssl has_ssl (set_sock opened (shut s) s))
| main_opened q r p s : main_step C_open r p s C_connected r p (opened q s)
| main_connected r p s : main_step C_connected r p s C_running r p (set_connected true s)
| main_running r p s : main_step C_running r p s C_read_thread r p (set_running true s)
| main_read_thread r p s : main_step C_read_thread r p s C_ping_thread R_check p s
| main_ping_thread r p s : main_step C_ping_thread r p s M_idle r P_check s.

(** ** The system *)

Record System : Type := mkSystem {
  main : MainPc;
  reader : ReaderPc;
  pinger : PingerPc;
  sh : Shared;
}.

Inductive thread_step : System → System → Prop :=
| step_main m r p s m' r' p' s' :
    main_step m r p s m' r' p' s' →
    thread_step (mkSystem m r p s) (mkSystem m' r' p' s')
| step_reader m r p s r' s' :
    reader_step r s r' s' → thread_step (mkSystem m r p s) (mkSystem m r' p s')
| step_pinger m r p s p' s' :
    pinger_step p s p' s' → thread_step (mkSystem m r p s) (mkSystem m r p' s').

(** The network: frames arrive until the connection ends or is shut down. *)
Inductive net_step : System → System → Prop :=
| net_arrives i m r p s :
    peer_closed s = false → shut s = false →
    net_step (mkSystem m r p s) (mkSystem m r p (set_inbox (inbox s ++ [i]) s))
| net_closes m r p s :
    peer_closed s = false →
    net_step (mkSystem m r p s) (mkSystem m r p (set_peer_closed s)).

Definition step (a b : System) : Prop := thread_step a b ∨ net_step a b.

(** A [Connection] just constructed. *)
Definition created (use_tls : bool) : System :=
  mkSystem M_idle R_off P_off
    (mkShared use_tls false false false false false false None [] [] [] false []).

Definition reachable (use_tls : bool) : System → Prop := rtc step (created use_tls).
