(* ===== verification/ConnectionThreadsFacts.v ===== *)
(** * ConnectionThreadsFacts: what the threads of a connection can and cannot do

    Invariants of every interleaving, by induction on the steps: frames are not mixed
    on the wire, [on_disconnect] fires at most once, the [SSL] object is not used
    after it is freed; and what makes [disconnect] return. *)

From S2P Require Import Prelude Connection ConnectionThreads.
Local Open Scope Z_scope.

(** ** Writers *)

(** The frame a thread is sending under [write_mutex_], if it holds it. *)
Definition under_lock (p : Sending) : option Sending :=
  match p with S_lock _ _ => None | _ => Some p end.
Definition holding (a : System) (t : Tid) : option Sending :=
  match t with
  | Main => match main a with M_send p => under_lock p | _ => None end
  | Reader =>
    match reader a with R_pong p | R_callback_send p _ => under_lock p | _ => None end
  | Pinger => match pinger a with P_send p => under_lock p | _ => None end
  end.

(** The bytes of an unfinished frame that are on the wire. *)
Definition partial (p : option Sending) : bytes :=
  match p with Some (S_write f n) => take n f | _ => [] end.
Definition in_flight (h : Tid → option Sending) (s : Shared) : bytes :=
  match write_mutex s with Some t => partial (h t) | None => [] end.

(** A complete frame of a client: masked, with the header of its payload. *)
Definition client_frame (f : bytes) : Prop :=
  ∃ opcode mask payload, length mask = 4%nat ∧ f = masked_frame opcode mask payload.

(** The frames are those of [ws_encode_frame]. *)
Lemma ws_encode_frame_masked `{NetIo} `{!NetIoLaws} opcode payload c f c' :
  ws_encode_frame opcode payload c = (Ret f, c') → client_frame f.
Proof.
  unfold ws_encode_frame, on_io, mbind, M_bind.
  destruct (RAND_bytes (io c) 4) as [n [mask|]] eqn:E; [|done].
  intros [= <- _]. apply RAND_bytes_ok in E as (E & _). by exists opcode, mask, payload.
Qed.

Record writers (h : Tid → option Sending) (s : Shared) : Prop := {
  wr_lock t : is_Some (h t) ↔ write_mutex s = Some t;
  wr_wire : torn s = false → wire s = concat (frames s) ++ in_flight h s;
  wr_frames : Forall client_frame (frames s);
  wr_current t f n : h t = Some (S_write f n) → client_frame f ∧ (n ≤ length f)%nat;
}.

Definition write_view (s : Shared) : option Tid * bytes * list bytes * bool :=
  (write_mutex s, wire s, frames s, torn s).

(** Steps that write nothing. *)
Lemma writers_frame h h' s s' :
  writers h s → (∀ t, h' t = h t) → write_view s' = write_view s → writers h' s'.
Proof.
  intros [W1 W2 W3 W4] Hh [= E1 E2 E3 E4]. split.
  - intros t. by rewrite Hh, E1.
  - unfold in_flight. rewrite E1, E2, E3, E4. intros Ht. rewrite (W2 Ht). unfold in_flight.
    by destruct (write_mutex s); rewrite ?Hh.
  - by rewrite E3.
  - intros t f n. rewrite Hh. apply W4.
Qed.

Definition after (r : SendResult) : option Sending :=
  match r with More p => under_lock p | _ => None end.

(** The lock after a step, and the frames of the other threads. *)
Ltac locks Hl Ht := apply Hl; auto; rewrite Ht; split; congruence.
Ltac others t := let t' := fresh in let f := fresh in let n := fresh in
  intros t' f n; destruct (decide (t' = t)) as [->|]; eauto; congruence.

(** A step of [ws_send_frame]: only the thread that holds the lock writes. *)
Lemma writers_send h h' t p r s s' :
  writers h s → send_step t p s r s' → h t = under_lock p →
  h' t = after r → (∀ t', t' ≠ t → h' t' = h t') → writers h' s'.
Proof.
  intros [W1 W2 W3 W4] Hs Hp Ht Ho.
  assert (∀ t', t' ≠ t → is_Some (h t') → write_mutex s = Some t → False) as Hx.
  { intros t' Hne Hsome Hm. apply W1 in Hsome. congruence. }
  assert (under_lock p = Some p → write_mutex s = Some t) as Hm.
  { intros E. apply W1. rewrite Hp, E. by eexists. }
  assert (∀ t' f n, t' ≠ t → h' t' = Some (S_write f n) → client_frame f ∧ (n ≤ length f)%nat) as Hc.
  { intros t' f n Hne. rewrite Ho by done. apply W4. }
  assert (∀ m, m = None ∨ m = Some t → (write_mutex s = None ∨ write_mutex s = Some t) →
    (h' t = None ↔ m = None) → ∀ t', is_Some (h' t') ↔ m = Some t') as Hl.
  { intros m Hm1 Hm2 Hm3 t'. destruct (decide (t' = t)) as [->|Hne].
    - rewrite <-not_eq_None_Some. destruct Hm1 as [-> | ->]; split; intros E; try done; [|by rewrite Hm3].
      by destruct E; apply Hm3.
    - rewrite Ho, W1 by done. split; intros; destruct Hm1, Hm2; congruence. }
  unfold in_flight in *.
  destruct Hs as [op q s E|op q s|op q mask s E|f n k s Hk Hn Ho' Hs'|f n s Hn|f s]; cbn in *;
    try (specialize (Hm eq_refl); rewrite Hm, Hp in W2).
  - split; unfold in_flight; cbn; [locks Hl Ht|rewrite Ht; by rewrite E in W2|exact W3|others t].
  - split; unfold in_flight; cbn; [locks Hl Ht|exact W2|exact W3|others t].
  - split; unfold in_flight; cbn; [locks Hl Ht|rewrite Hm, Ht; exact W2|exact W3|].
    intros t' f n. destruct (decide (t' = t)) as [->|]; [|eauto]. rewrite Ht. intros [= <- <-].
    split; [by exists op, mask, q|lia].
  - destruct (W4 t f n Hp) as [Hf Hle]. split; unfold in_flight; cbn; [locks Hl Ht| |exact W3|].
    + rewrite Hm, Ht. intros E. rewrite (W2 E). cbn. rewrite <-app_assoc. f_equal.
      by rewrite take_take_drop.
    + intros t' f' n'. destruct (decide (t' = t)) as [->|]; [|eauto]. rewrite Ht. intros [= <- <-].
      by split.
  - split; unfold in_flight; cbn; [locks Hl Ht|done|exact W3|others t].
  - destruct (W4 t f _ Hp) as [Hf Hle]. split; unfold in_flight; cbn; [locks Hl Ht| |apply Forall_app; auto|others t].
    intros E. rewrite (W2 E), concat_app. cbn. by rewrite firstn_all, !app_nil_r.
Qed.

(** ** Lifecycle *)

(** Where the calling thread knows that the other threads do not exist. *)
Definition reader_gone (m : MainPc) : bool :=
  match m with
  | D_join_ping _ | D_free _ | C_open | C_connected | C_running | C_read_thread => true
  | _ => false
  end.
Definition pinger_gone (m : MainPc) : bool :=
  match m with
  | D_free _ | C_open | C_connected | C_running | C_read_thread | C_ping_thread => true
  | _ => false
  end.

(** Where the flags can be set. *)
Definition may_run (m : MainPc) : bool :=
  match m with M_idle | M_send _ | D_running _ | C_read_thread | C_ping_thread => true | _ => false end.
Definition may_be_connected (m : MainPc) : bool :=
  match m with D_connected _ | C_running => true | _ => may_run m end.

(** Where [ssl_] is about to be used, or was just made. *)
Definition needs_ssl (m : MainPc) : bool :=
  match m with
  | M_send _ | C_connected | C_running | C_read_thread | C_ping_thread => true
  | _ => false
  end.
Definition opening (m : MainPc) : bool :=
  match m with C_connected | C_running => true | _ => false end.
Definition reporting (r : ReaderPc) : bool := match r with R_notify _ => true | _ => false end.
Definition dropping (r : ReaderPc) : bool :=
  match r with R_exchange _ | R_notify _ => true | _ => false end.

Record lifecycle (m : MainPc) (r : ReaderPc) (p : PingerPc) (s : Shared) : Prop := {
  lc_reader : reader_gone m = true → r = R_off;
  lc_pinger : pinger_gone m = true → p = P_off;
  lc_running : running s = true → may_run m = true;
  lc_connected : connected s = true → may_be_connected m = true;
  lc_ssl : r ≠ R_off ∨ p ≠ P_off ∨ connected s = true ∨ needs_ssl m = true → ssl s = tls s;
  lc_unreported : running s = true ∨ opening m = true → notified s = [] ∧ reporting r = false;
  lc_reported : notified s ≠ [] ∨ dropping r = true → connected s = false;
  lc_once : (length (notified s) + (if reporting r then 1 else 0) ≤ 1)%nat;
}.

(** What a writer leaves alone. *)
Definition flag_view (s : Shared) :=
  (tls s, running s, connected s, sock_open s, shut s, peer_closed s, ssl s, inbox s, notified s).

Lemma send_step_flags t p s r s' : send_step t p s r s' → flag_view s' = flag_view s.
Proof. by destruct 1. Qed.

Lemma lifecycle_frame m r p s s' :
  lifecycle m r p s → flag_view s' = flag_view s → lifecycle m r p s'.
Proof.
  intros [L1 L2 L3 L4 L5 L6 L7 L8] [= E1 E2 E3 E4 E5 E6 E7 E8 E9].
  split; rewrite ?E1, ?E2, ?E3, ?E7, ?E9; auto.
Qed.

(** Case analysis on the flags a step depends on. *)
Ltac by_flags :=
  repeat match goal with |- context [if ?b then _ else _] =>
    lazymatch b with context [if _ then _ else _] => fail | _ => destruct b eqn:? end end;
  cbn in *; rewrite ?length_app in *; intuition (try congruence; eauto);
  try match goal with E : notified _ = [] |- _ => rewrite E in * end; subst; cbn in *;
  try congruence; try lia.

Lemma reader_lifecycle m r p s r' s' :
  lifecycle m r p s → reader_step r s r' s' → lifecycle m r' p s'.
Proof.
  intros HL Hs.
  assert (r ≠ R_off) as Hr by (by destruct Hs).
  destruct HL as [L1 L2 L3 L4 L5 L6 L7 L8].
  assert (reader_gone m = false) as Hg by (destruct (reader_gone m); [by destruct Hr; auto|done]).
  assert (opening m = false) as Ho by (by destruct m).
  destruct Hs; try match goal with i : Inbound |- _ => destruct i end;
    try (apply send_step_flags in H as [= E1 E2 E3 E4 E5 E6 E7 E8 E9]);
    split; rewrite ?E1, ?E2, ?E3, ?E7, ?E9; by_flags.
Qed.

Lemma pinger_lifecycle m r p s p' s' :
  lifecycle m r p s → pinger_step p s p' s' → lifecycle m r p' s'.
Proof.
  intros HL Hs.
  assert (p ≠ P_off) as Hp by (by destruct Hs).
  destruct HL as [L1 L2 L3 L4 L5 L6 L7 L8].
  assert (pinger_gone m = false) as Hg by (destruct (pinger_gone m); [by destruct Hp; auto|done]).
  destruct Hs; try (apply send_step_flags in H as [= E1 E2 E3 E4 E5 E6 E7 E8 E9]);
    split; rewrite ?E1, ?E2, ?E3, ?E7, ?E9; by_flags.
Qed.

Lemma main_lifecycle m r p s m' r' p' s' :
  lifecycle m r p s → main_step m r p s m' r' p' s' → lifecycle m' r' p' s'.
Proof.
  intros [L1 L2 L3 L4 L5 L6 L7 L8] Hs.
  destruct Hs; try (apply send_step_flags in H as [= E1 E2 E3 E4 E5 E6 E7 E8 E9]);
    split; rewrite ?E1, ?E2, ?E3, ?E7, ?E9; by_flags.
Qed.

(** ** Every reachable state *)

Record invariant (a : System) : Prop := {
  iv_writers : writers (holding a) (sh a);
  iv_lifecycle : lifecycle (main a) (reader a) (pinger a) (sh a);
}.

(** A step of one thread, as a step of [ws_send_frame] or one that writes nothing. *)
Ltac writing t :=
  eapply (writers_send _ _ t); [eassumption|eassumption|done|by destruct_or?; subst|by intros []].
Ltac not_writing := eapply writers_frame; [eassumption|by intros []|done].

Lemma reader_writers m r p s r' s' :
  writers (holding (mkSystem m r p s)) s → reader_step r s r' s' →
  writers (holding (mkSystem m r' p s')) s'.
Proof.
  intros HW Hs. destruct Hs; try (by writing Reader);
    repeat case_match; try match goal with i : Inbound |- _ => destruct i end; not_writing.
Qed.

Lemma pinger_writers m r p s p' s' :
  writers (holding (mkSystem m r p s)) s → pinger_step p s p' s' →
  writers (holding (mkSystem m r p' s')) s'.
Proof. intros HW Hs. destruct Hs; try (by writing Pinger); repeat case_match; not_writing. Qed.

Lemma main_writers m r p s m' r' p' s' :
  writers (holding (mkSystem m r p s)) s → lifecycle m r p s → main_step m r p s m' r' p' s' →
  writers (holding (mkSystem m' r' p' s')) s'.
Proof.
  intros HW HL Hs. destruct Hs; try (by writing Main);
    try (repeat case_match; destruct_or?; subst; not_writing).
  - rewrite (lc_reader _ _ _ _ HL eq_refl), (lc_pinger _ _ _ _ HL eq_refl) in *.
    assert (write_mutex s = None) as Hm.
    { destruct (write_mutex s) as [t|] eqn:E; [|done]. apply (wr_lock _ _ HW) in E.
      destruct t; cbn in E; by apply is_Some_None in E. }
    split; unfold in_flight; cbn; rewrite ?Hm; [|done|done|by intros []]. intros t.
    split; [|done]. destruct t; cbn; by intros ?%is_Some_None.
  - rewrite (lc_reader _ _ _ _ HL eq_refl) in *. not_writing.
  - rewrite (lc_pinger _ _ _ _ HL eq_refl) in *. not_writing.
Qed.

Lemma step_invariant a b : invariant a → step a b → invariant b.
Proof.
  intros Hi Hs. revert Hi.
  destruct Hs as [[m r p s m' r' p' s' Hs|m r p s r' s' Hs|m r p s p' s' Hs]|
    [i m r p s Hp Hsh|m r p s Hp]]; intros [HW HL]; split.
  - exact (main_writers _ _ _ _ _ _ _ _ HW HL Hs).
  - exact (main_lifecycle _ _ _ _ _ _ _ _ HL Hs).
  - exact (reader_writers _ _ _ _ _ _ HW Hs).
  - exact (reader_lifecycle _ _ _ _ _ _ HL Hs).
  - exact (pinger_writers _ _ _ _ _ _ HW Hs).
  - exact (pinger_lifecycle _ _ _ _ _ _ HL Hs).
  - not_writing.
  - by destruct HL.
  - not_writing.
  - by destruct HL.
Qed.

Lemma created_invariant use_tls : invariant (created use_tls).
Proof.
  split; split; cbn; try done.
  - intros t. split; [destruct t; by intros ?%is_Some_None|done].
  - by intros [].
  - intuition congruence.
  - lia.
Qed.

Lemma reachable_holds use_tls (P : System → Prop) :
  P (created use_tls) → (∀ a b, P a → step a b → P b) → ∀ a, reachable use_tls a → P a.
Proof. intros H0 HS a Hr. refine (rtc_ind_r P _ H0 _ a Hr). eauto. Qed.

Lemma reachable_invariant use_tls a : reachable use_tls a → invariant a.
Proof. apply reachable_holds; [apply created_invariant|apply step_invariant]. Qed.

(** Whether the connection uses TLS is fixed. *)
Lemma reachable_tls use_tls a : reachable use_tls a → tls (sh a) = use_tls.
Proof.
  apply (reachable_holds _ (λ a, tls (sh a) = use_tls)); [done|]. intros x y <- Hs.
  destruct Hs as [[m r p s m' r' p' s' Hs|m r p s r' s' Hs|m r p s p' s' Hs]|[]];
    try done; destruct Hs; try done; apply send_step_flags in H as [= E _]; exact E.
Qed.

(** What is on the wire in a state where no write has failed: complete frames, then
    possibly the beginning of one. *)
Definition well_framed (w : bytes) (fs : list bytes) : Prop :=
  ∃ rest f n, w = concat fs ++ rest ∧ client_frame f ∧ rest = take n f.

(** C21: However the three threads are scheduled, the frames they send do not mix: the
    bytes on the wire are whole frames one after the other, up to the one being written,
    until a write fails. *)
Theorem frames_not_interleaved use_tls a :
  reachable use_tls a →
  Forall client_frame (frames (sh a)) ∧
  (torn (sh a) = false → well_framed (wire (sh a)) (frames (sh a))).
Proof.
  intros [[W1 W2 W3 W4] _]%reachable_invariant. split; [done|]. intros Ht. specialize (W2 Ht).
  unfold in_flight in W2.
  assert (client_frame (masked_frame 9 [0; 0; 0; 0] [])) as Hf by by exists 9, [0; 0; 0; 0], [].
  assert (wire (sh a) = concat (frames (sh a)) ++ [] → well_framed (wire (sh a)) (frames (sh a)))
    as Hnil by (intros E; by exists [], (masked_frame 9 [0; 0; 0; 0] []), 0%nat).
  destruct (write_mutex (sh a)) as [t|]; [|auto].
  destruct (holding a t) as [[| |f n]|] eqn:E; auto. destruct (W4 _ _ _ E) as [Hcf _].
  by exists (take n f), f, n.
Qed.

(** C23: [on_disconnect_cb_] is called at most once between two calls of [connect], only
    after the connection was marked as down, and not once [disconnect] has cleared
    [running_] first. *)
Theorem on_disconnect_once use_tls a :
  reachable use_tls a →
  (length (notified (sh a)) ≤ 1)%nat ∧
  (notified (sh a) ≠ [] → running (sh a) = false ∧ connected (sh a) = false) ∧
  ∀ e s', reader_step (reader a) (sh a) (R_notify e) s' → running (sh a) = true.
Proof.
  intros [_ [L1 L2 L3 L4 L5 L6 L7 L8]]%reachable_invariant. split; [lia|]. split.
  - intros Hn. split; [|auto]. destruct (running (sh a)); [|done].
    by destruct L6 as [? _]; [left|].
  - intros e s' Hs. inversion Hs; subst; try done; try (by destruct i); by case_match.
Qed.

(** A thread is inside [SSL_read] or [SSL_write]. *)
Definition in_ssl (a : System) : bool :=
  match main a with M_send (S_write _ _) => true | _ => false end ||
  match reader a with
  | R_decode | R_blocked | R_pong (S_write _ _) | R_callback_send (S_write _ _) _ => true
  | _ => false
  end ||
  match pinger a with P_send (S_write _ _) => true | _ => false end.

(** C22: Over TLS no thread reads or writes through a null or freed [ssl_]: the pointer is
    valid whenever a thread is inside an OpenSSL call, and none is when [disconnect]
    frees it. *)
Theorem ssl_not_used_after_free a :
  reachable true a → in_ssl a = true →
  ssl (sh a) = true ∧ ∀ again, main a ≠ D_free again.
Proof.
  intros Hr Hu. pose proof (reachable_invariant _ _ Hr) as [_ [L1 L2 _ _ L5 _ _ _]].
  pose proof (reachable_tls _ _ Hr) as Htls.
  unfold in_ssl in Hu. split.
  - rewrite <-Htls. apply L5. destruct (main a), (reader a), (pinger a); cbn in *; try done; auto.
  - intros again E. rewrite E in *. rewrite L1, L2 in Hu by done. done.
Qed.
