(* ===== verification/ConnectionShutdown.v ===== *)
(** * ConnectionShutdown: does [Connection::disconnect] return?

    [disconnect] joins the two threads.  Once it has shut the socket down it returns
    under every scheduling; when the ping thread closed the socket first it may not. *)

From S2P Require Import Prelude Connection ConnectionThreads ConnectionThreadsFacts.
Local Open Scope Z_scope.

(** Every execution from [a] reaches a state with [P]: none ends or goes on for ever before. *)
Inductive inevitably (P : System → Prop) (a : System) : Prop :=
| inev_now : P a → inevitably P a
| inev_later : (∃ b, step a b) → (∀ b, step a b → inevitably P b) → inevitably P a.

(** Both threads are joined, only [SSL_free] is left. *)
Definition joined (a : System) : Prop := ∃ again, main a = D_free again.

(** [disconnect] is past the shutdown. *)
Definition past_shutdown (m : MainPc) : bool :=
  match m with D_close _ | D_join_read _ | D_join_ping _ | D_free _ => true | _ => false end.

Record closing (a : System) : Prop := {
  cl_invariant : invariant a;
  cl_main : past_shutdown (main a) = true;
  cl_shut : shut (sh a) = true;
}.

Lemma closing_flags a :
  closing a → running (sh a) = false ∧ connected (sh a) = false.
Proof.
  intros [[_ [_ _ L3 L4 _ _ _ _]] HM _]. split; apply not_true_is_false; intros E.
  - apply L3 in E. by destruct (main a).
  - apply L4 in E. by destruct (main a).
Qed.

(** ** A measure that every step decreases *)

Definition send_weight (p : Sending) : nat :=
  match p with S_lock _ _ => 5 | S_encode _ _ => 4 | S_write _ _ => 3 end.
Definition reader_weight (r : ReaderPc) : nat :=
  match r with
  | R_off => 0 | R_done => 1 | R_check => 2 | R_notify _ => 3 | R_exchange _ => 4 | R_catch _ => 5
  | R_blocked => 6 | R_decode => 7
  | R_pong p => 8 + send_weight p
  | R_callback n => 6 + 10 * n
  | R_callback_send p n => 7 + 10 * n + send_weight p
  end.
Definition pinger_weight (p : PingerPc) : nat :=
  match p with
  | P_off => 0 | P_done => 1 | P_check | P_close | P_recheck => 2 | P_sleep _ => 3
  | P_send q => 3 + send_weight q
  end.
Definition main_weight (m : MainPc) : nat :=
  match m with D_close _ => 3 | D_join_read _ => 2 | D_join_ping _ => 1 | _ => 0 end.
Definition frame_weight (i : Inbound) : nat :=
  match i with I_text _ n => 10 + 10 * n | _ => 10 end.
Definition inbox_weight (q : list Inbound) : nat := sum_list_with frame_weight q.
Definition weight (a : System) : nat :=
  main_weight (main a) + reader_weight (reader a) + pinger_weight (pinger a) +
  inbox_weight (inbox (sh a)) + (if peer_closed (sh a) then 0 else 1).

Definition result_weight (r : SendResult) : nat :=
  match r with More p => send_weight p | _ => 0 end.

Lemma send_step_decreases t p s r s' :
  send_step t p s r s' → shut s = true →
  (result_weight r < send_weight p)%nat ∧ inbox s' = inbox s ∧ peer_closed s' = peer_closed s ∧
    shut s' = shut s.
Proof. destruct 1; cbn; intros; split_and!; try done; try lia; congruence. Qed.

(** Turns a step of a writer into facts about the weights. *)
Ltac weigh :=
  repeat match goal with
  | H : send_step _ _ _ _ _, Hs : shut _ = true |- _ =>
    apply send_step_decreases in H as (? & ? & ? & ?); [|exact Hs]
  | H : _ ∨ _ |- _ => destruct H
  end; subst; unfold weight, inbox_weight in *; cbn in *;
  repeat match goal with E : inbox _ = inbox _ |- _ => rewrite !E; clear E end.

Lemma reader_step_decreases r s r' s' :
  reader_step r s r' s' → shut s = true → running s = false → connected s = false →
  (reader_weight r' + inbox_weight (inbox s') < reader_weight r + inbox_weight (inbox s))%nat ∧
  peer_closed s' = peer_closed s ∧ shut s' = true.
Proof.
  intros Hs Hsh Hrun Hcon. destruct Hs;
    repeat match goal with
    | E : ?f ?s = _ |- context [if ?f ?s then _ else _] => rewrite E
    | E : inbox _ = _ |- _ => rewrite E; clear E
    | i : Inbound |- _ => destruct i
    end; weigh; rewrite ?Hrun, ?Hcon in *; split_and!; try done; try lia; try congruence.
Qed.

Lemma pinger_step_decreases p s p' s' :
  pinger_step p s p' s' → shut s = true → running s = false →
  (pinger_weight p' < pinger_weight p)%nat ∧ inbox s' = inbox s ∧
  peer_closed s' = peer_closed s ∧ shut s' = true.
Proof.
  intros Hs Hsh Hrun. destruct Hs; rewrite ?Hrun, ?andb_false_r; weigh;
    split_and!; try done; try lia; try congruence.
Qed.

(** A step of a closing connection keeps it closing, until the threads are joined. *)
Lemma closing_step a b :
  closing a → ¬ joined a → step a b → closing b ∧ (weight b < weight a)%nat.
Proof.
  intros HC Hj Hs. destruct (closing_flags a HC) as [Hrun Hcon]. destruct HC as [HI HM Hsh].
  pose proof (step_invariant a b HI Hs) as HI'.
  revert HI HM Hsh Hj Hrun Hcon HI'.
  destruct Hs as [[m r p s m' r' p' s' Hs|m r p s r' s' Hs|m r p s p' s' Hs]|
    [i m r p s Hp Hn|m r p s Hp]]; cbn; intros HI HM Hsh Hj Hrun Hcon HI'.
  - destruct Hs; try done; try (by destruct Hj; eexists); (split; [by split|]);
      unfold weight, inbox_weight; cbn; destruct_or?; subst; cbn; lia.
  - destruct (reader_step_decreases _ _ _ _ Hs Hsh Hrun Hcon) as (Hw & Hpc & Hsh').
    split; [by split|]. unfold weight. cbn. rewrite Hpc. lia.
  - destruct (pinger_step_decreases _ _ _ _ Hs Hsh Hrun) as (Hw & Hi & Hpc & Hsh').
    split; [by split|]. unfold weight. cbn. rewrite Hpc, Hi. lia.
  - congruence.
  - split; [by split|]. unfold weight, inbox_weight. cbn. rewrite Hp. lia.
Qed.

(** ** Progress *)

(** The holder of [write_mutex_] can always go on. *)
Lemma holder_progress a t :
  invariant a → write_mutex (sh a) = Some t →
  ∃ p r s', holding a t = Some p ∧ send_step t p (sh a) r s'.
Proof.
  intros [[W1 _ _ W4] _] Hm. apply W1 in Hm as [p Hp]. exists p.
  destruct p as [op q|op q|f n].
  - exfalso. unfold holding, under_lock in Hp. repeat case_match; congruence.
  - eexists _, _. split; [done|apply send_no_random].
  - destruct (W4 _ _ _ Hp) as [_ Hn]. destruct (decide (n = length f)) as [->|].
    + eexists _, _. split; [done|apply send_complete].
    + eexists _, _. split; [done|apply send_fails; lia].
Qed.

Lemma under_lock_some p q : under_lock p = Some q → p = q.
Proof. destruct p; cbn; congruence. Qed.

(** A step of the writer is a step of its thread. *)
Lemma holder_steps a t p r s' :
  holding a t = Some p → send_step t p (sh a) r s' → ∃ b, thread_step a b.
Proof.
  destruct a as [m rd pg s]. intros Hp Hs. destruct t; cbn in Hp;
    repeat case_match; try done; apply under_lock_some in Hp as ->; cbn in Hs.
  - destruct r as [q| |]; eexists; eapply step_main;
      [eapply main_send_more|eapply main_send_end..]; eauto.
  - destruct r as [q| |]; eexists; eapply step_reader;
      [eapply reader_pong_more|eapply reader_pong_sent|eapply (reader_pong_threw _ "")]; eauto.
  - destruct r as [q| |]; eexists; eapply step_reader;
      [eapply reader_send_more|eapply reader_send_end..]; eauto.
  - destruct r as [q| |]; eexists; eapply step_pinger;
      [eapply pinger_more|eapply pinger_sent|eapply pinger_threw]; eauto.
Qed.

(** A thread inside [ws_send_frame] goes on, or waits for one that does. *)
Lemma sender_steps a t p :
  invariant a → (holding a t = under_lock p) →
  (∀ r s', send_step t p (sh a) r s' → ∃ b, thread_step a b) → ∃ b, thread_step a b.
Proof.
  intros HI Hp Hs. destruct (write_mutex (sh a)) as [t'|] eqn:Hm.
  - destruct (holder_progress a t' HI Hm) as (p' & r & s' & Hh & Hstep). by eapply holder_steps.
  - destruct p as [op q|op q|f n]; [by eapply Hs, send_lock|..];
      (assert (is_Some (holding a t)) as Hsome by (by rewrite Hp; eexists));
      apply (wr_lock _ _ (iv_writers _ HI)) in Hsome; congruence.
Qed.

Lemma reader_progress a :
  invariant a → reader a ≠ R_off → reader a ≠ R_done →
  (reader a = R_blocked → shut (sh a) = true) → ∃ b, thread_step a b.
Proof.
  intros HI H1 H2 H3. destruct a as [m r p s]. cbn in *.
  assert (∀ r' s', reader_step r s r' s' → ∃ b, thread_step (mkSystem m r p s) b) as Hs
    by (intros; by eexists; eapply step_reader).
  destruct r as [| | | |q|n|q n|e|e|e|]; try done.
  - eapply Hs, reader_check.
  - destruct (sock_open s) eqn:E; [by eapply Hs, reader_block|by eapply Hs, (reader_bad_fd "")].
  - eapply Hs, (reader_eof ""). auto.
  - apply (sender_steps _ Reader q HI); [done|]. intros [q'| |] s' Hw; cbn in Hw.
    + by eapply Hs, reader_pong_more.
    + by eapply Hs, reader_pong_sent.
    + by eapply Hs, (reader_pong_threw _ "").
  - eapply Hs, reader_returns.
  - apply (sender_steps _ Reader q HI); [done|]. intros res s' Hw; cbn in Hw.
    destruct res; [by eapply Hs, reader_send_more|eapply Hs, reader_send_end; eauto..].
  - eapply Hs, reader_catch.
  - eapply Hs, reader_exchange.
  - eapply Hs, reader_notify.
Qed.

Lemma pinger_progress a :
  invariant a → pinger a ≠ P_off → pinger a ≠ P_done → ∃ b, thread_step a b.
Proof.
  intros HI H1 H2. destruct a as [m r p s]. cbn in *.
  assert (∀ p' s', pinger_step p s p' s' → ∃ b, thread_step (mkSystem m r p s) b) as Hs
    by (intros; by eexists; eapply step_pinger).
  destruct p as [| |i| |q| |]; try done.
  - eapply Hs, pinger_check.
  - eapply Hs, pinger_sleep.
  - eapply Hs, pinger_recheck.
  - apply (sender_steps _ Pinger q HI); [done|]. intros res s' Hw; cbn in Hw.
    destruct res; [by eapply Hs, pinger_more|by eapply Hs, pinger_sent|by eapply Hs, pinger_threw].
  - eapply Hs, pinger_close.
Qed.

Lemma closing_progress a : closing a → ∃ b, thread_step a b.
Proof.
  intros [HI HM Hsh]. destruct a as [m r p s]. cbn in *.
  assert (∀ m' r' p' s', main_step m r p s m' r' p' s' → ∃ b, thread_step (mkSystem m r p s) b) as Hs
    by (intros; by eexists; eapply step_main).
  destruct m as [| | | | | |again|again|again|again| | | | |]; try done.
  - eapply Hs, main_close.
  - assert ((r = R_off ∨ r = R_done) ∨ (r ≠ R_off ∧ r ≠ R_done)) as [Hr|[H1 H2]]
      by (destruct r; auto); [by eapply Hs, main_join_read|].
    apply (reader_progress _ HI); cbn; auto.
  - assert ((p = P_off ∨ p = P_done) ∨ (p ≠ P_off ∧ p ≠ P_done)) as [Hp|[H1 H2]]
      by (destruct p; auto); [by eapply Hs, main_join_ping|].
    apply (pinger_progress _ HI); cbn; auto.
  - eapply Hs, main_free.
Qed.

Lemma closing_joins a : closing a → inevitably joined a.
Proof.
  induction a as [a IH] using (induction_ltof1 _ weight). intros HC.
  assert (joined a ∨ ¬ joined a) as [Hj|Hj].
  { destruct (main a) eqn:E; try (by left; eexists); right; intros [? ?]; congruence. }
  - by apply inev_now.
  - apply inev_later.
    + destruct (closing_progress a HC) as [b Hb]. exists b. by left.
    + intros b Hb. destruct (closing_step a b HC Hj Hb). by apply IH.
Qed.

(** C18: Once [disconnect] has shut the socket down, it joins both threads: whatever the
    scheduler and the network do, every execution gets there. *)
Theorem disconnect_terminates use_tls a :
  reachable use_tls a → past_shutdown (main a) = true → shut (sh a) = true → inevitably joined a.
Proof. intros Hr HM Hsh. apply closing_joins. split; [by eapply reachable_invariant|done|done]. Qed.

(** ** Executions *)

Lemma go_main use_tls m r p s m' r' p' s' :
  reachable use_tls (mkSystem m r p s) → main_step m r p s m' r' p' s' →
  reachable use_tls (mkSystem m' r' p' s').
Proof. intros Hr Hs. eapply rtc_r; [exact Hr|]. left. by apply step_main. Qed.
Lemma go_reader use_tls m r p s r' s' :
  reachable use_tls (mkSystem m r p s) → reader_step r s r' s' →
  reachable use_tls (mkSystem m r' p s').
Proof. intros Hr Hs. eapply rtc_r; [exact Hr|]. left. by apply step_reader. Qed.
Lemma go_pinger use_tls m r p s p' s' :
  reachable use_tls (mkSystem m r p s) → pinger_step p s p' s' →
  reachable use_tls (mkSystem m r p' s').
Proof. intros Hr Hs. eapply rtc_r; [exact Hr|]. left. by apply step_pinger. Qed.

(** The shared state of a connection that is up, with a ping being written by [pinger]. *)
Definition up (use_tls : bool) : Shared :=
  mkShared use_tls true true true false false use_tls None [] [] [] false [].

Lemma connected_state use_tls : reachable use_tls (mkSystem M_idle R_check P_check (up use_tls)).
Proof.
  eapply go_main; [|apply main_ping_thread]. eapply go_main; [|apply main_read_thread].
  eapply go_main; [|apply (main_running _ _ (mkShared use_tls false true true false false use_tls None [] [] [] false []))].
  eapply go_main; [|apply (main_connected _ _ (mkShared use_tls false false true false false use_tls None [] [] [] false []))].
  eapply go_main; [|apply (main_opened [] _ _ (sh (created use_tls)))].
  eapply go_main; [|apply (main_free true _ _ (sh (created use_tls)))].
  eapply go_main; [|apply (main_join_ping true _ P_off); by left].
  eapply go_main; [|apply (main_join_read true R_off); by left].
  eapply go_main; [|apply (main_is_open true _ _ (sh (created use_tls)))].
  eapply go_main; [|apply (main_stop_connected true _ _ (sh (created use_tls)))].
  eapply go_main; [|apply (main_stop_running true _ _ (sh (created use_tls)))].
  eapply go_main; [|apply main_begin]. apply rtc_refl.
Qed.

(** The read thread is inside its read, the ping thread has slept. *)
Lemma pinging_state use_tls : reachable use_tls (mkSystem M_idle R_blocked P_recheck (up use_tls)).
Proof.
  assert (reachable use_tls (mkSystem M_idle R_blocked (P_sleep 50) (up use_tls))) as Hr.
  { assert (∀ i, (i ≤ 50)%nat → reachable use_tls (mkSystem M_idle R_blocked (P_sleep i) (up use_tls)))
      as Hi; [|by apply Hi].
    induction i as [|i IH]; intros Hle.
    - eapply go_pinger; [|apply (pinger_check (up use_tls))].
      eapply go_reader; [|by apply (reader_block (up use_tls))].
      eapply go_reader; [|apply (reader_check (up use_tls))]. apply connected_state.
    - pose proof (pinger_sleep i (up use_tls)) as Hs.
      destruct (Nat.ltb_spec i 50); [|lia]. cbn in Hs. eapply go_pinger; [|exact Hs].
      apply IH. lia. }
  eapply go_pinger; [exact Hr|]. apply (pinger_sleep 50 (up use_tls)).
Qed.

(** C19: When the write of a ping fails, the ping thread closes the socket without shutting it down:
    a read thread that is blocked in its read stays there, and [disconnect], which finds the
    socket closed, waits for it.  No thread can move. *)
Theorem ping_failure_hangs_disconnect use_tls :
  ∃ a, reachable use_tls a ∧ main a = D_join_read false ∧ reader a = R_blocked ∧
    ∀ b, ¬ thread_step a b.
Proof.
  set (dead := mkShared use_tls false false false false false use_tls None [] [] [] true []).
  exists (mkSystem (D_join_read false) R_blocked P_done dead). split; [|split; [done|]; split; [done|]].
  - eapply go_main; [|apply (main_is_open false _ _ dead)].
    eapply go_main; [|apply (main_stop_connected false _ _
      (mkShared use_tls false true false false false use_tls None [] [] [] true []))].
    eapply go_main; [|apply (main_stop_running false _ _
      (mkShared use_tls true true false false false use_tls None [] [] [] true []))].
    eapply go_main; [|apply main_begin].
    eapply go_pinger; [|apply (pinger_close
      (mkShared use_tls true true true false false use_tls None [] [] [] true []))].
    eapply go_pinger; [|eapply pinger_threw, (send_fails _ (masked_frame 9 [0; 0; 0; 0] []) 0
      (set_write_mutex (Some Pinger) (up use_tls))); cbn; lia].
    eapply go_pinger; [|by eapply pinger_more, (send_encode _ 9 [] [0; 0; 0; 0])].
    eapply go_pinger; [|by eapply pinger_more, (send_lock _ 9 [] (up use_tls))].
    eapply go_pinger; [|apply (pinger_recheck (up use_tls))]. apply pinging_state.
  - intros b Hb. inversion Hb as [m r p s m' r' p' s' Hs|m r p s r' s' Hs|m r p s p' s' Hs]; subst;
      inversion Hs; subst; cbn in *; by destruct_or?.
Qed.

(** ** The theorems at concrete states *)

(** One byte of a ping is on the wire. *)
Definition ping_frame : bytes := masked_frame 9 [0; 0; 0; 0] [].
Definition pinging (use_tls : bool) : System :=
  mkSystem M_idle R_blocked (P_send (S_write ping_frame 1))
    (mkShared use_tls true true true false false use_tls (Some Pinger) [] [0x89] [] false []).

Lemma pinging_reachable use_tls : reachable use_tls (pinging use_tls).
Proof.
  eapply go_pinger; [|eapply pinger_more, (send_piece _ ping_frame 0 1
    (set_write_mutex (Some Pinger) (up use_tls))); cbn; done || lia].
  eapply go_pinger; [|by eapply pinger_more, (send_encode _ 9 [] [0; 0; 0; 0])].
  eapply go_pinger; [|by eapply pinger_more, (send_lock _ 9 [] (up use_tls))].
  eapply go_pinger; [|apply (pinger_recheck (up use_tls))]. apply pinging_state.
Qed.

Lemma frames_not_interleaved_witness :
  reachable true (pinging true) ∧ well_framed [0x89] [].
Proof.
  split; [apply pinging_reachable|].
  exact (proj2 (frames_not_interleaved true (pinging true) (pinging_reachable true)) eq_refl).
Defined.

Lemma ssl_not_used_after_free_witness :
  in_ssl (pinging true) = true ∧ ssl (sh (pinging true)) = true.
Proof.
  split; [reflexivity|].
  exact (proj1 (ssl_not_used_after_free (pinging true) (pinging_reachable true) eq_refl)).
Defined.

(** The server has closed the connection, and the client was told. *)
Definition dropped : System :=
  mkSystem M_idle R_check P_recheck
    (mkShared true false false true false true true None [] [] [] false ["eof"]).

Lemma dropped_reachable : reachable true dropped.
Proof.
  eapply go_reader; [|apply (reader_notify "eof"
    (mkShared true false false true false true true None [] [] [] false []))].
  eapply go_reader; [|apply (reader_exchange "eof"
    (mkShared true true false true false true true None [] [] [] false []))].
  eapply go_reader; [|apply (reader_catch "eof"
    (mkShared true true true true false true true None [] [] [] false []))].
  eapply go_reader; [|by apply (reader_eof "eof"); left].
  eapply rtc_r; [apply (pinging_state true)|]. right. by apply net_closes.
Qed.

Lemma on_disconnect_once_witness :
  notified (sh dropped) = ["eof"] ∧ running (sh dropped) = false ∧ connected (sh dropped) = false.
Proof.
  split; [reflexivity|].
  apply (proj1 (proj2 (on_disconnect_once true dropped dropped_reachable))). discriminate.
Defined.

(** [disconnect] waits for the read thread, which is blocked in its read. *)
Definition waiting : System :=
  mkSystem (D_join_read false) R_blocked P_recheck
    (mkShared true false false false true false true None [] [] [] false []).

Lemma waiting_reachable : reachable true waiting.
Proof.
  eapply go_main; [|apply (main_close false _ _
    (mkShared true false false true true false true None [] [] [] false []))].
  eapply go_main; [|apply (main_shutdown false _ _
    (mkShared true false false true false false true None [] [] [] false []))].
  eapply go_main; [|apply (main_is_open false _ _
    (mkShared true false false true false false true None [] [] [] false []))].
  eapply go_main; [|apply (main_stop_connected false _ _
    (mkShared true false true true false false true None [] [] [] false []))].
  eapply go_main; [|apply (main_stop_running false _ _ (up true))].
  eapply go_main; [|apply main_begin]. apply pinging_state.
Qed.

Lemma disconnect_terminates_witness :
  reader waiting = R_blocked ∧ inevitably joined waiting.
Proof.
  split; [reflexivity|]. exact (disconnect_terminates true waiting waiting_reachable eq_refl eq_refl).
Defined.
