(* ===== verification/Codec.v ===== *)
(** * Codec: the content codec of [client/src/client/Client.cpp], lines 130-183

    Base64 over OpenSSL's EVP block codec and the JSON object that carries a
    message's type, body and target through the encrypted channel.  The block
    codec is third-party code: a class with its documented behaviour.  The
    lengths it takes are of type [int]; texts of 2 GiB and more, where the cast
    of [in.size()] would wrap, are outside the model. *)

From S2P Require Import Prelude Json Message.

(** [EVP_EncodeBlock] and [EVP_DecodeBlock] ([None] for -1). *)
Class EvpCodec := {
  EVP_EncodeBlock : bytes → string;
  EVP_DecodeBlock : string → option bytes;
}.

(** The number of padding characters for [n] bytes. *)
Definition pad_len (n : nat) : nat := (3 - n mod 3) mod 3.

(** The last [k] characters of an encoded text are ['='], and no others. *)
Definition padded (k : nat) (s : string) : Prop :=
  let l := reverse (String.list_ascii_of_string s) in
  ∀ i, (i < 2)%nat → l !! i = Some "="%char ↔ (i < k)%nat.

Class EvpCodecLaws `{EvpCodec} : Prop := {
  encode_empty bs : EVP_EncodeBlock bs = EmptyString → bs = [];
  encode_padded bs : Forall is_byte bs → padded (pad_len (length bs)) (EVP_EncodeBlock bs);
  (** decoding fills the padding with zero bytes *)
  decode_encode bs :
    Forall is_byte bs →
    EVP_DecodeBlock (EVP_EncodeBlock bs) = Some (bs ++ replicate (pad_len (length bs)) 0%Z);
}.

Section codec.
Context `{EvpCodec}.

Definition b64_encode (s : string) : string :=
  if str_empty s then "" else EVP_EncodeBlock (bytes_of_string s).

(** The padding [b64_decode] counts: the last and the last but one character. *)
Definition count_pad (s : string) : nat :=
  let l := reverse (String.list_ascii_of_string s) in
  (if bool_decide (l !! 0%nat = Some "="%char) then 1 else 0) +
  (if bool_decide (l !! 1%nat = Some "="%char) then 1 else 0).

Definition b64_decode (s : string) : result string :=
  if str_empty s then Ok ""
  else
    match EVP_DecodeBlock s with
    | None => Err "base64 decode failed"
    | Some out =>
      let pad := count_pad s in
      (* [size_t] subtraction: a negative size is a huge one, refused by [resize] *)
      if (length out <? pad)%nat then Err "basic_string::_M_replace_aux"
      else Ok (string_of_bytes (take (length out - pad) out))
    end.

Context `{NlohmannJson}.

(** [json content = {{"type", ...}, {"body", ...}}; content["target_mid"] = ...] *)
Definition content_members (plaintext : string) (type : MessageType) (target_mid : string)
  : list (string * json) :=
  [("type", json_of_int (int_of_type type)); ("body", json_of_string plaintext)] ++
  (if str_empty target_mid then [] else [("target_mid", json_of_string target_mid)]).

Definition content_to_message (plaintext : string) (type : MessageType) (target_mid : string)
  : result string :=
  text ← json_dump (json_of_object (content_members plaintext type target_mid));
  Ok (b64_encode text).

Record ParsedContent : Type := mkParsedContent {
  pc_type : MessageType;
  pc_body : string;
  pc_target_mid : string;
}.

Definition message_to_content (plaintext_b64 : string) : result ParsedContent :=
  text ← b64_decode plaintext_b64;
  j ← json_parse text;
  type ← json_value_int j "type" 0%Z;
  body ← json_value_string j "body" "";
  target_mid ← json_value_string j "target_mid" "";
  Ok (mkParsedContent (type_of_int type) body target_mid).
End codec.

(** ** Round trips *)

Section facts.
Context `{EvpCodec} `{!EvpCodecLaws}.

Lemma pad_len_lt n : (pad_len n < 3)%nat.
Proof. apply Nat.mod_upper_bound. lia. Qed.

Lemma count_pad_padded k s : (k < 3)%nat → padded k s → count_pad s = k.
Proof.
  intros Hk Hp. unfold count_pad.
  pose proof (Hp 0%nat ltac:(lia)) as Hp0.
  pose proof (Hp 1%nat ltac:(lia)) as Hp1.
  rewrite (bool_decide_ext _ _ Hp0), (bool_decide_ext _ _ Hp1).
  destruct k as [|[|[|]]]; [done..|lia].
Qed.

Lemma b64_decode_encode s : b64_decode (b64_encode s) = Ok s.
Proof.
  unfold b64_encode, b64_decode. destruct (str_empty s) eqn:Hs.
  - by apply str_empty_true in Hs as ->.
  - destruct (str_empty (EVP_EncodeBlock (bytes_of_string s))) eqn:He.
    { apply str_empty_true, encode_empty in He.
      apply str_empty_false in Hs. by destruct s. }
    rewrite decode_encode by apply bytes_of_string_bytes.
    rewrite (count_pad_padded (pad_len (length (bytes_of_string s)))
      _ (pad_len_lt _) (encode_padded _ (bytes_of_string_bytes s))).
    rewrite length_app, length_replicate.
    destruct (Nat.ltb_spec (length (bytes_of_string s) + pad_len (length (bytes_of_string s)))
      (pad_len (length (bytes_of_string s)))); [lia|].
    rewrite Nat.add_sub, take_app_length. by rewrite string_of_bytes_of_string.
Qed.

Context `{NlohmannJson} `{!NlohmannJsonLaws}.

Lemma content_members_roundtrip pt ty mid :
  in_s 32 (int_of_type ty) → Forall roundtrips ((content_members pt ty mid).*2).
Proof.
  intros Hty. unfold content_members. rewrite fmap_app, Forall_app. split.
  - cbn. apply Forall_cons. split; [by apply roundtrips_int|].
    apply Forall_singleton, roundtrips_string.
  - destruct (str_empty mid); cbn; [by apply Forall_nil|].
    apply Forall_singleton, roundtrips_string.
Qed.

Lemma content_target pt ty mid d :
  json_value_string (json_of_object (content_members pt ty mid)) "target_mid" d
  = Ok (if str_empty mid then d else mid).
Proof.
  unfold content_members. destruct (str_empty mid); cbn [app].
  - apply value_string_absent. by apply (bool_decide_unpack _).
  - apply value_string_object; [by apply (bool_decide_unpack _)|]. do 2 right. by left.
Qed.

Lemma content_keys_NoDup pt ty mid : NoDup ((content_members pt ty mid).*1).
Proof. unfold content_members. destruct (str_empty mid); by apply (bool_decide_unpack _). Qed.

Lemma content_dumps pt ty mid :
  dumpable pt → dumpable mid →
  ∃ text, json_dump (json_of_object (content_members pt ty mid)) = Ok text.
Proof.
  intros Hp Ht. apply dump_object_ok. intros k v Hin. unfold content_members in Hin. cbn in Hin.
  apply elem_of_cons in Hin as [[= -> ->]|Hin]; [split; [by apply dump_ascii|apply dump_int]|].
  apply elem_of_cons in Hin as [[= -> ->]|Hin]; [split; [by apply dump_ascii|exact Hp]|].
  destruct (str_empty mid); [by apply elem_of_nil in Hin|].
  apply list_elem_of_singleton in Hin as [= -> ->]. split; [by apply dump_ascii|exact Ht].
Qed.

(** Whatever content was encoded is decoded to the same type, body and target. *)
Lemma content_decodes pt ty mid text :
  type_wf ty → json_dump (json_of_object (content_members pt ty mid)) = Ok text →
  message_to_content (b64_encode text) = Ok (mkParsedContent ty pt mid).
Proof.
  intros Hty Hd. pose proof (proj1 Hty) as Hint. pose proof (content_keys_NoDup pt ty mid) as Hnd.
  unfold message_to_content. rewrite b64_decode_encode. cbn [mbind result_bind].
  rewrite (parse_dump_object _ _ (content_members_roundtrip _ _ _ Hint) Hd). cbn [mbind result_bind].
  rewrite (value_int_object _ "type" (int_of_type ty) _ Hnd ltac:(left) Hint).
  rewrite (value_string_object _ "body" pt _ Hnd ltac:(right; left)).
  cbn [mbind result_bind]. rewrite content_target. cbn [mbind result_bind].
  rewrite type_of_int_of_type by done.
  destruct (str_empty mid) eqn:Hm; [|done]. by apply str_empty_true in Hm as ->.
Qed.
End facts.

(** What [b64_encode] produces, [b64_decode] reads back: any byte string. *)
Theorem b64_roundtrip `{EvpCodec} `{!EvpCodecLaws} s : b64_decode (b64_encode s) = Ok s.
Proof. apply b64_decode_encode. Qed.

(** A message content survives the trip to the peer: whenever the plaintext and
    the target id are valid UTF-8, they are encoded, and the decoder returns the
    same type, body and target. *)
Theorem content_roundtrip `{EvpCodec} `{!EvpCodecLaws} `{NlohmannJson} `{!NlohmannJsonLaws}
    plaintext type target_mid :
  dumpable plaintext → dumpable target_mid → type_wf type →
  ∃ msg, content_to_message plaintext type target_mid = Ok msg ∧
    message_to_content msg = Ok (mkParsedContent type plaintext target_mid).
Proof.
  intros Hp Ht Hty.
  destruct (content_dumps plaintext type target_mid Hp Ht) as [text Hd].
  exists (b64_encode text). unfold content_to_message. rewrite Hd. split; [done|].
  by apply content_decodes.
Qed.
