(* ===== verification/RefBase64.v ===== *)
(** * RefBase64: a reference instance of the block codec

    RFC 4648 base64, three bytes to four characters; decoding refuses texts whose
    length is not a multiple of four or which contain other characters, and reads
    a padding character as zero bits. *)

From S2P Require Import Prelude Json Message Codec RefJson.
Local Open Scope Z_scope.

Definition b64_alphabet : list ascii :=
  String.list_ascii_of_string "ABCDEFGHIJKLMNOPQRSTUVWXYZabcdefghijklmnopqrstuvwxyz0123456789+/".

Definition b64_char (z : Z) : ascii := nth (Z.to_nat z) b64_alphabet "="%char.

Definition b64_val (c : ascii) : option Z :=
  if bool_decide (c = "="%char) then Some 0
  else (λ p, Z.of_nat p.1) <$> list_find (c =.) b64_alphabet.

(** The four characters for a group; [None] stands for a missing byte. *)
Definition group_chars (a : Z) (b c : option Z) : list ascii :=
  let b' := default 0 b in
  let c' := default 0 c in
  [b64_char (a / 4); b64_char (a mod 4 * 16 + b' / 16);
   if b is Some _ then b64_char (b' mod 16 * 4 + c' / 64) else "="%char;
   if c is Some _ then b64_char (c' mod 64) else "="%char].

Fixpoint encode_chars (bs : bytes) : list ascii :=
  match bs with
  | [] => []
  | [a] => group_chars a None None
  | [a; b] => group_chars a (Some b) None
  | a :: b :: c :: bs => group_chars a (Some b) (Some c) ++ encode_chars bs
  end.

Definition group_bytes (w x y z : Z) : bytes :=
  [w * 4 + x / 16; x mod 16 * 16 + y / 4; y mod 4 * 64 + z].

Fixpoint decode_chars (cs : list ascii) : option bytes :=
  match cs with
  | [] => Some []
  | c1 :: c2 :: c3 :: c4 :: cs =>
    w ← b64_val c1; x ← b64_val c2; y ← b64_val c3; z ← b64_val c4;
    rest ← decode_chars cs;
    Some (group_bytes w x y z ++ rest)
  | _ => None
  end.

#[global] Instance ref_evp : EvpCodec := {|
  EVP_EncodeBlock bs := String.string_of_list_ascii (encode_chars bs);
  EVP_DecodeBlock s := decode_chars (String.list_ascii_of_string s);
|}.

(** ** The laws *)

Lemma b64_char_spec z :
  0 ≤ z < 64 → b64_val (b64_char z) = Some z ∧ b64_char z ≠ "="%char.
Proof.
  intros Hz. assert (z ∈ (Z.of_nat <$> seq 0 64)) as Hin.
  { apply list_elem_of_fmap. exists (Z.to_nat z). rewrite elem_of_seq. lia. }
  revert Hin. clear Hz. revert z. apply Forall_forall.
  assert (∀ l, forallb (λ z, bool_decide (b64_val (b64_char z) = Some z)
    && negb (bool_decide (b64_char z = "="%char))) l = true →
    Forall (λ z, b64_val (b64_char z) = Some z ∧ b64_char z ≠ "="%char) l) as Hl.
  { intros l Hb. apply Forall_forall. intros x Hx. rewrite forallb_forall in Hb.
    specialize (Hb x (proj1 (list_elem_of_In _ _) Hx)). apply andb_prop in Hb as [H1 H2].
    apply bool_decide_eq_true in H1. apply negb_true_iff, bool_decide_eq_false in H2. done. }
  apply Hl. vm_compute. done.
Qed.

Lemma b64_val_char z : 0 ≤ z < 64 → b64_val (b64_char z) = Some z.
Proof. intros. by apply b64_char_spec. Qed.

Ltac byte_side := first [by left | done | unfold is_byte; cbn; lia].

Lemma b64_val_pad : b64_val "="%char = Some 0.
Proof. done. Qed.

Lemma decode_group a b c cs :
  is_byte a → is_byte (default 0 b) → is_byte (default 0 c) → (c = None ∨ is_Some b) →
  decode_chars (group_chars a b c ++ cs)
  = (λ rest, [a; default 0 b; default 0 c] ++ rest) <$> decode_chars cs.
Proof.
  unfold is_byte. intros Ha Hb Hc Hbc. unfold group_chars. cbn [app decode_chars].
  rewrite !b64_val_char by (Z.to_euclidean_division_equations; lia).
  assert (b64_val (if b is Some _ then b64_char (default 0 b mod 16 * 4 + default 0 c / 64)
    else "="%char) = Some (default 0 b mod 16 * 4 + default 0 c / 64)) as ->.
  { destruct b; [rewrite b64_val_char by (Z.to_euclidean_division_equations; lia); done|].
    destruct Hbc as [->|[? ?]]; done. }
  assert (b64_val (if c is Some _ then b64_char (default 0 c mod 64) else "="%char)
    = Some (default 0 c mod 64)) as ->.
  { destruct c; [rewrite b64_val_char by (Z.to_euclidean_division_equations; lia)|]; done. }
  cbn [mbind option_bind]. destruct (decode_chars cs); [|done]. cbn. unfold group_bytes.
  do 2 f_equal; [|f_equal; [|f_equal]]; Z.to_euclidean_division_equations; lia.
Qed.

(** Induction in steps of three. *)
Lemma list_ind3 {A} (P : list A → Prop) :
  P [] → (∀ a, P [a]) → (∀ a b, P [a; b]) → (∀ a b c l, P l → P (a :: b :: c :: l)) →
  ∀ l, P l.
Proof.
  intros H0 H1 H2 H3. fix IH 1. intros [|a [|b [|c l]]]; [done..|]. apply H3, IH.
Qed.

Lemma pad_len_step n : pad_len (S (S (S n))) = pad_len n.
Proof. unfold pad_len. replace (S (S (S n))) with (n + 1 * 3)%nat by lia. by rewrite Nat.Div0.mod_add. Qed.

Lemma decode_encode_chars bs :
  Forall is_byte bs →
  decode_chars (encode_chars bs) = Some (bs ++ replicate (pad_len (length bs)) 0).
Proof.
  induction bs as [|a|a b|a b c bs IH] using list_ind3; intros Hbs; [done| | |].
  - rewrite Forall_singleton in Hbs. cbn [encode_chars].
    rewrite <-(right_id_L [] (++) (group_chars _ _ _)), decode_group by byte_side.
    done.
  - apply Forall_cons in Hbs as [Ha Hb]. rewrite Forall_singleton in Hb. cbn [encode_chars].
    rewrite <-(right_id_L [] (++) (group_chars _ _ _)), decode_group by byte_side.
    done.
  - apply Forall_cons in Hbs as [Ha Hbs]. apply Forall_cons in Hbs as [Hb Hbs].
    apply Forall_cons in Hbs as [Hc Hbs]. cbn [encode_chars].
    rewrite decode_group; [|done..|by right]. rewrite IH by done.
    cbn [length]. by rewrite pad_len_step.
Qed.

(** The last two characters decide how much padding there is. *)
Lemma padded_group a b c cs :
  is_byte a → is_byte (default 0 b) → is_byte (default 0 c) → (c = None ∨ is_Some b) →
  ∀ i, (i < 2)%nat →
  reverse (cs ++ group_chars a b c) !! i = Some "="%char ↔
  (i < match b, c with None, _ => 2 | _, None => 1 | _, _ => 0 end)%nat.
Proof.
  unfold is_byte. intros Ha Hb Hc Hbc i Hi.
  assert (∀ z, 0 ≤ z < 64 → b64_char z ≠ "="%char) as Hne by (intros; by apply b64_char_spec).
  unfold group_chars. rewrite reverse_app. cbn [reverse rev_append app].
  destruct i as [|[|i]]; [| |lia]; cbn.
  - destruct c as [c|], b as [b|]; first [by split; [|lia] | by split; [lia|] | idtac].
    + split; [|lia]. intros [= Heq]. by destruct (Hne (c mod 64)); [Z.to_euclidean_division_equations; lia|].
    + destruct Hbc as [|[]]; done.
  - destruct b as [b|]; [|by split; [lia|]]. split; [|destruct c; lia]. intros [= Heq].
    destruct (Hne (b mod 16 * 4 + default 0 c / 64)); [|done].
    cbn in *. Z.to_euclidean_division_equations; lia.
Qed.

Lemma encode_chars_padded bs :
  Forall is_byte bs → ∀ i, (i < 2)%nat → ∀ pre,
  (pre = [] ∨ encode_chars bs ≠ [] ∨
    ∀ j, (j < 2)%nat → ∃ c, reverse pre !! j = Some c ∧ c ≠ "="%char) →
  reverse (pre ++ encode_chars bs) !! i = Some "="%char ↔ (i < pad_len (length bs))%nat.
Proof.
  induction bs as [|a|a b|a b c bs IH] using list_ind3; intros Hbs i Hi pre Hpre.
  - cbn [encode_chars]. rewrite (right_id_L [] (++)). split; [|cbn; lia]. intros Hl.
    destruct Hpre as [->|[Hpre|Hpre]]; [done|done|].
    destruct (Hpre i Hi) as (c & Hc & Hne). congruence.
  - rewrite Forall_singleton in Hbs. apply padded_group; byte_side.
  - apply Forall_cons in Hbs as [Ha Hb]. rewrite Forall_singleton in Hb.
    apply (padded_group a (Some b) None); byte_side.
  - apply Forall_cons in Hbs as [Ha Hbs]. apply Forall_cons in Hbs as [Hb Hbs].
    apply Forall_cons in Hbs as [Hc Hbs]. cbn [encode_chars length].
    rewrite pad_len_step, (assoc_L (++)). apply IH; [done|done|]. right. right.
    intros j Hj. pose proof (padded_group a (Some b) (Some c) pre Ha Hb Hc ltac:(by right) j Hj) as Hg.
    destruct (reverse (pre ++ group_chars a (Some b) (Some c)) !! j) as [x|] eqn:E.
    + exists x. split; [done|]. intros ->. pose proof (proj1 Hg eq_refl). lia.
    + apply lookup_ge_None in E. rewrite length_reverse, length_app in E. cbn in E. lia.
Qed.

#[global] Instance ref_evp_laws : EvpCodecLaws.
Proof.
  split; cbn.
  - intros [|a [|b [|c bs]]]; done.
  - intros bs Hbs i Hi. rewrite String.list_ascii_of_string_of_list_ascii.
    apply (encode_chars_padded bs Hbs i Hi []). by left.
  - intros bs Hbs. rewrite String.list_ascii_of_string_of_list_ascii.
    by apply decode_encode_chars.
Qed.

Example b64_vector : b64_encode "Hello, World" = "SGVsbG8sIFdvcmxk" ∧
  b64_encode "foob" = "Zm9vYg==" ∧ b64_decode "Zm9vYmE=" = Ok "fooba".
Proof. done. Qed.

(** A content with every field set. *)
Lemma content_roundtrip_witness :
  ∃ msg, content_to_message "ciao" Edit "a:b:1" = Ok msg ∧
    message_to_content msg = Ok (mkParsedContent Edit "ciao" "a:b:1").
Proof.
  apply (content_roundtrip "ciao" Edit "a:b:1").
  - eexists. vm_compute. reflexivity.
  - eexists. vm_compute. reflexivity.
  - split; [split; vm_compute; congruence|exact I].
Defined.
