(* ===== verification/RefNet.v ===== *)
(** * RefNet: a reference network endpoint

    An instance of the network interface over two byte queues: TLS reads hand out
    at most three bytes at a time and TLS writes take at most five, so the loops
    of [Connection] really run; SHA-1 and base64 are computed, so the upgrade can
    be checked against the example of RFC 6455.  The theorems of
    [ConnectionFacts] are applied to it at concrete inputs. *)

From S2P Require Import Prelude Json Message Codec RefJson RefBase64 Connection ConnectionFacts.
Local Open Scope Z_scope.

(** ** SHA-1 (FIPS 180-4) *)

Definition rotl32 (n x : Z) : Z :=
  Z.lor (wrap_u 32 (Z.shiftl x n)) (Z.shiftr x (32 - n)).

Definition be_bytes (n : nat) (x : Z) : bytes :=
  (λ i, Z.land (Z.shiftr x (8 * Z.of_nat (n - 1 - i))) 255) <$> seq 0 n.

Definition be32 (bs : bytes) : Z := be_value bs.

Fixpoint chunks (fuel n : nat) (bs : bytes) : list bytes :=
  match fuel, bs with
  | S fuel, _ :: _ => take n bs :: chunks fuel n (drop n bs)
  | _, _ => []
  end.

Definition sha1_pad (bs : bytes) : bytes :=
  let l := length bs in
  bs ++ [128] ++ replicate ((119 - l mod 64) mod 64) 0 ++ be_bytes 8 (8 * Z.of_nat l).

(** [n] more words of the message schedule, newest first; a block has 64 bytes,
    so its length is the number of words to add. *)
Fixpoint schedule (n : nat) (ws : list Z) : list Z :=
  match n with
  | O => ws
  | S n =>
    let w i := nth i ws 0 in
    schedule n (rotl32 1 (Z.lxor (Z.lxor (w 2%nat) (w 7%nat)) (Z.lxor (w 13%nat) (w 15%nat))) :: ws)
  end.

Definition sha1_round (i : nat) (w : Z) (h : Z * Z * Z * Z * Z) : Z * Z * Z * Z * Z :=
  let '(a, b, c, d, e) := h in
  let not32 x := Z.lxor x (2 ^ 32 - 1) in
  let parity := Z.lxor (Z.lxor b c) d in
  let '(f, k) := nth (i / 20)
    [(Z.lor (Z.land b c) (Z.land (not32 b) d), 0x5A827999);
     (parity, 0x6ED9EBA1);
     (Z.lor (Z.lor (Z.land b c) (Z.land b d)) (Z.land c d), 0x8F1BBCDC)]
    (parity, 0xCA62C1D6) in
  (wrap_u 32 (rotl32 5 a + f + e + k + w), a, rotl32 30 b, c, d).

Definition sha1_block (h : Z * Z * Z * Z * Z) (block : bytes) : Z * Z * Z * Z * Z :=
  let ws := reverse (schedule (length block) (reverse (be32 <$> chunks (length block) 4 block))) in
  let '(a, b, c, d, e) := h in
  let '(a', b', c', d', e') := foldl (λ h iw, sha1_round iw.1 iw.2 h) h (imap pair ws) in
  (wrap_u 32 (a + a'), wrap_u 32 (b + b'), wrap_u 32 (c + c'), wrap_u 32 (d + d'),
   wrap_u 32 (e + e')).

Definition sha1 (bs : bytes) : bytes :=
  let msg := sha1_pad bs in
  let '(a, b, c, d, e) :=
    foldl sha1_block (0x67452301, 0xEFCDAB89, 0x98BADCFE, 0x10325476, 0xC3D2E1F0)
      (chunks (length msg) 64 msg) in
  be_bytes 4 a ++ be_bytes 4 b ++ be_bytes 4 c ++ be_bytes 4 d ++ be_bytes 4 e.

(** ** The endpoint *)

Record ref_net : Type := mkRefNet {
  rn_in : string;
  rn_out : bytes;
  rn_rand : bytes;
  rn_reachable : bool;
  rn_verify : Z;
  rn_cert : option (option bytes);
}.

Definition rn_set (i : string) (o : bytes) (s : ref_net) : ref_net :=
  mkRefNet i o (rn_rand s) (rn_reachable s) (rn_verify s) (rn_cert s).

(** The next [n] bytes, in pieces of at most [k]. *)
Definition rn_read (n : nat) (s : ref_net) : ref_net * bytes :=
  let bs := bytes_of_string (rn_in s) in
  (rn_set (string_of_bytes (drop n bs)) (rn_out s) s, take n bs).

Arguments rn_read : simpl never.

Definition rn_write (d : bytes) (s : ref_net) : ref_net := rn_set (rn_in s) (rn_out s ++ d) s.

(** The generator repeats the seed, reduced to bytes. *)
Definition rn_random (n : nat) (s : ref_net) : bytes :=
  (λ i, nth i (rn_rand s) 7 mod 256) <$> seq 0 n.

#[global] Instance ref_net_io : NetIo := {|
  net := ref_net;
  SSL_read s n :=
    match rn_in s with
    | EmptyString => (s, inr 6)
    | _ => let '(s', bs) := rn_read (min n 3) s in (s', inl bs)
    end;
  SSL_write s d := let k := min (length d) 5 in (rn_write (take k d) s, inl k);
  asio_read s n :=
    if (n <=? String.length (rn_in s))%nat
    then let '(s', bs) := rn_read n s in (s', inl bs)
    else (rn_set "" (rn_out s) s, inr "End of file");
  asio_write s d := (rn_write d s, inl tt);
  RAND_bytes s n := (s, Some (rn_random n s));
  SHA1 := sha1;
  EVP_EncodeBlock_raw := EVP_EncodeBlock;
  tcp_connect_io s _ _ := (s, if rn_reachable s then inl tt else inr "Connection refused");
  sock_close s := s;
  SSL_new s := (s, true);
  SSL_set_tlsext_host_name s _ := (s, true);
  SSL_set1_host s _ := (s, true);
  SSL_connect s := (s, rn_verify s =? 0);
  SSL_get_verify_result := rn_verify;
  X509_verify_cert_error_string z := "error " +:+ pretty z;
  ERR_queue _ := [];
  SSL_get1_peer_certificate := rn_cert;
|}.

Lemma rn_read_spec n s s' bs :
  rn_read n s = (s', bs) →
  bytes_of_string (rn_in s) = bs ++ bytes_of_string (rn_in s') ∧ rn_out s' = rn_out s ∧
  length bs = min n (String.length (rn_in s)).
Proof.
  unfold rn_read. intros [= <- <-]. cbn.
  rewrite bytes_of_string_of_bytes by apply Forall_drop, bytes_of_string_bytes.
  by rewrite take_drop, length_take, length_bytes_of_string.
Qed.

#[global, refine] Instance ref_net_laws : NetIoLaws := {|
  incoming s := bytes_of_string (rn_in s);
  outgoing := rn_out;
|}.
Proof.
  all: cbn.
  - intros s n s' bs Hn. destruct (rn_in s) eqn:E; [done|].
    destruct (rn_read (min n 3) s) as [s1 bs1] eqn:Hr. intros [= <- <-].
    apply rn_read_spec in Hr as (H1 & H2 & H3). rewrite E in *. cbn [String.length] in H3. split_and!; [lia..|done|done].
  - intros s n s' e. destruct (rn_in s) eqn:E; [intros [= <- <-]; by rewrite E|].
    by destruct (rn_read (min n 3) s).
  - intros s d s' k Hd [= <- <-]. destruct d; [done|]. cbn. split_and!; [lia..|done|done].
  - done.
  - intros s n s' bs. destruct (Nat.leb_spec n (String.length (rn_in s))); [|done].
    destruct (rn_read n s) as [s1 bs1] eqn:Hr. intros [= <- <-].
    apply rn_read_spec in Hr as (H1 & H2 & H3). split_and!; [lia|done|done].
  - intros s n s' e. destruct (Nat.leb_spec n (String.length (rn_in s))).
    + by destruct (rn_read n s).
    + intros [= <- <-]. cbn. split; [apply suffix_nil|done].
  - by intros s d s' u [= <-].
  - done.
  - intros s n s' bs [= <- <-]. unfold rn_random. split_and!; [by rewrite length_fmap, length_seq| |done..].
    apply Forall_fmap, Forall_forall. intros i _. apply Z.mod_pos_bound. lia.
  - done.
  - intros s. apply bytes_of_string_bytes.
Defined.

Lemma ref_net_reliable : Reliable.
Proof.
  split; cbn.
  - intros s n Hn Hin. destruct (rn_in s); [by destruct Hin|]. destruct (rn_read (min n 3) s). by eexists _, _.
  - intros s n Hn. rewrite length_bytes_of_string in Hn.
    destruct (Nat.leb_spec n (String.length (rn_in s))); [|lia].
    destruct (rn_read n s). by eexists _, _.
  - intros s d Hd. by eexists _, _.
  - intros s d. by eexists.
  - intros s n. by eexists _, _.
Qed.

(** The example of RFC 6455, section 1.3. *)
Example accept_vector :
  ws_compute_accept "dGhlIHNhbXBsZSBub25jZQ==" = "s3pPLMBiTxaQ9kYGzzhZRbK+xOo=".
Proof. vm_compute. reflexivity. Qed.

(** ** The theorems at concrete inputs *)

(** A server presenting the certificate with digest [1; 2; 255]. *)
Definition ref_server (i : string) (rand : bytes) : ref_net :=
  mkRefNet i [] rand true 0 (Some (Some [1; 2; 255])).

Definition ref_conn (i : string) : Conn :=
  set_flags true true (new_connection "h" 443 true (ref_server i [])).

Lemma b64_roundtrip_witness : b64_decode (b64_encode "hello") = Ok "hello".
Proof. apply (b64_roundtrip "hello"). Defined.

Lemma ws_decode_frame_safe_witness :
  wp (ws_decode_frame 5)
    (λ msg c', Z.of_nat (String.length msg) ≤ kMaxFramePayload ∧ consumes_frame (ref_conn "abcd") c')
    (λ _, consumes (ref_conn "abcd")) (ref_conn "abcd").
Proof. apply ws_decode_frame_safe. cbn. lia. Defined.

Lemma ws_encode_frame_rfc_witness :
  rfc_server_decode [129; 130; 7; 7; 7; 7; 111; 110] = Some (true, 1, [104; 105]).
Proof.
  apply (ws_encode_frame_rfc 1 [104; 105] (ref_conn "") _
    (ws_encode_frame 1 [104; 105] (ref_conn "")).2);
    [lia|cbn; lia|apply run_ret; vm_compute; reflexivity].
Defined.

(** "hello" in two fragments with a ping between them, and the start of another frame. *)
Definition fragmented : bytes :=
  server_frame false 1 [104; 101] ++ server_frame true 9 [33] ++
  server_frame true 0 [108; 108; 111].

Lemma ws_decode_frame_reassembles_witness :
  ∃ c' out,
    ws_decode_frame 20 (ref_conn (string_of_bytes (fragmented ++ [129])))
    = (Ret (string_of_bytes [104; 101; 108; 108; 111]), c') ∧
    incoming (io c') = [129] ∧
    outgoing (io c') = outgoing (io (ref_conn (string_of_bytes (fragmented ++ [129])))) ++ out ∧
    pongs_sent [[33]] out.
Proof.
  apply (ws_decode_frame_reassembles [104; 101; 108; 108; 111] [[33]] fragmented [129] 20
    (ref_conn (string_of_bytes (fragmented ++ [129])))).
  - apply ref_net_reliable.
  - apply (wire_first 1 [104; 101] [108; 108; 111]); [by left|].
    apply wire_ping; [cbn; lia|]. apply wire_last.
  - unfold kMaxFramePayload. cbn. lia.
  - reflexivity.
  - apply Nat.leb_le. reflexivity.
Defined.

(** A ping of 126 bytes, announced with a two-byte length. *)
Lemma ws_decode_frame_rejects_witness :
  ∃ e c', ws_decode_frame 1 (ref_conn (string_of_bytes [137; 126; 0; 126])) = (Exn e, c') ∧
    incoming (io c') = (rfc_length 126 [0; 126]).2 ∧
    outgoing (io c') = outgoing (io (ref_conn (string_of_bytes [137; 126; 0; 126]))).
Proof.
  apply (ws_decode_frame_rejects 137 126 [0; 126] 0
    (ref_conn (string_of_bytes [137; 126; 0; 126]))).
  - apply ref_net_reliable.
  - vm_compute. done.
  - reflexivity.
  - right. right. split; [vm_compute; congruence|]. right. vm_compute. reflexivity.
Defined.

(** The nonce and the response of RFC 6455, section 1.3. *)
Definition sample_nonce : bytes := bytes_of_string "the sample nonce".
Definition sample_response : string :=
  "HTTP/1.1 101 Switching Protocols" +:+ crlf +:+ "Upgrade: websocket" +:+ crlf +:+
  "Sec-WebSocket-Accept: s3pPLMBiTxaQ9kYGzzhZRbK+xOo=" +:+ crlf +:+ crlf.
Definition sample_conn : Conn :=
  new_connection "server.example.com" 443 true (ref_server sample_response sample_nonce).

(** On it the whole of [connect] succeeds and records the fingerprint. *)
Example sample_connect :
  (connect "" sample_conn).1 = Ret tt ∧ (connect "0102ff" sample_conn).1 = Ret tt ∧
  (connect "0102fe" sample_conn).1
  = Exn "certificate pin mismatch for server.example.com — cert changed, possible MITM" ∧
  server_cert_fp_ (connect "" sample_conn).2 = "0102ff".
Proof. vm_compute. done. Qed.

Lemma sample_handshake :
  (ws_handshake sample_conn).1 = Ret tt ∧ incoming (io (ws_handshake sample_conn).2) = [].
Proof. vm_compute. done. Qed.

Lemma ws_handshake_sound_witness :
  ∃ key resp,
    accepted_response key (string_of_bytes resp) ∧ Z.of_nat (length resp) ≤ 8192 ∧
    incoming (io sample_conn) = resp.
Proof.
  destruct (wp_run_ret ws_handshake _ _ sample_conn tt (ws_handshake_sound sample_conn) (proj1 sample_handshake))
    as (key & resp & _ & Hr & Hl & _ & Ha & _).
  rewrite (proj2 sample_handshake), (right_id_L [] (++)) in Hr.
  exists key, resp. exact (conj Ha (conj Hl Hr)).
Defined.

Lemma pin_identifies_certificate_witness : [1; 2; 255] = [1; 2; 255].
Proof.
  apply (pin_identifies_certificate "0102ff" sample_conn (tls_handshake "0102ff" sample_conn).2
    (ref_conn "") (tls_handshake "0102ff" (ref_conn "")).2).
  1: discriminate.
  1-2: apply run_ret; vm_compute; reflexivity.
  1-2: split; reflexivity.
  all: repeat constructor; unfold is_byte; lia.
Defined.

Lemma connect_outcome_witness :
  connected_ (connect "0102ff" sample_conn).2 = true ∧
  ∃ s digest, presents s digest ∧
    server_cert_fp_ (connect "0102ff" sample_conn).2 = hex_of_bytes digest.
Proof.
  pose proof (wp_run_ret (connect "0102ff") _ _ sample_conn tt
    (connect_outcome "0102ff" sample_conn) (proj1 (proj2 sample_connect))) as Hw.
  split; [exact (proj1 Hw)|].
  exact (proj2 (proj2 (proj2 (proj2 (proj2 (proj2 (proj2 Hw)))) eq_refl))).
Defined.
