(* ===== verification/CryptoProxy.v ===== *)
(** * CryptoProxy: [client/src/crypto/CryptoProxy.{h,cpp}] (POSIX)

    The bridge to the crypto subprocess: spawning it, writing one request line,
    reading one reply line, and the typed wrappers.  System calls are the
    operations of a class; the laws ([CryptoProxyFacts]) connect the two pipes to
    a subprocess that answers each line it receives with one line. *)

From S2P Require Import Prelude Json.
Local Open Scope Z_scope.

(** ** System calls *)

(** [errno] after a failed call: interrupted by a signal, or another error with
    its [strerror] text. *)
Inductive Errno : Type :=
| EINTR
| EOTHER (text : string).

Class PosixIo := {
  os : Type;
  (** [signal(SIGPIPE, SIG_IGN)] *)
  os_ignore_sigpipe : os → os;
  (** the read end and the write end, or the [strerror] text *)
  os_pipe : os → os * (Z * Z + string);
  (** [fork], and in the child the redirections, [execlp] and [_exit(127)]: takes
      the pipe to the child, the pipe from the child, the executable and the
      script; returns the pid in the parent *)
  os_fork_exec : os → Z * Z → Z * Z → string → string → os * (Z + string);
  os_close : os → Z → os;
  (** number of bytes written, or [errno] *)
  os_write : os → Z → string → os * (nat + Errno);
  (** the bytes read (none at end of file), or [errno] *)
  os_read : os → Z → nat → os * (string + Errno);
  (** [kill(pid, SIGTERM)] and [waitpid] *)
  os_kill_wait : os → Z → os;
}.

(** [class CryptoProxy]; [sys] is the state of the operating system. *)
Record Proxy `{PosixIo} : Type := mkProxy {
  stdin_fd_ : Z;
  stdout_fd_ : Z;
  subprocess_pid_ : Z;
  read_buf_ : string;
  sys : os;
}.
Arguments mkProxy {_} _ _ _ _ _.

Definition new_proxy `{PosixIo} (s : os) : Proxy := mkProxy (-1) (-1) (-1) "" s.

Definition set_sys `{PosixIo} (s : os) (p : Proxy) : Proxy :=
  mkProxy (stdin_fd_ p) (stdout_fd_ p) (subprocess_pid_ p) (read_buf_ p) s.
Definition set_read_buf `{PosixIo} (b : string) (p : Proxy) : Proxy :=
  mkProxy (stdin_fd_ p) (stdout_fd_ p) (subprocess_pid_ p) b (sys p).
Definition set_stdin_fd `{PosixIo} (fd : Z) (p : Proxy) : Proxy :=
  mkProxy fd (stdout_fd_ p) (subprocess_pid_ p) (read_buf_ p) (sys p).
Definition set_stdout_fd `{PosixIo} (fd : Z) (p : Proxy) : Proxy :=
  mkProxy (stdin_fd_ p) fd (subprocess_pid_ p) (read_buf_ p) (sys p).
Definition set_pid `{PosixIo} (pid : Z) (p : Proxy) : Proxy :=
  mkProxy (stdin_fd_ p) (stdout_fd_ p) pid (read_buf_ p) (sys p).

(** [newline = buf.find('\n')], with [buf.substr(0, newline)] and what
    [buf.erase(0, newline + 1)] leaves. *)
Fixpoint break_line (buf : string) : option (string * string) :=
  match buf with
  | EmptyString => None
  | String c rest =>
    if bool_decide (c = newline) then Some ("", rest)
    else (λ lr, (String c lr.1, lr.2)) <$> break_line rest
  end.

Section proxy.
Context `{PosixIo}.

Definition on_sys {A} (f : os → os * A) : M Proxy A := λ p,
  let '(s, a) := f (sys p) in (Ret a, set_sys s p).
Definition close (fd : Z) : M Proxy unit := on_sys (λ s, (os_close s fd, tt)).

(** ** Lifecycle *)

Definition start (script_path python_exe : string) : M Proxy unit :=
  pid ← gets subprocess_pid_;
  if 0 <? pid then throw "CryptoProxy::start called but subprocess is already running"
  else
    on_sys (λ s, (os_ignore_sigpipe s, tt)) ;;
    to_child ← on_sys os_pipe;
    match to_child with
    | inr err => throw ("CryptoProxy: pipe() failed: " +:+ err)
    | inl (to_r, to_w) =>
      from_child ← on_sys os_pipe;
      match from_child with
      | inr err =>
        close to_r ;; close to_w ;; throw ("CryptoProxy: pipe() failed: " +:+ err)
      | inl (from_r, from_w) =>
        child ← on_sys (λ s, os_fork_exec s (to_r, to_w) (from_r, from_w) python_exe script_path);
        match child with
        | inr err =>
          close to_r ;; close to_w ;; close from_r ;; close from_w ;;
          throw ("CryptoProxy: fork() failed: " +:+ err)
        | inl pid =>
          close to_r ;; close from_w ;;
          modify (set_stdin_fd to_w) ;; modify (set_stdout_fd from_r) ;; modify (set_pid pid)
        end
      end
    end.

Definition stop : M Proxy unit :=
  fd ← gets stdin_fd_;
  when (0 <=? fd) (close fd ;; modify (set_stdin_fd (-1))) ;;
  fd ← gets stdout_fd_;
  when (0 <=? fd) (close fd ;; modify (set_stdout_fd (-1))) ;;
  pid ← gets subprocess_pid_;
  when (0 <? pid)
    (on_sys (λ s, (os_kill_wait s pid, tt)) ;; modify (set_pid (-1))) ;;
  modify (set_read_buf "").

(** ** One request, one reply *)

(** The loop of [read_line], one round per [read]. *)
Fixpoint read_line (fuel : nat) : M Proxy string :=
  buf ← gets read_buf_;
  match break_line buf with
  | Some (line, rest) => modify (set_read_buf rest) ;; mret line
  | None =>
    match fuel with
    | O => stuck "read_line: out of fuel"
    | S fuel =>
      fd ← gets stdout_fd_;
      r ← on_sys (λ s, os_read s fd (Z.to_nat 4096));
      match r with
      | inr EINTR => read_line fuel
      | inr (EOTHER err) => throw ("CryptoProxy: read from subprocess failed: " +:+ err)
      | inl "" =>
        if negb (str_empty buf) then modify (set_read_buf "") ;; mret buf
        else throw "CryptoProxy: subprocess closed the pipe before sending a response"
      | inl bytes => modify (set_read_buf (buf +:+ bytes)) ;; read_line fuel
      end
    end
  end.

(** The loop of [send_recv] on the bytes not written yet. *)
Fixpoint write_line (fuel : nat) (data : string) : M Proxy unit :=
  match data with
  | EmptyString => mret tt
  | _ =>
    match fuel with
    | O => stuck "send_recv: out of fuel"
    | S fuel =>
      fd ← gets stdin_fd_;
      r ← on_sys (λ s, os_write s fd data);
      match r with
      | inr EINTR => write_line fuel data
      | inr (EOTHER err) => throw ("CryptoProxy: write to subprocess failed: " +:+ err)
      | inl n => write_line fuel (String.substring n (String.length data - n) data)
      end
    end
  end.

Definition send_recv (fuel : nat) (line : string) : M Proxy string :=
  fdin ← gets stdin_fd_;
  fdout ← gets stdout_fd_;
  if (fdin <? 0) || (fdout <? 0)
  then throw "CryptoProxy::send_recv called before start()"
  else write_line fuel line ;; read_line fuel.

(** ** The call *)

Context `{NlohmannJson}.

Definition request_of (method : string) (params : json) : json :=
  json_of_object [("method", json_of_string method); ("params", params)].

(** What [call] makes of the reply line. *)
Definition decode_reply (method reply : string) : result json :=
  match json_parse reply with
  | Err e => Err ("CryptoProxy: malformed response from subprocess for method '" +:+ method
                  +:+ "': " +:+ e)
  | Ok response =>
    if json_contains response "error" then
      v ← json_at response "error";
      text ← json_get_string v;
      Err ("CryptoProxy: subprocess error for method '" +:+ method +:+ "': " +:+ text)
    else json_value response "result" (json_of_object [])
  end.

Definition call (fuel : nat) (method : string) (params : json) : M Proxy json :=
  text ← lift (json_dump (request_of method params));
  reply ← send_recv fuel (text +:+ String newline "");
  lift (decode_reply method reply).
End proxy.

(** ** The wrappers

    They are the same for every way of performing a call: the client's theorems
    use them over an abstract subprocess, [CryptoProxyFacts] shows that the pipes
    implement it. *)
Section wrappers.
Context `{NlohmannJson} {S : Type} (call : string → json → M S json).
Implicit Types encrypted_state encrypted_dek ratchet_state : json.

Definition create_dek (pin username : string) : M S json :=
  call "create_dek" (json_of_object
    [("pin", json_of_string pin); ("username", json_of_string username)]).

Definition unlock_dek (pin username : string) encrypted_dek : M S unit :=
  call "unlock_dek" (json_of_object
    [("pin", json_of_string pin); ("username", json_of_string username);
     ("encrypted_dek", encrypted_dek)]) ;; mret tt.

Definition rotate_dek (old_pin new_pin username : string) encrypted_dek : M S json :=
  call "rotate_dek" (json_of_object
    [("old_pin", json_of_string old_pin); ("new_pin", json_of_string new_pin);
     ("username", json_of_string username); ("encrypted_dek", encrypted_dek)]).

Definition create_state : M S json := call "create_state" (json_of_object []).

Definition get_bundle encrypted_state : M S json :=
  call "get_bundle" (json_of_object [("encrypted_state", encrypted_state)]).

Definition generate_pre_keys encrypted_state (count : Z) : M S json :=
  call "generate_pre_keys" (json_of_object
    [("encrypted_state", encrypted_state); ("count", json_of_int count)]).

Definition rotate_signed_pre_key encrypted_state : M S json :=
  call "rotate_signed_pre_key" (json_of_object [("encrypted_state", encrypted_state)]).

Definition get_num_pre_keys encrypted_state : M S Z :=
  r ← call "get_num_pre_keys" (json_of_object [("encrypted_state", encrypted_state)]);
  n ← lift (json_at r "num_pre_keys");
  lift (json_get_int n).

Definition get_shared_secret_active encrypted_state (bob_bundle : json) : M S json :=
  call "get_shared_secret_active" (json_of_object
    [("encrypted_state", encrypted_state); ("bob_bundle", bob_bundle)]).

Definition get_shared_secret_passive encrypted_state (header : json) : M S json :=
  call "get_shared_secret_passive" (json_of_object
    [("encrypted_state", encrypted_state); ("header", header)]).

Definition delete_hidden_pre_keys encrypted_state : M S json :=
  call "delete_hidden_pre_keys" (json_of_object [("encrypted_state", encrypted_state)]).

Definition encrypt_initial_message
    (shared_secret recipient_ratchet_pub message associated_data : string) : M S json :=
  call "encrypt_initial_message" (json_of_object
    [("shared_secret", json_of_string shared_secret);
     ("recipient_ratchet_pub", json_of_string recipient_ratchet_pub);
     ("message", json_of_string message);
     ("associated_data", json_of_string associated_data)]).

Definition decrypt_initial_message (shared_secret own_ratchet_priv : string)
    (encrypted_message : json) (associated_data : string) : M S json :=
  call "decrypt_initial_message" (json_of_object
    [("shared_secret", json_of_string shared_secret);
     ("own_ratchet_priv", json_of_string own_ratchet_priv);
     ("encrypted_message", encrypted_message);
     ("associated_data", json_of_string associated_data)]).

Definition encrypt_message ratchet_state (message associated_data : string) : M S json :=
  call "encrypt_message" (json_of_object
    [("ratchet_state", ratchet_state); ("message", json_of_string message);
     ("associated_data", json_of_string associated_data)]).

Definition decrypt_message ratchet_state (encrypted_message : json) (associated_data : string)
  : M S json :=
  call "decrypt_message" (json_of_object
    [("ratchet_state", ratchet_state); ("encrypted_message", encrypted_message);
     ("associated_data", json_of_string associated_data)]).

Definition encrypt_for_storage (plaintext_b64 : string) : M S json :=
  call "encrypt_with_dek" (json_of_object [("plaintext", json_of_string plaintext_b64)]).

Definition decrypt_from_storage (encrypted : json) : M S json :=
  nonce ← lift (json_at encrypted "nonce");
  ciphertext ← lift (json_at encrypted "ciphertext");
  call "decrypt_with_dek" (json_of_object [("nonce", nonce); ("ciphertext", ciphertext)]).
End wrappers.
