(* ===== verification/CryptoProxyFacts.v ===== *)
(** * CryptoProxyFacts: the pipes implement the subprocess

    The subprocess is an abstract server: a state and a function from a request
    line to a reply line.  [PosixLaws] says what the two pipes do between it and
    the client: written bytes reach it in order, it answers each complete line
    with one line, and reads hand out its output in order, in pieces of any size,
    with any finite number of interruptions by signals.  Over them [call] is the
    remote call of the abstract server. *)

From S2P Require Import Prelude Json Codec CryptoProxy.
Local Open Scope Z_scope.

(** [subprocess_handler.py]: one reply line per request line. *)
Class Subprocess := {
  child : Type;
  serve : child → string → child * string;
}.

(** The call as a function of the server's state. *)
Definition abs_call `{NlohmannJson} `{Subprocess} (method : string) (params : json)
  : M child json :=
  text ← lift (json_dump (request_of method params));
  reply ← (λ ch, let '(ch', r) := serve ch text in (Ret r, ch'));
  lift (decode_reply method reply).

(** The server behind the pipes: its state, the incomplete line it has received
    and its output not yet read. *)
Record Link `{Subprocess} : Type := mkLink {
  lk_child : child;
  lk_partial : string;
  lk_unread : string;
}.
Arguments mkLink {_} _ _ _.

Definition feed_char `{Subprocess} (l : Link) (c : ascii) : Link :=
  if bool_decide (c = newline) then
    let '(ch, reply) := serve (lk_child l) (lk_partial l) in
    mkLink ch "" (lk_unread l +:+ reply +:+ String newline "")
  else mkLink (lk_child l) (lk_partial l +:+ String c "") (lk_unread l).

Fixpoint feed `{Subprocess} (l : Link) (data : string) : Link :=
  match data with
  | EmptyString => l
  | String c data => feed (feed_char l c) data
  end.

(** [wired s i o]: descriptors [i] and [o] are connected to a running server.
    [signals] bounds the interruptions still to come. *)
Class PosixLaws `{PosixIo} `{Subprocess} := {
  wired : os → Z → Z → Prop;
  link : os → Link;
  signals : os → nat;
  os_write_ok s i o d s' k :
    wired s i o → d ≠ "" → os_write s i d = (s', inl k) →
    (0 < k ≤ String.length d)%nat ∧ link s' = feed (link s) (String.substring 0 k d) ∧
    wired s' i o ∧ (signals s' ≤ signals s)%nat;
  os_write_eintr s i o d s' :
    wired s i o → os_write s i d = (s', inr EINTR) →
    link s' = link s ∧ wired s' i o ∧ (signals s' < signals s)%nat;
  os_write_works s i o d s' e : wired s i o → os_write s i d ≠ (s', inr (EOTHER e));
  os_read_ok s i o n s' bs :
    wired s i o → (0 < n)%nat → os_read s o n = (s', inl bs) →
    lk_unread (link s) = bs +:+ lk_unread (link s') ∧
    lk_child (link s') = lk_child (link s) ∧ lk_partial (link s') = lk_partial (link s) ∧
    (lk_unread (link s) ≠ "" → bs ≠ "") ∧
    wired s' i o ∧ (signals s' ≤ signals s)%nat;
  os_read_eintr s i o n s' :
    wired s i o → os_read s o n = (s', inr EINTR) →
    link s' = link s ∧ wired s' i o ∧ (signals s' < signals s)%nat;
  os_read_works s i o n s' e : wired s i o → os_read s o n ≠ (s', inr (EOTHER e));
}.

(** ** Strings *)

Lemma break_line_some line rest :
  one_line line = true → break_line (line +:+ String newline rest) = Some (line, rest).
Proof.
  induction line as [|c line IH]; intros Hl; [done|]. rewrite string_cons_app.
  cbn in *. apply andb_prop in Hl as [Hc Hl]. apply negb_true_iff in Hc. rewrite Hc, (IH Hl). done.
Qed.

Lemma break_line_none buf : one_line buf = true → break_line buf = None.
Proof.
  induction buf as [|c buf IH]; [done|]. cbn. intros [Hc Hl]%andb_prop.
  apply negb_true_iff in Hc. by rewrite Hc, IH.
Qed.

Lemma one_line_app s t : one_line (s +:+ t) = one_line s && one_line t.
Proof. induction s as [|c s IH]; [done|]. rewrite string_cons_app. cbn. by rewrite IH, andb_assoc. Qed.

(** A prefix of a line and its terminator is either short of it or contains it. *)
Lemma line_prefix_cases buf more line rest :
  one_line line = true → buf +:+ more = line +:+ String newline rest →
  (∃ line', line = buf +:+ line' ∧ more = line' +:+ String newline rest) ∨
  (∃ rest', buf = line +:+ String newline rest' ∧ rest = rest' +:+ more).
Proof.
  revert line. induction buf as [|c buf IH]; intros line Hl Heq.
  - left. by exists line.
  - rewrite string_cons_app in Heq.
    destruct line as [|d line]; [rewrite string_nil_app in Heq|rewrite string_cons_app in Heq];
      simplify_eq.
    + right. by exists buf.
    + cbn in Hl. apply andb_prop in Hl as [_ Hl].
      destruct (IH line Hl) as [(l' & -> & ->)|(r' & -> & ->)]; [done|left|right]; eauto.
Qed.

Section feeding.
Context `{Subprocess}.

Lemma feed_app l s t : feed l (s +:+ t) = feed (feed l s) t.
Proof.
  revert l. induction s as [|c s IH]; intros l; [done|]. rewrite string_cons_app. apply IH.
Qed.

(** One complete line is served once. *)
Lemma feed_line l text :
  one_line text = true →
  feed l (text +:+ String newline "") =
  mkLink (serve (lk_child l) (lk_partial l +:+ text)).1 ""
    (lk_unread l +:+ (serve (lk_child l) (lk_partial l +:+ text)).2 +:+ String newline "").
Proof.
  revert l. induction text as [|c text IH]; intros l Hl.
  - rewrite string_app_nil_r, string_nil_app. cbn [feed]. unfold feed_char.
    rewrite bool_decide_true by done. by destruct (serve (lk_child l) (lk_partial l)).
  - cbn in Hl. apply andb_prop in Hl as [Hc Hl]. apply negb_true_iff in Hc.
    rewrite string_cons_app. cbn [feed]. rewrite IH by done. unfold feed_char. rewrite Hc.
    cbn [lk_child lk_partial lk_unread].
    by rewrite <-string_app_assoc, string_cons_app, string_nil_app.
Qed.
End feeding.

(** ** The loops *)

Section ipc.
Context `{PosixIo} `{Subprocess} `{!PosixLaws}.
Implicit Types p : Proxy.

(** The descriptors are open and belong to the server. *)
Definition connected_to_child p : Prop :=
  wired (sys p) (stdin_fd_ p) (stdout_fd_ p) ∧ 0 ≤ stdin_fd_ p ∧ 0 ≤ stdout_fd_ p.

Definition same_fds p p' : Prop :=
  stdin_fd_ p' = stdin_fd_ p ∧ stdout_fd_ p' = stdout_fd_ p ∧
  subprocess_pid_ p' = subprocess_pid_ p.

Lemma wp_on_sys {A} (f : os → os * A) Q E p :
  (∀ s a, f (sys p) = (s, a) → Q a (set_sys s p)) → wp (on_sys f) Q E p.
Proof. intros HQ. unfold wp, on_sys. destruct (f (sys p)) as [s a]. by apply HQ. Qed.

(** Everything is written, whatever the partial writes and interruptions. *)
Lemma write_line_spec fuel data p :
  connected_to_child p → (signals (sys p) + String.length data ≤ fuel)%nat →
  wp (write_line fuel data)
    (λ _ p', connected_to_child p' ∧ same_fds p p' ∧ read_buf_ p' = read_buf_ p ∧
      link (sys p') = feed (link (sys p)) data ∧ (signals (sys p') ≤ signals (sys p))%nat)
    (λ _ _, False) p.
Proof.
  revert data p. induction fuel as [|fuel IH]; intros data p Hp Hf.
  - destruct data; cbn in Hf; [|lia]. by apply wp_ret.
  - destruct data as [|c data]; [by apply wp_ret|]. destruct Hp as (Hw & Hi & Ho).
    cbn [write_line]. remember (String c data) as d eqn:Hd0.
    assert (d ≠ "") as Hd1 by (by rewrite Hd0). clear Hd0.
    apply wp_bind, wp_gets, wp_bind, wp_on_sys.
    intros s [k|[|e]] Hr.
    + apply (os_write_ok _ _ _ _ _ _ Hw) in Hr as (Hk & Hl & Hw' & Hs); [|done].
      pose proof (substring_split k d ltac:(lia)) as Hd.
      assert (String.length d = k + String.length (String.substring k (String.length d - k) d))%nat
        as Hlen.
      { rewrite Hd at 1. rewrite string_length_app. f_equal.
        apply length_substring_prefix. lia. }
      eapply wp_mono; [apply IH; cbn [sys set_sys]; [done|lia]| |done].
      intros _ p' (Hp' & Hfd & Hb & Hl' & Hs'). cbn in *. split_and!; try done; [|lia].
      by rewrite Hl', Hl, <-feed_app, <-Hd.
    + apply (os_write_eintr _ _ _ _ _ Hw) in Hr as (Hl & Hw' & Hs).
      eapply wp_mono; [apply IH; cbn [sys set_sys]; [done|lia]| |done].
      intros _ p' (Hp' & Hfd & Hb & Hl' & Hs'). cbn in *. split_and!; try done; [congruence|lia].
    + by apply (os_write_works _ _ _ _ _ _ Hw) in Hr.
Qed.

(** The next line of the server's output is returned, in whatever pieces it
    arrives; what follows it stays for the next call. *)
Lemma read_line_spec fuel line rest p :
  connected_to_child p → one_line line = true →
  read_buf_ p +:+ lk_unread (link (sys p)) = line +:+ String newline rest →
  (signals (sys p) + String.length (lk_unread (link (sys p))) ≤ fuel)%nat →
  wp (read_line fuel)
    (λ r p', r = line ∧ connected_to_child p' ∧ same_fds p p' ∧
      read_buf_ p' +:+ lk_unread (link (sys p')) = rest ∧
      lk_child (link (sys p')) = lk_child (link (sys p)) ∧
      lk_partial (link (sys p')) = lk_partial (link (sys p)))
    (λ _ _, False) p.
Proof.
  revert p. induction fuel as [|fuel IH]; intros p Hp Hl Hin Hf; cbn [read_line];
    apply wp_bind, wp_gets;
    destruct (line_prefix_cases _ _ _ _ Hl Hin) as [(l' & Hb & Hu)|(r' & Hb & ->)].
  1: { rewrite Hu, string_length_app in Hf. cbn in Hf. lia. }
  1, 3: rewrite Hb, break_line_some by done; apply wp_bind, wp_modify, wp_ret;
    by split_and!.
  rewrite (break_line_none (read_buf_ p)) by (rewrite Hb, one_line_app in Hl; by apply andb_prop in Hl as [? _]).
  destruct Hp as (Hw & Hi & Ho). apply wp_bind, wp_gets, wp_bind, wp_on_sys.
  intros s [bs|[|e]] Hr.
  - apply (os_read_ok _ _ _ _ _ _ Hw) in Hr as (Hun & Hc & Hpa & Hne & Hw' & Hs);
      [|apply Nat.ltb_lt; vm_compute; reflexivity].
    assert (lk_unread (link (sys p)) ≠ "") as Hnz by (rewrite Hu; by destruct l').
    specialize (Hne Hnz). destruct bs as [|b bs]; [done|].
    apply wp_bind, wp_modify. rewrite Hun in Hin, Hf.
    eapply wp_mono; [apply IH| |done]; cbn.
    + done.
    + done.
    + by rewrite <-string_app_assoc.
    + rewrite string_length_app in Hf. cbn in Hf. lia.
    + intros r p' (-> & Hp' & Hfd & Hrest & Hc' & Hpa'). cbn in *. split_and!; try done; congruence.
  - apply (os_read_eintr _ _ _ _ _ Hw) in Hr as (Hln & Hw' & Hs).
    eapply wp_mono; [apply IH; cbn; rewrite ?Hln; [done|done|done|lia]| |done].
    intros r p' (-> & Hp' & Hfd & Hrest & Hc' & Hpa'). cbn in *. rewrite Hln in *. by split_and!.
  - by apply (os_read_works _ _ _ _ _ _ Hw) in Hr.
Qed.

(** No part of a request or of a reply is outstanding. *)
Definition in_sync p : Prop :=
  connected_to_child p ∧ lk_partial (link (sys p)) = "" ∧
  read_buf_ p = "" ∧ lk_unread (link (sys p)) = "".

(** The rounds that are enough for one exchange. *)
Definition exchange_fuel p (text reply : string) : nat :=
  (signals (sys p) + String.length text + String.length reply + 2)%nat.

Lemma send_recv_spec fuel text p :
  in_sync p → one_line text = true →
  let r := serve (lk_child (link (sys p))) text in
  one_line r.2 = true → (exchange_fuel p text r.2 ≤ fuel)%nat →
  wp (send_recv fuel (text +:+ String newline ""))
    (λ reply p', reply = r.2 ∧ in_sync p' ∧ same_fds p p' ∧ lk_child (link (sys p')) = r.1)
    (λ _ _, False) p.
Proof.
  intros ((Hw & Hi & Ho) & Hpa & Hb & Hu) Ht r Hr Hf. unfold exchange_fuel in Hf.
  unfold send_recv. apply wp_bind, wp_gets, wp_bind, wp_gets.
  rewrite (proj2 (Z.ltb_ge _ _) Hi), (proj2 (Z.ltb_ge _ _) Ho). cbn [orb]. apply wp_bind.
  eapply wp_mono; [apply write_line_spec; [done|rewrite string_length_app; cbn; lia]| |done].
  intros _ p1 (Hp1 & Hfd1 & Hb1 & Hl1 & Hs1).
  rewrite feed_line, Hpa, Hu, !string_nil_app in Hl1 by done. fold r in Hl1.
  eapply wp_mono; [apply (read_line_spec fuel r.2 ""); [done|done| |]| |done].
  - by rewrite Hb1, Hb, Hl1.
  - rewrite Hl1. cbn [lk_unread]. rewrite !string_length_app. cbn [String.length]. lia.
  - intros reply p2 (-> & Hp2 & Hfd2 & Hrest & Hc & Hpa2). rewrite Hl1 in Hc, Hpa2. cbn in *.
    apply string_app_empty in Hrest as [? ?]. split_and!; try done; try congruence.
    destruct Hfd1 as (? & ? & ?), Hfd2 as (? & ? & ?). split_and!; congruence.
Qed.
End ipc.

(** C7: [call] over the pipes is the remote call of the abstract server: same result
    or same exception, same next state of the server, and client and server are in
    step again for the next call.  Enough rounds exist whatever the sizes of the
    pieces and however many (finitely many) signals interrupt it. *)
Theorem call_refines `{PosixIo} `{Subprocess} `{!PosixLaws} `{NlohmannJson} `{!NlohmannJsonLaws}
    method params p o ch' :
  in_sync p → (∀ ch line, one_line (serve ch line).2 = true) →
  abs_call method params (lk_child (link (sys p))) = (o, ch') →
  ∃ N, ∀ fuel, (N ≤ fuel)%nat → ∃ p',
    call fuel method params p = (o, p') ∧ in_sync p' ∧ same_fds p p' ∧
    lk_child (link (sys p')) = ch'.
Proof.
  intros Hp Hsrv Habs. unfold abs_call, call in *.
  destruct (json_dump (request_of method params)) as [text|e] eqn:Hd.
  - exists (exchange_fuel p text (serve (lk_child (link (sys p))) text).2). intros fuel Hf.
    pose proof (send_recv_spec fuel text p Hp (dump_one_line _ _ Hd) (Hsrv _ _) Hf) as Hwp.
    unfold wp, mbind, M_bind, lift, mret, M_ret in *.
    destruct (send_recv fuel (text +:+ String newline "") p) as [[reply|e|x] p'] eqn:E; [|done..].
    destruct Hwp as (-> & Hp' & Hfd & Hc). exists p'.
    destruct (serve (lk_child (link (sys p))) text) as [ch1 r]. cbn in *.
    destruct (decode_reply method r); unfold throw in *; simplify_eq; by split_and!.
  - exists 0%nat. intros fuel _. exists p.
    unfold mbind, M_bind, lift, throw in *. by simplify_eq.
Qed.

(** ** The storage cipher

    What [encrypt_with_dek] and [decrypt_with_dek] promise: the key in the
    subprocess's memory ([dek_of]) stays, and a blob made under a key is opened
    under the same key, whatever was called in between.  The subprocess decodes the
    Base64 text it is given and encodes what it returns, so both sides agree on the
    texts [b64_encode] makes. *)
Class StorageCipher `{NlohmannJson} `{Subprocess} := {
  dek : Type;
  dek_of : child → option dek;
}.

Class StorageCipherLaws `{StorageCipher} `{EvpCodec} : Prop := {
  encrypt_storage_ok text ch r ch' :
    encrypt_for_storage abs_call (b64_encode text) ch = (Ret r, ch') →
    dek_of ch' = dek_of ch ∧
    ∃ n c, r = json_of_object [("nonce", json_of_string n); ("ciphertext", json_of_string c)] ∧
    ∀ ch2, dek_of ch2 = dek_of ch → ∃ ch2',
      decrypt_from_storage abs_call r ch2
      = (Ret (json_of_object [("plaintext", json_of_string (b64_encode text))]), ch2') ∧
      dek_of ch2' = dek_of ch2;
  (** with a key in memory, any text is encrypted *)
  encrypt_storage_works text ch :
    is_Some (dek_of ch) →
    ∃ r ch', encrypt_for_storage abs_call (b64_encode text) ch = (Ret r, ch');
}.
