(* ===== verification/Ratchet.v ===== *)
(** * Ratchet: what the two ends of a session promise each other

    The key agreement (X3DH) and the Double Ratchet run in the subprocess, on top of
    third-party libraries.  [in_flight] relates the two ends of one direction of a
    session: the sender's ratchet state, the encrypted messages on their way with the
    text each carries, the receiver's side and the associated data.  [RatchetLaws] says
    that encrypting puts a message at the end of the queue and that decrypting the
    message at its head yields its text.  [EndToEnd] composes the two clients over it;
    [RefRatchet] gives an instance. *)

From S2P Require Import Prelude Json Codec CryptoProxy CryptoProxyFacts.

(** The receiver's side: invited by the header of the first message while its key
    state is [st], or in the session with a ratchet state. *)
Inductive receiver `{NlohmannJson} : Type :=
  | Invited (st header : json)
  | Joined (ratchet : json).

(** [in_flight a q r ad] as above; [published st bundle]: the bundle was made from the
    key state [st]. *)
Class Ratchet `{NlohmannJson} := {
  in_flight : json → list (json * string) → receiver → string → Prop;
  published : json → json → Prop;
}.

(** [j.at(k).get<std::string>()] *)
Definition member_string `{NlohmannJson} (j : json) (k : string) : result string :=
  v ← json_at j k; json_get_string v.

(** The members of a bundle as the subprocess serialises it. *)
Definition bundle_members `{NlohmannJson} (b : json) : Prop :=
  ∃ ik spk sig otpks, json_at b "identity_key" = Ok ik ∧ json_at b "signed_pre_key" = Ok spk ∧
    json_at b "signed_pre_key_sig" = Ok sig ∧ json_at b "pre_keys" = Ok otpks.

Class RatchetLaws `{R : Ratchet} `{StorageCipher} `{EvpCodec} : Prop := {
  (** [_handle_encrypt_message]: in a session any text can be encrypted *)
  ratchet_encrypts a q r ad text ch :
    in_flight a q r ad →
    ∃ enc ch', encrypt_message abs_call a (b64_encode text) ad ch = (Ret enc, ch') ∧
      dek_of ch' = dek_of ch;
  ratchet_sends a q r ad text ch enc ch' :
    in_flight a q r ad →
    encrypt_message abs_call a (b64_encode text) ad ch = (Ret enc, ch') →
    ∃ a' em, json_at enc "ratchet_state" = Ok a' ∧ json_at enc "encrypted_message" = Ok em ∧
      in_flight a' (q ++ [(em, text)]) r ad;
  (** encrypting does not disturb what is still to be received *)
  ratchet_sends_hears b q a ad text ch enc ch' a' :
    in_flight b q (Joined a) ad →
    encrypt_message abs_call a (b64_encode text) ad ch = (Ret enc, ch') →
    json_at enc "ratchet_state" = Ok a' → in_flight b q (Joined a') ad;
  (** [_handle_decrypt_message] *)
  ratchet_receives a em text q b ad ch :
    in_flight a ((em, text) :: q) (Joined b) ad →
    ∃ dec b' ch', decrypt_message abs_call b em ad ch = (Ret dec, ch') ∧
      member_string dec "plaintext" = Ok (b64_encode text) ∧
      json_at dec "ratchet_state" = Ok b' ∧ in_flight a q (Joined b') ad ∧
      dek_of ch' = dek_of ch;
  (** receiving does not disturb what has been sent *)
  ratchet_receives_sends a q b ad em text q' ch dec ch' a' :
    in_flight a q (Joined b) ad → in_flight b ((em, text) :: q') (Joined a) ad →
    decrypt_message abs_call a em ad ch = (Ret dec, ch') →
    json_at dec "ratchet_state" = Ok a' → in_flight a' q (Joined b) ad;
  (** [_handle_get_shared_secret_active], then [_handle_encrypt_initial_message] *)
  x3dh_invites st bundle own ch ss ch1 secret rp ad text ch2 enc ch3 :
    published st bundle →
    get_shared_secret_active abs_call own bundle ch = (Ret ss, ch1) →
    member_string ss "shared_secret" = Ok secret →
    member_string ss "bob_initial_ratchet_pub" = Ok rp →
    member_string ss "associated_data" = Ok ad →
    encrypt_initial_message abs_call secret rp (b64_encode text) ad ch2 = (Ret enc, ch3) →
    ∃ header a em, json_at ss "header" = Ok header ∧
      json_at enc "ratchet_state" = Ok a ∧ json_at enc "encrypted_message" = Ok em ∧
      in_flight a [(em, text)] (Invited st header) ad;
  (** [_handle_get_shared_secret_passive], then [_handle_decrypt_initial_message] *)
  x3dh_joins a em text q st header ad ch :
    in_flight a ((em, text) :: q) (Invited st header) ad → is_Some (dek_of ch) →
    json_is_null header = false ∧ (∃ ik, json_value_string header "identity_key" "" = Ok ik) ∧
    ∃ ss ch1 st' secret priv, get_shared_secret_passive abs_call st header ch = (Ret ss, ch1) ∧
      dek_of ch1 = dek_of ch ∧ json_at ss "encrypted_state" = Ok st' ∧
      (∀ b, json_at ss "bundle" = Ok b → bundle_members b) ∧
      member_string ss "shared_secret" = Ok secret ∧
      member_string ss "own_ratchet_priv" = Ok priv ∧
      member_string ss "associated_data" = Ok ad ∧
      ∀ ch2, ∃ dec b ch3, decrypt_initial_message abs_call secret priv em ad ch2 = (Ret dec, ch3) ∧
        member_string dec "plaintext" = Ok (b64_encode text) ∧
        json_at dec "ratchet_state" = Ok b ∧ in_flight a q (Joined b) ad ∧
        in_flight b [] (Joined a) ad ∧ dek_of ch3 = dek_of ch2;
}.

(** ** What comes out of the subprocess can be written again *)

Section replies.
Context `{NlohmannJson} `{Subprocess} `{!NlohmannJsonLaws}.

Lemma empty_object_at k v : json_at (json_of_object []) k ≠ Ok v.
Proof.
  intros Hat%at_contains. rewrite contains_object in Hat. apply bool_decide_eq_true in Hat.
  by apply elem_of_nil in Hat.
Qed.

(** A reply is a value of the parsed line, or the default [{}]. *)
Lemma decode_reply_parsed method reply r :
  decode_reply method reply = Ok r → parsed r ∨ r = json_of_object [].
Proof.
  unfold decode_reply. destruct (json_parse reply) as [j|] eqn:Hp; [|done].
  destruct (json_contains j "error").
  { destruct (json_at j "error") as [v|]; [|done]. cbn. by destruct (json_get_string v). }
  destruct (json_contains j "result") eqn:Hc.
  - rewrite value_present by done. intros Hat. left. by eapply parsed_member; [eapply parsed_text|].
  - intros Hv. right. by apply (value_absent j "result").
Qed.

Lemma abs_call_parsed method params ch r ch' :
  abs_call method params ch = (Ret r, ch') → parsed r ∨ r = json_of_object [].
Proof.
  unfold abs_call, mbind, M_bind. destruct (json_dump _) as [text|]; [|done]. cbn.
  destruct (serve ch text) as [ch1 reply]. destruct (decode_reply method reply) as [r'|] eqn:Hd; [|done].
  intros [= <- _]. by eapply decode_reply_parsed.
Qed.

Lemma abs_call_dumps method params ch r ch' :
  abs_call method params ch = (Ret r, ch') → ∃ s, json_dump r = Ok s.
Proof.
  intros [Hp| ->]%abs_call_parsed; [by apply parsed_roundtrips|].
  apply dump_object_ok. by intros k v ?%elem_of_nil.
Qed.

Lemma abs_call_member method params ch r ch' k v :
  abs_call method params ch = (Ret r, ch') → json_at r k = Ok v →
  roundtrips v ∧ ∃ s, json_dump v = Ok s.
Proof.
  intros [Hp| ->]%abs_call_parsed Hat; [|by apply empty_object_at in Hat].
  by eapply parsed_roundtrips, parsed_member.
Qed.
End replies.
