(* ===== verification/CryptoProxyWin.v ===== *)
(** * CryptoProxyWin: [client/src/crypto/CryptoProxy.cpp], the Windows half

    The same bridge over the Win32 calls.  Its loops are shown to behave as those of the
    POSIX half over the same pipes, so that the calls of both halves are the remote calls of the
    subprocess. *)

From S2P Require Import Prelude Json CryptoProxy CryptoProxyFacts.
Local Open Scope Z_scope.

(** ** Win32 calls *)

(** A handle is an address; 0 is [nullptr]. *)
Class WinIo := {
  win : Type;
  (** the read end and the write end, or failure *)
  CreatePipe : win → win * option (Z * Z);
  (** clears [HANDLE_FLAG_INHERIT] *)
  SetHandleInformation : win → Z → win;
  (** command line, standard input and output; the process and thread handles *)
  CreateProcessA : win → string → Z → Z → win * option (Z * Z);
  CloseHandle : win → Z → win;
  (** number of bytes written *)
  WriteFile : win → Z → string → win * option nat;
  ReadFile : win → Z → nat → win * option string;
  GetLastError : win → Z;
  (** [TerminateProcess] and [WaitForSingleObject] *)
  TerminateProcess : win → Z → win;
}.

Definition ERROR_BROKEN_PIPE : Z := 109.

(** [class CryptoProxy] under [_WIN32] *)
Record WinProxy `{WinIo} : Type := mkWinProxy {
  stdin_handle_ : Z;
  stdout_handle_ : Z;
  process_handle_ : Z;
  win_read_buf_ : string;
  win_sys : win;
}.
Arguments mkWinProxy {_} _ _ _ _ _.

Definition new_win_proxy `{WinIo} (s : win) : WinProxy := mkWinProxy 0 0 0 "" s.

Definition set_win_sys `{WinIo} (s : win) (p : WinProxy) : WinProxy :=
  mkWinProxy (stdin_handle_ p) (stdout_handle_ p) (process_handle_ p) (win_read_buf_ p) s.
Definition set_win_read_buf `{WinIo} (b : string) (p : WinProxy) : WinProxy :=
  mkWinProxy (stdin_handle_ p) (stdout_handle_ p) (process_handle_ p) b (win_sys p).
Definition set_handles `{WinIo} (i o pr : Z) (p : WinProxy) : WinProxy :=
  mkWinProxy i o pr (win_read_buf_ p) (win_sys p).

Section proxy.
Context `{WinIo}.

Definition on_win {A} (f : win → win * A) : M WinProxy A := λ p,
  let '(s, a) := f (win_sys p) in (Ret a, set_win_sys s p).
Definition close_handle (h : Z) : M WinProxy unit := on_win (λ s, (CloseHandle s h, tt)).
Definition last_error : M WinProxy Z := p ← gets win_sys; mret (GetLastError p).

(** ** Lifecycle *)

Definition dquote : ascii := Ascii.ascii_of_nat 34.

(** The command line; a C string ends at its first NUL. *)
Definition command_line (python_exe script_path : string) : string :=
  c_str (python_exe +:+ " " +:+ String dquote "" +:+ script_path +:+ String dquote "").

Definition win_start (script_path python_exe : string) : M WinProxy unit :=
  running ← gets process_handle_;
  if negb (running =? 0) then throw "CryptoProxy::start called but subprocess is already running"
  else
    stdin_pipe ← on_win CreatePipe;
    match stdin_pipe with
    | None =>
      e ← last_error;
      throw ("CryptoProxy: CreatePipe (stdin) failed with error " +:+ pretty e)
    | Some (stdin_read, stdin_write) =>
      on_win (λ s, (SetHandleInformation s stdin_write, tt)) ;;
      stdout_pipe ← on_win CreatePipe;
      match stdout_pipe with
      | None =>
        close_handle stdin_read ;; close_handle stdin_write ;;
        e ← last_error;
        throw ("CryptoProxy: CreatePipe (stdout) failed with error " +:+ pretty e)
      | Some (stdout_read, stdout_write) =>
        on_win (λ s, (SetHandleInformation s stdout_read, tt)) ;;
        proc ← on_win (λ s,
          CreateProcessA s (command_line python_exe script_path) stdin_read stdout_write);
        close_handle stdin_read ;; close_handle stdout_write ;;
        match proc with
        | None =>
          close_handle stdin_write ;; close_handle stdout_read ;;
          e ← last_error;
          throw ("CryptoProxy: CreateProcess failed with error " +:+ pretty e)
        | Some (hProcess, hThread) =>
          close_handle hThread ;; modify (set_handles stdin_write stdout_read hProcess)
        end
      end
    end.

Definition win_stop : M WinProxy unit :=
  p ← gets id;
  when (negb (stdin_handle_ p =? 0))
    (close_handle (stdin_handle_ p) ;;
     modify (λ p, set_handles 0 (stdout_handle_ p) (process_handle_ p) p)) ;;
  p ← gets id;
  when (negb (stdout_handle_ p =? 0))
    (close_handle (stdout_handle_ p) ;;
     modify (λ p, set_handles (stdin_handle_ p) 0 (process_handle_ p) p)) ;;
  p ← gets id;
  when (negb (process_handle_ p =? 0))
    (on_win (λ s, (TerminateProcess s (process_handle_ p), tt)) ;;
     close_handle (process_handle_ p) ;;
     modify (λ p, set_handles (stdin_handle_ p) (stdout_handle_ p) 0 p)) ;;
  modify (set_win_read_buf "").

(** ** One request, one reply *)

(** What both ends of the stream do: hand out what is left, or report it. *)
Definition end_of_pipe (buf : string) : M WinProxy string :=
  if negb (str_empty buf) then modify (set_win_read_buf "") ;; mret buf
  else throw "CryptoProxy: subprocess closed the pipe before sending a response".

Fixpoint win_read_line (fuel : nat) : M WinProxy string :=
  buf ← gets win_read_buf_;
  match break_line buf with
  | Some (line, rest) => modify (set_win_read_buf rest) ;; mret line
  | None =>
    match fuel with
    | O => stuck "read_line: out of fuel"
    | S fuel =>
      h ← gets stdout_handle_;
      r ← on_win (λ s, ReadFile s h (Z.to_nat 4096));
      match r with
      | None =>
        err ← last_error;
        if err =? ERROR_BROKEN_PIPE then end_of_pipe buf
        else throw ("CryptoProxy: ReadFile from subprocess failed with error " +:+ pretty err)
      | Some "" => end_of_pipe buf
      | Some bytes => modify (set_win_read_buf (buf +:+ bytes)) ;; win_read_line fuel
      end
    end
  end.

(** The loop of [send_recv]: the first [remaining] bytes of the line, as a [DWORD]. *)
Fixpoint win_write_loop (fuel : nat) (data : string) : M WinProxy unit :=
  match data with
  | EmptyString => mret tt
  | _ =>
    match fuel with
    | O => stuck "send_recv: out of fuel"
    | S fuel =>
      h ← gets stdin_handle_;
      r ← on_win (λ s, WriteFile s h data);
      match r with
      | None =>
        err ← last_error;
        throw ("CryptoProxy: WriteFile to subprocess failed with error " +:+ pretty err)
      | Some n => win_write_loop fuel (String.substring n (String.length data - n) data)
      end
    end
  end.

Definition win_send_recv (fuel : nat) (line : string) : M WinProxy string :=
  p ← gets id;
  if (stdin_handle_ p =? 0) || (stdout_handle_ p =? 0)
  then throw "CryptoProxy::send_recv called before start()"
  else
    win_write_loop fuel
      (String.substring 0 (Z.to_nat (Z.of_nat (String.length line) mod 2 ^ 32)) line) ;;
    win_read_line fuel.

Context `{NlohmannJson}.

Definition win_call (fuel : nat) (method : string) (params : json) : M WinProxy json :=
  text ← lift (json_dump (request_of method params));
  reply ← win_send_recv fuel (text +:+ String newline "");
  lift (decode_reply method reply).
End proxy.

(** ** The two halves *)

(** The Win32 calls in the place of the POSIX ones; a broken pipe is the end of the file. *)
Definition posix_of_win `{WinIo} : PosixIo := {|
  os := win;
  os_ignore_sigpipe s := s;
  os_pipe s :=
    match CreatePipe s with (s, Some rw) => (s, inl rw) | (s, None) => (s, inr "CreatePipe") end;
  os_fork_exec s i o python script :=
    match CreateProcessA s (command_line python script) i.1 o.2 with
    | (s, Some (process, _)) => (s, inl process)
    | (s, None) => (s, inr "CreateProcess")
    end;
  os_close := CloseHandle;
  os_write s h d :=
    match WriteFile s h d with
    | (s, Some n) => (s, inl n)
    | (s, None) => (s, inr (EOTHER "WriteFile"))
    end;
  os_read s h n :=
    match ReadFile s h n with
    | (s, Some bs) => (s, inl bs)
    | (s, None) =>
      if GetLastError s =? ERROR_BROKEN_PIPE then (s, inl "") else (s, inr (EOTHER "ReadFile"))
    end;
  os_kill_wait := TerminateProcess;
|}.

Section equivalence.
Context `{WinIo}.
#[local] Existing Instance posix_of_win.

(** A null handle is the descriptor -1. *)
Definition fd_of (h : Z) : Z := if h =? 0 then -1 else h.
Lemma fd_of_open h : h ≠ 0 → fd_of h = h.
Proof. intros Hh. unfold fd_of. by rewrite (proj2 (Z.eqb_neq _ _) Hh). Qed.
Lemma fd_of_neg h : 0 ≤ h → (fd_of h <? 0) = (h =? 0).
Proof. intros Hh. unfold fd_of. destruct (Z.eqb_spec h 0); [done|]. apply Z.ltb_ge. lia. Qed.

Definition posix_view (q : WinProxy) : Proxy :=
  mkProxy (fd_of (stdin_handle_ q)) (fd_of (stdout_handle_ q)) (fd_of (process_handle_ q))
    (win_read_buf_ q) (win_sys q).

(** Same value, or both fail (with texts of their own); same state either way. *)
Definition agrees {A} (r : outcome A * WinProxy) (r' : outcome A * Proxy) : Prop :=
  match r.1, r'.1 with
  | Ret a, Ret a' => a = a'
  | Exn _, Exn _ => True
  | Stuck x, Stuck x' => x = x'
  | _, _ => False
  end ∧ posix_view r.2 = r'.2.

Lemma win_read_line_agrees fuel q :
  stdout_handle_ q ≠ 0 → agrees (win_read_line fuel q) (read_line fuel (posix_view q)).
Proof.
  revert q. induction fuel as [|fuel IH]; intros q Hq; cbn -[fd_of];
    unfold mbind, M_bind, gets; cbn -[fd_of]; destruct (break_line (win_read_buf_ q)) as [[line rest]|];
    try done.
  unfold on_win, on_sys. cbn -[fd_of Z.eqb]. rewrite (fd_of_open _ Hq).
  destruct (ReadFile (win_sys q) (stdout_handle_ q) _) as [s [[|c bs]|]].
  - unfold end_of_pipe. cbn. by destruct (str_empty (win_read_buf_ q)).
  - exact (IH (set_win_read_buf (win_read_buf_ q +:+ String c bs) (set_win_sys s q)) Hq).
  - unfold last_error, mbind, M_bind, gets. cbn -[Z.eqb]. destruct (GetLastError s =? ERROR_BROKEN_PIPE); [|done].
    unfold end_of_pipe. cbn. by destruct (str_empty (win_read_buf_ q)).
Qed.

Lemma win_write_loop_agrees fuel data q :
  stdin_handle_ q ≠ 0 → agrees (win_write_loop fuel data q) (write_line fuel data (posix_view q)).
Proof.
  revert data q. induction fuel as [|fuel IH]; intros data q Hq; destruct data as [|c data]; try done.
  cbn [win_write_loop write_line]. unfold mbind, M_bind, gets. cbn -[fd_of String.substring String.length].
  unfold on_win, on_sys. cbn -[fd_of String.substring String.length].
  rewrite (fd_of_open _ Hq).
  destruct (WriteFile (win_sys q) (stdin_handle_ q) _) as [s [n|]]; [|done].
  apply (IH _ (set_win_sys s q) Hq).
Qed.

Lemma win_write_loop_handles fuel data q :
  let q' := (win_write_loop fuel data q).2 in
  stdin_handle_ q' = stdin_handle_ q ∧ stdout_handle_ q' = stdout_handle_ q.
Proof.
  revert data q. induction fuel as [|fuel IH]; intros data q; destruct data as [|c data]; try done.
  cbn [win_write_loop]. unfold mbind, M_bind, gets, on_win. cbn -[String.substring String.length].
  destruct (WriteFile _ _ _) as [s [n|]]; [|done]. exact (IH _ (set_win_sys s q)).
Qed.

Lemma win_send_recv_agrees fuel line q :
  0 ≤ stdin_handle_ q → 0 ≤ stdout_handle_ q → Z.of_nat (String.length line) < 2 ^ 32 →
  agrees (win_send_recv fuel line q) (send_recv fuel line (posix_view q)).
Proof.
  intros Hi Ho Hlen. unfold win_send_recv, send_recv, mbind, M_bind, gets. cbn -[fd_of Z.eqb Z.ltb].
  rewrite !fd_of_neg, (Z.mod_small (Z.of_nat _)), Nat2Z.id, substring_full by (done || lia).
  destruct (Z.eqb_spec (stdin_handle_ q) 0), (Z.eqb_spec (stdout_handle_ q) 0) as [|Hout]; try done.
  cbn [orb]. pose proof (win_write_loop_agrees fuel line q ltac:(done)) as Hw.
  pose proof (win_write_loop_handles fuel line q) as [_ Hh].
  destruct (win_write_loop fuel line q) as [o q1], (write_line fuel line (posix_view q)) as [o' p1].
  destruct Hw as [Hw Hp1]. cbn in Hw, Hp1. subst p1. destruct o, o'; try done.
  apply win_read_line_agrees. cbn in Hh. by rewrite Hh.
Qed.

Lemma agrees_ret {A} (r : outcome A * WinProxy) p' Q E :
  agrees r p' → wp (λ _ : Proxy, p') Q E (posix_view r.2) → (∀ e p, ¬ E e p) →
  ∃ a, r = (Ret a, r.2) ∧ Q a (posix_view r.2).
Proof.
  destruct r as [o q], p' as [o' p']. intros [Hr Hp] Hw HE. cbn in *. subst p'. unfold wp in Hw.
  destruct o, o'; try done; subst; [by eexists|by apply HE in Hw].
Qed.

Context `{Subprocess} `{!PosixLaws} `{NlohmannJson} `{!NlohmannJsonLaws}.

(** C29: On Windows too, [call] is the remote call of the subprocess, for requests shorter than 4 GiB:
    a broken pipe is the end of the file, and the loops are those of the POSIX half. *)
Theorem win_call_refines method params q o ch' :
  in_sync (posix_view q) → 0 ≤ stdin_handle_ q → 0 ≤ stdout_handle_ q →
  (∀ ch line, one_line (serve ch line).2 = true) →
  (∀ text, json_dump (request_of method params) = Ok text →
    Z.of_nat (String.length text) + 1 < 2 ^ 32) →
  abs_call method params (lk_child (link (sys (posix_view q)))) = (o, ch') →
  ∃ N, ∀ fuel, (N ≤ fuel)%nat → ∃ q',
    win_call fuel method params q = (o, q') ∧ in_sync (posix_view q') ∧
    same_fds (posix_view q) (posix_view q') ∧ lk_child (link (sys (posix_view q'))) = ch'.
Proof.
  intros Hp Hi Ho Hsrv Hlen Habs. unfold abs_call, win_call in *.
  destruct (json_dump (request_of method params)) as [text|e] eqn:Hd.
  - exists (exchange_fuel (posix_view q) text (serve (lk_child (link (sys (posix_view q)))) text).2).
    intros fuel Hf. specialize (Hlen text eq_refl).
    pose proof (send_recv_spec fuel text _ Hp (dump_one_line _ _ Hd) (Hsrv _ _) Hf) as Hwp.
    pose proof (win_send_recv_agrees fuel (text +:+ String newline "") q Hi Ho) as Hag.
    rewrite string_length_app in Hag. cbn [String.length] in Hag. specialize (Hag ltac:(lia)).
    destruct (agrees_ret _ _ _ _ Hag Hwp) as (reply & Hr & -> & Hs & Hfd & Hc); [by intros ? ? []|].
    unfold mbind, M_bind, lift, mret, M_ret in *. rewrite Hr. eexists.
    destruct (serve (lk_child (link (sys (posix_view q)))) text) as [ch1 r]. cbn in *.
    destruct (decode_reply method r); unfold throw in *; simplify_eq; by split_and!.
  - exists 0%nat. intros fuel _. exists q.
    unfold mbind, M_bind, lift, throw in *. by simplify_eq.
Qed.
End equivalence.
