(* ===== verification/CryptoProxyLifecycle.v ===== *)
(** * CryptoProxyLifecycle: [start] and [stop] of the crypto subprocess

    Both halves of [CryptoProxy.cpp] open pipes and a process, and close them on every path.
    The laws count what the operating system has open; the theorems show that nothing is
    left behind. *)

From S2P Require Import Prelude Json CryptoProxy CryptoProxyFacts CryptoProxyWin.
Local Open Scope Z_scope.

(** ** POSIX *)

(** Open descriptors, and children that have not been waited for. *)
Class FdLaws `{PosixIo} := {
  open_fds : os → gset Z;
  children : os → gset Z;
  sigpipe_fds s :
    open_fds (os_ignore_sigpipe s) = open_fds s ∧ children (os_ignore_sigpipe s) = children s;
  pipe_fds s s' r w :
    os_pipe s = (s', inl (r, w)) →
    0 ≤ r ∧ 0 ≤ w ∧ r ≠ w ∧ (r ∉ open_fds s) ∧ (w ∉ open_fds s) ∧
    open_fds s' = {[r; w]} ∪ open_fds s ∧ children s' = children s;
  pipe_error s s' e :
    os_pipe s = (s', inr e) → open_fds s' = open_fds s ∧ children s' = children s;
  fork_child s s' a b x y pid :
    os_fork_exec s a b x y = (s', inl pid) →
    0 < pid ∧ (pid ∉ children s) ∧ children s' = {[pid]} ∪ children s ∧ open_fds s' = open_fds s;
  fork_error s s' a b x y e :
    os_fork_exec s a b x y = (s', inr e) → open_fds s' = open_fds s ∧ children s' = children s;
  close_fds s fd :
    open_fds (os_close s fd) = open_fds s ∖ {[fd]} ∧ children (os_close s fd) = children s;
  wait_child s pid :
    children (os_kill_wait s pid) = children s ∖ {[pid]} ∧
    open_fds (os_kill_wait s pid) = open_fds s;
}.

Section posix.
Context `{PosixIo} `{!FdLaws}.
Implicit Types p : Proxy.

Definition idle p : Prop := stdin_fd_ p = -1 ∧ stdout_fd_ p = -1 ∧ subprocess_pid_ p = -1.
Definition resources p : gset Z * gset Z := (open_fds (sys p), children (sys p)).

(** The proxy of a running subprocess has exactly two descriptors and one child more. *)
Record started (p0 p : Proxy) : Prop := {
  sd_in : 0 ≤ stdin_fd_ p;
  sd_out : 0 ≤ stdout_fd_ p;
  sd_pid : 0 < subprocess_pid_ p;
  sd_new : (stdin_fd_ p ∉ open_fds (sys p0)) ∧ (stdout_fd_ p ∉ open_fds (sys p0)) ∧
    (subprocess_pid_ p ∉ children (sys p0));
  sd_fds : open_fds (sys p) = {[stdin_fd_ p; stdout_fd_ p]} ∪ open_fds (sys p0);
  sd_children : children (sys p) = {[subprocess_pid_ p]} ∪ children (sys p0);
}.

Lemma wp_close fd (Q : unit → Proxy → Prop) E p :
  (∀ s, open_fds s = open_fds (sys p) ∖ {[fd]} → children s = children (sys p) →
    Q tt (set_sys s p)) → wp (close fd) Q E p.
Proof.
  intros HQ. unfold close. apply wp_on_sys. intros s [] [= <-].
  destruct (close_fds (sys p) fd). by apply HQ.
Qed.

(** [start] from the state before it. *)
Lemma start_spec script python p :
  idle p →
  wp (start script python) (λ _ p1, started p p1)
    (λ _ p1, idle p1 ∧ resources p1 = resources p) p.
Proof.
  intros (Hi & Ho & Hp). unfold start. apply wp_bind, wp_gets. rewrite Hp. cbn [Z.ltb Z.compare].
  apply wp_bind, wp_on_sys. intros s0 [] [= <-]. destruct (sigpipe_fds (sys p)) as [F0 C0].
  apply wp_bind, wp_on_sys. intros s1 [[to_r to_w]|e] Hs1; cbn [sys set_sys] in *.
  2:{ apply pipe_error in Hs1 as [F1 C1]. apply wp_throw. split; [done|].
      unfold resources. cbn. by rewrite F1, C1, F0, C0. }
  apply pipe_fds in Hs1 as (A1 & A2 & A3 & A4 & A5 & F1 & C1). rewrite F0 in *. rewrite C0 in C1.
  apply wp_bind, wp_on_sys. intros s2 [[from_r from_w]|e] Hs2; cbn [sys set_sys] in *.
  2:{ apply pipe_error in Hs2 as [F2 C2]. apply wp_bind, wp_close. intros s3 F3 C3.
      apply wp_bind, wp_close. intros s4 F4 C4. apply wp_throw. split; [done|].
      unfold resources. cbn in *. rewrite F4, F3, F2, F1, C4, C3, C2, C1. f_equal. set_solver. }
  apply pipe_fds in Hs2 as (B1 & B2 & B3 & B4 & B5 & F2 & C2). rewrite F1 in *. rewrite C1 in C2.
  apply wp_bind, wp_on_sys. intros s3 [pid|e] Hs3; cbn [sys set_sys] in *.
  - apply fork_child in Hs3 as (D1 & D2 & C3 & F3). apply wp_bind, wp_close. intros s4 F4 C4.
    apply wp_bind, wp_close. intros s5 F5 C5. apply wp_bind, wp_modify, wp_bind, wp_modify, wp_modify.
    cbn in *. rewrite F3, F2 in F4. rewrite F4 in F5. rewrite C4, C3, C2 in C5. rewrite C2 in D2.
    split; cbn; [done|done|done|set_solver| |done]. rewrite F5. set_solver.
  - apply fork_error in Hs3 as [F3 C3]. apply wp_bind, wp_close. intros s4 F4 C4.
    apply wp_bind, wp_close. intros s5 F5 C5. apply wp_bind, wp_close. intros s6 F6 C6.
    apply wp_bind, wp_close. intros s7 F7 C7. apply wp_throw. split; [done|].
    unfold resources. cbn in *. rewrite F7, F6, F5, F4, F3, F2, C7, C6, C5, C4, C3, C2.
    f_equal. set_solver.
Qed.

Lemma stop_idle p : idle p → stop p = (Ret tt, set_read_buf "" p).
Proof.
  destruct p as [i o pid buf s]. intros (Hi & Ho & Hp). cbn in *. subst. reflexivity.
Qed.

Lemma stop_started p0 p :
  started p0 p →
  ∃ p', stop p = (Ret tt, p') ∧ idle p' ∧ resources p' = resources p0 ∧ read_buf_ p' = "".
Proof.
  intros [Hi Ho Hp (N1 & N2 & N3) HF HC].
  assert (wp stop (λ _ p', idle p' ∧ resources p' = resources p0 ∧ read_buf_ p' = "") (λ _ _, False) p)
    as Hw.
  2:{ destruct (wp_returns _ _ _ Hw) as ([] & p' & ? & ?). by exists p'. }
  unfold stop. apply wp_bind, wp_gets, wp_bind, wp_when.
  rewrite (proj2 (Z.leb_le _ _) Hi). apply wp_bind, wp_close. intros s1 F1 C1.
  apply wp_modify, wp_bind, wp_gets, wp_bind, wp_when. cbn [stdout_fd_ set_sys set_stdin_fd].
  rewrite (proj2 (Z.leb_le _ _) Ho). apply wp_bind, wp_close. intros s2 F2 C2.
  apply wp_modify, wp_bind, wp_gets, wp_bind, wp_when.
  cbn [subprocess_pid_ set_sys set_stdin_fd set_stdout_fd].
  rewrite (proj2 (Z.ltb_lt _ _) Hp). apply wp_bind, wp_on_sys. intros s3 [] [= <-].
  apply wp_modify, wp_modify. cbn in *. split; [done|]. split; [|done]. unfold resources. cbn.
  destruct (wait_child s2 (subprocess_pid_ p)) as [-> ->].
  rewrite F2, F1, C2, C1, HF, HC. f_equal; set_solver.
Qed.

(** [start] either throws and has closed everything it opened, or it leaves exactly two
    descriptors and a child, which [stop] closes and reaps; stopping again does nothing. *)
Theorem start_stop_balanced script python p :
  idle p →
  wp (start script python)
    (λ _ p1, started p p1 ∧ ∃ p2, stop p1 = (Ret tt, p2) ∧ idle p2 ∧
      resources p2 = resources p ∧ stop p2 = (Ret tt, p2))
    (λ _ p1, idle p1 ∧ resources p1 = resources p) p.
Proof.
  intros Hp. eapply wp_mono; [by apply start_spec| |done]. intros [] p1 Hp1. split; [done|].
  destruct (stop_started p p1 Hp1) as (p2 & Hs & Hi & Hr & Hb). exists p2. split_and!; try done.
  rewrite (stop_idle p2 Hi). destruct p2. cbn in Hb. by subst.
Qed.
End posix.

(** ** Windows *)

(** Open handles; a process handle is one of them. *)
Class HandleLaws `{WinIo} := {
  open_handles : win → gset Z;
  create_pipe_ok s s' r w :
    CreatePipe s = (s', Some (r, w)) →
    0 < r ∧ 0 < w ∧ r ≠ w ∧ (r ∉ open_handles s) ∧ (w ∉ open_handles s) ∧
    open_handles s' = {[r; w]} ∪ open_handles s;
  create_pipe_error s s' : CreatePipe s = (s', None) → open_handles s' = open_handles s;
  no_inherit s h : open_handles (SetHandleInformation s h) = open_handles s;
  create_process_ok s s' c i o pr th :
    CreateProcessA s c i o = (s', Some (pr, th)) →
    0 < pr ∧ pr ≠ th ∧ (pr ∉ open_handles s) ∧ (th ∉ open_handles s) ∧
    open_handles s' = {[pr; th]} ∪ open_handles s;
  create_process_error s s' c i o :
    CreateProcessA s c i o = (s', None) → open_handles s' = open_handles s;
  close_handles s h : open_handles (CloseHandle s h) = open_handles s ∖ {[h]};
  terminate_handles s h : open_handles (TerminateProcess s h) = open_handles s;
}.

Section windows.
Context `{WinIo} `{!HandleLaws}.
Implicit Types p : WinProxy.

Definition win_idle p : Prop :=
  stdin_handle_ p = 0 ∧ stdout_handle_ p = 0 ∧ process_handle_ p = 0.

Record win_started (p0 p : WinProxy) : Prop := {
  ws_in : 0 < stdin_handle_ p;
  ws_out : 0 < stdout_handle_ p;
  ws_process : 0 < process_handle_ p;
  ws_new : (stdin_handle_ p ∉ open_handles (win_sys p0)) ∧
    (stdout_handle_ p ∉ open_handles (win_sys p0)) ∧ (process_handle_ p ∉ open_handles (win_sys p0));
  ws_open : open_handles (win_sys p) =
    {[stdin_handle_ p; stdout_handle_ p; process_handle_ p]} ∪ open_handles (win_sys p0);
}.

Lemma wp_on_win {A} (f : win → win * A) Q E p :
  (∀ s a, f (win_sys p) = (s, a) → Q a (set_win_sys s p)) → wp (on_win f) Q E p.
Proof. intros HQ. unfold wp, on_win. destruct (f (win_sys p)) as [s a]. by apply HQ. Qed.

Lemma wp_close_handle h (Q : unit → WinProxy → Prop) E p :
  (∀ s, open_handles s = open_handles (win_sys p) ∖ {[h]} → Q tt (set_win_sys s p)) →
  wp (close_handle h) Q E p.
Proof. intros HQ. apply wp_on_win. intros s [] [= <-]. apply HQ, close_handles. Qed.

Lemma wp_last_error {A} (k : Z → M WinProxy A) Q E p :
  (∀ e, wp (k e) Q E p) → wp (e ← last_error; k e) Q E p.
Proof. intros Hk. unfold last_error. apply wp_bind, wp_bind, wp_gets, wp_ret, Hk. Qed.

Lemma win_start_spec script python p :
  win_idle p →
  wp (win_start script python) (λ _ p1, win_started p p1)
    (λ _ p1, win_idle p1 ∧ open_handles (win_sys p1) = open_handles (win_sys p)) p.
Proof.
  intros (Hi & Ho & Hp). unfold win_start. apply wp_bind, wp_gets. rewrite Hp. cbn [Z.eqb negb].
  apply wp_bind, wp_on_win. intros s1 [[in_r in_w]|] Hs1; cbn [win_sys set_win_sys] in *.
  2:{ apply create_pipe_error in Hs1. apply wp_last_error. intros e. by apply wp_throw. }
  apply create_pipe_ok in Hs1 as (A1 & A2 & A3 & A4 & A5 & F1).
  apply wp_bind, wp_on_win. intros s2 [] [= <-]. cbn [win_sys set_win_sys].
  apply wp_bind, wp_on_win. intros s3 [[out_r out_w]|] Hs3; cbn [win_sys set_win_sys] in *.
  2:{ apply create_pipe_error in Hs3. rewrite no_inherit, F1 in Hs3.
      apply wp_bind, wp_close_handle. intros s4 F4. apply wp_bind, wp_close_handle. intros s5 F5.
      apply wp_last_error. intros e. apply wp_throw. split; [done|]. cbn in *.
      rewrite F5, F4, Hs3. set_solver. }
  apply create_pipe_ok in Hs3 as (B1 & B2 & B3 & B4 & B5 & F3). rewrite no_inherit, F1 in *.
  apply wp_bind, wp_on_win. intros s4 [] [= <-]. cbn [win_sys set_win_sys].
  apply wp_bind, wp_on_win. intros s5 proc Hs5; cbn [win_sys set_win_sys] in *.
  apply wp_bind, wp_close_handle. intros s6 F6. apply wp_bind, wp_close_handle. intros s7 F7.
  cbn [win_sys set_win_sys] in *. destruct proc as [[pr th]|].
  - apply create_process_ok in Hs5 as (D1 & D2 & D3 & D4 & F5). rewrite no_inherit, F3 in *.
    apply wp_bind, wp_close_handle. intros s8 F8. apply wp_modify. cbn in *.
    split; cbn; [done|done|done|set_solver|]. rewrite F8, F7, F6, F5. set_solver.
  - apply create_process_error in Hs5. rewrite no_inherit, F3 in Hs5.
    apply wp_bind, wp_close_handle. intros s8 F8. apply wp_bind, wp_close_handle. intros s9 F9.
    apply wp_last_error. intros e. apply wp_throw. split; [done|]. cbn in *.
    rewrite F9, F8, F7, F6, Hs5. set_solver.
Qed.

(** The same on Windows: every handle [start] opens is closed by [start] itself when it
    throws, and by [stop] otherwise. *)
Theorem win_start_stop_balanced script python p :
  win_idle p →
  wp (win_start script python)
    (λ _ p1, win_started p p1 ∧ ∃ p2, win_stop p1 = (Ret tt, p2) ∧ win_idle p2 ∧
      open_handles (win_sys p2) = open_handles (win_sys p))
    (λ _ p1, win_idle p1 ∧ open_handles (win_sys p1) = open_handles (win_sys p)) p.
Proof.
  intros Hp. eapply wp_mono; [by apply win_start_spec| |done]. intros [] p1 Hp1. split; [done|].
  destruct Hp1 as [Hi Ho Hpr (N1 & N2 & N3) HF].
  assert (∀ z, 0 < z → negb (z =? 0) = true) as Hnz.
  { intros z Hz. apply negb_true_iff, Z.eqb_neq. lia. }
  assert (wp win_stop (λ _ p2, win_idle p2 ∧ open_handles (win_sys p2) = open_handles (win_sys p))
    (λ _ _, False) p1) as Hw.
  2:{ destruct (wp_returns _ _ _ Hw) as ([] & p2 & ? & ?). by exists p2. }
  unfold win_stop. apply wp_bind, wp_gets, wp_bind, wp_when. unfold id. rewrite (Hnz _ Hi).
  apply wp_bind, wp_close_handle. intros s1 F1. apply wp_modify, wp_bind, wp_gets, wp_bind, wp_when.
  cbn [stdout_handle_ set_win_sys set_handles]. rewrite (Hnz _ Ho). apply wp_bind, wp_close_handle. intros s2 F2.
  apply wp_modify, wp_bind, wp_gets, wp_bind, wp_when.
  cbn [process_handle_ set_win_sys set_handles]. rewrite (Hnz _ Hpr).
  apply wp_bind, wp_on_win. intros s3 [] [= <-]. apply wp_bind, wp_close_handle. intros s4 F4.
  apply wp_modify, wp_modify. split; [done|]. cbn in *.
  rewrite F4, terminate_handles, F2, F1, HF. set_solver.
Qed.
End windows.
