(* ===== verification/RefCrypto.v ===== *)
(** * RefCrypto: a reference subprocess and a reference operating system

    A subprocess that speaks the protocol of [subprocess_handler.py] with toy
    cryptography (the identity), behind pipes that take five bytes per write,
    give seven bytes per read and interrupt calls with signals.  It makes the
    client's definitions computable and shows that the laws can be met. *)

From S2P Require Import Prelude Json RefJson Codec CryptoProxy CryptoProxyFacts.
Local Open Scope Z_scope.

(** ** The subprocess *)

(** Calls served so far, and the data encryption key in memory. *)
Record RefChild : Type := mkRefChild {
  rc_count : Z;
  rc_dek : option string;
}.

Section handler.
Let str (s : string) : tree := t_str s.
Let obj (kvs : list (string * tree)) : tree := t_obj kvs.

Definition ref_require_dek (ch : RefChild) : result string :=
  match rc_dek ch with
  | Some dek => Ok dek
  | None => Err "No active session — call unlock_dek or create_dek first"
  end.

(** The answer to a method, or the text of an error.  The key is the PIN, and a
    ciphertext carries it as its nonce. *)
Definition ref_method (ch : RefChild) (method : string) (params : tree) : result tree :=
  let p k := t_at params k in
  let counter := obj [("n", t_int (rc_count ch))] in
  let state := dek ← ref_require_dek ch; st ← p "encrypted_state";
               if t_is_obj st then Ok st else Err "malformed state" in
  match method with
  | "create_dek" => pin ← p "pin"; Ok (obj [("encrypted_dek", obj [("pin", pin)])])
  | "unlock_dek" =>
    pin ← p "pin"; dek ← p "encrypted_dek"; right_pin ← t_at dek "pin";
    if bool_decide (pin = right_pin) then Ok (obj []) else Err "wrong PIN"
  | "create_state" => dek ← ref_require_dek ch; Ok (obj [("encrypted_state", counter)])
  | "get_bundle" =>
    st ← state;
    Ok (obj [("bundle", obj [("identity_key", str "ik"); ("signed_pre_key", str "spk");
               ("signed_pre_key_sig", str "sig"); ("pre_keys", t_arr [str "otk"])]);
             ("encrypted_state", st)])
  | "get_shared_secret_active" =>
    st ← state;
    Ok (obj [("encrypted_state", st); ("shared_secret", str "ss");
             ("bob_initial_ratchet_pub", str "rp"); ("associated_data", str "ad");
             ("header", obj [("identity_key", str "ik")])])
  | "get_shared_secret_passive" =>
    st ← state;
    Ok (obj [("encrypted_state", st); ("shared_secret", str "ss");
             ("own_ratchet_priv", str "rk"); ("associated_data", str "ad")])
  | "encrypt_initial_message" | "encrypt_message" =>
    m ← p "message"; Ok (obj [("ratchet_state", counter); ("encrypted_message", m)])
  | "decrypt_initial_message" | "decrypt_message" =>
    m ← p "encrypted_message"; text ← t_get_string m;
    Ok (obj [("ratchet_state", counter); ("plaintext", str text)])
  | "encrypt_with_dek" =>
    dek ← ref_require_dek ch; m ← p "plaintext"; Ok (obj [("nonce", str dek); ("ciphertext", m)])
  | "decrypt_with_dek" =>
    dek ← ref_require_dek ch; n ← p "nonce"; c ← p "ciphertext";
    if bool_decide (n = str dek) then Ok (obj [("plaintext", c)]) else Err "InvalidTag"
  | _ => Err "unknown method"
  end.

(** The key once the method has been answered. *)
Definition ref_dek (ch : RefChild) (method : string) (params : tree) : option string :=
  match method, (pin ← t_at params "pin"; t_get_string pin) with
  | "create_dek", Ok pin => Some pin
  | "unlock_dek", Ok pin =>
    match ref_method ch method params with Ok _ => Some pin | Err _ => rc_dek ch end
  | _, _ => rc_dek ch
  end.

Definition ref_reply (answer : result tree) : string :=
  t_dump (match answer with
          | Ok v => obj [("result", v)]
          | Err e => obj [("error", str e)]
          end).

Definition ref_serve (ch : RefChild) (line : string) : RefChild * string :=
  match (request ← t_parse line;
         method ← t_at request "method"; method ← t_get_string method;
         params ← t_at request "params"; Ok (method, params)) with
  | Ok (method, params) =>
    (mkRefChild (rc_count ch + 1) (ref_dek ch method params),
     ref_reply (ref_method ch method params))
  | Err e => (ch, ref_reply (Err e))
  end.
End handler.

#[global] Instance ref_subprocess : Subprocess := {| child := RefChild; serve := ref_serve |}.

Lemma ref_decode_reply method (answer : result tree) :
  decode_reply method (ref_reply answer) =
  match answer with
  | Ok v => Ok v
  | Err e => Err ("CryptoProxy: subprocess error for method '" +:+ method +:+ "': " +:+ e)
  end.
Proof.
  unfold decode_reply, ref_reply. change (json_parse (NlohmannJson := ref_json)) with t_parse.
  rewrite t_parse_dump. by destruct answer.
Qed.

Lemma ref_serve_request ch method params :
  ref_serve ch (t_dump (t_obj [("method", t_str method); ("params", params)])) =
  (mkRefChild (rc_count ch + 1) (ref_dek ch method params),
   ref_reply (ref_method ch method params)).
Proof. unfold ref_serve. by rewrite t_parse_dump. Qed.

(** A call of the reference subprocess. *)
Lemma ref_abs_call method params ch :
  abs_call method params ch =
  (match ref_method ch method params with
   | Ok v => Ret v
   | Err e => Exn ("CryptoProxy: subprocess error for method '" +:+ method +:+ "': " +:+ e)
   end, mkRefChild (rc_count ch + 1) (ref_dek ch method params)).
Proof.
  unfold abs_call, mbind, M_bind. cbn [json_dump ref_json lift mret M_ret].
  change (serve ch _) with
    (ref_serve ch (t_dump (t_obj [("method", t_str method); ("params", params)]))).
  rewrite ref_serve_request, ref_decode_reply. by destruct (ref_method ch method params).
Qed.

(** Without a state there is no key agreement. *)
Lemma ref_null_state ch (st h : json) :
  json_is_null st = true →
  ∃ e ch', get_shared_secret_passive abs_call st h ch = (Exn e, ch').
Proof.
  intros Hst. unfold get_shared_secret_passive. rewrite ref_abs_call.
  destruct st as [|[] []]; try done. cbn. destruct (ref_require_dek ch); eauto.
Qed.

(** The storage cipher of the reference subprocess. *)
#[global] Instance ref_storage_cipher : StorageCipher :=
  {| dek := string; dek_of := rc_dek |}.

Lemma ref_decrypt_storage ch d p :
  rc_dek ch = Some d →
  decrypt_from_storage abs_call (json_of_object [("nonce", json_of_string d); ("ciphertext", json_of_string p)]) ch
  = (Ret (json_of_object [("plaintext", json_of_string p)]), mkRefChild (rc_count ch + 1) (Some d)).
Proof.
  intros Hd. unfold decrypt_from_storage, mbind, M_bind, lift.
  assert (∀ x y : json, json_at (json_of_object [("nonce", x); ("ciphertext", y)]) "nonce" = Ok x ∧
    json_at (json_of_object [("nonce", x); ("ciphertext", y)]) "ciphertext" = Ok y) as Hat by done.
  destruct (Hat (json_of_string d) (json_of_string p)) as [E1 E2]. rewrite E1, E2.
  cbn [mret M_ret]. rewrite ref_abs_call. unfold ref_method, ref_dek, ref_require_dek. rewrite Hd.
  change t_at with (json_at (NlohmannJson := ref_json)). rewrite E1, E2.
  cbn [mbind result_bind]. by rewrite bool_decide_true by done.
Qed.

Lemma ref_encrypt_storage ch p :
  encrypt_for_storage abs_call p ch =
  match rc_dek ch with
  | Some d => (Ret (json_of_object [("nonce", json_of_string d); ("ciphertext", json_of_string p)]),
               mkRefChild (rc_count ch + 1) (Some d))
  | None => encrypt_for_storage abs_call p ch
  end.
Proof.
  destruct (rc_dek ch) as [d|] eqn:Hd; [|done].
  unfold encrypt_for_storage. rewrite ref_abs_call. unfold ref_method, ref_require_dek, ref_dek.
  rewrite Hd.
  assert (t_at (json_of_object [("plaintext", json_of_string p)]) "plaintext" = Ok (json_of_string p))
    as -> by done. done.
Qed.

#[global] Instance ref_storage_cipher_laws `{EvpCodec} : StorageCipherLaws.
Proof.
  split.
  2:{ intros text ch [d Hd]. rewrite ref_encrypt_storage. cbn [dek_of ref_storage_cipher] in Hd.
      rewrite Hd. by do 2 eexists. }
  intros text ch r ch'. set (p := b64_encode text). unfold encrypt_for_storage.
  rewrite ref_abs_call. unfold ref_method, ref_require_dek.
  destruct (rc_dek ch) as [d|] eqn:Hd; [|done].
  assert (t_at (json_of_object [("plaintext", json_of_string p)]) "plaintext" = Ok (json_of_string p))
    as -> by done.
  cbn [mbind result_bind]. intros Heq. injection Heq as <- <-. split; [done|].
  exists d, p. split; [done|]. intros ch2 Hd2. cbn [dek_of ref_storage_cipher] in Hd2.
  rewrite Hd in Hd2. exists (mkRefChild (rc_count ch2 + 1) (Some d)).
  split; [by apply ref_decrypt_storage|]. cbn. congruence.
Qed.

Lemma ref_serve_one_line ch line : one_line (serve ch line).2 = true.
Proof.
  cbn. unfold ref_serve, ref_reply. case_match; [case_match|];
    exact (dump_one_line (J := ref_json) _ _ eq_refl).
Qed.

(** ** The operating system *)

Record ref_os : Type := mkRefOs {
  ro_link : Link;
  ro_signals : nat;
  ro_running : bool;
}.

Definition ro_interrupt (s : ref_os) : ref_os :=
  mkRefOs (ro_link s) (pred (ro_signals s)) (ro_running s).

#[global] Instance ref_posix : PosixIo := {|
  os := ref_os;
  os_ignore_sigpipe s := s;
  os_pipe s := (s, if ro_running s then inl (5, 6) else inl (3, 4));
  os_fork_exec s _ _ _ _ := (mkRefOs (mkLink (mkRefChild 0 None) "" "") (ro_signals s) true, inl 100);
  os_close s _ := s;
  os_write s fd d :=
    if Nat.eqb (ro_signals s) 0 then
      let k := min 5 (String.length d) in
      (mkRefOs (feed (ro_link s) (String.substring 0 k d)) 0 (ro_running s), inl k)
    else (ro_interrupt s, inr EINTR);
  os_read s fd n :=
    if Nat.eqb (ro_signals s) 0 then
      let u := lk_unread (ro_link s) in
      let k := min (min n 7) (String.length u) in
      (mkRefOs (mkLink (lk_child (ro_link s)) (lk_partial (ro_link s))
                  (String.substring k (String.length u - k) u)) 0 (ro_running s),
       inl (String.substring 0 k u))
    else (ro_interrupt s, inr EINTR);
  os_kill_wait s _ := mkRefOs (ro_link s) (ro_signals s) false;
|}.

Lemma pair_inl_inj {A B C} (a a' : A) (b b' : B) :
  (a, @inl B C b) = (a', inl b') → a = a' ∧ b = b'.
Proof. intros Heq. split; congruence. Qed.

#[global, refine] Instance ref_posix_laws : PosixLaws := {|
  wired s i o := True;
  link := ro_link;
  signals := ro_signals;
|}.
Proof.
  all: cbn -[Nat.min]; unfold ro_interrupt; cbn -[Nat.min].
  - intros s i o d s' k _ Hd. destruct (Nat.eqb_spec (ro_signals s) 0); [|done].
    intros Heq. destruct (pair_inl_inj _ _ _ _ Heq) as [<- <-].
    cbn -[Nat.min]. destruct d as [|c d]; [done|]. cbn [String.length].
    split_and!; [lia|lia|done|done|lia].
  - intros s i o d s' _. destruct (Nat.eqb_spec (ro_signals s) 0); [done|].
    intros [= <-]. cbn. split_and!; [done|done|lia].
  - intros s i o d s' e _. by destruct (Nat.eqb (ro_signals s) 0).
  - intros s i o n s' bs _ Hn. destruct (Nat.eqb_spec (ro_signals s) 0); [|done].
    intros Heq. destruct (pair_inl_inj _ _ _ _ Heq) as [<- <-].
    cbn -[Nat.min]. split_and!; try done; [apply substring_split; lia| |lia].
    destruct (lk_unread (ro_link s)) as [|c u]; [done|]. intros _. cbn.
    by destruct n as [|[|n]]; [lia|..].
  - intros s i o n s' _. destruct (Nat.eqb_spec (ro_signals s) 0); [done|].
    intros [= <-]. cbn. split_and!; [done|done|lia].
  - intros s i o n s' e _. by destruct (Nat.eqb (ro_signals s) 0).
Defined.

(** A started proxy whose calls are interrupted three times. *)
Definition ref_proxy : Proxy :=
  (start "subprocess_handler.py" "python3" (new_proxy (mkRefOs (mkLink (mkRefChild 0 None) "" "") 3 false))).2.

(** A call whose result is an error of the subprocess. *)
Lemma call_refines_witness :
  ∃ N, ∀ fuel, (N ≤ fuel)%nat → ∃ p',
    call fuel "frobnicate" (json_of_object []) ref_proxy
    = (Exn "CryptoProxy: subprocess error for method 'frobnicate': unknown method", p') ∧
    in_sync p' ∧ same_fds ref_proxy p' ∧ lk_child (link (sys p')) = mkRefChild 1 None.
Proof.
  apply (call_refines "frobnicate" (json_of_object []) ref_proxy).
  - split_and!; try done.
  - apply ref_serve_one_line.
  - vm_compute. reflexivity.
Defined.
