(* ===== verification/RefRatchet.v ===== *)
(** * RefRatchet: the reference subprocess keeps the promises of a session

    The toy cryptography of [RefCrypto] encrypts by doing nothing; the queue of messages
    on their way is then the queue of their Base64 texts. *)

From S2P Require Import Prelude Json RefJson Codec CryptoProxy CryptoProxyFacts Ratchet RefCrypto.
Local Open Scope Z_scope.

Definition ref_header : tree := t_obj [("identity_key", t_str "ik")].

#[global] Instance ref_ratchet `{EvpCodec} : Ratchet := {|
  in_flight a q r ad :=
    Forall (λ e : tree * string, e.1 = t_str (b64_encode e.2)) q ∧
    match r with
    | Invited st h => t_is_obj st = true ∧ h = ref_header ∧ ad = "ad"
    | Joined _ => True
    end;
  published st _ := t_is_obj st = true;
|}.

Section laws.
Context `{EvpCodec}.

Lemma ref_sends a m ad ch enc ch' :
  encrypt_message abs_call a m ad ch = (Ret enc, ch') →
  enc = t_obj [("ratchet_state", t_obj [("n", t_int (rc_count ch))]); ("encrypted_message", t_str m)].
Proof.
  unfold encrypt_message. rewrite ref_abs_call. intros Heq. cbn in Heq. by injection Heq as <- _.
Qed.

Lemma ref_invites s rp m ad ch enc ch' :
  encrypt_initial_message abs_call s rp m ad ch = (Ret enc, ch') →
  enc = t_obj [("ratchet_state", t_obj [("n", t_int (rc_count ch))]); ("encrypted_message", t_str m)].
Proof.
  unfold encrypt_initial_message. rewrite ref_abs_call. intros Heq. cbn in Heq. by injection Heq as <- _.
Qed.

Lemma ref_active own bundle ch ss ch' :
  get_shared_secret_active abs_call own bundle ch = (Ret ss, ch') →
  json_at ss "header" = Ok ref_header ∧ member_string ss "associated_data" = Ok "ad".
Proof.
  unfold get_shared_secret_active. rewrite ref_abs_call. unfold ref_method.
  assert (t_at (json_of_object [("encrypted_state", own); ("bob_bundle", bundle)]) "encrypted_state"
    = Ok own) as -> by done.
  destruct (ref_require_dek ch); cbn [mbind result_bind]; [|intros Heq; discriminate (f_equal fst Heq)].
  destruct (t_is_obj own); cbn [mbind result_bind]; [|intros Heq; discriminate (f_equal fst Heq)].
  intros Heq. by injection Heq as <- _.
Qed.

Lemma ref_receives b m ad ch :
  decrypt_message abs_call b (t_str m) ad ch =
  (Ret (t_obj [("ratchet_state", t_obj [("n", t_int (rc_count ch))]); ("plaintext", t_str m)]),
   mkRefChild (rc_count ch + 1) (rc_dek ch)).
Proof. unfold decrypt_message. by rewrite ref_abs_call. Qed.

Lemma ref_receives_initial s p m ad ch :
  decrypt_initial_message abs_call s p (t_str m) ad ch =
  (Ret (t_obj [("ratchet_state", t_obj [("n", t_int (rc_count ch))]); ("plaintext", t_str m)]),
   mkRefChild (rc_count ch + 1) (rc_dek ch)).
Proof. unfold decrypt_initial_message. by rewrite ref_abs_call. Qed.

Lemma ref_passive (st h : json) ch d :
  rc_dek ch = Some d → t_is_obj st = true →
  get_shared_secret_passive abs_call st h ch =
  (Ret (t_obj [("encrypted_state", st); ("shared_secret", t_str "ss");
               ("own_ratchet_priv", t_str "rk"); ("associated_data", t_str "ad")]),
   mkRefChild (rc_count ch + 1) (Some d)).
Proof.
  intros Hd Hst. unfold get_shared_secret_passive. rewrite ref_abs_call.
  assert (ref_dek ch "get_shared_secret_passive"
    (json_of_object [("encrypted_state", st); ("header", h)]) = rc_dek ch) as -> by done.
  rewrite Hd. unfold ref_method, ref_require_dek. rewrite Hd.
  assert (t_at (json_of_object [("encrypted_state", st); ("header", h)]) "encrypted_state"
    = Ok st) as -> by done.
  cbn [mbind result_bind]. by rewrite Hst.
Qed.

#[global] Instance ref_ratchet_laws : RatchetLaws.
Proof.
  split.
  - intros a q r ad text ch _. unfold encrypt_message. rewrite ref_abs_call. by do 2 eexists.
  - intros a q r ad text ch enc ch' [Hq Hr] ->%ref_sends. do 2 eexists. split; [reflexivity|].
    split; [reflexivity|]. split; [|done]. apply Forall_app. split; [done|]. by constructor.
  - by intros b q a ad text ch enc ch' a' [Hq _] _ _.
  - intros a em text q b ad ch [[Hem Hq]%Forall_cons _]. cbn in Hem. rewrite Hem, ref_receives.
    do 3 eexists. split; [reflexivity|]. split; [done|]. split; [reflexivity|]. by split_and!.
  - by intros a q b ad em text q' ch dec ch' a' [Hq _] _ _ _.
  - intros st bundle own ch ss ch1 secret rp ad text ch2 enc ch3 Hpub [Hh Had]%ref_active _ _ Had'
      ->%ref_invites. exists ref_header. do 2 eexists. split; [done|]. split; [reflexivity|].
    split; [reflexivity|]. split; [by constructor|]. split_and!; [done|done|]. congruence.
  - intros a em text q st h ad ch [[Hem Hq]%Forall_cons (Hst & -> & ->)] [d Hd]. cbn in Hem, Hd.
    split; [done|]. split; [by exists "ik"|]. rewrite (ref_passive _ _ _ _ Hd Hst), Hem.
    do 5 eexists. split; [reflexivity|]. split; [by symmetry|]. split; [reflexivity|].
    split; [done|]. split; [reflexivity|]. split; [reflexivity|]. split; [reflexivity|].
    intros ch2. rewrite ref_receives_initial. do 3 eexists. split; [reflexivity|]. split; [done|].
    split; [reflexivity|]. by split_and!.
Qed.
End laws.
