(* ===== verification/RefProcess.v ===== *)
(** * RefProcess: reference process tables

    An operating system that hands out descriptors (handles) above those in use, and a
    Windows pipe to the reference subprocess: the theorems about starting, stopping
    and calling the subprocess at concrete states. *)

From S2P Require Import Prelude Json RefJson CryptoProxy CryptoProxyFacts CryptoProxyWin.
From S2P Require Import CryptoProxyLifecycle RefCrypto.
Local Open Scope Z_scope.

(** The first number above those in use. *)
Definition above (X : gset Z) : Z := 1 + set_fold Z.max 0 X.

Lemma above_fresh X : 0 < above X ∧ ∀ x, x ∈ X → x < above X.
Proof.
  unfold above. cut (0 ≤ set_fold Z.max 0 X ∧ ∀ x, x ∈ X → x ≤ set_fold Z.max 0 X).
  { intros [H0 Hx]. split; [lia|]. intros x ?%Hx. lia. }
  apply (set_fold_ind_L (λ r Y, 0 ≤ r ∧ ∀ x, x ∈ Y → x ≤ r)).
  - split; [lia|]. set_solver.
  - intros x Y r Hx [Hr IH]. split; [lia|]. intros y [->%elem_of_singleton|Hy]%elem_of_union; [lia|].
    specialize (IH y Hy). lia.
Qed.

Lemma above_two X :
  let r := above X in let w := r + 1 in
  0 < r ∧ 0 < w ∧ r ≠ w ∧ (r ∉ X) ∧ (w ∉ X).
Proof.
  destruct (above_fresh X) as [H0 Hx]. cbn. split_and!; [lia|lia|lia|..]; intros Hin%Hx; lia.
Qed.

(** ** POSIX *)

Definition ref_fds : PosixIo := {|
  os := gset Z * gset Z;
  os_ignore_sigpipe s := s;
  os_pipe s := (({[above s.1; above s.1 + 1]} ∪ s.1, s.2), inl (above s.1, above s.1 + 1));
  os_fork_exec s _ _ _ _ := ((s.1, {[above s.2]} ∪ s.2), inl (above s.2));
  os_close s fd := (s.1 ∖ {[fd]}, s.2);
  os_write s _ d := (s, inl (String.length d));
  os_read s _ _ := (s, inl "");
  os_kill_wait s pid := (s.1, s.2 ∖ {[pid]});
|}.

#[refine] Instance ref_fd_laws : @FdLaws ref_fds := {|
  open_fds := fst : @os ref_fds → gset Z;
  children := snd : @os ref_fds → gset Z;
|}.
Proof.
  all: cbn -[above union difference].
  - done.
  - intros s s' r w [= <- <- <-]. destruct (above_two s.1) as (? & ? & ? & ? & ?).
    split_and!; try done; lia.
  - done.
  - intros s s' _ _ _ _ pid [= <- <-]. destruct (above_two s.2) as (? & ? & ? & ? & ?). by split_and!.
  - done.
  - done.
  - done.
Defined.

(** Standard input, output and error are open. *)
Definition ref_idle : @Proxy ref_fds := @new_proxy ref_fds ({[0; 1; 2]}, ∅).

Lemma start_stop_balanced_witness :
  stdin_fd_ (start "subprocess_handler.py" "python3" ref_idle).2 = 4 ∧
  wp (start "subprocess_handler.py" "python3")
    (λ _ p1, started ref_idle p1 ∧ ∃ p2, stop p1 = (Ret tt, p2) ∧ idle p2 ∧
      resources p2 = resources ref_idle ∧ stop p2 = (Ret tt, p2))
    (λ _ p1, idle p1 ∧ resources p1 = resources ref_idle) ref_idle.
Proof.
  split; [vm_compute; reflexivity|]. apply (start_stop_balanced (H := ref_fds)). by split_and!.
Defined.

(** ** Windows *)

(** The open handles, and the subprocess behind the pipes. *)
Definition ref_win : WinIo := {|
  win := gset Z * Link;
  CreatePipe s :=
    (({[above s.1; above s.1 + 1]} ∪ s.1, s.2), Some (above s.1, above s.1 + 1));
  SetHandleInformation s _ := s;
  CreateProcessA s _ _ _ :=
    (({[above s.1; above s.1 + 1]} ∪ s.1, mkLink (mkRefChild 0 None) "" ""),
     Some (above s.1, above s.1 + 1));
  CloseHandle s h := (s.1 ∖ {[h]}, s.2);
  WriteFile s _ d :=
    let k := min 5 (String.length d) in
    ((s.1, feed s.2 (String.substring 0 k d)), Some k);
  ReadFile s _ n :=
    let u := lk_unread s.2 in
    let k := min (min n 7) (String.length u) in
    ((s.1, mkLink (lk_child s.2) (lk_partial s.2) (String.substring k (String.length u - k) u)),
     Some (String.substring 0 k u));
  GetLastError _ := 0;
  TerminateProcess s _ := s;
|}.

#[local, refine] Instance ref_handle_laws : @HandleLaws ref_win := {|
  open_handles := fst : @win ref_win → gset Z;
|}.
Proof.
  all: cbn -[above union difference].
  - intros s s' r w [= <- <- <-]. destruct (above_two s.1) as (? & ? & ? & ? & ?).
    by split_and!.
  - done.
  - done.
  - intros s s' c i o pr th [= <- <- <-]. destruct (above_two s.1) as (? & ? & ? & ? & ?).
    by split_and!.
  - done.
  - done.
  - done.
Defined.

Definition ref_win_idle : @WinProxy ref_win :=
  @new_win_proxy ref_win (∅, mkLink (mkRefChild 0 None) "" "").

Lemma win_start_stop_balanced_witness :
  wp (win_start "subprocess_handler.py" "python")
    (λ _ p1, win_started ref_win_idle p1 ∧ ∃ p2, win_stop p1 = (Ret tt, p2) ∧ win_idle p2 ∧
      open_handles (win_sys p2) = open_handles (win_sys ref_win_idle))
    (λ _ p1, win_idle p1 ∧ open_handles (win_sys p1) = open_handles (win_sys ref_win_idle))
    ref_win_idle.
Proof. apply (win_start_stop_balanced (H := ref_win)). by split_and!. Defined.

#[local, refine] Instance ref_win_pipe_laws : @PosixLaws (@posix_of_win ref_win) ref_subprocess := {|
  wired := λ _ _ _, True;
  link := snd : @os (@posix_of_win ref_win) → Link;
  signals := λ _, O;
|}.
Proof.
  all: cbn -[Nat.min].
  - intros s i o d s' k _ Hd Heq. destruct (pair_inl_inj _ _ _ _ Heq) as [<- <-]. cbn -[Nat.min]. destruct d as [|c d]; [done|].
    cbn [String.length]. split_and!; [lia|lia|done|done|lia].
  - done.
  - done.
  - intros s i o n s' bs _ Hn Heq. destruct (pair_inl_inj _ _ _ _ Heq) as [<- <-].
    cbn -[Nat.min]. split_and!; try done; [apply substring_split; lia|].
    destruct (lk_unread s.2) as [|c u]; [done|]. intros _. cbn.
    by destruct n as [|[|n]]; [lia|..].
  - done.
  - done.
Defined.

Definition ref_win_proxy : @WinProxy ref_win :=
  (@win_start ref_win "subprocess_handler.py" "python" ref_win_idle).2.

Lemma win_call_refines_witness :
  ∃ N, ∀ fuel, (N ≤ fuel)%nat → ∃ q',
    @win_call ref_win ref_json fuel "frobnicate" (json_of_object []) ref_win_proxy
    = (Exn "CryptoProxy: subprocess error for method 'frobnicate': unknown method", q') ∧
    lk_child (win_sys q').2 = mkRefChild 1 None.
Proof.
  destruct (@win_call_refines ref_win ref_subprocess ref_win_pipe_laws ref_json _ "frobnicate"
    (json_of_object []) ref_win_proxy
    (Exn "CryptoProxy: subprocess error for method 'frobnicate': unknown method") (mkRefChild 1 None))
    as [N HN].
  - split_and!; try done; vm_compute; discriminate.
  - vm_compute. discriminate.
  - vm_compute. discriminate.
  - apply ref_serve_one_line.
  - intros text Ht. vm_compute in Ht. injection Ht as <-. vm_compute. reflexivity.
  - vm_compute. reflexivity.
  - exists N. intros fuel Hf. destruct (HN fuel Hf) as (q' & Hc & _ & _ & Hl). by exists q'.
Defined.
