(* ===== verification/App.v ===== *)
(** * App: [client/src/ui/App.{h,cpp}]

    The terminal UI: its state, the updates other threads marshal onto its event
    loop, the lockout countdown, the buttons and key bindings ([AppView] has the
    screens).  FTXUI is third-party code; of it the model keeps what the program
    relies on: [Post] appends a task to a queue the event loop runs in
    order, and events reach the handlers one at a time. *)

From S2P Require Import Prelude Message Conversation.
Local Open Scope Z_scope.

(** ** State *)

(** The closures handed to [ScreenInteractive::Post], as data.  [T_run_on_ui] is the
    one closure the client marshals: [Client::abort_login_session]. *)
Inductive UiTask : Type :=
| T_status (msg : string)
| T_push_message (msg : Message)
| T_push_sent_message (msg : Message)
| T_update_body (id : Z) (new_body : string)
| T_update_body_by_mid (mid new_body : string)
| T_mark_deleted (id : Z)
| T_mark_deleted_by_mid (mid : string)
| T_remove_message (id : Z)
| T_advance_to_chat (username : string)
| T_return_to_login
| T_remove_conversation (peer : string)
| T_run_on_ui.

Inductive LockoutThread : Type := NotJoinable | Counting | Finished.

#[global] Instance UiTask_eq_dec : EqDecision UiTask.
Proof. solve_decision. Defined.
#[global] Instance LockoutThread_eq_dec : EqDecision LockoutThread.
Proof. solve_decision. Defined.

Record App : Type := mkApp {
  status_msg_ : string;
  active_screen_ : Z;
  local_username_ : string;
  login_username_ : string;
  login_password_ : string;
  login_key_pin_ : string;
  screen_ptr_ : bool;
  connected_ : bool;
  lockout_active_ : bool;
  lockout_remaining_ : Z;
  lockout_quit_ : bool;
  lockout_thread_ : LockoutThread;
  conversations_ : list Conversation;
  conv_names_ : list string;
  selected_conv_ : Z;
  compose_text_ : string;
  new_peer_ : string;
  selected_msg_ : Z;
  msg_options_open_ : bool;
  editing_msg_ : bool;
  editing_msg_id_ : Z;
  forwarding_msg_ : bool;
  forwarding_body_ : string;
  posted : list UiTask;
}.

(** [App::App] *)
Definition new_app : App :=
  mkApp "" 0 "" "" "" "" false false false 0 false NotJoinable [] [] 0 "" "" (-1)
    false false 0 false "" [].

(** Assignments to groups of members. *)
Definition set_status (m : string) (a : App) : App :=
  mkApp m (active_screen_ a) (local_username_ a) (login_username_ a) (login_password_ a)
    (login_key_pin_ a) (screen_ptr_ a) (connected_ a) (lockout_active_ a) (lockout_remaining_ a)
    (lockout_quit_ a) (lockout_thread_ a) (conversations_ a) (conv_names_ a) (selected_conv_ a)
    (compose_text_ a) (new_peer_ a) (selected_msg_ a) (msg_options_open_ a) (editing_msg_ a)
    (editing_msg_id_ a) (forwarding_msg_ a) (forwarding_body_ a) (posted a).
Definition set_screen (s : Z) (user : string) (a : App) : App :=
  mkApp (status_msg_ a) s user (login_username_ a) (login_password_ a)
    (login_key_pin_ a) (screen_ptr_ a) (connected_ a) (lockout_active_ a) (lockout_remaining_ a)
    (lockout_quit_ a) (lockout_thread_ a) (conversations_ a) (conv_names_ a) (selected_conv_ a)
    (compose_text_ a) (new_peer_ a) (selected_msg_ a) (msg_options_open_ a) (editing_msg_ a)
    (editing_msg_id_ a) (forwarding_msg_ a) (forwarding_body_ a) (posted a).
Definition set_login (u p k : string) (a : App) : App :=
  mkApp (status_msg_ a) (active_screen_ a) (local_username_ a) u p k
    (screen_ptr_ a) (connected_ a) (lockout_active_ a) (lockout_remaining_ a)
    (lockout_quit_ a) (lockout_thread_ a) (conversations_ a) (conv_names_ a) (selected_conv_ a)
    (compose_text_ a) (new_peer_ a) (selected_msg_ a) (msg_options_open_ a) (editing_msg_ a)
    (editing_msg_id_ a) (forwarding_msg_ a) (forwarding_body_ a) (posted a).
Definition set_screen_ptr (b : bool) (a : App) : App :=
  mkApp (status_msg_ a) (active_screen_ a) (local_username_ a) (login_username_ a)
    (login_password_ a) (login_key_pin_ a) b (connected_ a) (lockout_active_ a)
    (lockout_remaining_ a)
    (lockout_quit_ a) (lockout_thread_ a) (conversations_ a) (conv_names_ a) (selected_conv_ a)
    (compose_text_ a) (new_peer_ a) (selected_msg_ a) (msg_options_open_ a) (editing_msg_ a)
    (editing_msg_id_ a) (forwarding_msg_ a) (forwarding_body_ a) (posted a).
Definition set_connected (b : bool) (a : App) : App :=
  mkApp (status_msg_ a) (active_screen_ a) (local_username_ a) (login_username_ a)
    (login_password_ a) (login_key_pin_ a) (screen_ptr_ a) b (lockout_active_ a)
    (lockout_remaining_ a)
    (lockout_quit_ a) (lockout_thread_ a) (conversations_ a) (conv_names_ a) (selected_conv_ a)
    (compose_text_ a) (new_peer_ a) (selected_msg_ a) (msg_options_open_ a) (editing_msg_ a)
    (editing_msg_id_ a) (forwarding_msg_ a) (forwarding_body_ a) (posted a).
Definition set_lockout (active : bool) (remaining : Z) (quit : bool) (th : LockoutThread)
    (a : App) : App :=
  mkApp (status_msg_ a) (active_screen_ a) (local_username_ a) (login_username_ a)
    (login_password_ a) (login_key_pin_ a) (screen_ptr_ a) (connected_ a) active remaining
    quit th (conversations_ a) (conv_names_ a) (selected_conv_ a)
    (compose_text_ a) (new_peer_ a) (selected_msg_ a) (msg_options_open_ a) (editing_msg_ a)
    (editing_msg_id_ a) (forwarding_msg_ a) (forwarding_body_ a) (posted a).
Definition set_convs (convs : list Conversation) (names : list string) (sel : Z) (a : App) : App :=
  mkApp (status_msg_ a) (active_screen_ a) (local_username_ a) (login_username_ a)
    (login_password_ a) (login_key_pin_ a) (screen_ptr_ a) (connected_ a) (lockout_active_ a)
    (lockout_remaining_ a) (lockout_quit_ a) (lockout_thread_ a) convs names sel
    (compose_text_ a) (new_peer_ a) (selected_msg_ a) (msg_options_open_ a) (editing_msg_ a)
    (editing_msg_id_ a) (forwarding_msg_ a) (forwarding_body_ a) (posted a).
Definition set_compose (t : string) (a : App) : App :=
  mkApp (status_msg_ a) (active_screen_ a) (local_username_ a) (login_username_ a)
    (login_password_ a) (login_key_pin_ a) (screen_ptr_ a) (connected_ a) (lockout_active_ a)
    (lockout_remaining_ a) (lockout_quit_ a) (lockout_thread_ a) (conversations_ a)
    (conv_names_ a) (selected_conv_ a) t (new_peer_ a) (selected_msg_ a) (msg_options_open_ a)
    (editing_msg_ a) (editing_msg_id_ a) (forwarding_msg_ a) (forwarding_body_ a) (posted a).
Definition set_new_peer (t : string) (a : App) : App :=
  mkApp (status_msg_ a) (active_screen_ a) (local_username_ a) (login_username_ a)
    (login_password_ a) (login_key_pin_ a) (screen_ptr_ a) (connected_ a) (lockout_active_ a)
    (lockout_remaining_ a) (lockout_quit_ a) (lockout_thread_ a) (conversations_ a)
    (conv_names_ a) (selected_conv_ a) (compose_text_ a) t (selected_msg_ a)
    (msg_options_open_ a) (editing_msg_ a) (editing_msg_id_ a) (forwarding_msg_ a)
    (forwarding_body_ a) (posted a).
Definition set_selection (msg : Z) (options : bool) (a : App) : App :=
  mkApp (status_msg_ a) (active_screen_ a) (local_username_ a) (login_username_ a)
    (login_password_ a) (login_key_pin_ a) (screen_ptr_ a) (connected_ a) (lockout_active_ a)
    (lockout_remaining_ a) (lockout_quit_ a) (lockout_thread_ a) (conversations_ a)
    (conv_names_ a) (selected_conv_ a) (compose_text_ a) (new_peer_ a) msg options
    (editing_msg_ a) (editing_msg_id_ a) (forwarding_msg_ a) (forwarding_body_ a) (posted a).
Definition set_editing (b : bool) (id : Z) (a : App) : App :=
  mkApp (status_msg_ a) (active_screen_ a) (local_username_ a) (login_username_ a)
    (login_password_ a) (login_key_pin_ a) (screen_ptr_ a) (connected_ a) (lockout_active_ a)
    (lockout_remaining_ a) (lockout_quit_ a) (lockout_thread_ a) (conversations_ a)
    (conv_names_ a) (selected_conv_ a) (compose_text_ a) (new_peer_ a) (selected_msg_ a)
    (msg_options_open_ a) b id (forwarding_msg_ a) (forwarding_body_ a) (posted a).
Definition set_forwarding (b : bool) (body : string) (a : App) : App :=
  mkApp (status_msg_ a) (active_screen_ a) (local_username_ a) (login_username_ a)
    (login_password_ a) (login_key_pin_ a) (screen_ptr_ a) (connected_ a) (lockout_active_ a)
    (lockout_remaining_ a) (lockout_quit_ a) (lockout_thread_ a) (conversations_ a)
    (conv_names_ a) (selected_conv_ a) (compose_text_ a) (new_peer_ a) (selected_msg_ a)
    (msg_options_open_ a) (editing_msg_ a) (editing_msg_id_ a) b body (posted a).
Definition set_posted (q : list UiTask) (a : App) : App :=
  mkApp (status_msg_ a) (active_screen_ a) (local_username_ a) (login_username_ a)
    (login_password_ a) (login_key_pin_ a) (screen_ptr_ a) (connected_ a) (lockout_active_ a)
    (lockout_remaining_ a) (lockout_quit_ a) (lockout_thread_ a) (conversations_ a)
    (conv_names_ a) (selected_conv_ a) (compose_text_ a) (new_peer_ a) (selected_msg_ a)
    (msg_options_open_ a) (editing_msg_ a) (editing_msg_id_ a) (forwarding_msg_ a)
    (forwarding_body_ a) q.

Definition map_convs (f : Conversation → Conversation) (a : App) : App :=
  set_convs (f <$> conversations_ a) (conv_names_ a) (selected_conv_ a) a.

(** ** The posted updates *)

Definition is_peer (p : string) (c : Conversation) : bool := bool_decide (peer_ c = p).

(** [std::find_if(..., c.peer() == p)], as an index. *)
Definition find_peer (p : string) (cs : list Conversation) : option nat :=
  fst <$> list_find (λ c, peer_ c = p) cs.

(** The lambda of [push_message], and of [push_sent_message]. *)
Definition push_update (msg : Message) (a : App) : App :=
  match find_peer (msg_peer msg) (conversations_ a) with
  | Some i => set_convs (alter (add_message msg) i (conversations_ a))
                (conv_names_ a) (selected_conv_ a) a
  | None =>
    set_convs (conversations_ a ++ [add_message msg (new_conversation (msg_peer msg))])
      (conv_names_ a ++ [msg_peer msg]) (selected_conv_ a) a
  end.

Definition remove_conversation_update (p : string) (a : App) : App :=
  match find_peer p (conversations_ a) with
  | None => a
  | Some idx =>
    let convs := delete idx (conversations_ a) in
    let size := Z.of_nat (length convs) in
    set_convs convs (delete idx (conv_names_ a))
      (if size <=? selected_conv_ a then Z.max 0 (size - 1) else selected_conv_ a) a
  end.

Definition advance_update (u : string) (a : App) : App :=
  set_screen 1 u (set_login (login_username_ a) "" "" a).

Definition return_to_login_update (a : App) : App :=
  set_screen 0 "" (set_status "" (set_new_peer "" (set_compose "" (set_convs [] [] 0 a)))).

(** Running a posted task on the UI state; what [T_run_on_ui] runs is not the
    UI's business. *)
Definition run_task (t : UiTask) (a : App) : App :=
  match t with
  | T_status m => set_status m a
  | T_push_message m | T_push_sent_message m => push_update m a
  | T_update_body id b => map_convs (update_message_body id b) a
  | T_update_body_by_mid mid b => map_convs (update_message_body_by_mid mid b) a
  | T_mark_deleted id => set_selection (-1) false (map_convs (mark_message_deleted id) a)
  | T_mark_deleted_by_mid mid => map_convs (mark_message_deleted_by_mid mid) a
  | T_remove_message id => set_selection (-1) false (map_convs (remove_message id) a)
  | T_advance_to_chat u => advance_update u a
  | T_return_to_login => return_to_login_update a
  | T_remove_conversation p => remove_conversation_update p a
  | T_run_on_ui => a
  end.

(** [if (screen_ptr_) screen_ptr_->Post(update); else update();] *)
Definition post (t : UiTask) (a : App) : App :=
  if screen_ptr_ a then set_posted (posted a ++ [t]) a else run_task t a.

Definition push_status (msg : string) : App → App := post (T_status msg).
Definition push_message (msg : Message) : App → App := post (T_push_message msg).
Definition push_sent_message (msg : Message) : App → App := post (T_push_sent_message msg).
Definition update_message_body (id : Z) (b : string) : App → App := post (T_update_body id b).
Definition update_message_body_by_mid (mid b : string) : App → App :=
  post (T_update_body_by_mid mid b).
Definition mark_message_deleted (id : Z) : App → App := post (T_mark_deleted id).
Definition mark_message_deleted_by_mid (mid : string) : App → App :=
  post (T_mark_deleted_by_mid mid).
Definition remove_message (id : Z) : App → App := post (T_remove_message id).
Definition advance_to_chat (username : string) : App → App := post (T_advance_to_chat username).
Definition return_to_login : App → App := post T_return_to_login.
Definition remove_conversation (peer : string) : App → App := post (T_remove_conversation peer).

(** Not marshalled: it runs on the caller's thread. *)
Definition set_conversations (convs : list Conversation) (a : App) : App :=
  set_convs convs (peer_ <$> convs) 0 a.

(** ** The lockout countdown *)

Definition lockout_text (remaining : Z) : string :=
  "Incorrect PIN — try again in " +:+ pretty remaining +:+ "s.".

(** One round of the countdown thread. *)
Definition lockout_tick (a : App) : App :=
  match lockout_thread_ a with
  | Counting =>
    if (0 <? lockout_remaining_ a) && negb (lockout_quit_ a) then
      let a := push_status (lockout_text (lockout_remaining_ a)) a in
      set_lockout (lockout_active_ a) (lockout_remaining_ a - 1) (lockout_quit_ a) Counting a
    else if negb (lockout_quit_ a) then
      push_status "" (set_lockout false (lockout_remaining_ a) (lockout_quit_ a) Finished a)
    else set_lockout (lockout_active_ a) (lockout_remaining_ a) (lockout_quit_ a) Finished a
  | _ => a
  end.

(** [lockout_thread_.join()]: the rounds that are left, and the last one. *)
Definition lockout_join (a : App) : App :=
  Nat.iter (S (Z.to_nat (lockout_remaining_ a))) lockout_tick a.

Definition start_lockout (seconds : Z) (a : App) : App :=
  let a := match lockout_thread_ a with NotJoinable => a | _ => lockout_join a end in
  set_lockout true seconds (lockout_quit_ a) Counting a.

(** ** Percent-encoding and the verify URL *)

Definition unreserved (b : ascii) : bool :=
  isalnum b || bool_decide (b = "-"%char) || bool_decide (b = "_"%char)
  || bool_decide (b = "."%char) || bool_decide (b = "~"%char).

Definition hex_upper (z : Z) : ascii :=
  nth (Z.to_nat z) (String.list_ascii_of_string "0123456789ABCDEF") Ascii.zero.

(** [snprintf(buf, 4, "%%%02X", uc)] *)
Definition percent (c : ascii) : string :=
  let b := byte_of_ascii c in
  String "%" (String (hex_upper (b / 16)) (String (hex_upper (b mod 16)) EmptyString)).

Fixpoint url_encode (payload : string) : string :=
  match payload with
  | EmptyString => EmptyString
  | String c payload =>
    (if unreserved c then String c EmptyString else percent c) +:+ url_encode payload
  end.

Definition verify_url (mid wire_ciphertext : string) : string :=
  "https://1bit2qbit.theburkenator.com/verify/?message="
  +:+ url_encode (mid +:+ ":" +:+ wire_ciphertext).

(** The argument of [std::system]. *)
Definition open_command (url : string) : string := "xdg-open '" +:+ url +:+ "' &".

(** ** Events *)

Inductive Event : Type :=
| Return
| Escape
| ArrowUp
| ArrowDown
| Character (s : string)
| OtherEvent.

Record AppCallbacks (W : Type) : Type := mkCallbacks {
  on_register : option (string → string → string → M W unit);
  on_login : option (string → string → string → M W unit);
  on_send : option (string → string → M W unit);
  on_delete : option (Z → bool → M W unit);
  on_edit : option (Z → string → M W unit);
  on_forward : option (string → string → M W unit);
  on_logout : option (M W unit);
}.
Arguments on_register {W} _.
Arguments on_login {W} _.
Arguments on_send {W} _.
Arguments on_delete {W} _.
Arguments on_edit {W} _.
Arguments on_forward {W} _.
Arguments on_logout {W} _.

(** The first byte of a character event. *)
Definition first_char (s : string) : ascii :=
  match s with EmptyString => Ascii.zero | String c _ => c end.

Definition is_key (lower upper c : ascii) : bool := bool_decide (c = lower ∨ c = upper).

(** [CatchEvent] of the PIN field: [true] swallows the event. *)
Definition pin_filter (e : Event) (a : App) : bool :=
  match e with
  | Character s =>
    negb (isdigit (first_char s)) || (6 <=? Z.of_nat (String.length (login_key_pin_ a)))
  | _ => false
  end.

(** The handlers run inside a larger state [W] that the callbacks work on. *)
Section handlers.
Context {W : Type} (app : W → App) (set_app : App → W → W).
Context (now_ms : M W Z) (system : string → M W unit) (cbs : AppCallbacks W).

Definition ui (f : App → App) : M W unit := modify (λ w, set_app (f (app w)) w).
Definition ask {A} (f : App → A) : M W A := gets (λ w, f (app w)).

(** [conversations_[selected_conv_]]: undefined outside the vector. *)
Definition current : M W Conversation :=
  a ← ask id;
  match (if selected_conv_ a <? 0 then None
         else conversations_ a !! Z.to_nat (selected_conv_ a)) with
  | Some c => mret c
  | None => stuck "conversations_[selected_conv_] out of range"
  end.

(** [is_editable], undefined on overflow. *)
Definition check_editable (ts now : Z) : M W bool :=
  match is_editable ts now with
  | Some b => mret b
  | None => stuck "is_editable: signed overflow"
  end.

Definition fields_missing (a : App) : bool :=
  str_empty (login_username_ a) || str_empty (login_password_ a) || str_empty (login_key_pin_ a).

Definition login_btn : M W unit :=
  a ← ask id;
  if lockout_active_ a then mret tt
  else if fields_missing a then mret tt
  else
    match on_login cbs with
    | Some f => f (login_username_ a) (login_password_ a) (login_key_pin_ a)
    | None => ui (advance_to_chat (login_username_ a))
    end.

Definition register_btn : M W unit :=
  a ← ask id;
  if fields_missing a then mret tt
  else if negb (Z.of_nat (String.length (login_key_pin_ a)) =? 6) then
    ui (push_status "Key PIN must be exactly 6 digits.")
  else if bool_decide (login_password_ a = login_key_pin_ a) then
    ui (push_status "Password and Key PIN must be different.")
  else
    match on_register cbs with
    | Some f => f (login_username_ a) (login_password_ a) (login_key_pin_ a)
    | None => ui (advance_to_chat (login_username_ a))
    end.

Definition add_conversation : M W unit :=
  a ← ask id;
  if str_empty (new_peer_ a) then mret tt
  else
    (match find_peer (new_peer_ a) (conversations_ a) with
     | None =>
       ui (set_convs (conversations_ a ++ [new_conversation (new_peer_ a)])
             (conv_names_ a ++ [new_peer_ a]) (Z.of_nat (length (conversations_ a))))
     | Some i => ui (set_convs (conversations_ a) (conv_names_ a) (Z.of_nat i))
     end) ;;
    ui (set_new_peer "").

Definition opt_call (f : option (M W unit)) : M W unit := default (mret tt) f.

(** The message [do_send] adds when no client is wired up. *)
Definition local_message (peer body : string) (id ts : Z) : Message :=
  mkMessage (u64 id) peer "" peer ts Standard body false false None "" "" "".

Definition do_send : M W unit :=
  a ← ask id;
  if str_empty (compose_text_ a) then mret tt
  else if editing_msg_ a then
    opt_call ((λ f, f (editing_msg_id_ a) (compose_text_ a)) <$> on_edit cbs) ;;
    ui (λ a, set_selection (-1) false (set_editing false 0 (set_compose "" a)))
  else if forwarding_msg_ a then
    (match on_forward cbs with
     | Some f => f (compose_text_ a) (forwarding_body_ a)
     | None => opt_call ((λ f, f (compose_text_ a) (forwarding_body_ a)) <$> on_send cbs)
     end) ;;
    ui (λ a, set_selection (-1) false (set_forwarding false "" (set_compose "" a)))
  else
    match on_send cbs with
    | Some f =>
      if bool_decide (conversations_ a = []) then mret tt
      else
        c ← current;
        f (peer_ c) (compose_text_ a) ;;
        ui (set_compose "")
    | None =>
      if bool_decide (conversations_ a = []) then mret tt
      else
        now ← now_ms;
        c ← current;
        now' ← now_ms;
        ui (λ a, set_convs
          (alter (add_message (local_message (peer_ c) (compose_text_ a) now now'))
             (Z.to_nat (selected_conv_ a)) (conversations_ a))
          (conv_names_ a) (selected_conv_ a) a) ;;
        ui (set_compose "")
    end.

(** [CatchEvent] of the compose field. *)
Definition compose_event (e : Event) : M W bool :=
  a ← ask id;
  match e with
  | Return => do_send ;; mret true
  | Escape =>
    if editing_msg_ a || forwarding_msg_ a then
      ui (λ a, set_editing false 0 (set_forwarding false "" (set_compose "" a))) ;; mret true
    else mret false
  | ArrowUp =>
    if str_empty (compose_text_ a) && negb (editing_msg_ a) && negb (forwarding_msg_ a)
       && negb (bool_decide (conversations_ a = [])) then
      c ← current;
      (if bool_decide (messages_ c = []) then mret tt
       else ui (set_selection (Z.of_nat (length (messages_ c)) - 1) false)) ;;
      mret true
    else mret false
  | _ => mret false
  end.

Definition logout_btn : M W unit :=
  match on_logout cbs with Some f => f | None => ui return_to_login end.

(** The [v] key: open the verifier on the message's envelope. *)
Definition verify_key (sel : Message) : M W unit :=
  (if str_empty (msg_mid sel) then
     ui (push_status "Cannot verify: message ID unavailable (message predates this feature).")
   else if negb (str_empty (msg_wire_ciphertext sel)) then
     system (open_command (verify_url (msg_mid sel) (msg_wire_ciphertext sel)))
   else ui (push_status "Cannot verify: no envelope stored for this message.")) ;;
  ui (λ a, set_selection (selected_msg_ a) false a).

(** The option keys on the selected message; [true] when the key was one. *)
Definition option_key (sel : Message) (c : ascii) : M W bool :=
  a ← ask id;
  let is_sent := negb (bool_decide (msg_recipient sel = local_username_ a)) in
  if is_key "e" "E" c then
    (if is_sent then
       now ← now_ms;
       ok ← check_editable (msg_timestamp_ms sel) now;
       if (ok : bool) then
         ui (λ a, set_selection (selected_msg_ a) false
               (set_editing true (msg_id sel) (set_compose (msg_body sel) a)))
       else ui (push_status "Edit window has closed for this message.")
     else mret tt) ;; mret true
  else if is_key "d" "D" c then
    (if is_sent then
       now ← now_ms;
       ok ← check_editable (msg_timestamp_ms sel) now;
       if (ok : bool) then opt_call ((λ f, f (msg_id sel) false) <$> on_delete cbs)
       else ui (push_status "Delete window has closed for this message.")
     else mret tt) ;;
    ui (λ a, set_selection (selected_msg_ a) false a) ;; mret true
  else if is_key "f" "F" c then
    ui (λ a, set_selection (selected_msg_ a) false
          (set_compose "" (set_forwarding true (msg_body sel) a))) ;; mret true
  else if is_key "v" "V" c then verify_key sel ;; mret true
  else mret false.

(** [CatchEvent] of the whole chat area. *)
Definition chat_event (e : Event) : M W bool :=
  a ← ask id;
  if bool_decide (conversations_ a = []) then mret false
  else
    conv ← current;
    let msgs := messages_ conv in
    let size := Z.of_nat (length msgs) in
    if bool_decide (msgs = []) || (selected_msg_ a <? 0) then mret false
    else
      let navigating := negb (editing_msg_ a) && negb (forwarding_msg_ a) in
      match e with
      | ArrowUp =>
        if navigating then ui (set_selection (Z.max 0 (selected_msg_ a - 1)) false) ;; mret true
        else mret false
      | ArrowDown =>
        if navigating then
          ui (set_selection
            (if size - 1 <=? selected_msg_ a then -1 else selected_msg_ a + 1) false) ;; mret true
        else mret false
      | Return =>
        if navigating then
          ui (λ a, set_selection (selected_msg_ a) (negb (msg_options_open_ a)) a) ;; mret true
        else mret false
      | Escape =>
        ui (λ a, set_selection (-1) false
              (set_editing false 0 (set_forwarding false "" (set_compose "" a)))) ;; mret true
      | Character s =>
        if negb (msg_options_open_ a) then mret false
        else if size <=? selected_msg_ a then mret false
        else
          match msgs !! Z.to_nat (selected_msg_ a) with
          | Some sel => option_key sel (first_char s)
          | None => stuck "msgs[selected_msg_] out of range"
          end
      | OtherEvent => mret false
      end.
End handlers.
