(* ===== verification/AppFacts.v ===== *)
(** * AppFacts: properties of the terminal UI *)

From S2P Require Import Prelude Message Conversation App.
Local Open Scope Z_scope.

(** ** The UI invariant

    The menu shows exactly the conversations, no peer has two of them, and the
    selection is an index into the list (or 0 when it is empty). *)
Record app_wf (a : App) : Prop := {
  wf_names : conv_names_ a = peer_ <$> conversations_ a;
  wf_nodup : NoDup (conv_names_ a);
  wf_selected : 0 ≤ selected_conv_ a < Z.max 1 (Z.of_nat (length (conversations_ a)));
}.

(** What the invariant depends on. *)
Lemma app_wf_ext a a' :
  conversations_ a' = conversations_ a → conv_names_ a' = conv_names_ a →
  selected_conv_ a' = selected_conv_ a → app_wf a → app_wf a'.
Proof. intros H1 H2 H3 [W1 W2 W3]. split; rewrite ?H1, ?H2, ?H3; done. Qed.

Lemma set_selection_wf i o a : app_wf a → app_wf (set_selection i o a).
Proof. by apply app_wf_ext. Qed.

Lemma find_peer_Some p cs i :
  find_peer p cs = Some i → ∃ c, cs !! i = Some c ∧ peer_ c = p ∧ (i < length cs)%nat.
Proof.
  unfold find_peer. intros H. destruct (list_find _ cs) as [[j c]|] eqn:E; [|done].
  cbn in H. simplify_eq. apply list_find_Some in E as (Hl & Hp & _).
  exists c. split_and!; [done|done|]. by eapply lookup_lt_Some.
Qed.

Lemma find_peer_None p cs : find_peer p cs = None → p ∉ peer_ <$> cs.
Proof.
  unfold find_peer. intros H. destruct (list_find _ cs) as [[j c]|] eqn:E; [done|].
  apply list_find_None in E. intros (c & -> & Hc)%list_elem_of_fmap.
  rewrite Forall_forall in E. by apply (E c).
Qed.

Lemma set_convs_map_wf (f : Conversation → Conversation) (g : list Conversation → list Conversation) a :
  (∀ cs, peer_ <$> g cs = peer_ <$> cs) → app_wf a →
  app_wf (set_convs (g (conversations_ a)) (conv_names_ a) (selected_conv_ a) a).
Proof.
  intros Hg [W1 W2 W3]. split; cbn; [by rewrite Hg|done|].
  rewrite <-(length_fmap peer_ (g _)), Hg, length_fmap. done.
Qed.

Lemma map_convs_wf f a : (∀ c, peer_ (f c) = peer_ c) → app_wf a → app_wf (map_convs f a).
Proof.
  intros Hf. apply (set_convs_map_wf f (λ cs, f <$> cs)). intros cs.
  rewrite <-list_fmap_compose. apply list_fmap_ext. intros i c _. apply Hf.
Qed.

(** Appending a conversation with a peer that has none. *)
Lemma append_conv_wf c sel a :
  app_wf a → peer_ c ∉ conv_names_ a → 0 ≤ sel ≤ Z.of_nat (length (conversations_ a)) →
  app_wf (set_convs (conversations_ a ++ [c]) (conv_names_ a ++ [peer_ c]) sel a).
Proof.
  intros [W1 W2 W3] Hc Hs. split; cbn.
  - by rewrite fmap_app, W1.
  - apply NoDup_app. split_and!; [done| |apply NoDup_singleton].
    intros x Hx Hin. apply list_elem_of_singleton in Hin as ->. done.
  - rewrite length_app. cbn. lia.
Qed.

Lemma alter_peers m (i : nat) (cs : list Conversation) : peer_ <$> alter (add_message m) i cs = peer_ <$> cs.
Proof.
  revert i. induction cs as [|c cs IH]; intros [|i]; cbn; [done..|]. by rewrite IH.
Qed.

Lemma push_update_wf m a : app_wf a → app_wf (push_update m a).
Proof.
  intros W. unfold push_update.
  destruct (find_peer (msg_peer m) (conversations_ a)) as [i|] eqn:Hf.
  - apply (set_convs_map_wf id (alter (add_message m) i)); [|done]. intros cs. apply alter_peers.
  - apply (append_conv_wf (add_message m (new_conversation (msg_peer m)))); [done| |].
    + rewrite (wf_names a W). by apply find_peer_None.
    + pose proof (wf_selected a W). lia.
Qed.

Lemma remove_conversation_wf p a : app_wf a → app_wf (remove_conversation_update p a).
Proof.
  intros W. unfold remove_conversation_update.
  destruct (find_peer p (conversations_ a)) as [i|] eqn:Hf; [|done].
  apply find_peer_Some in Hf as (c & _ & _ & Hi). destruct W as [W1 W2 W3].
  split; cbn.
  - by rewrite W1, list_fmap_delete.
  - eapply sublist_NoDup; [exact W2|apply sublist_delete].
  - rewrite length_delete by (by apply lookup_lt_is_Some). destruct (Z.leb_spec (Z.of_nat (length (conversations_ a) - 1)) (selected_conv_ a)); lia.
Qed.

Lemma run_task_wf t a : app_wf a → app_wf (run_task t a).
Proof.
  intros W.
  assert (∀ a', conversations_ a' = conversations_ a → conv_names_ a' = conv_names_ a →
    selected_conv_ a' = selected_conv_ a → app_wf a') as Hext by (intros; by apply (app_wf_ext a)).
  destruct t; cbn [run_task].
  1: by apply Hext.
  1-2: by apply push_update_wf.
  1-2: by apply map_convs_wf.
  1: by apply set_selection_wf, map_convs_wf.
  1: by apply map_convs_wf.
  1: by apply set_selection_wf, map_convs_wf.
  1: by apply Hext.
  1: split; cbn; [done|apply NoDup_nil_2|lia].
  1: by apply remove_conversation_wf.
  1: done.
Qed.

Lemma post_wf t a : app_wf a → app_wf (post t a).
Proof.
  intros W. unfold post. destruct (screen_ptr_ a); [|by apply run_task_wf].
  by apply (app_wf_ext a).
Qed.

Lemma run_tasks_wf ts a : app_wf a → app_wf (foldl (flip run_task) a ts).
Proof. revert a. induction ts as [|t ts IH]; intros a W; [done|]. cbn. by apply IH, run_task_wf. Qed.

(** C33: Whatever updates other threads post and in whatever order they run, the menu
    keeps showing exactly the conversations, one per peer, with a valid selection. *)
Theorem posted_updates_keep_ui_consistent ts a :
  app_wf a → app_wf (foldl (flip run_task) a ts).
Proof. apply run_tasks_wf. Qed.

(** ** The countdown *)

Lemma post_lockout t a :
  lockout_active_ (post t a) = lockout_active_ a ∧
  lockout_remaining_ (post t a) = lockout_remaining_ a ∧
  lockout_quit_ (post t a) = lockout_quit_ a ∧ lockout_thread_ (post t a) = lockout_thread_ a.
Proof.
  unfold post. destruct (screen_ptr_ a); [done|].
  destruct t; cbn [run_task]; unfold push_update, remove_conversation_update;
    try case_match; done.
Qed.

Lemma lockout_tick_counting a :
  lockout_thread_ a = Counting → lockout_quit_ a = false → 0 < lockout_remaining_ a →
  lockout_thread_ (lockout_tick a) = Counting ∧ lockout_quit_ (lockout_tick a) = false ∧
  lockout_remaining_ (lockout_tick a) = lockout_remaining_ a - 1 ∧
  lockout_active_ (lockout_tick a) = lockout_active_ a.
Proof.
  intros Ht Hq Hr. unfold lockout_tick. rewrite Ht, Hq, (proj2 (Z.ltb_lt _ _) Hr). cbn [andb negb].
  unfold push_status. destruct (post_lockout (T_status (lockout_text (lockout_remaining_ a))) a)
    as (H1 & H2 & H3 & H4). cbn. by rewrite H1, H2, H3, Hq.
Qed.

Lemma lockout_ticks k n a :
  lockout_thread_ a = Counting → lockout_quit_ a = false → lockout_remaining_ a = n →
  Z.of_nat k ≤ n →
  lockout_thread_ (Nat.iter k lockout_tick a) = Counting ∧
  lockout_quit_ (Nat.iter k lockout_tick a) = false ∧
  lockout_remaining_ (Nat.iter k lockout_tick a) = n - Z.of_nat k ∧
  lockout_active_ (Nat.iter k lockout_tick a) = lockout_active_ a.
Proof.
  intros Ht Hq Hr. induction k as [|k IH]; intros Hk; [cbn; rewrite Hr; split_and!; [done..|lia|done]|].
  destruct IH as (I1 & I2 & I3 & I4); [lia|].
  change (Nat.iter (S k) lockout_tick a) with (lockout_tick (Nat.iter k lockout_tick a)).
  destruct (lockout_tick_counting _ I1 I2) as (T1 & T2 & T3 & T4); [lia|].
  split_and!; [done|done|rewrite T3, I3; lia|by rewrite T4].
Qed.

(** A lockout of [n] seconds blocks the login button through all its [n] rounds,
    and the round after them releases it. *)
Theorem lockout_lasts n a :
  0 ≤ n → lockout_thread_ a = NotJoinable → lockout_quit_ a = false →
  (∀ k, Z.of_nat k ≤ n → lockout_active_ (Nat.iter k lockout_tick (start_lockout n a)) = true) ∧
  lockout_active_ (Nat.iter (S (Z.to_nat n)) lockout_tick (start_lockout n a)) = false ∧
  lockout_thread_ (Nat.iter (S (Z.to_nat n)) lockout_tick (start_lockout n a)) = Finished.
Proof.
  intros Hn Ht Hq. set (a0 := start_lockout n a).
  assert (lockout_thread_ a0 = Counting ∧ lockout_quit_ a0 = false ∧ lockout_remaining_ a0 = n ∧
    lockout_active_ a0 = true) as (H1 & H2 & H3 & H4).
  { unfold a0, start_lockout. rewrite Ht. done. }
  split.
  - intros k Hk. destruct (lockout_ticks k n a0 H1 H2 H3 Hk) as (_ & _ & _ & ->). done.
  - destruct (lockout_ticks (Z.to_nat n) n a0 H1 H2 H3) as (T1 & T2 & T3 & _); [lia|].
    change (Nat.iter (S (Z.to_nat n)) lockout_tick a0)
      with (lockout_tick (Nat.iter (Z.to_nat n) lockout_tick a0)).
    set (a1 := Nat.iter (Z.to_nat n) lockout_tick a0) in *. unfold lockout_tick.
    rewrite T1, T2, (proj2 (Z.ltb_ge _ _)) by lia. cbn [andb negb].
    destruct (post_lockout (T_status "")
      (set_lockout false (lockout_remaining_ a1) false Finished a1)) as (P1 & _ & _ & P4).
    unfold push_status. by rewrite P1, P4.
Qed.

Lemma lockout_lasts_witness :
  lockout_active_ (Nat.iter 5 lockout_tick (start_lockout 5 new_app)) = true.
Proof. apply (lockout_lasts 5 new_app); [lia|done|done|cbn; lia]. Defined.

Lemma posted_updates_keep_ui_consistent_witness :
  app_wf (foldl (flip run_task) new_app
    [T_push_message (local_message "bob" "hi" 1 1); T_push_message (local_message "eve" "yo" 2 2);
     T_remove_conversation "bob"; T_advance_to_chat "al"]).
Proof.
  apply posted_updates_keep_ui_consistent. split; cbn; [done|apply NoDup_nil_2|lia].
Defined.

(** ** The verify command *)

Definition unhex (c : ascii) : option Z :=
  (λ p, Z.of_nat p.1) <$> list_find (c =.) (String.list_ascii_of_string "0123456789ABCDEF").

(** Percent-decoding, as the verifier's web page does it. *)
Fixpoint url_decode (s : string) : option string :=
  match s with
  | EmptyString => Some EmptyString
  | String "%" (String h (String l rest)) =>
    hi ← unhex h; lo ← unhex l; r ← url_decode rest;
    Some (String (ascii_of_byte (16 * hi + lo)) r)
  | String c rest => String c <$> url_decode rest
  end.

(** The words of a shell command line, for the fragment with blanks, single quotes
    and [&]; any other character with a meaning to the shell is refused. *)
Definition sh_special (c : ascii) : bool :=
  bool_decide (c ∈ String.list_ascii_of_string "|;<>()$`\*?[#~!{}=%^")
  || bool_decide (c = ascii_of_nat 34) || bool_decide (byte_of_ascii c < 32).

Fixpoint sh_words (s : string) (quoted : bool) (cur : option string) : option (list string) :=
  match s with
  | EmptyString => if quoted then None else Some (option_list cur)
  | String c s =>
    let more := Some (default "" cur +:+ String c "") in
    if quoted then
      if bool_decide (c = "'"%char) then sh_words s false cur else sh_words s true more
    else if bool_decide (c = "'"%char) then sh_words s true (Some (default "" cur))
    else if bool_decide (c = " "%char) then
      (λ ws, option_list cur ++ ws) <$> sh_words s false None
    else if sh_special c then None
    else sh_words s false more
  end.

Lemma all_ascii (P : ascii → bool) :
  forallb (λ n, P (ascii_of_nat n)) (seq 0 256) = true → ∀ c, P c = true.
Proof.
  intros H c. rewrite forallb_forall in H. rewrite <-(ascii_nat_embedding c). apply H.
  apply in_seq. pose proof (nat_ascii_bounded c). lia.
Qed.

(** Every encoded character decodes, and contains neither a quote nor a NUL. *)
Definition encodes_well (c : ascii) : bool :=
  let e := if unreserved c then String c EmptyString else percent c in
  bool_decide (url_decode e = Some (String c EmptyString)) &&
  bool_decide ("'"%char ∉ String.list_ascii_of_string e) && nul_free e &&
  (if unreserved c then negb (bool_decide (c = "%"%char))
   else bool_decide (is_Some (unhex (hex_upper (byte_of_ascii c / 16))) ∧
                     is_Some (unhex (hex_upper (byte_of_ascii c mod 16))))).

Lemma all_encode_well c : encodes_well c = true.
Proof. apply all_ascii. vm_compute. reflexivity. Qed.

Lemma url_decode_other c rest :
  c ≠ "%"%char → url_decode (String c rest) = String c <$> url_decode rest.
Proof. intros Hc. destruct c as [[] [] [] [] [] [] [] []]; try done. Qed.

Lemma url_decode_encode s : url_decode (url_encode s) = Some s.
Proof.
  induction s as [|c s IH]; [done|]. cbn [url_encode].
  pose proof (all_encode_well c) as Hw. unfold encodes_well in Hw.
  apply andb_prop in Hw as [Hw Hc]. apply andb_prop in Hw as [Hw _].
  apply andb_prop in Hw as [Hd _]. apply bool_decide_eq_true in Hd.
  destruct (unreserved c).
  - apply negb_true_iff, bool_decide_eq_false in Hc.
    rewrite string_cons_app, string_nil_app, url_decode_other by done.
    by rewrite IH.
  - apply bool_decide_eq_true in Hc as [[h Hh] [l Hl]]. unfold percent in *.
    rewrite !string_cons_app, string_nil_app. cbn [url_decode] in *. rewrite Hh, Hl in *. cbn in Hd |- *. rewrite IH. cbn. congruence.
Qed.

Lemma list_ascii_app s t :
  String.list_ascii_of_string (s +:+ t)
  = String.list_ascii_of_string s ++ String.list_ascii_of_string t.
Proof. induction s as [|c s IH]; [done|]. rewrite string_cons_app. cbn. by rewrite IH. Qed.

Lemma nul_free_app s t : nul_free (s +:+ t) = nul_free s && nul_free t.
Proof.
  induction s as [|c s IH]; [done|]. rewrite string_cons_app. cbn. by rewrite IH, andb_assoc.
Qed.

Lemma url_encode_safe s :
  (("'"%char) ∉ String.list_ascii_of_string (url_encode s)) ∧ nul_free (url_encode s) = true.
Proof.
  induction s as [|c s [IH1 IH2]]; [by split; [apply not_elem_of_nil|]|]. cbn [url_encode].
  pose proof (all_encode_well c) as Hw. unfold encodes_well in Hw.
  apply andb_prop in Hw as [Hw _]. apply andb_prop in Hw as [Hw Hn].
  apply andb_prop in Hw as [_ Hq]. apply bool_decide_eq_true in Hq.
  rewrite list_ascii_app, nul_free_app, not_elem_of_app, Hn, IH2. done.
Qed.

Lemma sh_words_quoted url rest cur :
  "'"%char ∉ String.list_ascii_of_string url →
  sh_words (url +:+ String "'" rest) true (Some cur) = sh_words rest false (Some (cur +:+ url)).
Proof.
  revert cur. induction url as [|c url IH]; intros cur Hq.
  - rewrite string_nil_app, string_app_nil_r. done.
  - cbn in Hq. apply not_elem_of_cons in Hq as [Hc Hq].
    rewrite string_cons_app. cbn [sh_words]. rewrite bool_decide_false by congruence.
    cbn [default]. rewrite IH by done.
    by rewrite <-string_app_assoc, string_cons_app, string_nil_app.
Qed.

(** The command handed to the shell runs [xdg-open] with one argument, the URL of
    the message, whatever the message id and the ciphertext contain; no byte of it
    is cut off; and the verifier gets back exactly [mid:ciphertext]. *)
Theorem verify_command_safe mid ct :
  sh_words (open_command (verify_url mid ct)) false None
    = Some ["xdg-open"; verify_url mid ct; "&"] ∧
  c_str (open_command (verify_url mid ct)) = open_command (verify_url mid ct) ∧
  url_decode (url_encode (mid +:+ ":" +:+ ct)) = Some (mid +:+ ":" +:+ ct).
Proof.
  destruct (url_encode_safe (mid +:+ ":" +:+ ct)) as [Hq Hn].
  assert ("'"%char ∉ String.list_ascii_of_string (verify_url mid ct)) as Hu.
  { unfold verify_url. rewrite list_ascii_app, not_elem_of_app. split; [|done].
    by apply (bool_decide_unpack _). }
  split_and!; [| |apply url_decode_encode].
  - unfold open_command.
    change ("xdg-open '" +:+ verify_url mid ct +:+ "' &")
      with ("xdg-open '" +:+ (verify_url mid ct +:+ String "'" " &")).
    transitivity ((λ ws, ["xdg-open"] ++ ws) <$>
      sh_words (verify_url mid ct +:+ String "'" " &") true (Some "")); [reflexivity|].
    by rewrite sh_words_quoted.
  - apply c_str_nul_free. unfold open_command. rewrite !nul_free_app. unfold verify_url.
    by rewrite nul_free_app, Hn.
Qed.

(** ** Removing a conversation while another one is selected *)

(** The conversation the compose field writes to. *)
Definition current_peer (a : App) : option string :=
  peer_ <$> conversations_ a !! Z.to_nat (selected_conv_ a).

(** When a conversation above the selected one is removed and the selected one is
    not the last, the selection slides to another peer: text in the compose field
    would now be sent to somebody else. *)
Theorem remove_conversation_changes_recipient p idx a :
  app_wf a → find_peer p (conversations_ a) = Some idx →
  Z.of_nat idx < selected_conv_ a → selected_conv_ a + 1 < Z.of_nat (length (conversations_ a)) →
  current_peer (remove_conversation_update p a) ≠ current_peer a ∧
  compose_text_ (remove_conversation_update p a) = compose_text_ a.
Proof.
  intros W Hf Hlt Hlast. unfold remove_conversation_update. rewrite Hf. cbn. split; [|done].
  pose proof (find_peer_Some _ _ _ Hf) as (c & _ & _ & Hi). destruct W as [W1 W2 W3].
  unfold current_peer. cbn. rewrite length_delete by (by apply lookup_lt_is_Some).
  destruct (Z.leb_spec (Z.of_nat (length (conversations_ a) - 1)) (selected_conv_ a)); [lia|].
  set (k := Z.to_nat (selected_conv_ a)). rewrite list_lookup_delete_ge by lia.
  destruct (conversations_ a !! S k) as [c1|] eqn:E1; [|apply lookup_ge_None in E1; lia].
  destruct (conversations_ a !! k) as [c2|] eqn:E2; [|apply lookup_ge_None in E2; lia].
  cbn. intros [= Heq]. rewrite W1 in W2.
  assert (S k = k); [|lia].
  apply (NoDup_lookup (peer_ <$> conversations_ a) _ _ (peer_ c1) W2).
  - by rewrite list_lookup_fmap, E1.
  - by rewrite list_lookup_fmap, E2, Heq.
Qed.

Lemma remove_conversation_changes_recipient_witness :
  let a := set_convs (new_conversation <$> ["a"; "b"; "c"]) ["a"; "b"; "c"] 1
             (set_compose "for b only" new_app) in
  current_peer (remove_conversation_update "a" a) ≠ current_peer a ∧
  compose_text_ (remove_conversation_update "a" a) = compose_text_ a.
Proof.
  intros a. apply (remove_conversation_changes_recipient "a" 0).
  - split; [reflexivity| |cbn; lia]. apply (bool_decide_unpack _). vm_compute. exact I.
  - reflexivity.
  - cbn. lia.
  - cbn. lia.
Defined.

(** ** No handler indexes out of range *)

(** Timestamps the clock or the database can give. *)
Definition ts_ok (a : App) : Prop :=
  Forall (λ c, Forall (λ m, 0 ≤ msg_timestamp_ms m < 2 ^ 63) (messages_ c)) (conversations_ a).

Definition ui_ok (a : App) : Prop := app_wf a ∧ ts_ok a.

Lemma ui_ok_ext a a' :
  conversations_ a' = conversations_ a → conv_names_ a' = conv_names_ a →
  selected_conv_ a' = selected_conv_ a → ui_ok a → ui_ok a'.
Proof.
  intros H1 H2 H3 [W T]. split; [by apply (app_wf_ext a)|]. unfold ts_ok. by rewrite H1.
Qed.

Lemma post_ui_ok t a :
  (∃ m, t = T_status m) ∨ (∃ u, t = T_advance_to_chat u) ∨ t = T_return_to_login →
  ui_ok a → ui_ok (post t a).
Proof.
  intros Ht [W T]. split; [by apply post_wf|]. unfold post. destruct (screen_ptr_ a); [done|].
  destruct Ht as [[m ->]|[[u ->]| ->]]; [done|done|]. apply Forall_nil_2.
Qed.

Lemma ts_ok_alter m i a :
  ts_ok a → 0 ≤ msg_timestamp_ms m < 2 ^ 63 →
  Forall (λ c, Forall (λ m, 0 ≤ msg_timestamp_ms m < 2 ^ 63) (messages_ c))
    (alter (add_message m) i (conversations_ a)).
Proof.
  intros T Hm. apply Forall_alter; [done|]. intros c _ Hc.
  cbn. apply Forall_app. split; [done|by apply Forall_singleton].
Qed.

(** The buttons and the two key handlers. *)
Inductive UiEvent : Type :=
| EvLogin | EvRegister | EvAddConversation | EvSend | EvLogout
| EvCompose (e : Event)
| EvChat (e : Event).

Section handlers.
Context {W : Type} (app : W → App) (set_app : App → W → W).
Context (now_ms : M W Z) (system : string → M W unit) (cbs : AppCallbacks W).

Definition handle (ev : UiEvent) : M W unit :=
  match ev with
  | EvLogin => login_btn app set_app cbs
  | EvRegister => register_btn app set_app cbs
  | EvAddConversation => add_conversation app set_app
  | EvSend => do_send app set_app now_ms cbs
  | EvLogout => logout_btn app set_app cbs
  | EvCompose e => compose_event app set_app now_ms cbs e ;; mret tt
  | EvChat e => chat_event app set_app now_ms system cbs e ;; mret tt
  end.

(** What a callback has to keep. *)
Definition keeps_ui (m : M W unit) : Prop :=
  ∀ w, ui_ok (app w) → wp m (λ _ w', ui_ok (app w')) (λ _ w', ui_ok (app w')) w.

Record callbacks_ok : Prop := {
  ok_register f u p k : on_register cbs = Some f → keeps_ui (f u p k);
  ok_login f u p k : on_login cbs = Some f → keeps_ui (f u p k);
  ok_send f r t : on_send cbs = Some f → keeps_ui (f r t);
  ok_delete f i b : on_delete cbs = Some f → keeps_ui (f i b);
  ok_edit f i t : on_edit cbs = Some f → keeps_ui (f i t);
  ok_forward f r t : on_forward cbs = Some f → keeps_ui (f r t);
  ok_logout f : on_logout cbs = Some f → keeps_ui f;
}.

Context (app_set_app : ∀ a w, app (set_app a w) = a).
Context (now_ms_ok : ∀ w, wp now_ms (λ t w', 0 ≤ t < 2 ^ 63 ∧ app w' = app w) (λ _ _, False) w).
Context (system_ok : ∀ cmd, keeps_ui (system cmd)).
Context (Hcbs : callbacks_ok).

Abbreviation ok := (λ _ w', ui_ok (app w')).

Lemma keeps_ui_ret : keeps_ui (mret tt).
Proof. intros w Hw. by apply wp_ret. Qed.

Lemma keeps_ui_bind {A} (m : M W A) (f : A → M W unit) :
  (∀ w, ui_ok (app w) → wp m ok ok w) → (∀ a, keeps_ui (f a)) → keeps_ui (m ≫= f).
Proof.
  intros Hm Hf w Hw. apply wp_bind. eapply wp_mono; [by apply Hm| |done].
  intros a w' Hw'. by apply Hf.
Qed.

Lemma keeps_ui_ui f : (∀ a, ui_ok a → ui_ok (f a)) → keeps_ui (ui app set_app f).
Proof. intros Hf w Hw. apply wp_modify. rewrite app_set_app. by apply Hf. Qed.

(** Updates that leave the conversations alone. *)
Lemma keeps_ui_frame f :
  (∀ a, conversations_ (f a) = conversations_ a ∧ conv_names_ (f a) = conv_names_ a ∧
     selected_conv_ (f a) = selected_conv_ a) → keeps_ui (ui app set_app f).
Proof.
  intros Hf. apply keeps_ui_ui. intros a. destruct (Hf a) as (? & ? & ?). by apply ui_ok_ext.
Qed.

Lemma keeps_ui_status m : keeps_ui (ui app set_app (push_status m)).
Proof. apply keeps_ui_ui. intros a. apply post_ui_ok. left. by eexists. Qed.
Lemma keeps_ui_advance u : keeps_ui (ui app set_app (advance_to_chat u)).
Proof. apply keeps_ui_ui. intros a. apply post_ui_ok. right. left. by eexists. Qed.

Lemma keeps_ui_opt f : (∀ g, f = Some g → keeps_ui g) → keeps_ui (opt_call f).
Proof. intros Hf. destruct f; [by apply Hf|apply keeps_ui_ret]. Qed.

(** [conversations_[selected_conv_]] is in range when there is a conversation. *)
Lemma wp_current (Q : Conversation → W → Prop) E w :
  ui_ok (app w) → conversations_ (app w) ≠ [] →
  (∀ c, conversations_ (app w) !! Z.to_nat (selected_conv_ (app w)) = Some c →
     c ∈ conversations_ (app w) → Q c w) →
  wp (current app) Q E w.
Proof.
  intros [[_ _ W3] _] Hne HQ. unfold current, ask. apply wp_bind, wp_gets. cbn.
  destruct (Z.ltb_spec (selected_conv_ (app w)) 0); [lia|].
  destruct (conversations_ (app w) !! Z.to_nat (selected_conv_ (app w))) as [c|] eqn:E'.
  - apply wp_ret. apply HQ; [done|]. by eapply list_elem_of_lookup_2.
  - apply lookup_ge_None in E'. destruct (conversations_ (app w)); [done|]. cbn in *. lia.
Qed.

Lemma keeps_ui_ask (f : App → M W unit) :
  (∀ w, ui_ok (app w) → wp (f (app w)) ok ok w) → keeps_ui (ask app id ≫= f).
Proof. intros Hf w Hw. apply wp_bind, wp_gets. by apply Hf. Qed.

Ltac frame := apply keeps_ui_frame; by intros [].

Lemma wp_then {A B} (m : M W A) (m' : A → M W B) w :
  wp m ok ok w → (∀ a w', ui_ok (app w') → wp (m' a) ok ok w') → wp (m ≫= m') ok ok w.
Proof. intros Hm Hm'. apply wp_bind. eapply wp_mono; [exact Hm|exact Hm'|done]. Qed.

Lemma login_btn_ok : keeps_ui (login_btn app set_app cbs).
Proof.
  apply keeps_ui_ask. intros w Hw. repeat case_match; try by apply wp_ret.
  - by eapply ok_login.
  - by apply keeps_ui_advance.
Qed.

Lemma register_btn_ok : keeps_ui (register_btn app set_app cbs).
Proof.
  apply keeps_ui_ask. intros w Hw. repeat case_match; try by apply wp_ret.
  1-2: by apply keeps_ui_status.
  - by eapply ok_register.
  - by apply keeps_ui_advance.
Qed.

Lemma add_conversation_ok : keeps_ui (add_conversation app set_app).
Proof.
  apply keeps_ui_ask. intros w Hw. destruct (str_empty (new_peer_ (app w))); [by apply wp_ret|].
  apply wp_then; [|intros []; frame].
  destruct (find_peer _ _) as [i|] eqn:Hf; apply wp_modify; rewrite app_set_app;
    destruct Hw as [Hw T].
  - apply find_peer_Some in Hf as (c & _ & _ & Hi). destruct Hw as [W1 W2 W3].
    split; [|done]. split; cbn; [done|done|lia].
  - split.
    + apply (append_conv_wf (new_conversation _)); [done| |lia].
      rewrite (wf_names _ Hw). by apply find_peer_None.
    + apply Forall_app. split; [done|]. apply Forall_singleton. apply Forall_nil_2.
Qed.

Lemma do_send_ok : keeps_ui (do_send app set_app now_ms cbs).
Proof.
  apply keeps_ui_ask. intros w Hw. destruct (str_empty _); [by apply wp_ret|].
  destruct (editing_msg_ (app w)); [|destruct (forwarding_msg_ (app w))].
  - apply (keeps_ui_bind _ _); [|intros []; frame|done]. apply keeps_ui_opt.
    intros g Hg. destruct (on_edit cbs) as [f|] eqn:E; [|done]. injection Hg as <-.
    by eapply ok_edit.
  - apply (keeps_ui_bind _ _); [|intros []; frame|done].
    destruct (on_forward cbs) as [f|] eqn:E; [intros ?; by eapply ok_forward|].
    apply keeps_ui_opt. intros g Hg. destruct (on_send cbs) as [f|] eqn:E'; [|done].
    injection Hg as <-. by eapply ok_send.
  - destruct (on_send cbs) as [f|] eqn:E; case_bool_decide as Hne; try by apply wp_ret.
    + apply wp_bind, wp_current; [done|done|]. intros c _ _.
      apply (keeps_ui_bind _ _); [|intros []; frame|done]. intros ?; by eapply ok_send.
    + apply wp_bind. eapply wp_mono; [apply now_ms_ok| |done]. intros t w1 [Ht Hw1]. cbn beta.
      rewrite <-Hw1 in Hw, Hne. apply wp_bind, wp_current; [done|done|]. intros c _ _.
      apply wp_bind. eapply wp_mono; [apply now_ms_ok| |done]. intros t' w2 [Ht' Hw2]. cbn beta.
      rewrite <-Hw2 in Hw.
      apply (keeps_ui_bind _ _); [|intros []; frame|done]. apply keeps_ui_ui.
      intros a [HW T]. split; [|by apply ts_ok_alter].
      apply (set_convs_map_wf id (alter _ (Z.to_nat (selected_conv_ a)))); [|done].
      intros cs. apply alter_peers.
Qed.

Lemma compose_event_ok e : keeps_ui (compose_event app set_app now_ms cbs e ;; mret tt).
Proof.
  apply keeps_ui_bind; [|intros _; apply keeps_ui_ret]. intros w Hw. unfold compose_event.
  apply wp_bind, wp_gets. destruct e; try by apply wp_ret.
  - apply wp_then; [by apply do_send_ok|]. intros. by apply wp_ret.
  - destruct (_ || _); [|by apply wp_ret]. apply wp_then; [|intros; by apply wp_ret].
    revert Hw. frame.
  - destruct (_ && _ && _ && _) eqn:E; [|by apply wp_ret].
    apply andb_prop in E as [_ E]. apply negb_true_iff, bool_decide_eq_false in E.
    apply wp_bind, wp_current; [done|done|]. intros c _ _.
    apply wp_then; [|intros; by apply wp_ret].
    case_bool_decide; [by apply wp_ret|]. revert Hw. frame.
Qed.

Lemma check_editable_ok ts now w (Q : bool → W → Prop) E :
  0 ≤ ts < 2 ^ 63 → 0 ≤ now < 2 ^ 63 → (∀ b, Q b w) → wp (check_editable ts now) Q E w.
Proof.
  intros Hts Hnow HQ. unfold check_editable. rewrite is_editable_window by done.
  by apply wp_ret.
Qed.

(** The clock is read, then the window is checked. *)
Lemma wp_window ts (f : bool → M W unit) w :
  ui_ok (app w) → 0 ≤ ts < 2 ^ 63 → (∀ b, keeps_ui (f b)) →
  wp (now ← now_ms; okb ← check_editable ts now; f okb) ok ok w.
Proof.
  intros Hw Hts Hf. apply wp_bind. eapply wp_mono; [apply now_ms_ok| |done].
  intros t w1 [Ht Hw1]. cbn beta. apply wp_bind, check_editable_ok; [done|done|].
  intros b. apply Hf. by rewrite Hw1.
Qed.

Lemma verify_key_ok sel : keeps_ui (verify_key app set_app system sel).
Proof.
  unfold verify_key. apply keeps_ui_bind; [|intros []; frame].
  repeat case_match; [apply keeps_ui_status|apply system_ok|apply keeps_ui_status].
Qed.

Lemma option_key_ok sel c w :
  0 ≤ msg_timestamp_ms sel < 2 ^ 63 → ui_ok (app w) →
  wp (option_key app set_app now_ms system cbs sel c) ok ok w.
Proof.
  intros Hts Hw. unfold option_key. apply wp_bind, wp_gets.
  destruct (is_key "e" "E" c); [|destruct (is_key "d" "D" c); [|destruct (is_key "f" "F" c);
    [|destruct (is_key "v" "V" c); [|by apply wp_ret]]]].
  all: apply wp_then; [|intros; first [by apply wp_ret|apply wp_then; [|intros; by apply wp_ret]]].
  - destruct (negb _); [|by apply wp_ret]. apply wp_window; [done|done|].
    intros []; [frame|apply keeps_ui_status].
  - destruct (negb _); [|by apply wp_ret]. apply wp_window; [done|done|].
    intros []; [|apply keeps_ui_status]. apply keeps_ui_opt. intros g Hg.
    destruct (on_delete cbs) as [f|] eqn:E; [|done]. injection Hg as <-. by eapply ok_delete.
  - match goal with Hw' : ui_ok (app ?w') |- wp _ _ _ ?w' => revert Hw' end. frame.
  - revert Hw. frame.
  - by apply verify_key_ok.
Qed.

Lemma chat_event_ok e : keeps_ui (chat_event app set_app now_ms system cbs e ;; mret tt).
Proof.
  apply keeps_ui_bind; [|intros _; apply keeps_ui_ret]. intros w Hw. unfold chat_event.
  apply wp_bind, wp_gets. case_bool_decide as Hne; [by apply wp_ret|].
  apply wp_bind, wp_current; [done|done|]. intros c _ Hc. cbn [id].
  destruct (bool_decide (messages_ c = []) || (selected_msg_ (app w) <? 0)) eqn:Hsel;
    [by apply wp_ret|].
  apply orb_false_iff in Hsel as [_ Hsel]. apply Z.ltb_ge in Hsel.
  assert (∀ f, (∀ a, conversations_ (f a) = conversations_ a ∧ conv_names_ (f a) = conv_names_ a ∧
     selected_conv_ (f a) = selected_conv_ a) →
     wp (ui app set_app f ;; mret true) ok ok w) as Hui.
  { intros f Hf. apply wp_then; [|intros; by apply wp_ret]. by apply keeps_ui_frame. }
  destruct e as [| | | |s|]; try destruct (negb _ && negb _);
    try (by apply wp_ret); try (apply Hui; by intros []).
  all: destruct (negb (msg_options_open_ (app w))); [by apply wp_ret|].
  all: destruct (Z.leb_spec (Z.of_nat (length (messages_ c))) (selected_msg_ (app w)));
    [by apply wp_ret|].
  all: destruct (messages_ c !! Z.to_nat (selected_msg_ (app w))) as [sel|] eqn:E;
    [|apply lookup_ge_None in E; lia].
  all: apply option_key_ok; [|done]; destruct Hw as [_ T]; unfold ts_ok in T.
  all: rewrite Forall_forall in T; specialize (T c Hc); rewrite Forall_forall in T.
  all: apply T; by eapply list_elem_of_lookup_2.
Qed.

Lemma handle_ok ev : keeps_ui (handle ev).
Proof.
  destruct ev; cbn [handle].
  - apply login_btn_ok.
  - apply register_btn_ok.
  - apply add_conversation_ok.
  - apply do_send_ok.
  - unfold logout_btn. destruct (on_logout cbs) eqn:E; [by apply ok_logout|].
    apply keeps_ui_ui. intros a. apply post_ui_ok. by right; right.
  - apply compose_event_ok.
  - apply chat_event_ok.
Qed.
End handlers.

(** C32: No button or key makes the UI read outside its vectors or overflow, and the
    invariant holds again afterwards, as long as the callbacks keep it too.
    [2 ^ 63] bounds the timestamps: the clock and the stored rows are [int64_t]
    milliseconds since 1970. *)
Theorem ui_events_safe {W} (app : W → App) set_app now_ms system (cbs : AppCallbacks W) ev w :
  (∀ a w, app (set_app a w) = a) →
  (∀ w, wp now_ms (λ t w', 0 ≤ t < 2 ^ 63 ∧ app w' = app w) (λ _ _, False) w) →
  (∀ cmd, keeps_ui app (system cmd)) → callbacks_ok app cbs → ui_ok (app w) →
  wp (handle app set_app now_ms system cbs ev)
    (λ _ w', ui_ok (app w')) (λ _ w', ui_ok (app w')) w.
Proof. intros H1 H2 H3 H4 Hw. by apply handle_ok. Qed.

(** The UI on its own, without a client: the placeholder mode of [App::run]. *)
Definition no_callbacks : AppCallbacks App := mkCallbacks App None None None None None None None.

Lemma ui_events_safe_witness :
  let a := run_task (T_push_message (local_message "bob" "hi" 1 1)) new_app in
  wp (handle id (λ a _, a) (mret 5) (λ _, mret tt) no_callbacks (EvChat ArrowUp))
    (λ _ w', ui_ok w') (λ _ w', ui_ok w') a.
Proof.
  intros a. apply (ui_events_safe id (λ a _, a) (mret 5) (λ _, mret tt) no_callbacks (EvChat ArrowUp) a).
  - done.
  - intros w. apply wp_ret. split; [lia|done].
  - intros cmd w Hw. by apply wp_ret.
  - by split.
  - split; [apply (run_task_wf (T_push_message _)); split; cbn; [done|apply NoDup_nil_2|lia]|].
    apply Forall_singleton, Forall_singleton. cbn. lia.
Defined.
