(* ===== verification/AppView.v ===== *)
(** * AppView: the screens of [client/src/ui/App.cpp]

    The two renderers as functions from the UI state to the FTXUI document they build,
    and the start and end of [App::run].  FTXUI's element constructors are data; what it
    paints for a component ([Render()]) is one node with the component's contents.  A
    renderer that indexes outside a vector has no document. *)

From S2P Require Import Prelude Log Message Conversation App AppFacts.
Local Open Scope Z_scope.

(** [format_time]: hours and minutes in a buffer of six bytes; [None] when the text does not
    fit and the buffer's contents are indeterminate. *)
Definition format_time `{LogEnv} (ms : Z) : option string :=
  let '(h, m, _) := localtime (Z.quot ms 1000) in
  let text := pad_zeros 2 h +:+ ":" +:+ pad_zeros 2 m in
  if (String.length text <? 6)%nat then Some text else None.

(** Every time can be shown. *)
Lemma format_time_fits `{LogEnv} `{!LogEnvLaws} ms :
  ∃ text, format_time ms = Some text ∧ String.length text = 5%nat.
Proof.
  unfold format_time. destruct (localtime _) as [[h m] s] eqn:Ht.
  apply localtime_range in Ht as (Hh & Hm & _).
  assert (String.length (pad_zeros 2 h +:+ ":" +:+ pad_zeros 2 m) = 5%nat) as Hl
    by (rewrite !length_append, !pad_zeros_length by (left; lia); done).
  rewrite Hl. by eexists.
Qed.

(** ** FTXUI documents *)

Inductive Color : Type := Red | Cyan | Yellow | Blue | White.

Inductive Decorator : Type :=
| bold | dim | center | flex | border | inverted | focus
| color (c : Color)
| width (columns : Z).

(** [el_input]: text, placeholder and whether it is masked; [el_menu]: entries and index. *)
Inductive Element : Type :=
| el_text (s : string)
| el_paragraph (s : string)
| el_separator
| el_filler
| el_input (value placeholder : string) (masked : bool)
| el_button (label : string)
| el_menu (entries : list string) (selected : Z)
| el_hbox (es : list Element)
| el_vbox (es : list Element)
| el_yframe (e : Element)
| el_deco (e : Element) (d : Decorator).

(** [e | d], after the pipe operator of FTXUI. *)
Notation "e ▹ d" := (el_deco e d) (at level 40, left associativity).

(** The texts a document puts on the screen.  A masked input shows no character of its
    value, and an empty one its placeholder. *)
Fixpoint shown (e : Element) : list string :=
  match e with
  | el_text s | el_paragraph s => [s]
  | el_separator | el_filler => []
  | el_input v p masked =>
    if str_empty v then [p] else if (masked : bool) then [] else [v]
  | el_button l => [l]
  | el_menu es _ => es
  | el_hbox es | el_vbox es => flat_map shown es
  | el_yframe e | el_deco e _ => shown e
  end.

(** ** The login screen *)

Definition status_line (a : App) : Element :=
  if str_empty (status_msg_ a) then el_text "" ▹ dim
  else el_text (" " +:+ status_msg_ a) ▹ color Red.

Definition login_renderer (a : App) : Element :=
  el_vbox [
    el_filler;
    el_hbox [
      el_filler;
      el_vbox [
        el_text "EPIC Secure Messenger" ▹ bold ▹ center;
        el_text "End-to-end encrypted messaging" ▹ dim ▹ center;
        el_separator;
        el_hbox [el_text " Username : "; el_input (login_username_ a) "username" false ▹ flex];
        el_hbox [el_text " Password : "; el_input (login_password_ a) "password" true ▹ flex];
        el_hbox [el_text " Key PIN  : "; el_input (login_key_pin_ a) "6-digit PIN" true ▹ flex];
        el_separator;
        el_hbox [el_filler; el_button " Register "; el_text "  "; el_button " Login "; el_filler];
        status_line a ▹ center
      ] ▹ border ▹ width 46;
      el_filler
    ];
    el_filler
  ].

(** ** The chat screen *)

Section chat.
(** [std::localtime] and [strftime] in the local time zone *)
Context (format_time : Z → string).

Definition is_sent_row (user : string) (m : Message) : bool :=
  if str_empty (msg_sender m) then negb (bool_decide (msg_recipient m = user))
  else bool_decide (msg_sender m = user).

Definition row_label (a : App) (m : Message) : string :=
  if is_sent_row (local_username_ a) m
  then "[" +:+ format_time (msg_timestamp_ms m) +:+ "] you : "
  else "[" +:+ format_time (msg_timestamp_ms m) +:+ "] " +:+ msg_peer m +:+ " : ".

Definition message_row (a : App) (i : nat) (m : Message) : Element :=
  let sent := is_sent_row (local_username_ a) m in
  let sel := Z.of_nat i =? selected_msg_ a in
  let row := el_hbox [
    el_text (if sel then " > " else "   ");
    el_text (row_label a m) ▹ (if sent then color Blue else color White);
    (if msg_deleted m then el_text "(deleted)" ▹ dim ▹ flex else el_paragraph (msg_body m) ▹ flex);
    (if negb (msg_deleted m) && msg_edited m then el_text " (edited)" ▹ dim else el_text "");
    (if bool_decide (msg_type m = Forward) then el_text " (forwarded)" ▹ dim else el_text "")
  ] in
  if sel then row ▹ inverted else row.

(** [msg_els.back() = msg_els.back() | focus] *)
Fixpoint focus_last (es : list Element) : list Element :=
  match es with
  | [] => []
  | [e] => [e ▹ focus]
  | e :: es => e :: focus_last es
  end.

Definition no_messages : list Element := [el_text "No messages yet." ▹ dim ▹ center].

Definition message_list (a : App) : option (list Element) :=
  match conversations_ a with
  | [] => Some no_messages
  | _ =>
    c ← conversations_ a !! Z.to_nat (selected_conv_ a);
    match messages_ c with
    | [] => Some no_messages
    | ms => Some (focus_last (imap (message_row a) ms))
    end
  end.

Definition option_hint (now : Z) (a : App) (m : Message) : option string :=
  if negb (bool_decide (msg_recipient m = local_username_ a)) then
    in_window ← is_editable (msg_timestamp_ms m) now;
    Some (" Options:" +:+ (if (in_window : bool) then "  [E]dit" else "  [E]dit(expired)")
          +:+ (if in_window then "  [D]elete" else "  [D]elete(expired)")
          +:+ "  [F]orward  [V]erify  [Esc]=close")
  else Some " Options:  [F]orward  [V]erify  [Esc]=close".

Definition action_bar (now : Z) (a : App) : option Element :=
  if editing_msg_ a then
    Some (el_text " Editing — [Enter]=confirm  [Esc]=cancel" ▹ color Yellow)
  else if forwarding_msg_ a then
    Some (el_text " Forward to (type recipient, Enter to send, Esc to cancel)" ▹ color Yellow)
  else if (0 <=? selected_msg_ a) && negb (bool_decide (conversations_ a = [])) then
    c ← conversations_ a !! Z.to_nat (selected_conv_ a);
    match messages_ c !! Z.to_nat (selected_msg_ a) with
    | None => Some (el_text "")
    | Some m =>
      if msg_options_open_ a then
        hint ← option_hint now a m; Some (el_text hint ▹ color Yellow)
      else Some (el_text " [Enter]=options  [↑↓]=navigate  [Esc]=deselect" ▹ dim)
    end
  else Some (el_text "").

Definition peer_title (a : App) : option string :=
  match conversations_ a with
  | [] => Some "No conversations"
  | _ => peer_ <$> conversations_ a !! Z.to_nat (selected_conv_ a)
  end.

Definition header (a : App) : Element :=
  el_hbox ([el_text "  EPIC" ▹ bold ▹ color Cyan; el_text " Secure Messenger" ▹ color Cyan]
    ++ (if connected_ a then [] else [el_text " ● NO CONNECTION" ▹ color Red ▹ bold])
    ++ [el_filler; el_text (" " +:+ local_username_ a +:+ " ") ▹ bold; el_button " Logout "]).

Definition compose_label (a : App) : string :=
  if editing_msg_ a then " Edit > " else if forwarding_msg_ a then " Fwd to > " else " > ".

Definition compose_bar (a : App) : Element :=
  el_hbox [
    el_text (compose_label a) ▹
      (if editing_msg_ a || forwarding_msg_ a then color Yellow else color White);
    el_input (compose_text_ a) "Type a message..." false ▹ flex;
    el_text " ";
    el_button "Send"
  ].

Definition chat_renderer (now : Z) (a : App) : option Element :=
  msg_els ← message_list a;
  bar ← action_bar now a;
  title ← peer_title a;
  Some (el_vbox [
    header a;
    el_separator;
    el_hbox [
      el_vbox [
        el_text " Conversations" ▹ bold;
        el_separator;
        el_menu (conv_names_ a) (selected_conv_ a) ▹ flex;
        el_separator;
        el_hbox [el_input (new_peer_ a) "New chat..." false ▹ flex; el_button "+"]
      ] ▹ border ▹ width 22;
      el_vbox [
        el_text ("  " +:+ title) ▹ bold;
        el_separator;
        el_yframe (el_vbox msg_els) ▹ flex;
        el_separator;
        bar;
        el_separator;
        compose_bar a
      ] ▹ border ▹ flex
    ] ▹ flex
  ]).

(** [Container::Tab(Components{login_renderer, chat_renderer}, &active_screen_)] *)
Definition root (now : Z) (a : App) : option Element :=
  if active_screen_ a =? 0 then Some (login_renderer a) else chat_renderer now a.
End chat.

(** ** Start and end of [run] *)

(** Designated initializers leave the other members at their defaults. *)
Definition placeholder (id : Z) (peer recipient : string) (ts : Z) (body : string) : Message :=
  mkMessage id peer "" recipient ts Standard body false false None "" "" "".

Definition with_messages (peer : string) (ms : list Message) : Conversation :=
  foldl (flip add_message) (new_conversation peer) ms.

Definition seed_placeholder_data (now : Z) (a : App) : App :=
  let base := now - 3600000 in
  let cs := [
    with_messages "bob" [
      placeholder 1 "bob" "alice" base "Hey, are you there?";
      placeholder 2 "bob" "bob" (base + 60000) "Yeah, what's up?";
      placeholder 3 "bob" "alice" (base + 120000) "Did you see the lecture notes?"];
    with_messages "charlie" [
      placeholder 4 "charlie" "alice" (base + 1800000) "Project meeting at 3pm";
      placeholder 5 "charlie" "charlie" (base + 1860000) "Sure, I'll be there"];
    with_messages "diana" [
      placeholder 6 "diana" "diana" (base + 3000000) "I'll send the files over"]] in
  set_convs (conversations_ a ++ cs) (conv_names_ a) (selected_conv_ a)
    (set_screen (active_screen_ a) "alice" a).

(** What [run] does before the event loop: without a client the placeholder data, then the
    names for the menu. *)
Definition run_begin (has_login : bool) (now : Z) (a : App) : App :=
  let a := if has_login then a else seed_placeholder_data now a in
  set_screen_ptr true
    (set_convs (conversations_ a) (conv_names_ a ++ (peer_ <$> conversations_ a)) (selected_conv_ a) a).

(** And after it: the countdown is told to quit, and joined. *)
Definition run_end (a : App) : App :=
  let a := set_screen_ptr false a in
  let a := set_lockout (lockout_active_ a) (lockout_remaining_ a) true (lockout_thread_ a) a in
  let a := match lockout_thread_ a with NotJoinable => a | _ => lockout_join a end in
  set_lockout (lockout_active_ a) (lockout_remaining_ a) (lockout_quit_ a) NotJoinable a.

(** ** Rendering is defined *)

Lemma selected_conversation a :
  app_wf a → conversations_ a ≠ [] →
  ∃ c, conversations_ a !! Z.to_nat (selected_conv_ a) = Some c ∧ c ∈ conversations_ a.
Proof.
  intros [_ _ Hs] Hne. destruct (lookup_lt_is_Some_2 (conversations_ a) (Z.to_nat (selected_conv_ a)))
    as [c Hc].
  - destruct (conversations_ a); [done|]. cbn [length] in *. lia.
  - exists c. split; [done|]. by eapply list_elem_of_lookup_2.
Qed.

Lemma option_hint_defined now a m :
  0 ≤ now < 2 ^ 63 → 0 ≤ msg_timestamp_ms m < 2 ^ 63 → is_Some (option_hint now a m).
Proof.
  intros Hn Ht. unfold option_hint. rewrite (is_editable_window _ _ Ht Hn). by case_match.
Qed.

Lemma message_list_defined format_time a : app_wf a → is_Some (message_list format_time a).
Proof.
  intros Hwf. unfold message_list. destruct (conversations_ a) as [|c0 cs] eqn:E; [by eexists|].
  destruct (selected_conversation a Hwf) as (c & Hc & _); [by rewrite E|]. rewrite E in Hc.
  rewrite Hc. cbn. destruct (messages_ c); by eexists.
Qed.

Lemma peer_title_defined a : app_wf a → is_Some (peer_title a).
Proof.
  intros Hwf. unfold peer_title. destruct (conversations_ a) as [|c0 cs] eqn:E; [by eexists|].
  destruct (selected_conversation a Hwf) as (c & Hc & _); [by rewrite E|]. rewrite E in Hc.
  rewrite Hc. by eexists.
Qed.

Lemma action_bar_defined now a : ui_ok a → 0 ≤ now < 2 ^ 63 → is_Some (action_bar now a).
Proof.
  intros [Hwf Hts] Hn. unfold action_bar. destruct (editing_msg_ a); [by eexists|].
  destruct (forwarding_msg_ a); [by eexists|]. destruct (0 <=? selected_msg_ a); [|by eexists].
  case_bool_decide as Hne; [by eexists|]. cbn [negb andb].
  destruct (selected_conversation a Hwf Hne) as (c & -> & Hin). cbn [mbind option_bind].
  destruct (messages_ c !! _) as [m|] eqn:Hm; [|by eexists].
  destruct (msg_options_open_ a); [|by eexists].
  apply list_elem_of_lookup_2 in Hm. unfold ts_ok in Hts. rewrite Forall_forall in Hts.
  specialize (Hts c Hin). rewrite Forall_forall in Hts.
  destruct (option_hint_defined now a m Hn (Hts m Hm)) as [h ->]. by eexists.
Qed.

(** In every consistent UI state either screen can be drawn: the renderers index only
    inside their vectors and the test of the edit window does not overflow. *)
Theorem screens_are_defined format_time now a :
  ui_ok a → 0 ≤ now < 2 ^ 63 → is_Some (root format_time now a).
Proof.
  intros Hok Hn. unfold root. destruct (active_screen_ a =? 0); [by eexists|]. unfold chat_renderer.
  destruct (message_list_defined format_time a (proj1 Hok)) as [els ->].
  destruct (action_bar_defined now a Hok Hn) as [bar ->].
  destruct (peer_title_defined a (proj1 Hok)) as [title ->]. by eexists.
Qed.

(** ** The status line *)

(** The same state, or the same but for the status line while the chat is on screen. *)
Definition same_but_status (a b : App) : Prop :=
  a = b ∨ (active_screen_ a = 1 ∧ ∃ m, b = set_status m a).

Lemma run_task_same t a b :
  same_but_status a b → same_but_status (run_task t a) (run_task t b).
Proof.
  intros [->|(Ha & m & ->)]; [by left|].
  destruct t; cbn [run_task]; unfold push_update, remove_conversation_update;
    cbn [conversations_ conv_names_ selected_conv_ set_status]; repeat case_match; try (by left);
    right; (split; [done || exact Ha|by exists m]).
Qed.

Lemma same_screen format_time now a b :
  same_but_status a b → root format_time now a = root format_time now b.
Proof. intros [->|(Ha & m & ->)]; [done|]. unfold root. cbn [active_screen_ set_status]. by rewrite Ha. Qed.

(** C34: A status message that arrives while the chat is on screen is never seen: whatever
    updates follow, the screen is the one that would be drawn without it. *)
Theorem chat_status_never_shown format_time now msg a ts :
  active_screen_ a = 1 →
  root format_time now (foldl (flip run_task) a (T_status msg :: ts))
  = root format_time now (foldl (flip run_task) a ts).
Proof.
  intros Ha. symmetry. apply same_screen. cbn [foldl flip].
  assert (same_but_status a (run_task (T_status msg) a)) as Hs by (right; split; [done|by exists msg]).
  revert Hs. generalize (run_task (T_status msg) a). clear Ha. revert a.
  induction ts as [|t ts IH]; intros a b Hs; [done|]. cbn [foldl flip]. by apply IH, run_task_same.
Qed.

(** Deleting a message takes its text off the screen: its row does not depend on the body. *)
Theorem deleted_body_hidden format_time a i m body :
  msg_deleted m = true → message_row format_time a i (set_body body m) = message_row format_time a i m.
Proof. intros Hd. unfold message_row, row_label. cbn. by rewrite Hd. Qed.

(** ** Start and end *)

(** The UI starts in a consistent state: empty with a client, with the placeholder
    conversations without one. *)
Theorem run_begin_ok has_login now :
  3600000 ≤ now < 2 ^ 63 → ui_ok (run_begin has_login now new_app).
Proof.
  intros Hn. destruct has_login.
  - split; [split; cbn; [done|apply NoDup_nil_2|lia]|apply Forall_nil_2].
  - split; [split; cbn; [done| |lia]|].
    + by apply (bool_decide_unpack _).
    + unfold ts_ok. cbn. repeat (apply Forall_cons; split); try apply Forall_nil_2;
        repeat (apply Forall_cons; split); try apply Forall_nil_2; cbn; lia.
Qed.

Lemma lockout_join_quit n a :
  lockout_quit_ a = true → ∃ th,
  Nat.iter n lockout_tick a = set_lockout (lockout_active_ a) (lockout_remaining_ a) true th a.
Proof.
  intros Hq. induction n as [|n [th IH]].
  - exists (lockout_thread_ a). destruct a. cbn in *. by subst.
  - cbn [Nat.iter nat_rect]. change (nat_rect _ a _ n) with (Nat.iter n lockout_tick a). rewrite IH.
    unfold lockout_tick. cbn. destruct th; [by exists NotJoinable| |by exists Finished].
    rewrite andb_false_r. by exists Finished.
Qed.

(** Leaving [run] stops and joins the countdown without waiting it out: the seconds left and
    the lock stay as they are. *)
Theorem run_end_joins a :
  run_end a = set_lockout (lockout_active_ a) (lockout_remaining_ a) true NotJoinable
    (set_screen_ptr false a).
Proof.
  unfold run_end, lockout_join. cbn [lockout_thread_ set_lockout set_screen_ptr].
  destruct (lockout_thread_ a); [done|..].
  all: match goal with |- context [Nat.iter ?n lockout_tick ?b] =>
    destruct (lockout_join_quit n b eq_refl) as [th ->] end; done.
Qed.

(** ** The theorems at a concrete state *)

(** The UI without a client, on the chat screen. *)
Definition demo : App := set_screen 1 "alice" (run_begin false 1700000000000 new_app).

Lemma screens_are_defined_witness : is_Some (root pretty 1700000000000 demo).
Proof.
  apply screens_are_defined; [|lia].
  apply (ui_ok_ext (run_begin false 1700000000000 new_app)); [done..|].
  apply run_begin_ok. lia.
Defined.

Lemma chat_status_never_shown_witness :
  root pretty 1700000000000 (foldl (flip run_task) demo
    [T_status "WARNING: identity key for 'bob' changed"; T_push_message (local_message "bob" "hi" 7 7)])
  = root pretty 1700000000000 (foldl (flip run_task) demo
    [T_push_message (local_message "bob" "hi" 7 7)]).
Proof. apply chat_status_never_shown. reflexivity. Defined.

(** What the chat screen of the placeholder conversation with diana shows. *)
Example demo_screen :
  (λ e, filter (λ s, String.prefix "I'll" s) (shown e)) <$>
    root pretty 1700000000000 (set_convs (conversations_ demo) (conv_names_ demo) 2 demo)
  = Some ["I'll send the files over"].
Proof. vm_compute. reflexivity. Qed.
