(* ===== verification/AppThreads.v ===== *)
(** * AppThreads: the threads around [App::run] of [client/src/ui/App.cpp]

    The UI thread in [run], the thread that repaints every second, the countdown thread of
    [start_lockout], and the network thread that posts updates and starts the countdown,
    as interleaved steps.  A step is one access to what they share: [screen_ptr_], the
    flags and the [screen] object on the stack of [run].  Every posting operation reads
    [screen_ptr_] twice, to test it and to call through it, without a lock. *)

From S2P Require Import Prelude.

(** ** Where the threads are *)

(** The UI thread: in [screen.Loop], then the statements after it, and gone. *)
Inductive UiPc : Type :=
  | U_loop | U_clear | U_stop | U_quit | U_join_refresh | U_join_lockout | U_return | U_done.

(** The repainting thread: [while (running) { sleep; if (running) PostEvent }]. *)
Inductive RefreshPc : Type := F_check | F_sleep | F_recheck | F_post | F_done.

#[global] Instance RefreshPc_eq_dec : EqDecision RefreshPc.
Proof. solve_decision. Defined.

(** [push_status] and the other posting operations: the test of [screen_ptr_], the call
    through it, and the direct update when it is null. *)
Inductive PostPc : Type := P_test | P_use | P_direct.

(** The countdown thread: no thread, its loop, a [push_status] in it, the sleep, the
    decrement, the test behind the loop and the last [push_status]. *)
Inductive LockoutPc : Type :=
  | L_none | L_cond | L_status (p : PostPc) | L_sleep | L_decrement | L_after | L_last (p : PostPc) | L_done.

(** The network thread: between frames, posting, and in [start_lockout] joining the old
    countdown. *)
Inductive NetPc : Type := N_idle | N_post (p : PostPc) | N_join.

(** ** What they share *)

Record Ui : Type := mkUi {
  screen_ptr : bool;      (** [screen_ptr_] is not null *)
  screen_alive : bool;    (** [screen] exists *)
  running : bool;         (** the local flag of [run] *)
  lockout_quit : bool;    (** [lockout_quit_] *)
  remaining : nat;        (** [lockout_remaining_] *)
  logins : nat;           (** logins under way, which may end in [start_lockout] *)
}.

Record AppSystem : Type := mkAppSystem {
  ui_thread : UiPc;
  refresh_thread : RefreshPc;
  lockout_thread : LockoutPc;
  net_thread : NetPc;
  shared : Ui;
}.

Definition set_screen_ptr (b : bool) (s : Ui) : Ui :=
  mkUi b (screen_alive s) (running s) (lockout_quit s) (remaining s) (logins s).
Definition set_screen_alive (b : bool) (s : Ui) : Ui :=
  mkUi (screen_ptr s) b (running s) (lockout_quit s) (remaining s) (logins s).
Definition set_running (b : bool) (s : Ui) : Ui :=
  mkUi (screen_ptr s) (screen_alive s) b (lockout_quit s) (remaining s) (logins s).
Definition set_lockout_quit (b : bool) (s : Ui) : Ui :=
  mkUi (screen_ptr s) (screen_alive s) (running s) b (remaining s) (logins s).
Definition set_remaining (n : nat) (s : Ui) : Ui :=
  mkUi (screen_ptr s) (screen_alive s) (running s) (lockout_quit s) n (logins s).
Definition set_logins (n : nat) (s : Ui) : Ui :=
  mkUi (screen_ptr s) (screen_alive s) (running s) (lockout_quit s) (remaining s) n.

(** [joinable() == false], or the thread has ended. *)
Definition ended (l : LockoutPc) : bool := match l with L_none | L_done => true | _ => false end.

(** ** Steps *)

(** The statements of [run] from the loop on.  During the loop the user may log in. *)
Inductive ui_step : UiPc → RefreshPc → LockoutPc → Ui → UiPc → Ui → Prop :=
  | ui_login f l s : ui_step U_loop f l s U_loop (set_logins (S (logins s)) s)
  | ui_leaves f l s : ui_step U_loop f l s U_clear s
  | ui_clears f l s : ui_step U_clear f l s U_stop (set_screen_ptr false s)
  | ui_stops f l s : ui_step U_stop f l s U_quit (set_running false s)
  | ui_quits f l s : ui_step U_quit f l s U_join_refresh (set_lockout_quit true s)
  | ui_joins_refresh l s : ui_step U_join_refresh F_done l s U_join_lockout s
  | ui_joins_lockout f l s : ended l = true → ui_step U_join_lockout f l s U_return s
  | ui_returns f l s : ui_step U_return f l s U_done (set_screen_alive false s).

Inductive refresh_step : RefreshPc → Ui → RefreshPc → Prop :=
  | refresh_checks s : refresh_step F_check s (if running s then F_sleep else F_done)
  | refresh_wakes s : refresh_step F_sleep s F_recheck
  | refresh_rechecks s : refresh_step F_recheck s (if running s then F_post else F_check)
  | refresh_posts s : refresh_step F_post s F_check.

(** One access of a posting operation; [None] when it is over. *)
Inductive post_step : PostPc → Ui → option PostPc → Prop :=
  | post_tests s : post_step P_test s (Some (if screen_ptr s then P_use else P_direct))
  | post_uses s : post_step P_use s None
  | post_directly s : post_step P_direct s None.

Inductive lockout_step : LockoutPc → Ui → LockoutPc → Ui → Prop :=
  | lockout_loops s :
      lockout_step L_cond s
        (if (0 <? remaining s)%nat && negb (lockout_quit s) then L_status P_test else L_after) s
  | lockout_posts p q s : post_step p s (Some q) → lockout_step (L_status p) s (L_status q) s
  | lockout_posted p s : post_step p s None → lockout_step (L_status p) s L_sleep s
  | lockout_wakes s : lockout_step L_sleep s L_decrement s
  | lockout_decrements s : lockout_step L_decrement s L_cond (set_remaining (pred (remaining s)) s)
  | lockout_ends s : lockout_step L_after s (if lockout_quit s then L_done else L_last P_test) s
  | lockout_clears p q s : post_step p s (Some q) → lockout_step (L_last p) s (L_last q) s
  | lockout_cleared p s : post_step p s None → lockout_step (L_last p) s L_done s.

(** The longest countdown, as [lockout_delay] caps it. *)
Definition max_lockout : nat := 300.

(** The network thread posts whenever a frame asks for it. *)
Inductive net_step : NetPc → Ui → NetPc → Prop :=
  | net_frame s : net_step N_idle s (N_post P_test)
  | net_posts p q s : post_step p s (Some q) → net_step (N_post p) s (N_post q)
  | net_posted p s : post_step p s None → net_step (N_post p) s N_idle.

(** A login that failed on the PIN starts the countdown, joining the one before. *)
Inductive start_step : NetPc → LockoutPc → Ui → NetPc → LockoutPc → Ui → Prop :=
  | net_wrong_pin l s n : logins s = S n → start_step N_idle l s N_join l (set_logins n s)
  | net_starts l s k : ended l = true → (k ≤ max_lockout)%nat →
      start_step N_join l s N_idle L_cond (set_remaining k s).

(** A posting step of the network thread. *)
Inductive posts : AppSystem → AppSystem → Prop :=
  | step_post u f l n s n' : net_step n s n' →
      posts (mkAppSystem u f l n s) (mkAppSystem u f l n' s).

(** Any other step. *)
Inductive moves_on : AppSystem → AppSystem → Prop :=
  | step_ui u f l n s u' s' : ui_step u f l s u' s' →
      moves_on (mkAppSystem u f l n s) (mkAppSystem u' f l n s')
  | step_refresh u f l n s f' : refresh_step f s f' →
      moves_on (mkAppSystem u f l n s) (mkAppSystem u f' l n s)
  | step_lockout u f l n s l' s' : lockout_step l s l' s' →
      moves_on (mkAppSystem u f l n s) (mkAppSystem u f l' n s')
  | step_start u f l n s n' l' s' : start_step n l s n' l' s' →
      moves_on (mkAppSystem u f l n s) (mkAppSystem u f l' n' s').

Definition app_step (a b : AppSystem) : Prop := posts a b ∨ moves_on a b.

(** [run] as it enters the loop: the pointer is set and the repainting thread started. *)
Definition entering : AppSystem :=
  mkAppSystem U_loop F_check L_none N_idle (mkUi true true true false 0 0).

Definition app_reachable : AppSystem → Prop := rtc app_step entering.

(** ** The invariant *)

(** Past a statement of [run]. *)
Definition ui_rank (u : UiPc) : nat :=
  match u with
  | U_loop => 7 | U_clear => 6 | U_stop => 5 | U_quit => 4 | U_join_refresh => 3
  | U_join_lockout => 2 | U_return => 1 | U_done => 0
  end.

(** The countdown is inside its loop. *)
Definition counting (l : LockoutPc) : bool :=
  match l with L_status _ | L_sleep | L_decrement => true | _ => false end.

Record app_inv (a : AppSystem) : Prop := {
  ai_ptr : screen_ptr (shared a) = (6 <=? ui_rank (ui_thread a))%nat;
  ai_running : running (shared a) = (5 <=? ui_rank (ui_thread a))%nat;
  ai_quit : lockout_quit (shared a) = (ui_rank (ui_thread a) <=? 3)%nat;
  ai_alive : screen_alive (shared a) = (1 <=? ui_rank (ui_thread a))%nat;
  ai_refresh : (ui_rank (ui_thread a) ≤ 2)%nat → refresh_thread a = F_done;
  ai_counting : counting (lockout_thread a) = true → (0 < remaining (shared a))%nat;
  ai_remaining : (remaining (shared a) ≤ max_lockout)%nat;
}.

Lemma app_inv_entering : app_inv entering.
Proof. split; cbn; try done; unfold max_lockout; lia. Qed.

Lemma app_inv_step a b : app_inv a → app_step a b → app_inv b.
Proof.
  intros [A1 A2 A3 A4 A5 A6 A7] [Hs|Hs].
  - destruct Hs. by split.
  - destruct Hs as [u f l n s u' s' Hs|u f l n s f' Hs|u f l n s l' s' Hs|u f l n s n' l' s' Hs]; cbn in *.
    + destruct Hs; split; cbn in *; try done; try lia.
      all: intros; try apply A5; lia.
    + destruct Hs; split; cbn in *; try done; intros Hu; specialize (A5 Hu); try congruence.
    + destruct Hs; split; cbn in *; try done; try lia.
      * intros Hc. destruct (remaining s); [done|lia].
      * by destruct (lockout_quit s).
    + destruct Hs; split; cbn in *; try done.
Qed.

Lemma app_reachable_inv a : app_reachable a → app_inv a.
Proof.
  intros Hr. unfold app_reachable in Hr. remember entering as e eqn:He.
  assert (app_inv e) as Hi by (subst; apply app_inv_entering). clear He.
  induction Hr as [|x y z Hxy _ IH]; [done|]. apply IH. by eapply app_inv_step.
Qed.

(** ** Leaving [run] *)

Definition refresh_rank (f : RefreshPc) : nat :=
  match f with F_done => 0 | F_check => 1 | F_post => 2 | F_recheck => 2 | F_sleep => 3 end.

Definition post_rank (p : PostPc) : nat := match p with P_test => 1 | _ => 0 end.

(** The steps the countdown has left, at most ten per second. *)
Definition lockout_rank (l : LockoutPc) (r : nat) : nat :=
  match l with
  | L_none | L_done => 0
  | L_cond => 10 * r + 5
  | L_status p => 10 * r + 3 + post_rank p
  | L_sleep => 10 * r + 2
  | L_decrement => 10 * r + 1
  | L_after => 4
  | L_last p => 2 + post_rank p
  end.

Definition start_cost : nat := 10 * max_lockout + 6.

Lemma start_cost_eq : start_cost = (10 * max_lockout + 6)%nat.
Proof. reflexivity. Qed.
#[local] Opaque max_lockout start_cost.

Definition net_rank (n : NetPc) : nat := match n with N_join => start_cost | _ => 0 end.

Definition weight (a : AppSystem) : nat :=
  ui_rank (ui_thread a) + refresh_rank (refresh_thread a) +
  lockout_rank (lockout_thread a) (remaining (shared a)) + net_rank (net_thread a) +
  S start_cost * logins (shared a).

Lemma posts_weight a b : posts a b → weight b = weight a ∧ ui_thread b = ui_thread a ∧ shared b = shared a.
Proof.
  destruct 1 as [u f l n s n' Hs]. unfold weight. cbn. split; [|done]. by destruct Hs.
Qed.

(** Once [running] is cleared every other step is progress. *)
Lemma moves_on_weight a b :
  app_inv a → running (shared a) = false → moves_on a b →
  running (shared b) = false ∧ (weight b < weight a)%nat.
Proof.
  intros [A1 A2 A3 A4 A5 A6 A7] Hrun Hs. unfold weight.
  destruct Hs as [u f l n s u' s' Hs|u f l n s f' Hs|u f l n s l' s' Hs|u f l n s n' l' s' Hs]; cbn in *.
  - destruct Hs; cbn in *; try (split; [done|lia]); congruence.
  - destruct Hs; cbn in *; rewrite ?Hrun; cbn; (split; [done|lia]).
  - destruct Hs as [s|p q s Hp|p s Hp|s|s|s|p q s Hp|p s Hp]; cbn in *; try (split; [done|]).
    + destruct (_ && _) eqn:E; cbn; lia.
    + inversion Hp; subst. destruct (screen_ptr s); cbn; lia.
    + lia.
    + lia.
    + specialize (A6 eq_refl). lia.
    + destruct (lockout_quit s); cbn; lia.
    + inversion Hp; subst. destruct (screen_ptr s); cbn; lia.
    + lia.
  - destruct Hs as [l s n Hl|l s k He Hk]; cbn in *; (split; [done|]).
    + rewrite Hl. lia.
    + pose proof start_cost_eq. destruct l; cbn in *; try done; lia.
Qed.

(** Some thread other than the network thread can always go on. *)
Lemma moves_on_progress a : app_inv a → running (shared a) = false → ui_thread a ≠ U_done → ∃ b, moves_on a b.
Proof.
  intros [A1 A2 A3 A4 A5 A6 A7] Hrun Hu. destruct a as [u f l n s]. cbn in *.
  assert (f ≠ F_done → ∃ f', refresh_step f s f') as Hf by (destruct f; [eauto using refresh_step..|done]).
  assert (∀ p, ∃ o, post_step p s o) as Hp by (intros []; eauto using post_step).
  assert (ended l = false → ∃ l' s', lockout_step l s l' s') as Hl.
  { destruct l; try done; intros _; eauto using lockout_step;
      destruct (Hp p) as [[q|] Hq]; eauto using lockout_step. }
  destruct u; cbn in *; try congruence; try (by eexists; apply step_ui; constructor).
  - destruct (decide (f = F_done)) as [->|Hne]; [by eexists; apply step_ui; constructor|].
    destruct (Hf Hne) as [f' ?]. eexists. by apply step_refresh.
  - destruct (ended l) eqn:He; [by eexists; apply step_ui; constructor|].
    destruct (Hl eq_refl) as (l' & s' & ?). eexists. by apply step_lockout.
Qed.

(** [run] returns: it has, or however often the network thread posts some other thread can
    go on, and whichever does brings it closer. *)
Inductive returns (a : AppSystem) : Prop :=
  | returned : ui_thread a = U_done → returns a
  | returning :
      (∀ a', rtc posts a a' → ∃ b, moves_on a' b) →
      (∀ a' b, rtc posts a a' → moves_on a' b → returns b) → returns a.

Lemma rtc_posts a b :
  rtc posts a b → app_inv a →
  app_inv b ∧ weight b = weight a ∧ ui_thread b = ui_thread a ∧ shared b = shared a.
Proof.
  induction 1 as [a|a b c Hab _ IH]; intros Ha; [done|].
  destruct (posts_weight a b Hab) as (E1 & E2 & E3).
  destruct IH as (I1 & I2 & I3 & I4); [by eapply app_inv_step; [|left]|]. split_and!; [done|congruence..].
Qed.

Lemma weight_returns a : app_inv a → running (shared a) = false → returns a.
Proof.
  induction a as [a IH] using (induction_ltof1 _ weight). intros Ha Hr.
  destruct (decide (ui_rank (ui_thread a) = 0%nat)) as [Hu|Hu].
  { apply returned. by destruct (ui_thread a). }
  assert (ui_thread a ≠ U_done) as Hne by (intros E; by rewrite E in Hu).
  apply returning; intros a'; [intros Hp|intros b Hp Hb];
    destruct (rtc_posts a a' Hp Ha) as (Ha' & Ew & Eu & Es); [apply moves_on_progress; congruence|].
  destruct (moves_on_weight a' b Ha' ltac:(congruence) Hb) as [Hrb Hwb].
  apply IH; [unfold ltof; lia| |done]. eapply app_inv_step; [exact Ha'|]. by right.
Qed.


(** ** The unprotected pointer *)

(** A thread is about to call through [screen_ptr_], and it is null. *)
Definition null_call (a : AppSystem) : Prop :=
  screen_ptr (shared a) = false ∧
  (net_thread a = N_post P_use ∨ lockout_thread a = L_status P_use).

(** C20: The test and the call of a posting operation can be separated by the end of the UI
    loop: a reachable state has the network thread about to call through a null
    [screen_ptr_], and one has the countdown thread there, whose join comes after the
    pointer is cleared. *)
Theorem posting_races_with_quit :
  (∃ a, app_reachable a ∧ null_call a ∧ net_thread a = N_post P_use) ∧
  (∃ a, app_reachable a ∧ null_call a ∧ lockout_thread a = L_status P_use).
Proof.
  split.
  - exists (mkAppSystem U_stop F_check L_none (N_post P_use) (mkUi false true true false 0 0)).
    split; [|split; [split; [done|by left]|done]].
    apply (rtc_l _ _ (mkAppSystem U_loop F_check L_none (N_post P_test) (mkUi true true true false 0 0)));
      [left; repeat constructor|].
    apply (rtc_l _ _ (mkAppSystem U_loop F_check L_none (N_post P_use) (mkUi true true true false 0 0)));
      [left; constructor; exact (net_posts P_test _ _ (post_tests _))|].
    apply (rtc_l _ _ (mkAppSystem U_clear F_check L_none (N_post P_use) (mkUi true true true false 0 0)));
      [right; apply step_ui, ui_leaves|].
    apply rtc_once. right. apply step_ui, ui_clears.
  - exists (mkAppSystem U_stop F_check (L_status P_use) N_idle (mkUi false true true false 5 0)).
    split; [|split; [split; [done|by right]|done]].
    apply (rtc_l _ _ (mkAppSystem U_loop F_check L_none N_idle (mkUi true true true false 0 1)));
      [right; apply step_ui, ui_login|].
    apply (rtc_l _ _ (mkAppSystem U_loop F_check L_none N_join (mkUi true true true false 0 0)));
      [right; by apply step_start, net_wrong_pin|].
    apply (rtc_l _ _ (mkAppSystem U_loop F_check L_cond N_idle (mkUi true true true false 5 0)));
      [right; apply step_start, (net_starts L_none (mkUi true true true false 0 0) 5); [done|by apply (Nat.leb_le 5 max_lockout)]|].
    apply (rtc_l _ _ (mkAppSystem U_loop F_check (L_status P_test) N_idle (mkUi true true true false 5 0)));
      [right; exact (step_lockout _ _ _ _ _ _ _ (lockout_loops (mkUi true true true false 5 0)))|].
    apply (rtc_l _ _ (mkAppSystem U_loop F_check (L_status P_use) N_idle (mkUi true true true false 5 0)));
      [right; apply step_lockout; exact (lockout_posts P_test _ _ (post_tests _))|].
    apply (rtc_l _ _ (mkAppSystem U_clear F_check (L_status P_use) N_idle (mkUi true true true false 5 0)));
      [right; apply step_ui, ui_leaves|].
    apply rtc_once. right. apply step_ui, ui_clears.
Qed.

