(* ===== verification/Client.v ===== *)
(** * Client: [client/src/client/Client.{h,cpp}]

    The orchestrator: login and registration, the session keyed by the WebSocket
    connection, sending, receiving, editing and deleting messages, and the
    bookkeeping between the in-memory conversations, the local store, the crypto
    subprocess and the UI.

    The components it calls come in through what they promise: the connection
    through the class [Transport] (instantiated by [Connection] in
    [ClientTransport]), the subprocess through [abs_call] ([CryptoProxyFacts]
    shows the pipes implement it), the store through [MessageStore]'s statements
    on the database file, the UI through [App].  A handler is a statement over the
    state [World]; each runs on one thread from start to end. *)

From S2P Require Import Prelude Json Message Conversation MessageStore.
From S2P Require Import Codec CryptoProxy CryptoProxyFacts App.
Local Open Scope Z_scope.

(** ** What the client needs around it *)

Record HttpResponse : Type := mkHttpResponse { http_status : Z; http_body : string }.

(** The server connection: [tr_env] is the network while no connection object
    exists. *)
Class Transport := {
  transport : Type;
  tr_env : Type;
  tr_new : tr_env → string → Z → bool → transport;
  tr_env_of : transport → tr_env;
  tr_connect : string → M transport unit;
  tr_send_text : string → M transport unit;
  tr_disconnect : M transport unit;
  tr_is_connected : transport → bool;
  tr_tls : transport → bool;
  tr_cert_fingerprint : transport → string;
  tr_https_post : tr_env → string → Z → string → string → tr_env * result HttpResponse;
}.

(** What [Connection] promises the client. *)
Class TransportLaws `{Transport} : Prop := {
  tr_new_disconnected e h p t : tr_is_connected (tr_new e h p t) = false;
  tr_new_tls e h p t : tr_tls (tr_new e h p t) = t;
  tr_disconnect_ok t : ∃ t', tr_disconnect t = (Ret tt, t') ∧ tr_is_connected t' = false;
  tr_connect_ok pin t t' :
    tr_connect pin t = (Ret tt, t') → tr_is_connected t' = true ∧
    (tr_tls t = true → pin = "" ∨ pin = tr_cert_fingerprint t');
  tr_connect_fail pin t e t' : tr_connect pin t = (Exn e, t') → tr_is_connected t' = false;
  tr_connect_safe pin t w t' : tr_connect pin t ≠ (Stuck w, t');
  tr_send_text_safe s t w t' : tr_send_text s t ≠ (Stuck w, t');
  tr_send_text_offline s t :
    tr_is_connected t = false → ∃ e, tr_send_text s t = (Exn e, t);
  tr_send_text_connected s t o t' :
    tr_send_text s t = (o, t') → tr_is_connected t' = tr_is_connected t;
  tr_send_text_fingerprint s t o t' :
    tr_send_text s t = (o, t') → tr_cert_fingerprint t' = tr_cert_fingerprint t;
}.

(** The process environment: the clock's readings in order, [getenv], and the
    paths [sqlite3_open] refuses. *)
Class ClientEnv := {
  system_clock : nat → Z;
  xdg_data_home : option string;
  home : option string;
  sqlite_open_error : string → option string;
}.

(** [std::filesystem::path::operator/] *)
Definition path_join (a b : string) : string :=
  if String.prefix "/" b then b
  else
    match reverse (String.list_ascii_of_string a) with
    | [] | "/"%char :: _ => a +:+ b
    | _ => a +:+ "/" +:+ b
    end.

Definition db_path_for `{ClientEnv} (username : string) : string :=
  let base := match xdg_data_home with
              | Some xdg => xdg
              | None => default "." home +:+ "/.local/share"
              end in
  path_join (path_join base "epic") (username +:+ ".db").

(** ** State *)

Section client.
Context `{NlohmannJson} `{EvpCodec} `{Subprocess} `{Sqlite} `{Transport} `{ClientEnv}.

(** The members of [Client], with [mutex_] as "held", [store_] as the open file and
    its last row id; then the rest of the machine: the database files, the network,
    the number of clock readings, the log file and the frames handed to the
    server. *)
Record World : Type := mkWorld {
  host_ : string;
  port_ : Z;
  current_user_ : string;
  pin_fail_count_ : Z;
  pending_key_pin_ : string;
  quit_ : bool;
  encrypted_dek_ : json;
  encrypted_state_ : json;
  server_cert_pin_ : string;
  mutex_ : bool;
  conversations_ : gmap string Conversation;
  pending_sends_ : gmap string (list string);
  connection_ : option transport;
  crypto_ : child;
  store_ : option (string * Z);
  app_ : App;
  disk : gmap string Db;
  outside : tr_env;
  ticks : nat;
  log_ : list string;
  sent_ : list string;
}.

Definition set_session (user : string) (dek st : json) (w : World) : World :=
  mkWorld (host_ w) (port_ w) user (pin_fail_count_ w) (pending_key_pin_ w) (quit_ w) dek st
    (server_cert_pin_ w) (mutex_ w) (conversations_ w) (pending_sends_ w) (connection_ w)
    (crypto_ w) (store_ w) (app_ w) (disk w) (outside w) (ticks w) (log_ w) (sent_ w).
Definition set_current_user (u : string) (w : World) : World :=
  set_session u (encrypted_dek_ w) (encrypted_state_ w) w.
Definition set_encrypted_dek (j : json) (w : World) : World :=
  set_session (current_user_ w) j (encrypted_state_ w) w.
Definition set_encrypted_state (j : json) (w : World) : World :=
  set_session (current_user_ w) (encrypted_dek_ w) j w.
Definition set_pin (fails : Z) (pending : string) (w : World) : World :=
  mkWorld (host_ w) (port_ w) (current_user_ w) fails pending (quit_ w) (encrypted_dek_ w)
    (encrypted_state_ w) (server_cert_pin_ w) (mutex_ w) (conversations_ w) (pending_sends_ w)
    (connection_ w) (crypto_ w) (store_ w) (app_ w) (disk w) (outside w) (ticks w) (log_ w)
    (sent_ w).
Definition set_quit (b : bool) (w : World) : World :=
  mkWorld (host_ w) (port_ w) (current_user_ w) (pin_fail_count_ w) (pending_key_pin_ w) b
    (encrypted_dek_ w) (encrypted_state_ w) (server_cert_pin_ w) (mutex_ w) (conversations_ w)
    (pending_sends_ w) (connection_ w) (crypto_ w) (store_ w) (app_ w) (disk w) (outside w)
    (ticks w) (log_ w) (sent_ w).
Definition set_server_cert_pin (p : string) (w : World) : World :=
  mkWorld (host_ w) (port_ w) (current_user_ w) (pin_fail_count_ w) (pending_key_pin_ w)
    (quit_ w) (encrypted_dek_ w) (encrypted_state_ w) p (mutex_ w) (conversations_ w)
    (pending_sends_ w) (connection_ w) (crypto_ w) (store_ w) (app_ w) (disk w) (outside w)
    (ticks w) (log_ w) (sent_ w).
Definition set_mutex (b : bool) (w : World) : World :=
  mkWorld (host_ w) (port_ w) (current_user_ w) (pin_fail_count_ w) (pending_key_pin_ w)
    (quit_ w) (encrypted_dek_ w) (encrypted_state_ w) (server_cert_pin_ w) b (conversations_ w)
    (pending_sends_ w) (connection_ w) (crypto_ w) (store_ w) (app_ w) (disk w) (outside w)
    (ticks w) (log_ w) (sent_ w).
Definition set_conversations (cs : gmap string Conversation) (w : World) : World :=
  mkWorld (host_ w) (port_ w) (current_user_ w) (pin_fail_count_ w) (pending_key_pin_ w)
    (quit_ w) (encrypted_dek_ w) (encrypted_state_ w) (server_cert_pin_ w) (mutex_ w) cs
    (pending_sends_ w) (connection_ w) (crypto_ w) (store_ w) (app_ w) (disk w) (outside w)
    (ticks w) (log_ w) (sent_ w).
Definition set_pending_sends (ps : gmap string (list string)) (w : World) : World :=
  mkWorld (host_ w) (port_ w) (current_user_ w) (pin_fail_count_ w) (pending_key_pin_ w)
    (quit_ w) (encrypted_dek_ w) (encrypted_state_ w) (server_cert_pin_ w) (mutex_ w)
    (conversations_ w) ps (connection_ w) (crypto_ w) (store_ w) (app_ w) (disk w) (outside w)
    (ticks w) (log_ w) (sent_ w).
Definition set_connection (c : option transport) (e : tr_env) (w : World) : World :=
  mkWorld (host_ w) (port_ w) (current_user_ w) (pin_fail_count_ w) (pending_key_pin_ w)
    (quit_ w) (encrypted_dek_ w) (encrypted_state_ w) (server_cert_pin_ w) (mutex_ w)
    (conversations_ w) (pending_sends_ w) c (crypto_ w) (store_ w) (app_ w) (disk w) e
    (ticks w) (log_ w) (sent_ w).
Definition set_crypto (c : child) (w : World) : World :=
  mkWorld (host_ w) (port_ w) (current_user_ w) (pin_fail_count_ w) (pending_key_pin_ w)
    (quit_ w) (encrypted_dek_ w) (encrypted_state_ w) (server_cert_pin_ w) (mutex_ w)
    (conversations_ w) (pending_sends_ w) (connection_ w) c (store_ w) (app_ w) (disk w)
    (outside w) (ticks w) (log_ w) (sent_ w).
Definition set_store (s : option (string * Z)) (d : gmap string Db) (w : World) : World :=
  mkWorld (host_ w) (port_ w) (current_user_ w) (pin_fail_count_ w) (pending_key_pin_ w)
    (quit_ w) (encrypted_dek_ w) (encrypted_state_ w) (server_cert_pin_ w) (mutex_ w)
    (conversations_ w) (pending_sends_ w) (connection_ w) (crypto_ w) s (app_ w) d (outside w)
    (ticks w) (log_ w) (sent_ w).
Definition set_app (a : App) (w : World) : World :=
  mkWorld (host_ w) (port_ w) (current_user_ w) (pin_fail_count_ w) (pending_key_pin_ w)
    (quit_ w) (encrypted_dek_ w) (encrypted_state_ w) (server_cert_pin_ w) (mutex_ w)
    (conversations_ w) (pending_sends_ w) (connection_ w) (crypto_ w) (store_ w) a (disk w)
    (outside w) (ticks w) (log_ w) (sent_ w).
Definition set_trace (t : nat) (l s : list string) (w : World) : World :=
  mkWorld (host_ w) (port_ w) (current_user_ w) (pin_fail_count_ w) (pending_key_pin_ w)
    (quit_ w) (encrypted_dek_ w) (encrypted_state_ w) (server_cert_pin_ w) (mutex_ w)
    (conversations_ w) (pending_sends_ w) (connection_ w) (crypto_ w) (store_ w) (app_ w)
    (disk w) (outside w) t l s.

(** ** Primitive statements *)

Definition epic_log (msg : string) : M World unit :=
  modify (λ w, set_trace (ticks w) (log_ w ++ [c_str msg]) (sent_ w) w).

(** [system_clock::now()] in milliseconds *)
Definition now_ms : M World Z := λ w,
  (Ret (system_clock (ticks w)), set_trace (S (ticks w)) (log_ w) (sent_ w) w).

Definition on_app (f : App → App) : M World unit := modify (λ w, set_app (f (app_ w)) w).

(** [std::lock_guard<std::mutex> lk(mutex_)] around [m]: locking a mutex one holds
    is undefined; the guard unlocks on every way out. *)
Definition with_lock {A} (m : M World A) : M World A := λ w,
  if mutex_ w then (Stuck "mutex_ locked twice", w)
  else let '(o, w') := m (set_mutex true w) in (o, set_mutex false w').

(** A call of the crypto subprocess. *)
Definition crypto_call (method : string) (params : json) : M World json :=
  zoom crypto_ set_crypto (abs_call method params).

(** [store_->...], undefined on a null pointer. *)
Definition with_store {A} (f : Store → A * Store) : M World A := λ w,
  match store_ w with
  | None => (Stuck "null store_", w)
  | Some (path, last) =>
    let '(a, st) := f (mkStore (default empty_db (disk w !! path)) last) in
    (Ret a, set_store (Some (path, st_last_rowid st)) (<[path := st_db st]> (disk w)) w)
  end.
Definition store_exec (f : Db → Db) : M World unit := with_store (λ st, (tt, on_db f st)).
Definition store_query {A} (f : Db → A) : M World A := with_store (λ st, (f (st_db st), st)).

(** [store_ = std::make_unique<MessageStore>(path)] *)
Definition open_message_store (path : string) : M World unit := λ w,
  match sqlite_open_error path with
  | Some err => (Exn ("MessageStore: failed to open database: " +:+ err), w)
  | None =>
    let '(o, d) := open_store (default empty_db (disk w !! path)) in
    match o with
    | Ret _ => (Ret tt, set_store (Some (path, 0)) (<[path := d]> (disk w)) w)
    | Exn e => (Exn e, set_store (store_ w) (<[path := d]> (disk w)) w)
    | Stuck x => (Stuck x, w)
    end
  end.

(** [connection_->...], undefined on a null pointer. *)
Definition with_connection {A} (m : M transport A) : M World A := λ w,
  match connection_ w with
  | None => (Stuck "null connection_", w)
  | Some t => let '(o, t') := m t in (o, set_connection (Some t') (outside w) w)
  end.

Definition send_text (payload : string) : M World unit :=
  with_connection (tr_send_text payload) ;;
  modify (λ w, set_trace (ticks w) (log_ w) (sent_ w ++ [payload]) w).

Definition send_json (frame : json) : M World unit :=
  text ← lift (json_dump frame); send_text text.

(** [connection_.reset()]: the destructor disconnects, which joins the read thread.
    The read thread takes [mutex_] in every handler, so a caller that holds it may wait
    for ever. *)
Definition reset_connection : M World unit := λ w,
  match connection_ w with
  | None => (Ret tt, w)
  | Some t =>
    if mutex_ w then (Stuck "joins the read thread while holding mutex_", w)
    else let '(o, t') := tr_disconnect t in (o, set_connection None (tr_env_of t') w)
  end.

Definition is_online (w : World) : bool :=
  match connection_ w with Some t => tr_is_connected t | None => false end.

(** A reference into [conversations_]. *)
Definition get_conv (k : string) : M World Conversation :=
  w ← gets id;
  match conversations_ w !! k with
  | Some c => mret c
  | None => stuck "dangling conversation"
  end.
Definition on_conv (k : string) (f : Conversation → Conversation) : M World unit :=
  modify (λ w, set_conversations (alter f k (conversations_ w)) w).

(** [conversations_.try_emplace(k, Conversation{k})] *)
Definition emplace_conv (k : string) : M World unit :=
  modify (λ w, match conversations_ w !! k with
               | Some _ => w
               | None => set_conversations (<[k := new_conversation k]> (conversations_ w)) w
               end).

(** Has a session with the peer been established? *)
Definition has_session (k : string) (w : World) : bool :=
  match conversations_ w !! k with
  | Some c => negb (str_empty (ratchet_state_ c))
  | None => false
  end.

(** [std::map] is ordered by key. *)
Definition key_le (a b : string * Conversation) : Prop := String.leb a.1 b.1 = true.
#[local] Instance key_le_dec : RelDecision key_le.
Proof. intros a b. unfold key_le. apply _. Defined.
Definition conv_list (w : World) : list (string * Conversation) :=
  merge_sort key_le (map_to_list (conversations_ w)).

(** ** Storage encryption and message ids *)

Definition storage_encrypt (plaintext : string) : M World string :=
  r ← encrypt_for_storage crypto_call (b64_encode plaintext);
  lift (json_dump r).

Definition storage_decrypt (data : string) : M World string :=
  if negb (String.prefix "{" data) then mret data
  else
    try_catch
      (j ← lift (json_parse data);
       if negb (json_contains j "nonce") || negb (json_contains j "ciphertext") then mret data
       else
         r ← decrypt_from_storage crypto_call j;
         p ← lift (json_at r "plaintext");
         text ← lift (json_get_string p);
         lift (b64_decode text))
      (λ _, mret data).

Definition new_mid (recipient : string) : M World string :=
  now ← now_ms;
  user ← gets current_user_;
  mret (user +:+ ":" +:+ recipient +:+ ":" +:+ pretty now).

(** ** Sending *)

Definition envelope (dr_message : json) (x3dh_header : option json) : json :=
  json_of_object [("dr", dr_message); ("x3dh", default json_null x3dh_header)].

Definition send_chat_frame (recipient : string) (dr_message : json) (x3dh_header : option json)
    (mid : string) : M World unit :=
  env ← lift (json_dump (envelope dr_message x3dh_header));
  send_json (json_of_object
    [("type", json_of_string "send_message"); ("recipient", json_of_string recipient);
     ("ciphertext", json_of_string env); ("mid", json_of_string mid)]).

(** The ratchet step the three senders share: encrypt the content, then advance and
    persist the state; returns the encrypted message. *)
Definition ratchet_encrypt (k : string) (content : result string) : M World json :=
  conv ← get_conv k;
  rstate ← lift (json_parse (ratchet_state_ conv));
  content_b64 ← lift content;
  enc ← encrypt_message crypto_call rstate content_b64 (associated_data_ conv);
  rs ← lift (json_at enc "ratchet_state");
  rs ← lift (json_dump rs);
  on_conv k (set_ratchet_state rs) ;;
  blob ← storage_encrypt rs;
  store_exec (save_ratchet_state (peer_ conv) blob) ;;
  lift (json_at enc "encrypted_message").

(** The tail the senders share: the message is stored with its body encrypted, and
    kept in memory and shown in the clear.  [announce] is what one of them logs. *)
Definition record_sent (announce : M World unit) (k peer plaintext : string)
    (type : MessageType) (wire_ct mid : string) : M World unit :=
  user ← gets current_user_;
  ts ← now_ms;
  body ← storage_encrypt plaintext;
  let sent_msg := mkMessage 0 peer user peer ts type body false false None "" wire_ct mid in
  id ← with_store (save_message sent_msg);
  let sent_msg := set_body plaintext (set_id id sent_msg) in
  on_conv k (add_message sent_msg) ;;
  announce ;;
  on_app (push_sent_message sent_msg).

Definition encrypt_and_send_typed (k plaintext : string) (type : MessageType) : M World unit :=
  conv ← get_conv k;
  epic_log ("encrypt_and_send_typed: peer=" +:+ peer_ conv +:+ " type=" +:+ pretty (int_of_type type)) ;;
  em ← ratchet_encrypt k (content_to_message plaintext type "");
  wire_ct ← lift (json_dump (envelope em None));
  mid ← new_mid (peer_ conv);
  send_chat_frame (peer_ conv) em None mid ;;
  record_sent (mret tt) k (peer_ conv) plaintext type wire_ct mid.

Definition encrypt_and_send (k plaintext : string) : M World unit :=
  conv ← get_conv k;
  epic_log ("encrypt_and_send: peer=" +:+ peer_ conv) ;;
  em ← ratchet_encrypt k (content_to_message plaintext Standard "");
  wire_ct ← lift (json_dump (envelope em None));
  mid ← new_mid (peer_ conv);
  send_chat_frame (peer_ conv) em None mid ;;
  record_sent (epic_log "encrypt_and_send: frame sent, pushing to UI") k (peer_ conv) plaintext
    Standard wire_ct mid.

Definition send_ratchet_control (k content_b64 : string) : M World unit :=
  conv ← get_conv k;
  em ← ratchet_encrypt k (Ok content_b64);
  mid ← new_mid (peer_ conv);
  send_chat_frame (peer_ conv) em None mid.

(** The one-time pre-keys of a key_bundle_response: at most one, possibly null. *)
Definition bundle_otpks (bundle : json) : result (list json) :=
  if json_contains bundle "one_time_pre_key" then
    k ← json_at bundle "one_time_pre_key"; Ok (if json_is_null k then [] else [k])
  else Ok [].

(** The bundle shape the subprocess expects. *)
Definition bob_bundle (peer_ik : string) (bundle : json) (otpks : list json) : result json :=
  spk ← json_at bundle "signed_pre_key";
  sig ← json_at bundle "signed_pre_key_sig";
  Ok (json_of_object [("identity_key", json_of_string peer_ik); ("signed_pre_key", spk);
                      ("signed_pre_key_sig", sig); ("pre_keys", json_of_array otpks)]).

Definition at_string (j : json) (k : string) : M World string :=
  v ← lift (json_at j k); lift (json_get_string v).

Definition start_session_and_send (peer : string) (bundle : json) (plaintext : string)
  : M World unit :=
  epic_log ("start_session_and_send: peer=" +:+ peer) ;;
  peer_ik ← lift (json_value_string bundle "identity_key" "");
  epic_log ("start_session_and_send: peer_ik=" +:+ String.substring 0 16 peer_ik +:+ "...") ;;
  otpks ← lift (bundle_otpks bundle);
  epic_log ("start_session_and_send: otpk_count=" +:+ pretty (length otpks)) ;;
  bob ← lift (bob_bundle peer_ik bundle otpks);
  epic_log "start_session_and_send: calling get_shared_secret_active" ;;
  st ← gets encrypted_state_;
  ss ← get_shared_secret_active crypto_call st bob;
  st ← lift (json_at ss "encrypted_state");
  modify (set_encrypted_state st) ;;
  epic_log "start_session_and_send: X3DH done, calling encrypt_initial_message" ;;
  secret ← at_string ss "shared_secret";
  rp ← at_string ss "bob_initial_ratchet_pub";
  content ← lift (content_to_message plaintext Standard "");
  ad ← at_string ss "associated_data";
  enc ← encrypt_initial_message crypto_call secret rp content ad;
  epic_log "start_session_and_send: encrypt done" ;;
  emplace_conv peer ;;
  on_conv peer (set_associated_data ad) ;;
  rs ← lift (json_at enc "ratchet_state");
  rs ← lift (json_dump rs);
  on_conv peer (set_ratchet_state rs) ;;
  on_conv peer (set_pinned_ik_pub peer_ik) ;;
  store_exec (pin_identity_key peer peer_ik) ;;
  ad_blob ← storage_encrypt ad;
  store_exec (save_associated_data peer ad_blob) ;;
  rs_blob ← storage_encrypt rs;
  store_exec (save_ratchet_state peer rs_blob) ;;
  user ← gets current_user_;
  st_text ← lift (json_dump st);
  store_exec (save_encrypted_state user st_text) ;;
  header ← lift (json_at ss "header");
  em ← lift (json_at enc "encrypted_message");
  wire_ct ← lift (json_dump (envelope em (Some header)));
  mid ← new_mid peer;
  send_chat_frame peer em (Some header) mid ;;
  record_sent (mret tt) peer peer plaintext Standard wire_ct mid.

Definition request_key_bundle (recipient : string) : M World unit :=
  send_json (json_of_object
    [("type", json_of_string "request_key_bundle"); ("target_username", json_of_string recipient)]).

Definition queue_send (recipient text : string) : M World unit :=
  modify (λ w, set_pending_sends
    (<[recipient := default [] (pending_sends_ w !! recipient) ++ [text]]> (pending_sends_ w)) w).

Definition do_send (recipient plaintext : string) : M World unit :=
  epic_log ("do_send: to=" +:+ recipient +:+ " text=" +:+ plaintext) ;;
  online ← gets is_online;
  if negb online then
    epic_log "do_send: not connected" ;;
    on_app (push_status "Not connected — log in first.")
  else
    try_catch
      (with_lock
        (established ← gets (has_session recipient);
         if (established : bool) then
           epic_log "do_send: established session, calling encrypt_and_send" ;;
           encrypt_and_send recipient plaintext
         else
           epic_log ("do_send: no session yet, requesting key bundle for " +:+ recipient) ;;
           queue_send recipient plaintext ;;
           request_key_bundle recipient))
      (λ e, epic_log ("do_send: exception: " +:+ e) ;;
            on_app (push_status "Message could not be sent.")).

Definition do_forward (recipient body : string) : M World unit :=
  online ← gets is_online;
  if negb online then on_app (push_status "Not connected — log in first.")
  else
    try_catch
      (with_lock
        (established ← gets (has_session recipient);
         if (established : bool) then encrypt_and_send_typed recipient body Forward
         else queue_send recipient body ;; request_key_bundle recipient))
      (λ e, epic_log ("do_forward: exception: " +:+ e) ;;
            on_app (push_status "Message could not be forwarded.")).

(** ** Editing and deleting *)

(** The loop that looks for the conversation owning a message: the last value of
    [target_mid], and the peer when it is not empty. *)
Fixpoint find_owner (id : Z) (cs : list (string * Conversation)) (mid : string)
  : string * string :=
  match cs with
  | [] => (mid, "")
  | (peer, conv) :: cs =>
    let mid := get_message_mid id conv in
    if negb (str_empty mid) then (mid, peer) else find_owner id cs mid
  end.

(** Propagation to the other party, when there is a session and an id to refer to. *)
Definition propagate (target_mid target_peer : string) (content : result string) : M World unit :=
  if negb (str_empty target_mid) && negb (str_empty target_peer) then
    established ← gets (has_session target_peer);
    when established (c ← lift content; send_ratchet_control target_peer c)
  else mret tt.

Definition do_delete (message_id : Z) (for_both_parties : bool) : M World unit :=
  st ← gets store_;
  match st with
  | None => mret tt
  | Some _ =>
    with_lock
      (cs ← gets conv_list;
       let '(target_mid, target_peer) := find_owner message_id cs "" in
       store_exec (MessageStore.mark_message_deleted message_id) ;;
       modify (λ w, set_conversations
         (Conversation.mark_message_deleted message_id <$> conversations_ w) w) ;;
       on_app (App.mark_message_deleted message_id) ;;
       propagate target_mid target_peer (content_to_message "" Delete target_mid))
  end.

Definition do_edit (message_id : Z) (new_plaintext : string) : M World unit :=
  st ← gets store_;
  match st with
  | None => mret tt
  | Some _ =>
    with_lock
      (cs ← gets conv_list;
       let '(target_mid, target_peer) := find_owner message_id cs "" in
       blob ← storage_encrypt new_plaintext;
       store_exec (MessageStore.update_message_body message_id blob) ;;
       modify (λ w, set_conversations
         (Conversation.update_message_body message_id new_plaintext <$> conversations_ w) w) ;;
       on_app (App.update_message_body message_id new_plaintext) ;;
       propagate target_mid target_peer (content_to_message new_plaintext Edit target_mid))
  end.

(** ** Ending a session *)

(** The block under the lock that the three ways of ending a session share. *)
Definition clear_session : M World unit :=
  modify (set_current_user "") ;;
  modify (set_conversations ∅) ;;
  modify (set_pending_sends ∅) ;;
  modify (set_encrypted_dek json_null) ;;
  modify (set_encrypted_state json_null).

Definition reset_store : M World unit := modify (λ w, set_store None (disk w) w).

Definition do_logout : M World unit :=
  epic_log "do_logout: begin" ;;
  with_lock
    (clear_session ;;
     modify (set_server_cert_pin "") ;;
     reset_store ;;
     modify (λ w, set_pin 0 (pending_key_pin_ w) w)) ;;
  reset_connection ;;
  on_app return_to_login ;;
  epic_log "do_logout: done".

(** [disconnect] is what the moved-out connection does on the calling thread. *)
Definition abort_login (disconnect : M World unit) : M World unit :=
  epic_log "abort_login_session" ;;
  with_lock
    (clear_session ;;
     modify (λ w, set_pin (pin_fail_count_ w) "" w) ;;
     reset_store) ;;
  disconnect.

(** On the UI thread, as intended. *)
Definition abort_login_session : M World unit := abort_login reset_connection.

(** On the read thread, [disconnect] would join the thread it runs on. *)
Definition join_self : M World unit :=
  c ← gets connection_;
  match c with
  | Some _ => stuck "the read thread joins itself"
  | None => mret tt
  end.

(** [app_->run_on_ui([this] { abort_login_session(); })] from the read thread: posted
    while the UI loop runs, called at once otherwise. *)
Definition run_on_ui_abort : M World unit :=
  a ← gets app_;
  if screen_ptr_ a then on_app (App.post T_run_on_ui) else abort_login join_self.

Definition disconnect_text (reason : string) : string :=
  if str_contains "4001" reason then "Incorrect password."
  else if str_contains "4002" reason then "Already logged in from another device."
  else "Connection lost — please log in again.".

(** The callback of an unexpected drop; it runs on the read thread. *)
Definition on_disconnect (reason : string) : M World unit :=
  epic_log ("on_disconnect: " +:+ reason) ;;
  on_app (App.set_connected false) ;;
  quit ← gets quit_;
  if (quit : bool) then mret tt
  else
    with_lock (clear_session ;; reset_store ;; modify (λ w, set_pin 0 (pending_key_pin_ w) w)) ;;
    on_app (push_status (disconnect_text reason)) ;;
    on_app return_to_login.

(** ** Login and registration *)

Definition send_login_frame (username password : string) : M World unit :=
  send_json (json_of_object
    [("username", json_of_string username); ("password", json_of_string password)]).

Definition login_failure_text (raw : string) : string :=
  if str_contains "pin mismatch" raw then
    "Server certificate has changed — contact your administrator."
  else if str_contains "certificate verify" raw || str_contains "cert verify" raw then
    "Could not verify server certificate."
  else if str_contains "SSL" raw then "Could not establish a secure connection."
  else if str_contains "refused" raw || str_contains "ws_handshake" raw then
    "Could not reach server."
  else "Could not connect to server.".

(** [if (blob.is_null()) if (auto stored = load()) blob = json::parse( *stored)] *)
Definition load_blob (get : World → json) (set : json → World → World)
    (load : Db → option string) : M World unit :=
  j ← gets get;
  if json_is_null j then
    stored ← store_query load;
    match stored with
    | Some text => j ← lift (json_parse text); modify (set j)
    | None => mret tt
    end
  else mret tt.

(** [connection_ = std::make_unique<Connection>(host_, port_, port_ == 443)]: the old
    object, if any, is destroyed. *)
Definition new_connection_object : M World unit :=
  reset_connection ;;
  modify (λ w, set_connection
    (Some (tr_new (outside w) (host_ w) (port_ w) (port_ w =? 443))) (outside w) w).

Definition do_login (username auth_password key_pin : string) : M World unit :=
  epic_log ("do_login: user=" +:+ username) ;;
  try_catch
    (open_message_store (db_path_for username) ;;
     load_blob encrypted_dek_ set_encrypted_dek (load_dek username) ;;
     modify (λ w, set_pin (pin_fail_count_ w) key_pin w) ;;
     load_blob encrypted_state_ set_encrypted_state (load_encrypted_state username) ;;
     modify (set_current_user username) ;;
     new_connection_object ;;
     host ← gets host_;
     pin ← gets server_cert_pin_;
     when (str_empty pin)
       (stored ← store_query (load_server_cert host);
        match stored with
        | Some fp => modify (set_server_cert_pin fp)
        | None => mret tt
        end) ;;
     pin ← gets server_cert_pin_;
     with_connection (tr_connect pin) ;;
     when (str_empty pin)
       (fp ← with_connection (gets tr_cert_fingerprint);
        modify (set_server_cert_pin fp) ;;
        store_exec (save_server_cert host fp)) ;;
     send_login_frame username auth_password)
    (λ raw,
       epic_log ("do_login: exception: " +:+ raw) ;;
       on_app (push_status (login_failure_text raw)) ;;
       reset_connection).

Definition https_post (path body : string) : M World HttpResponse := λ w,
  let '(e, r) := tr_https_post (outside w) (host_ w) (port_ w) path body in
  (match r with Ok resp => Ret resp | Err what => Exn what end,
   set_connection (connection_ w) e w).

Definition register_failure_text (raw : string) : string :=
  if str_contains "already taken" raw then "Username already taken — choose a different one."
  else if str_contains "HTTP" raw then "Registration failed: server error. Try again later."
  else if str_contains "SSL" raw || str_contains "refused" raw then
    "Could not reach server — check your network."
  else "Registration failed: " +:+ raw.

(** The body of the [try] block; [true] when it went through. *)
Definition register_account (username auth_password key_pin : string) : M World unit :=
  body ← lift (json_dump (json_of_object
    [("username", json_of_string username); ("password", json_of_string auth_password)]));
  resp ← https_post "/backend/register" body;
  if http_status resp =? 409 then throw "username already taken"
  else if negb (http_status resp =? 201) then
    throw ("server returned HTTP " +:+ pretty (http_status resp))
  else
    with_lock
      (open_message_store (db_path_for username) ;;
       r ← create_dek crypto_call key_pin username;
       dek ← lift (json_at r "encrypted_dek");
       modify (set_encrypted_dek dek) ;;
       r ← create_state crypto_call;
       st ← lift (json_at r "encrypted_state");
       modify (set_encrypted_state st) ;;
       modify (set_current_user username) ;;
       dek_text ← lift (json_dump dek);
       store_exec (save_dek username dek_text) ;;
       st_text ← lift (json_dump st);
       store_exec (save_encrypted_state username st_text)).

Definition do_register (username auth_password key_pin : string) : M World unit :=
  if bool_decide (auth_password = key_pin) then
    on_app (push_status
      "Registration failed: authentication password and Key PIN must be different.")
  else
    registered ← try_catch
      (register_account username auth_password key_pin ;; mret true)
      (λ raw,
         epic_log ("do_register: exception: " +:+ raw) ;;
         on_app (push_status (register_failure_text raw)) ;; mret false);
    when registered (do_login username auth_password key_pin).

(** ** Publishing keys *)

Definition send_key_bundle (bundle : json) : M World unit :=
  otpks ← lift (json_at bundle "pre_keys");
  if json_empty otpks then mret tt
  else
    ik ← lift (json_at bundle "identity_key");
    spk ← lift (json_at bundle "signed_pre_key");
    sig ← lift (json_at bundle "signed_pre_key_sig");
    send_json (json_of_object
      [("type", json_of_string "publish_key_bundle"); ("identity_key", ik);
       ("signed_pre_key", spk); ("signed_pre_key_sig", sig); ("one_time_pre_keys", otpks)]).

Definition publish_key_bundle : M World unit :=
  bundle ← with_lock
    (st ← gets encrypted_state_;
     if json_is_null st then mret None
     else
       r ← get_bundle crypto_call st;
       bundle ← lift (json_at r "bundle");
       st ← lift (json_at r "encrypted_state");
       modify (set_encrypted_state st) ;;
       text ← lift (json_dump st);
       user ← gets current_user_;
       store_exec (save_encrypted_state user text) ;;
       mret (Some bundle));
  match bundle with
  | Some b => send_key_bundle b
  | None => mret tt
  end.

(** ** Receiving *)

(** First message of a peer: the passive key agreement.  Returns the plaintext, or
    [None] when the identity key is not the pinned one. *)
Definition receive_initial (sender : string) (env dr : json) : M World (option string) :=
  x3dh ← lift (json_at env "x3dh");
  peer_ik ← lift (json_value_string x3dh "identity_key" "");
  conv ← get_conv sender;
  if negb (str_empty (pinned_ik_pub_ conv)) && negb (bool_decide (pinned_ik_pub_ conv = peer_ik))
  then
    on_app (push_status ("WARNING: identity key for '" +:+ sender +:+
      "' changed — possible impersonation. Message dropped.")) ;;
    mret None
  else
    st ← gets encrypted_state_;
    ss ← get_shared_secret_passive crypto_call st x3dh;
    st ← lift (json_at ss "encrypted_state");
    modify (set_encrypted_state st) ;;
    when (json_contains ss "bundle") (b ← lift (json_at ss "bundle"); send_key_bundle b) ;;
    secret ← at_string ss "shared_secret";
    priv ← at_string ss "own_ratchet_priv";
    ad ← at_string ss "associated_data";
    dec ← decrypt_initial_message crypto_call secret priv dr ad;
    on_conv sender (set_associated_data ad) ;;
    rs ← lift (json_at dec "ratchet_state");
    rs ← lift (json_dump rs);
    on_conv sender (set_ratchet_state rs) ;;
    on_conv sender (set_pinned_ik_pub peer_ik) ;;
    store_exec (pin_identity_key sender peer_ik) ;;
    ad_blob ← storage_encrypt ad;
    store_exec (save_associated_data sender ad_blob) ;;
    rs_blob ← storage_encrypt rs;
    store_exec (save_ratchet_state sender rs_blob) ;;
    user ← gets current_user_;
    st_text ← lift (json_dump st);
    store_exec (save_encrypted_state user st_text) ;;
    text ← at_string dec "plaintext";
    mret (Some text).

(** Established session: decrypt with the stored ratchet state. *)
Definition receive_ratchet (sender : string) (dr : json) : M World string :=
  conv ← get_conv sender;
  rstate ← lift (json_parse (ratchet_state_ conv));
  dec ← decrypt_message crypto_call rstate dr (associated_data_ conv);
  rs ← lift (json_at dec "ratchet_state");
  rs ← lift (json_dump rs);
  on_conv sender (set_ratchet_state rs) ;;
  blob ← storage_encrypt rs;
  store_exec (save_ratchet_state sender blob) ;;
  at_string dec "plaintext".

(** What a decrypted content does. *)
Definition apply_content (sender : string) (content : ParsedContent) (wire_ct mid : string)
  : M World unit :=
  let target := pc_target_mid content in
  match pc_type content with
  | Edit =>
    blob ← storage_encrypt (pc_body content);
    store_exec (MessageStore.update_message_body_by_mid target blob) ;;
    on_conv sender (Conversation.update_message_body_by_mid target (pc_body content)) ;;
    on_app (App.update_message_body_by_mid target (pc_body content))
  | Delete =>
    store_exec (MessageStore.mark_message_deleted_by_mid target) ;;
    on_conv sender (Conversation.mark_message_deleted_by_mid target) ;;
    on_app (App.mark_message_deleted_by_mid target)
  | type =>
    user ← gets current_user_;
    ts ← now_ms;
    let msg := mkMessage 0 sender sender user ts type (pc_body content) false false None "" wire_ct mid in
    blob ← storage_encrypt (pc_body content);
    id ← with_store (save_message (set_body blob msg));
    let msg := set_id id msg in
    on_conv sender (add_message msg) ;;
    epic_log "on_deliver_message: calling push_message" ;;
    on_app (push_message msg)
  end.

Definition on_deliver_message (frame : json) : M World unit :=
  sender ← lift (json_value_string frame "sender" "");
  epic_log ("on_deliver_message: from=" +:+ sender) ;;
  try_catch
    (ct ← at_string frame "ciphertext";
     env ← lift (json_parse ct);
     dr ← lift (json_at env "dr");
     has_x3dh ← (if json_contains env "x3dh"
                 then x ← lift (json_at env "x3dh"); mret (negb (json_is_null x))
                 else mret false);
     with_lock
       (emplace_conv sender ;;
        conv ← get_conv sender;
        plaintext_b64 ←
          (if str_empty (ratchet_state_ conv) && has_x3dh then receive_initial sender env dr
           else if negb (str_empty (ratchet_state_ conv)) then
             text ← receive_ratchet sender dr; mret (Some text)
           else
             on_app (push_status ("Dropped message from '" +:+ sender +:+
               "': no session and no X3DH header.")) ;;
             mret None);
        match plaintext_b64 with
        | None => mret tt
        | Some text =>
          content ← lift (message_to_content text);
          wire_ct ← lift (json_value_string frame "ciphertext" "");
          mid ← lift (json_value_string frame "mid" "");
          epic_log ("on_deliver_message: type=" +:+ pretty (int_of_type (pc_type content)) +:+
            " body=" +:+ String.substring 0 60 (pc_body content)) ;;
          apply_content sender content wire_ct mid
        end))
    (λ e, on_app (push_status ("Failed to decrypt message from '" +:+ sender +:+ "': " +:+ e))).

Definition on_key_bundle_response (frame : json) : M World unit :=
  peer ← lift (json_value_string frame "username" "");
  epic_log ("on_key_bundle_response: peer=" +:+ peer) ;;
  with_lock
    (pending ← gets (λ w, pending_sends_ w !! peer);
     match pending with
     | None => epic_log ("on_key_bundle_response: no pending sends for " +:+ peer)
     | Some texts =>
       modify (λ w, set_pending_sends (delete peer (pending_sends_ w)) w) ;;
       try_catch
         (for_each texts (λ text,
            established ← gets (has_session peer);
            if (established : bool) then encrypt_and_send peer text
            else start_session_and_send peer frame text))
         (λ e,
            epic_log ("on_key_bundle_response: exception for peer=" +:+ peer +:+ ": " +:+ e) ;;
            on_app (push_status ("Failed to start session with '" +:+ peer +:+ "': " +:+ e)))
     end).

(** ** The login confirmation *)

(** [std::min(5 * (1 << (lockout_num - 1)), 300)] in [int]; [None] on overflow. *)
Definition lockout_delay (pin_fail_count : Z) : option Z :=
  let shift := pin_fail_count - 3 in
  if (0 <=? shift) && (shift <? 31) && bool_decide (in_s 32 (5 * 2 ^ shift))
  then Some (Z.min (5 * 2 ^ shift) 300) else None.

(** The PIN is tried on the stored DEK; [None] when there is no DEK. *)
Definition try_unlock : M World (option bool) :=
  with_lock
    (dek ← gets encrypted_dek_;
     r ← (if json_is_null dek then mret None
          else
            pin ← gets pending_key_pin_;
            user ← gets current_user_;
            ok ← try_catch (unlock_dek crypto_call pin user dek ;; mret true) (λ _, mret false);
            mret (Some ok));
     modify (λ w, set_pin (pin_fail_count_ w) "" w) ;;
     mret r).

Definition wrong_pin : M World unit :=
  modify (λ w, set_pin (pin_fail_count_ w + 1) (pending_key_pin_ w) w) ;;
  n ← gets pin_fail_count_;
  (if n <? 3 then
     on_app (push_status ("Incorrect PIN — " +:+ pretty (3 - n) +:+
       " attempt(s) remaining before lockout."))
   else
     match lockout_delay n with
     | Some delay => on_app (start_lockout delay)
     | None => stuck "lockout delay: signed overflow"
     end) ;;
  run_on_ui_abort.

(** One conversation of the store, decrypted. *)
Definition decrypt_messages (ms : list Message) (conv : Conversation) : M World Conversation :=
  foldl (λ acc m, conv ← acc; body ← storage_decrypt (msg_body m); mret (add_message (set_body body m) conv))
    (mret conv) ms.

Definition load_peer (peer : string) (raw : Conversation) : M World Conversation :=
  rs ← storage_decrypt (ratchet_state_ raw);
  ad ← storage_decrypt (associated_data_ raw);
  decrypt_messages (messages_ raw)
    (set_pinned_ik_pub (pinned_ik_pub_ raw)
       (set_associated_data ad (set_ratchet_state rs (new_conversation peer)))).

Fixpoint load_peers (peers : list string) : M World (list Conversation) :=
  match peers with
  | [] => mret []
  | peer :: peers =>
    raw ← store_query (load_conversation peer);
    match raw with
    | None => load_peers peers
    | Some raw =>
      conv ← load_peer peer raw;
      modify (λ w, set_conversations (<[peer := conv]> (conversations_ w)) w) ;;
      convs ← load_peers peers;
      mret (conv :: convs)
    end
  end.

Definition load_conversations : M World unit :=
  with_lock
    (st ← gets store_;
     convs ← (match st with
              | None => mret []
              | Some _ => peers ← store_query list_peers; load_peers peers
              end);
     when (negb (bool_decide (convs = []))) (on_app (App.set_conversations convs))).

Definition auth_confirmed : M World unit :=
  unlocked ← try_unlock;
  user ← gets current_user_;
  match unlocked with
  | None =>
    run_on_ui_abort ;;
    on_app (push_status ("No local key material for '" +:+ user +:+
      "'. Register on this device first."))
  | Some false => wrong_pin
  | Some true =>
    modify (λ w, set_pin 0 (pending_key_pin_ w) w) ;;
    load_conversations ;;
    publish_key_bundle ;;
    on_app (App.set_connected true) ;;
    on_app (advance_to_chat user) ;;
    on_app (push_status ("Logged in as '" +:+ user +:+ "' — session open."))
  end.

(** ** Server errors *)

(** [s.rfind(c, limit)] *)
Definition rfind (c : ascii) (s : string) (limit : nat) : option nat :=
  last (filter (λ i, (i ≤ limit)%nat ∧ String.get i s = Some c) (seq 0 (String.length s))).

(** The name between the last two quotes of the error detail. *)
Definition quoted_name (detail : string) : string :=
  match rfind "'" detail (String.length detail) with
  | None => ""
  | Some close =>
    if (0 <? close)%nat then
      match rfind "'" detail (close - 1) with
      | Some open =>
        if (open <? close - 1)%nat then String.substring (open + 1) (close - open - 1) detail
        else ""
      | None => ""
      end
    else ""
  end.

Definition on_error (frame : json) : M World unit :=
  code ← lift (json_value_string frame "code" "");
  detail ← lift (json_value_string frame "detail" "");
  epic_log ("handle_ws_frame: server error: code=" +:+ code +:+ " detail=" +:+ detail) ;;
  if bool_decide (code = "no_key_bundle") then
    target ← lift (json_value_string frame "target" "");
    let target := if str_empty target then quoted_name detail else target in
    when (negb (str_empty target))
      (with_lock
        (modify (λ w, set_pending_sends (delete target (pending_sends_ w)) w) ;;
         modify (λ w,
           match conversations_ w !! target with
           | Some c => if bool_decide (messages_ c = [])
                       then set_conversations (delete target (conversations_ w)) w else w
           | None => w
           end)) ;;
       on_app (App.remove_conversation target) ;;
       on_app (push_status ("User '" +:+ target +:+ "' not found.")))
  else mret tt.

(** ** The frame handler, on the read thread *)

Definition handle_ws_frame (json_frame : string) : M World unit :=
  epic_log ("handle_ws_frame: raw=" +:+ String.substring 0 120 json_frame) ;;
  match json_parse json_frame with
  | Err _ =>
    epic_log "handle_ws_frame: parse failed" ;;
    on_app (push_status "Received malformed frame from server.")
  | Ok frame =>
    type ← lift (json_value_string frame "type" "");
    epic_log ("handle_ws_frame: type=" +:+ type) ;;
    if json_contains frame "username" && negb (json_contains frame "type") then
      name ← lift (json_value_string frame "username" "");
      user ← gets current_user_;
      when (bool_decide (name = user)) auth_confirmed
    else if bool_decide (type = "deliver_message") then on_deliver_message frame
    else if bool_decide (type = "key_bundle_response") then on_key_bundle_response frame
    else if bool_decide (type = "error") then on_error frame
    else epic_log ("handle_ws_frame: unhandled type=" +:+ type)
  end.

(** The callbacks [run] wires into the UI. *)
Definition client_callbacks : AppCallbacks World :=
  mkCallbacks World (Some do_register) (Some do_login) (Some do_send) (Some do_delete)
    (Some do_edit) (Some do_forward) (Some do_logout).

(** The end of [run], once the UI loop has returned. *)
Definition shut_down : M World unit :=
  modify (set_quit true) ;;
  c ← gets connection_;
  match c with Some _ => with_connection tr_disconnect | None => mret tt end.

(** The closures the UI event loop runs. *)
Definition run_posted : M World unit :=
  a ← gets app_;
  match posted a with
  | [] => mret tt
  | t :: q =>
    on_app (λ a, run_task t (set_posted q a)) ;;
    match t with T_run_on_ui => abort_login_session | _ => mret tt end
  end.
End client.
