(* ===== verification/ClientSafety.v ===== *)
(** * ClientSafety: no handler of the client deadlocks or goes through a null pointer

    The invariant relates the members of [Client]: without a store there is no
    session, no queued text and no key material; without a connection there is no
    session and nothing queued; a live connection has a store.  Every handler of
    the UI thread, of the read thread and of the posted tasks keeps it, never locks
    [mutex_] twice and never uses a null [store_] or [connection_]. *)

From S2P Require Import Prelude Json Message Conversation MessageStore.
From S2P Require Import Codec CryptoProxy CryptoProxyFacts App Client.
Local Open Scope Z_scope.

Section safety.
Context `{NlohmannJson} `{EvpCodec} `{Subprocess} `{Sqlite} `{Transport} `{ClientEnv}.
Context `{!NlohmannJsonLaws} `{!TransportLaws}.
Implicit Types w : World.

(** ** In a session *)

(** A session is open: store and connection exist, the UI loop runs; [b] says
    whether the mutex is held and [K] lists conversations known to exist. *)
Record live (K : list string) (b : bool) w : Prop := {
  live_store : is_Some (store_ w);
  live_connection : is_Some (connection_ w);
  live_screen : screen_ptr_ (app_ w) = true;
  live_mutex : mutex_ w = b;
  live_convs k : k ∈ K → is_Some (conversations_ w !! k);
}.

(** Writes to other members. *)
Lemma live_frame K b w w' :
  store_ w' = store_ w → connection_ w' = connection_ w →
  screen_ptr_ (app_ w') = screen_ptr_ (app_ w) → mutex_ w' = mutex_ w →
  (∀ k, is_Some (conversations_ w !! k) → is_Some (conversations_ w' !! k)) →
  live K b w → live K b w'.
Proof.
  intros E1 E2 E3 E4 E5 [L1 L2 L3 L4 L5]. split; [by rewrite E1|by rewrite E2|congruence| |auto].
  congruence.
Qed.

Section primitives.
Context (K : list string) (b : bool).

Lemma live_modify f :
  (∀ w, store_ (f w) = store_ w ∧ connection_ (f w) = connection_ w ∧
    app_ (f w) = app_ w ∧ mutex_ (f w) = mutex_ w ∧
    ∀ k, is_Some (conversations_ w !! k) → is_Some (conversations_ (f w) !! k)) →
  keeps (live K b) (modify f).
Proof.
  intros Hf. apply keeps_modify. intros w. destruct (Hf w) as (E1 & E2 & E3 & E4 & E5).
  apply live_frame; [done..|by rewrite E3|done|done].
Qed.

Lemma live_log m : keeps (live K b) (epic_log m).
Proof. by apply live_modify. Qed.

Lemma live_now : keeps (live K b) now_ms.
Proof. intros w Hw. unfold now_ms, wp. revert Hw. by apply live_frame. Qed.

Lemma live_app f :
  (∀ a, screen_ptr_ (f a) = screen_ptr_ a) → keeps (live K b) (on_app f).
Proof. intros Hf. apply keeps_modify. intros w. apply live_frame; [done..|apply Hf|done|done]. Qed.

Lemma run_task_screen t a : screen_ptr_ (run_task t a) = screen_ptr_ a.
Proof.
  destruct t; cbn [run_task]; unfold push_update, remove_conversation_update;
    try case_match; done.
Qed.
Lemma post_screen t a : screen_ptr_ (App.post t a) = screen_ptr_ a.
Proof. unfold App.post. destruct (screen_ptr_ a) eqn:E; [done|]. by rewrite run_task_screen. Qed.

Lemma live_post t : keeps (live K b) (on_app (App.post t)).
Proof. apply live_app, post_screen. Qed.

Lemma lockout_tick_screen a : screen_ptr_ (lockout_tick a) = screen_ptr_ a.
Proof.
  unfold lockout_tick, push_status. repeat case_match; try done; cbn; by rewrite post_screen.
Qed.
Lemma start_lockout_screen d a : screen_ptr_ (start_lockout d a) = screen_ptr_ a.
Proof.
  assert (∀ n a, screen_ptr_ (Nat.iter n lockout_tick a) = screen_ptr_ a) as Hi.
  { intros n. induction n as [|n IH]; intros a'; [done|].
    change (screen_ptr_ (lockout_tick (Nat.iter n lockout_tick a')) = screen_ptr_ a').
    by rewrite lockout_tick_screen. }
  unfold start_lockout, lockout_join. destruct (lockout_thread_ a); [done|exact (Hi _ a)..].
Qed.

Lemma abs_call_safe m ps ch Q E :
  (∀ r ch', Q r ch') → (∀ e ch', E e ch') → wp (abs_call m ps) Q E ch.
Proof.
  intros HQ HE. unfold abs_call. apply wp_bind, wp_lift.
  destruct (json_dump _) as [text|e]; [|apply HE]. apply wp_bind. unfold wp at 1.
  destruct (serve ch text) as [ch' r]. apply wp_lift. by destruct (decode_reply m r).
Qed.

Lemma live_crypto m ps : keeps (live K b) (crypto_call m ps).
Proof.
  intros w Hw. apply wp_zoom, abs_call_safe; intros; revert Hw; by apply live_frame.
Qed.

Lemma live_with_store {A} (f : Store → A * Store) : keeps (live K b) (with_store f).
Proof.
  intros w [L1 L2 L3 L4 L5]. unfold wp, with_store. destruct (store_ w) as [[path last]|];
    [|by destruct L1]. destruct (f _) as [a st]. split; cbn; try done; by eexists.
Qed.

Lemma live_send_text s : keeps (live K b) (send_text s).
Proof.
  unfold send_text. apply keeps_bind; [|intros []; by apply live_modify].
  intros w [L1 L2 L3 L4 L5]. unfold wp, with_connection.
  destruct (connection_ w) as [t|]; [|by destruct L2].
  destruct (tr_send_text s t) as [[u|e|x] t'] eqn:E;
    [..|by destruct (tr_send_text_safe s t x t')]; split; cbn; try done; by eexists.
Qed.

Lemma live_get_conv k : k ∈ K → keeps (live K b) (get_conv k).
Proof.
  intros Hk w Hw. unfold get_conv. apply wp_bind, wp_gets. cbn.
  destruct (live_convs K b w Hw k Hk) as [c ->]. by apply wp_ret.
Qed.

Lemma live_on_conv k f : keeps (live K b) (on_conv k f).
Proof.
  apply live_modify. intros w. split_and!; [done..|]. intros k' [c Hc]. cbn.
  destruct (decide (k' = k)) as [->|Hne].
  - rewrite lookup_alter_eq, Hc. by eexists.
  - rewrite lookup_alter_ne by done. by eexists.
Qed.
End primitives.

Hint Resolve live_log live_now live_post live_crypto live_with_store live_send_text
  live_get_conv live_on_conv : keeps.

(** Wrapper functions and compound statements unfold to the primitives. *)
Ltac live_solve := keeps_solve.

Lemma live_store_exec K b f : keeps (live K b) (store_exec f).
Proof. apply live_with_store. Qed.
Lemma live_store_query {A} K b (f : Db → A) : keeps (live K b) (store_query f).
Proof. apply live_with_store. Qed.
Lemma live_send_json K b j : keeps (live K b) (send_json j).
Proof. unfold send_json. live_solve. Qed.
Lemma live_storage_encrypt K b s : keeps (live K b) (storage_encrypt s).
Proof. unfold storage_encrypt, encrypt_for_storage. live_solve. Qed.
Lemma live_storage_decrypt K b s : keeps (live K b) (storage_decrypt s).
Proof. unfold storage_decrypt, decrypt_from_storage. live_solve. Qed.
Lemma live_new_mid K b s : keeps (live K b) (new_mid s).
Proof. unfold new_mid. live_solve. Qed.
Lemma live_at_string K b j k : keeps (live K b) (at_string j k).
Proof. unfold at_string. live_solve. Qed.
Lemma live_set_state K b j : keeps (live K b) (modify (set_encrypted_state j)).
Proof. by apply live_modify. Qed.

Hint Resolve live_store_exec live_store_query live_send_json live_storage_encrypt
  live_storage_decrypt live_new_mid live_at_string live_set_state : keeps.

Lemma live_send_chat_frame K b r dr x mid : keeps (live K b) (send_chat_frame r dr x mid).
Proof. unfold send_chat_frame. live_solve. Qed.
Lemma live_ratchet_encrypt K b k c : k ∈ K → keeps (live K b) (ratchet_encrypt k c).
Proof. intros Hk. unfold ratchet_encrypt, encrypt_message. live_solve. Qed.
Lemma live_record_sent K b (an : M World unit) k p pt ty wc mid :
  keeps (live K b) an → keeps (live K b) (record_sent an k p pt ty wc mid).
Proof. intros Ha. unfold record_sent, push_sent_message. live_solve. Qed.

Hint Resolve live_send_chat_frame live_ratchet_encrypt live_record_sent : keeps.

Lemma live_encrypt_and_send K b k pt : k ∈ K → keeps (live K b) (encrypt_and_send k pt).
Proof. intros Hk. unfold encrypt_and_send. live_solve. Qed.
Lemma live_encrypt_and_send_typed K b k pt ty :
  k ∈ K → keeps (live K b) (encrypt_and_send_typed k pt ty).
Proof. intros Hk. unfold encrypt_and_send_typed. live_solve. Qed.
Lemma live_send_ratchet_control K b k c : k ∈ K → keeps (live K b) (send_ratchet_control k c).
Proof. intros Hk. unfold send_ratchet_control. live_solve. Qed.

Hint Resolve live_encrypt_and_send live_encrypt_and_send_typed live_send_ratchet_control : keeps.

Lemma live_weaken K K' b w : K ⊆ K' → live K' b w → live K b w.
Proof. intros HK [L1 L2 L3 L4 L5]. split; auto. Qed.

(** After [try_emplace] the conversation exists. *)
Lemma wp_emplace_conv K b k w E :
  live K b w → wp (emplace_conv k) (λ _, live (k :: K) b) E w.
Proof.
  intros [L1 L2 L3 L4 L5]. apply wp_modify.
  destruct (conversations_ w !! k) as [c|] eqn:Hk; split; try done; cbn.
  - intros k' [->|?]%elem_of_cons; [by eexists|auto].
  - intros k' Hk'. destruct (decide (k' = k)) as [->|Hne]; [rewrite lookup_insert_eq; by eexists|].
    rewrite lookup_insert_ne by done. apply elem_of_cons in Hk' as [?|?]; [done|auto].
Qed.

Lemma live_emplace_conv K b k : keeps (live K b) (emplace_conv k).
Proof.
  intros w Hw. eapply wp_mono; [exact (wp_emplace_conv K _ _ _ (λ _ _, False) Hw)| |done].
  intros [] w'. apply live_weaken. intros k' Hk'. by right.
Qed.

(** A conversation with a session is there. *)
Lemma has_session_live K b k w : live K b w → has_session k w = true → live (k :: K) b w.
Proof.
  intros [L1 L2 L3 L4 L5] Hs. split; try done. intros k' [->|Hk]%elem_of_cons; [|auto].
  unfold has_session in Hs. destruct (conversations_ w !! k); [by eexists|done].
Qed.

(** Branching on whether there is a session. *)
Lemma live_if_session {A} K b k (m1 m2 : M World A) :
  keeps (live (k :: K) b) m1 → keeps (live K b) m2 →
  keeps (live K b) (established ← gets (has_session k); if (established : bool) then m1 else m2).
Proof.
  intros Hm1 Hm2 w Hw. apply wp_bind, wp_gets. destruct (has_session k w) eqn:Hs; [|by apply Hm2].
  eapply wp_mono; [apply Hm1; by apply has_session_live|..];
    intros ? w'; apply live_weaken; intros k' Hk'; by right.
Qed.

Hint Resolve live_emplace_conv : keeps.
Hint Extern 1 (_ ∈ _ :: _) => left : keeps.

Lemma live_start_session K b p f t : keeps (live K b) (start_session_and_send p f t).
Proof.
  unfold start_session_and_send, get_shared_secret_active, encrypt_initial_message. live_solve.
Qed.
Lemma live_send_key_bundle K b j : keeps (live K b) (send_key_bundle j).
Proof. unfold send_key_bundle. live_solve. Qed.
Lemma live_set_pending K b f :
  keeps (live K b) (modify (λ w, set_pending_sends (f w) w)).
Proof. by apply live_modify. Qed.
Lemma live_set_pin K b f g : keeps (live K b) (modify (λ w, set_pin (f w) (g w) w)).
Proof. by apply live_modify. Qed.

Hint Resolve live_start_session live_send_key_bundle live_set_pending live_set_pin : keeps.

Lemma live_receive_ratchet K b k dr : k ∈ K → keeps (live K b) (receive_ratchet k dr).
Proof. intros Hk. unfold receive_ratchet, decrypt_message. live_solve. Qed.
Lemma live_receive_initial K b k env dr : k ∈ K → keeps (live K b) (receive_initial k env dr).
Proof.
  intros Hk. unfold receive_initial, get_shared_secret_passive, decrypt_initial_message, push_status.
  live_solve.
Qed.
Lemma live_apply_content K b k c wc mid : keeps (live K b) (apply_content k c wc mid).
Proof.
  unfold apply_content, App.update_message_body_by_mid, App.mark_message_deleted_by_mid, push_message.
  live_solve.
Qed.

Hint Resolve live_receive_ratchet live_receive_initial live_apply_content : keeps.

Lemma live_with_lock {A} K (m : M World A) :
  keeps (live K true) m → keeps (live K false) (with_lock m).
Proof.
  intros Hm w [L1 L2 L3 L4 L5]. unfold with_lock, wp. rewrite L4.
  pose proof (Hm (set_mutex true w)) as Hw. unfold wp in Hw.
  destruct (m (set_mutex true w)) as [o w'] eqn:Eq.
  assert (live K true (set_mutex true w)) as L by by split.
  specialize (Hw L). destruct o as [a|e|x]; [..|done]; destruct Hw as [M1 M2 M3 M4 M5]; by split.
Qed.

Hint Resolve live_with_lock : keeps.

Lemma live_deliver K frame : keeps (live K false) (on_deliver_message frame).
Proof.
  unfold on_deliver_message, push_status. apply keeps_bind; [live_solve|]. intros sender.
  apply keeps_bind; [live_solve|]. intros _. apply keeps_try; [|live_solve].
  apply keeps_bind; [live_solve|]. intros ct. apply keeps_bind; [live_solve|]. intros env.
  apply keeps_bind; [live_solve|]. intros dr. apply keeps_bind; [live_solve|]. intros x3.
  apply live_with_lock. intros w Hw. apply wp_bind.
  eapply wp_mono; [exact (wp_emplace_conv K _ _ _ (λ _ _, False) Hw)| |done]. intros [] w1 Hw1. cbn beta.
  eapply (wp_mono _ (λ _, live (sender :: K) true) _ (λ _, live (sender :: K) true));
    [|intros ? ?; apply live_weaken; intros k' Hk'; by right..].
  apply keeps_wp; [|done].
  assert (sender ∈ sender :: K) by left. live_solve.
Qed.

Lemma live_key_bundle_response K frame : keeps (live K false) (on_key_bundle_response frame).
Proof.
  unfold on_key_bundle_response, push_status. apply keeps_bind; [live_solve|]. intros peer.
  apply keeps_bind; [live_solve|]. intros _. apply live_with_lock.
  apply keeps_bind; [live_solve|]. intros [texts|]; [|live_solve].
  apply keeps_bind; [live_solve|]. intros _. apply keeps_try; [|live_solve].
  apply keeps_for_each. intros text. apply live_if_session; [|live_solve].
  apply live_encrypt_and_send. left.
Qed.

Hint Resolve live_deliver live_key_bundle_response : keeps.

Lemma live_publish_key_bundle K : keeps (live K false) publish_key_bundle.
Proof.
  unfold publish_key_bundle, get_bundle. apply keeps_bind; [apply live_with_lock; live_solve|].
  live_solve.
Qed.

Lemma live_load_peer K b p raw : keeps (live K b) (load_peer p raw).
Proof.
  unfold load_peer, decrypt_messages.
  assert (∀ ms (acc : M World Conversation), keeps (live K b) acc →
    keeps (live K b) (foldl (λ acc m, conv ← acc; body ← storage_decrypt (msg_body m);
      mret (add_message (set_body body m) conv)) acc ms)) as Hfold.
  { intros ms. induction ms as [|m ms IH]; intros acc Ha; [done|]. cbn. apply IH. live_solve. }
  live_solve.
Qed.

Lemma live_load_conversations K : keeps (live K false) load_conversations.
Proof.
  assert (∀ peers b, keeps (live K b) (load_peers peers)) as Hp.
  { intros peers b. induction peers as [|p peers IH]; cbn; [live_solve|].
    apply keeps_bind; [live_solve|]. intros [raw|]; [|done].
    apply keeps_bind; [apply live_load_peer|]. intros conv.
    apply keeps_bind; [|live_solve]. apply live_modify. intros w. split_and!; [done..|].
    intros k Hk. cbn. destruct (decide (k = p)) as [->|]; [rewrite lookup_insert_eq; by eexists|].
    by rewrite lookup_insert_ne. }
  unfold load_conversations. apply live_with_lock. apply keeps_bind; [live_solve|].
  intros st. apply keeps_bind; [destruct st; live_solve|]. intros convs.
  apply keeps_when. by apply live_app.
Qed.

Lemma live_run_on_ui_abort K : keeps (live K false) run_on_ui_abort.
Proof.
  intros w Hw. unfold run_on_ui_abort. apply wp_bind, wp_gets.
  rewrite (live_screen K false w Hw). by apply live_post.
Qed.

Hint Resolve live_publish_key_bundle live_load_conversations live_run_on_ui_abort : keeps.

(** Trying the PIN does not touch the failure count. *)
Lemma wp_try_unlock K n w :
  live K false w → pin_fail_count_ w = n →
  wp try_unlock (λ _ w', live K false w' ∧ pin_fail_count_ w' = n) (λ _ _, False) w.
Proof.
  intros Hw Hn. unfold try_unlock, with_lock, wp. rewrite (live_mutex K false w Hw).
  set (w0 := set_mutex true w).
  assert (live K true w0 ∧ pin_fail_count_ w0 = n) as [Hw0 Hn0] by (by destruct Hw; split).
  assert (∀ (r : option bool) w1, live K true w1 → pin_fail_count_ w1 = n →
    live K false (set_mutex false (set_pin (pin_fail_count_ w1) "" w1)) ∧
    pin_fail_count_ (set_mutex false (set_pin (pin_fail_count_ w1) "" w1)) = n) as Hfin.
  { intros _ w1 [L1 L2 L3 L4 L5] ?. by split. }
  unfold mbind, M_bind, gets, modify, mret, M_ret. destruct (json_is_null (encrypted_dek_ w0)).
  { by apply (Hfin None). }
  pose proof (λ Q E, wp_zoom crypto_ set_crypto (abs_call "unlock_dek" (json_of_object
    [("pin", json_of_string (pending_key_pin_ w0));
     ("username", json_of_string (current_user_ w0)); ("encrypted_dek", encrypted_dek_ w0)])) Q E w0)
    as Hz.
  unfold try_catch, unlock_dek, crypto_call, mbind, M_bind, mret, M_ret.
  specialize (Hz (λ _ w1, live K true w1 ∧ pin_fail_count_ w1 = n)
    (λ _ w1, live K true w1 ∧ pin_fail_count_ w1 = n)).
  unfold wp at 2 in Hz. destruct (zoom _ _ _ w0) as [[r|e|x] w1].
  1-2: destruct Hz as [? ?];
    [apply abs_call_safe; intros; (split; [|done]); revert Hw0; by apply live_frame|];
    by apply (Hfin None).
  destruct Hz. apply abs_call_safe; intros; (split; [|done]); revert Hw0; by apply live_frame.
Qed.

Lemma lockout_delay_some n : 3 ≤ n ≤ 31 → lockout_delay n = Some (Z.min (5 * 2 ^ (n - 3)) 300).
Proof.
  intros Hn. unfold lockout_delay.
  assert (2 ^ (n - 3) ≤ 2 ^ 28) by (apply Z.pow_le_mono_r; lia).
  assert (0 < 2 ^ (n - 3)) by (apply Z.pow_pos_nonneg; lia).
  rewrite (proj2 (Z.leb_le _ _)), (proj2 (Z.ltb_lt _ _)) by lia.
  rewrite bool_decide_true by (unfold in_s; cbn; lia). done.
Qed.

Lemma live_wrong_pin K w :
  live K false w → pin_fail_count_ w < 31 →
  wp wrong_pin (λ _, live K false) (λ _, live K false) w.
Proof.
  intros Hw Hn. unfold wrong_pin, push_status. apply wp_bind, wp_modify, wp_bind, wp_gets.
  set (w1 := set_pin _ _ w). assert (live K false w1) as Hw1 by (revert Hw; by apply live_frame).
  apply keeps_wp; [|done]. apply keeps_bind; [|live_solve].
  destruct (Z.ltb_spec (pin_fail_count_ w1) 3); [apply live_post|].
  rewrite lockout_delay_some by (cbn in *; lia). apply live_app, start_lockout_screen.
Qed.

Lemma live_auth_confirmed K w :
  live K false w → pin_fail_count_ w < 31 →
  wp auth_confirmed (λ _, live K false) (λ _, live K false) w.
Proof.
  intros Hw Hn. unfold auth_confirmed, push_status, advance_to_chat. apply wp_bind.
  eapply wp_mono; [by apply (wp_try_unlock K)| |done]. intros r w1 [Hw1 Hn1]. cbn beta.
  apply wp_bind, wp_gets. destruct r as [[]|]; [|apply live_wrong_pin; [done|lia]|].
  - apply keeps_wp; [|done].
    apply keeps_bind; [by apply live_modify|]. intros _. apply keeps_bind; [live_solve|].
    intros _. apply keeps_bind; [live_solve|]. intros _.
    apply keeps_bind; [by apply live_app|]. live_solve.
  - apply keeps_wp; [|done].
    live_solve.
Qed.

Lemma live_on_error frame : keeps (live [] false) (on_error frame).
Proof.
  unfold on_error, App.remove_conversation, push_status. apply keeps_bind; [live_solve|]. intros code.
  apply keeps_bind; [live_solve|]. intros detail. apply keeps_bind; [live_solve|]. intros _.
  case_bool_decide; [|live_solve]. apply keeps_bind; [live_solve|]. intros target.
  apply keeps_when, keeps_bind; [|live_solve]. apply live_with_lock.
  apply keeps_bind; [live_solve|]. intros _. apply keeps_modify. intros w [L1 L2 L3 L4 L5].
  repeat case_match; split; try done; by intros k ?%elem_of_nil.
Qed.

(** The confirmation of a login, which makes the client try the PIN. *)
Definition confirms (text : string) : bool :=
  match json_parse text with
  | Ok frame => json_contains frame "username" && negb (json_contains frame "type")
  | Err _ => false
  end.

Lemma live_handle_ws_frame s w :
  live [] false w → (confirms s = true → pin_fail_count_ w < 31) →
  wp (handle_ws_frame s) (λ _, live [] false) (λ _, live [] false) w.
Proof.
  intros Hw Hn. unfold handle_ws_frame, push_status. unfold confirms in Hn. apply wp_bind, wp_modify.
  set (w1 := set_trace _ _ _ w). assert (live [] false w1) as Hw1 by by destruct Hw.
  destruct (json_parse s) as [frame|]; [|apply keeps_wp; [live_solve|done]].
  apply wp_bind, wp_lift. destruct (json_value_string frame "type" "") as [type|]; [|done].
  apply wp_bind, wp_modify. set (w2 := set_trace _ _ _ w1). assert (live [] false w2) as Hw2 by by destruct Hw1.
  destruct (json_contains frame "username" && _).
  - apply wp_bind, wp_lift. destruct (json_value_string frame "username" ""); [|done].
    apply wp_bind, wp_gets, wp_when. case_bool_decide; [|done]. apply live_auth_confirmed; [done|by apply Hn].
  - apply keeps_wp; [|done].
    repeat case_bool_decide;
      [apply live_deliver|apply live_key_bundle_response|apply live_on_error|apply live_log].
Qed.

Lemma live_do_send K r t : keeps (live K false) (do_send r t).
Proof.
  unfold do_send, push_status. apply keeps_bind; [live_solve|]. intros _.
  apply keeps_bind; [live_solve|]. intros []; [|live_solve]. apply keeps_try; [|live_solve].
  apply live_with_lock, live_if_session; unfold request_key_bundle, queue_send; [|live_solve].
  apply keeps_bind; [live_solve|]. intros _. apply live_encrypt_and_send. left.
Qed.

Lemma live_do_forward K r t : keeps (live K false) (do_forward r t).
Proof.
  unfold do_forward, push_status. apply keeps_bind; [live_solve|].
  intros []; cbn [negb]; [|live_solve]. apply keeps_try; [|live_solve].
  apply live_with_lock, live_if_session; unfold request_key_bundle, queue_send; [|live_solve].
  apply live_encrypt_and_send_typed. left.
Qed.

Lemma live_propagate K b mid peer c : keeps (live K b) (propagate mid peer c).
Proof.
  unfold propagate, when. destruct (_ && _); [|live_solve].
  apply live_if_session; [|live_solve]. apply keeps_bind; [live_solve|]. intros x.
  apply live_send_ratchet_control. left.
Qed.

Lemma live_map_convs K b f :
  keeps (live K b) (modify (λ w, set_conversations (f <$> conversations_ w) w)).
Proof.
  apply live_modify. intros w. split_and!; [done..|]. intros k [c Hc]. cbn.
  rewrite lookup_fmap, Hc. by eexists.
Qed.

Hint Resolve live_propagate live_map_convs : keeps.

Lemma live_do_delete K id both : keeps (live K false) (do_delete id both).
Proof.
  unfold do_delete, App.mark_message_deleted. apply keeps_bind; [live_solve|].
  intros [|]; [|live_solve]. apply live_with_lock. live_solve.
Qed.
Lemma live_do_edit K id t : keeps (live K false) (do_edit id t).
Proof.
  unfold do_edit, App.update_message_body. apply keeps_bind; [live_solve|].
  intros [|]; [|live_solve]. apply live_with_lock. live_solve.
Qed.

(** ** Outside a session *)

Definition quiet w : Prop := (∀ k, has_session k w = false) ∧ pending_sends_ w = ∅.

Definition no_keys w : Prop :=
  json_is_null (encrypted_dek_ w) = true ∧ json_is_null (encrypted_state_ w) = true.

(** The invariant between handlers. *)
Record client_inv w : Prop := {
  ci_unlocked : mutex_ w = false;
  ci_screen : screen_ptr_ (app_ w) = true;
  ci_store : store_ w = None → quiet w ∧ no_keys w;
  ci_connection : connection_ w = None → quiet w;
  ci_online : is_online w = true → is_Some (store_ w);
}.

Lemma live_client_inv K w : live K false w → client_inv w.
Proof.
  intros [L1 L2 L3 L4 L5]. split; [done|done|..]; intros Hn.
  - rewrite Hn in L1. by destruct L1.
  - rewrite Hn in L2. by destruct L2.
  - done.
Qed.

Lemma client_inv_live w :
  client_inv w → is_Some (store_ w) → is_Some (connection_ w) → live [] false w.
Proof. intros [C1 C2 C3 C4 C5] HS HC. split; try done. by intros k ?%elem_of_nil. Qed.

(** Nobody is logged in; [s] and [c] say that a store and a connection exist. *)
Record ready (b s c : bool) w : Prop := {
  rd_mutex : mutex_ w = b;
  rd_screen : screen_ptr_ (app_ w) = true;
  rd_quiet : quiet w;
  rd_keys : store_ w = None → no_keys w;
  rd_online : is_online w = true → is_Some (store_ w);
  rd_store : s = true → is_Some (store_ w);
  rd_connection : c = true → is_Some (connection_ w);
}.

Lemma ready_client_inv s c w : ready false s c w → client_inv w.
Proof. intros [R1 R2 R3 R4 R5 R6 R7]. by split; auto. Qed.

Lemma ready_weaken b s c w : ready b s c w → ready b false false w.
Proof. by intros [R1 R2 R3 R4 R5 R6 R7]. Qed.

Section ready_primitives.
Context (b s c : bool).

Lemma ready_modify f :
  (∀ w, mutex_ (f w) = mutex_ w ∧ app_ (f w) = app_ w ∧ conversations_ (f w) = conversations_ w ∧
    pending_sends_ (f w) = pending_sends_ w ∧ store_ (f w) = store_ w ∧
    connection_ (f w) = connection_ w) →
  (∀ w, s = true ∨ (no_keys w → no_keys (f w))) →
  keeps (ready b s c) (modify f).
Proof.
  intros Hf Hk. apply keeps_modify. intros w [R1 R2 R3 R4 R5 R6 R7].
  destruct (Hf w) as (F1 & F2 & F3 & F4 & F5 & F6).
  split; unfold quiet, has_session, is_online in *; rewrite ?F1, ?F2, ?F3, ?F4, ?F5, ?F6; auto.
  intros HS. destruct (Hk w) as [->|Hkw]; [|auto]. rewrite HS in R6. by destruct R6.
Qed.

Lemma ready_frame f :
  (∀ w, mutex_ (f w) = mutex_ w ∧ app_ (f w) = app_ w ∧ conversations_ (f w) = conversations_ w ∧
    pending_sends_ (f w) = pending_sends_ w ∧ store_ (f w) = store_ w ∧
    connection_ (f w) = connection_ w) →
  (∀ w, encrypted_dek_ (f w) = encrypted_dek_ w ∧ encrypted_state_ (f w) = encrypted_state_ w) →
  keeps (ready b s c) (modify f).
Proof.
  intros Hf Hk. apply ready_modify; [done|]. intros w. right. unfold no_keys.
  by destruct (Hk w) as [-> ->].
Qed.

Lemma ready_log m : keeps (ready b s c) (epic_log m).
Proof. by apply ready_frame. Qed.

Lemma ready_app f :
  (∀ a, screen_ptr_ (f a) = screen_ptr_ a) → keeps (ready b s c) (on_app f).
Proof.
  intros Hf. apply keeps_modify. intros w [R1 R2 R3 R4 R5 R6 R7]. split; try done.
  cbn. by rewrite Hf.
Qed.
Lemma ready_post t : keeps (ready b s c) (on_app (App.post t)).
Proof. apply ready_app, post_screen. Qed.

Lemma ready_crypto m ps : keeps (ready b s c) (crypto_call m ps).
Proof.
  intros w [R1 R2 R3 R4 R5 R6 R7]. apply wp_zoom, abs_call_safe; intros; by split.
Qed.

Lemma ready_with_store {A} (f : Store → A * Store) :
  s = true → keeps (ready b s c) (with_store f).
Proof.
  intros Hs w [R1 R2 R3 R4 R5 R6 R7]. unfold wp, with_store. specialize (R6 Hs).
  destruct (store_ w) as [[path last]|]; [|by destruct R6]. destruct (f _) as [a st].
  split; try done; cbn; intros; by eexists.
Qed.

Lemma ready_reset_connection : keeps (ready false s false) reset_connection.
Proof.
  intros w [R1 R2 R3 R4 R5 R6 R7]. unfold wp, reset_connection. rewrite R1.
  destruct (connection_ w) as [t|] eqn:Hc; [|by split].
  destruct (tr_disconnect_ok t) as (t' & -> & _). by split.
Qed.

Lemma ready_open p : keeps (ready b s c) (open_message_store p).
Proof.
  intros w [R1 R2 R3 R4 R5 R6 R7]. unfold wp, open_message_store.
  destruct (sqlite_open_error p); [by split|].
  destruct (open_store _) as [[u|e|x] d] eqn:E; [split; try done; cbn; intros; by eexists|by split|].
  exfalso. revert E. unfold open_store, recreate_table, mbind, M_bind, modify, gets, throw, mret, M_ret.
  repeat case_match; congruence.
Qed.
End ready_primitives.

Hint Resolve ready_log ready_post ready_crypto ready_reset_connection ready_open : keeps.

(** After opening, the store exists. *)
Lemma wp_open p b c w :
  ready b false c w →
  wp (open_message_store p) (λ _, ready b true c) (λ _, ready b false c) w.
Proof.
  intros Hw. pose proof (ready_open b false c p w Hw) as Hk. unfold wp, open_message_store in *.
  destruct (sqlite_open_error p); [done|].
  destruct (open_store _) as [[u|e|x] d]; [|done..]. destruct Hk as [R1 R2 R3 R4 R5 R6 R7].
  by split.
Qed.

Lemma ready_load_blob b c get set load :
  (∀ j w, mutex_ (set j w) = mutex_ w ∧ app_ (set j w) = app_ w ∧
    conversations_ (set j w) = conversations_ w ∧ pending_sends_ (set j w) = pending_sends_ w ∧
    store_ (set j w) = store_ w ∧ connection_ (set j w) = connection_ w) →
  keeps (ready b true c) (load_blob get set load).
Proof.
  intros Hset. unfold load_blob, store_query. apply keeps_bind; [live_solve|]. intros j.
  destruct (json_is_null j); [|live_solve].
  apply keeps_bind; [by apply ready_with_store|]. intros [text|]; [|live_solve].
  apply keeps_bind; [live_solve|]. intros j'. apply ready_modify; [apply Hset|]. by left.
Qed.

Lemma wp_new_connection_object w :
  ready false true false w →
  wp new_connection_object (λ _, ready false true true) (λ _, ready false true false) w.
Proof.
  intros Hw. unfold new_connection_object. apply wp_bind.
  eapply wp_mono; [by apply ready_reset_connection| |done].
  intros [] w1 [R1 R2 R3 R4 R5 R6 R7]. apply wp_modify. split; try done; by auto.
Qed.

Lemma ready_with_connection {A} b (m : M transport A) :
  (∀ t x t', m t ≠ (Stuck x, t')) → keeps (ready b true true) (with_connection m).
Proof.
  intros Hm w [R1 R2 R3 R4 R5 R6 R7]. unfold wp, with_connection. specialize (R7 eq_refl).
  destruct (connection_ w) as [t|]; [|by destruct R7].
  destruct (m t) as [[a|e|x] t'] eqn:E; [..|by destruct (Hm t x t')].
  all: split; try done; by auto.
Qed.

Lemma ready_send_json b j : keeps (ready b true true) (send_json j).
Proof.
  unfold send_json, send_text. apply keeps_bind; [live_solve|]. intros text.
  apply keeps_bind; [|intros []; by apply ready_frame].
  apply ready_with_connection. intros. apply tr_send_text_safe.
Qed.

Lemma ready_do_login u p k : keeps (ready false false false) (do_login u p k).
Proof.
  unfold do_login, push_status. apply keeps_bind; [live_solve|]. intros _.
  apply keeps_try; [|live_solve]. intros w Hw. apply wp_bind.
  eapply wp_mono; [by apply wp_open| |done]. intros [] w1 Hw1. cbn beta.
  eapply (wp_mono _ (λ _, ready false true false) _ (λ _, ready false true false));
    [apply keeps_wp; [|done]|intros ? ?; apply ready_weaken..].
  apply keeps_bind; [by apply ready_load_blob|]. intros _.
  apply keeps_bind; [by apply ready_frame|]. intros _.
  apply keeps_bind; [by apply ready_load_blob|]. intros _.
  apply keeps_bind; [by apply ready_frame|]. intros _.
  clear w1 Hw1. intros w1 Hw1. apply wp_bind.
  eapply wp_mono; [by apply wp_new_connection_object| |done].
  intros [] w2 Hw2. cbn beta.
  eapply (wp_mono _ (λ _, ready false true true) _ (λ _, ready false true true));
    [apply keeps_wp; [|done]
    |intros ? ? [R1 R2 R3 R4 R5 R6 R7]; by split..].
  apply keeps_bind; [live_solve|]. intros host. apply keeps_bind; [live_solve|]. intros pin.
  apply keeps_bind.
  { apply keeps_when, keeps_bind; [by apply ready_with_store|].
    intros []; [by apply ready_frame|live_solve]. }
  intros _. apply keeps_bind; [live_solve|]. intros pin'.
  apply keeps_bind; [apply ready_with_connection; intros; apply tr_connect_safe|]. intros _.
  apply keeps_bind; [|intros _; apply ready_send_json].
  apply keeps_when, keeps_bind; [by apply ready_with_connection|]. intros fp.
  apply keeps_bind; [by apply ready_frame|]. intros _. by apply ready_with_store.
Qed.

Lemma ready_with_lock {A} s c (m : M World A) :
  keeps (ready true s c) m → keeps (ready false s c) (with_lock m).
Proof.
  intros Hm w [R1 R2 R3 R4 R5 R6 R7]. unfold with_lock, wp. rewrite R1.
  assert (ready true s c (set_mutex true w)) as R by by split.
  specialize (Hm _ R). unfold wp in Hm. destruct (m (set_mutex true w)) as [[a|e|x] w'];
    [..|done]; by destruct Hm.
Qed.

Lemma ready_register u p k : keeps (ready false false false) (register_account u p k).
Proof.
  unfold register_account. apply keeps_bind; [live_solve|]. intros body.
  apply keeps_bind.
  { intros w [R1 R2 R3 R4 R5 R6 R7]. unfold https_post, wp.
    destruct (tr_https_post _ _ _ _ _) as [e [resp|what]]; by split. }
  intros resp. destruct (_ =? 409); [live_solve|]. destruct (negb _); [live_solve|].
  apply ready_with_lock. intros w Hw. apply wp_bind.
  eapply wp_mono; [by apply wp_open| |done]. intros [] w1 Hw1. cbn beta.
  eapply (wp_mono _ (λ _, ready true true false) _ (λ _, ready true true false));
    [apply keeps_wp; [|done]|intros ? ?; apply ready_weaken..].
  unfold create_dek, create_state, store_exec.
  assert (∀ f, (∀ w, mutex_ (f w) = mutex_ w ∧ app_ (f w) = app_ w ∧
    conversations_ (f w) = conversations_ w ∧ pending_sends_ (f w) = pending_sends_ w ∧
    store_ (f w) = store_ w ∧ connection_ (f w) = connection_ w) →
    keeps (ready true true false) (modify f)) as Hset
    by (intros f Hf; apply ready_modify; [done|by left]).
  assert (∀ A (f : Store → A * Store), keeps (ready true true false) (with_store f)) as Hst
    by (intros; by apply ready_with_store).
  repeat (apply keeps_bind; [first [by apply Hset|apply Hst|live_solve]|intros ?]). apply Hst.
Qed.

Lemma ready_do_register u p k : keeps (ready false false false) (do_register u p k).
Proof.
  unfold do_register, push_status. case_bool_decide; [live_solve|].
  apply keeps_bind; [|intros; apply keeps_when, ready_do_login].
  apply keeps_try; [|live_solve]. apply keeps_bind; [apply ready_register|live_solve].
Qed.

(** ** Ending a session *)

(** The session is gone; a connection object may remain. *)
Record cleared w : Prop := {
  cl_mutex : mutex_ w = false;
  cl_screen : screen_ptr_ (app_ w) = true;
  cl_quiet : quiet w;
  cl_keys : no_keys w;
}.

Lemma quiet_empty w : conversations_ w = ∅ → pending_sends_ w = ∅ → quiet w.
Proof. intros Hc Hp. split; [|done]. intros k. unfold has_session. by rewrite Hc, lookup_empty. Qed.

Definition emptied (a : App) (online : bool) w : Prop :=
  conversations_ w = ∅ ∧ pending_sends_ w = ∅ ∧ no_keys w ∧ app_ w = a ∧
  is_online w = online.

(** The block under the lock, with what each caller adds to it. *)
Lemma wp_clear (extra : M World unit) w E :
  mutex_ w = false → screen_ptr_ (app_ w) = true →
  (∀ a o w', emptied a o w' → wp extra (λ _, emptied a o) (λ _ _, False) w') →
  wp (with_lock (clear_session ;; extra))
    (λ _ w1, cleared w1 ∧ is_online w1 = is_online w) E w.
Proof.
  intros Hm Hs He. unfold with_lock, wp. rewrite Hm.
  assert (wp (clear_session ;; extra) (λ _, emptied (app_ w) (is_online w)) (λ _ _, False)
    (set_mutex true w)) as Hw.
  { apply wp_bind. unfold clear_session. do 4 apply wp_bind, wp_modify. apply wp_modify.
    apply He. unfold emptied, no_keys. cbn. by rewrite is_null_null. }
  unfold wp in Hw. destruct ((clear_session ;; extra) (set_mutex true w)) as [[a|e|x] w1];
    [|done..]. destruct Hw as (W1 & W2 & W3 & W4 & W5). split; [|done].
  split; cbn; [done|by rewrite W4| |done]. by apply quiet_empty.
Qed.

Ltac empties := intros a o w' (? & ? & ? & ? & ?); unfold reset_store;
  repeat (apply wp_bind, wp_modify); apply wp_modify; by split_and!.

(** Dropping the connection of a cleared client. *)
Lemma wp_reset_cleared w E : cleared w → wp reset_connection (λ _, ready false false false) E w.
Proof.
  intros [K1 K2 K3 K4]. unfold wp, reset_connection. rewrite K1.
  destruct (connection_ w) as [t|] eqn:Hc.
  - destruct (tr_disconnect_ok t) as (t' & -> & _). by split.
  - split; try done. unfold is_online. by rewrite Hc.
Qed.

Lemma keeps_do_logout : keeps client_inv do_logout.
Proof.
  intros w [C1 C2 C3 C4 C5]. unfold do_logout, return_to_login. apply wp_bind, wp_modify, wp_bind.
  eapply wp_mono; [apply (wp_clear _ _ (λ _ _, False)); [done|done|empties]| |done].
  intros [] w1 [Hw1 _]. cbn beta. apply wp_bind.
  eapply wp_mono; [by apply (wp_reset_cleared _ (λ _ _, False))| |done]. intros [] w2 Hw2. cbn beta.
  eapply (wp_mono _ (λ _, ready false false false) _ (λ _, ready false false false));
    [apply keeps_wp; [live_solve|done]|intros ? ?; apply ready_client_inv..].
Qed.

Lemma keeps_abort : keeps client_inv abort_login_session.
Proof.
  intros w [C1 C2 C3 C4 C5]. unfold abort_login_session, abort_login.
  apply wp_bind, wp_modify, wp_bind.
  eapply wp_mono; [apply (wp_clear _ _ (λ _ _, False)); [done|done|empties]| |done].
  intros [] w1 [Hw1 _]. cbn beta.
  eapply wp_mono; [by apply (wp_reset_cleared _ (λ _ _, False))| |done].
  intros [] w2. apply ready_client_inv.
Qed.

Lemma keeps_on_disconnect reason w :
  client_inv w → is_online w = false →
  wp (on_disconnect reason) (λ _, client_inv) (λ _, client_inv) w.
Proof.
  intros [C1 C2 C3 C4 C5] Hoff. unfold on_disconnect, push_status, return_to_login.
  apply wp_bind, wp_modify, wp_bind, wp_modify, wp_bind, wp_gets.
  set (w0 := set_app _ _). assert (client_inv w0 ∧ is_online w0 = false) as [I0 Hoff0] by by split.
  destruct (quit_ w0); [by apply wp_ret|]. destruct I0 as [D1 D2 D3 D4 D5].
  apply wp_bind. eapply wp_mono; [apply (wp_clear _ _ (λ _ _, False)); [done|done|empties]| |done].
  intros [] w1 [[K1 K2 K3 K4] Hon]. cbn beta.
  assert (ready false false false w1) as Hw1 by (split; try done; congruence).
  eapply (wp_mono _ (λ _, ready false false false) _ (λ _, ready false false false));
    [apply keeps_wp; [live_solve|done]|intros ? ?; apply ready_client_inv..].
Qed.

(** ** Editing without a connection *)

Lemma ready_map_convs b s c f :
  (∀ cv, ratchet_state_ (f cv) = ratchet_state_ cv) →
  keeps (ready b s c) (modify (λ w, set_conversations (f <$> conversations_ w) w)).
Proof.
  intros Hf. apply keeps_modify. intros w [R1 R2 [R3 R3'] R4 R5 R6 R7]. split; try done.
  split; [|done]. intros k. specialize (R3 k). unfold has_session in *. cbn.
  rewrite lookup_fmap. destruct (conversations_ w !! k); [|done]. cbn in *. by rewrite Hf.
Qed.

Lemma ready_propagate b s c mid peer x : keeps (ready b s c) (propagate mid peer x).
Proof.
  intros w Hw. unfold propagate. destruct (_ && _); [|by apply wp_ret].
  apply wp_bind, wp_gets. destruct (rd_quiet b s c w Hw) as [Hq _]. rewrite Hq. by apply wp_ret.
Qed.

Lemma ready_do_delete id both : keeps (ready false true false) (do_delete id both).
Proof.
  unfold do_delete, App.mark_message_deleted. apply keeps_bind; [live_solve|].
  intros [st|]; [|live_solve]. apply ready_with_lock. apply keeps_bind; [live_solve|].
  intros cs. destruct (find_owner id cs "") as [mid peer].
  apply keeps_bind; [by apply ready_with_store|]. intros _.
  apply keeps_bind; [by apply ready_map_convs|]. intros _.
  apply keeps_bind; [live_solve|]. intros _. apply ready_propagate.
Qed.

Lemma ready_do_edit id t : keeps (ready false true false) (do_edit id t).
Proof.
  unfold do_edit, App.update_message_body, storage_encrypt, encrypt_for_storage.
  apply keeps_bind; [live_solve|]. intros [st|]; [|live_solve]. apply ready_with_lock.
  apply keeps_bind; [live_solve|]. intros cs. destruct (find_owner id cs "") as [mid peer].
  apply keeps_bind; [live_solve|]. intros blob.
  apply keeps_bind; [by apply ready_with_store|]. intros _.
  apply keeps_bind; [by apply ready_map_convs|]. intros _.
  apply keeps_bind; [live_solve|]. intros _. apply ready_propagate.
Qed.

(** ** Frames that arrive while the session is being torn down *)

(** The subprocess refuses a key agreement without a state. *)
Context (null_state_refused : ∀ ch st h, json_is_null st = true →
  ∃ e ch', get_shared_secret_passive abs_call st h ch = (Exn e, ch')).

Definition dead (b : bool) w : Prop := ready b false true w ∧ store_ w = None.

Lemma dead_log b m : keeps (dead b) (epic_log m).
Proof. apply keeps_and; [apply ready_log|]. by apply keeps_modify. Qed.
Lemma dead_post b t : keeps (dead b) (on_app (App.post t)).
Proof. apply keeps_and; [apply ready_post|]. by apply keeps_modify. Qed.
Hint Resolve dead_log dead_post : keeps.

Lemma dead_with_lock {A} (m : M World A) : keeps (dead true) m → keeps (dead false) (with_lock m).
Proof.
  intros Hm w [[R1 R2 R3 R4 R5 R6 R7] HS]. unfold with_lock, wp. rewrite R1.
  assert (dead true (set_mutex true w)) as R by (by split; [split|]).
  specialize (Hm _ R). unfold wp in Hm. destruct (m (set_mutex true w)) as [[a|e|x] w'];
    [..|done]; destruct Hm as [[M1 M2 M3 M4 M5 M6 M7] HS']; by split; [split|].
Qed.

Lemma dead_emplace b k w E :
  dead b w → wp (emplace_conv k)
    (λ _ w', dead b w' ∧ ∃ c, conversations_ w' !! k = Some c ∧ ratchet_state_ c = "") E w.
Proof.
  intros [[R1 R2 [R3 R3'] R4 R5 R6 R7] HS]. apply wp_modify.
  pose proof (R3 k) as Hk. unfold has_session in Hk.
  destruct (conversations_ w !! k) as [c|] eqn:Hc.
  - split; [by split; [split|]|]. exists c. split; [done|]. by destruct (ratchet_state_ c).
  - split; [split; [split; try done|done]|].
    + split; [|done]. intros k'. unfold has_session. cbn.
      destruct (decide (k' = k)) as [->|]; [by rewrite lookup_insert_eq|].
      rewrite lookup_insert_ne by done. apply R3.
    + exists (new_conversation k). cbn. by rewrite lookup_insert_eq.
Qed.

Lemma dead_receive_initial k env dr w :
  dead true w → is_Some (conversations_ w !! k) →
  wp (receive_initial k env dr) (λ r w', r = None ∧ dead true w') (λ _, dead true) w.
Proof.
  intros Hw [c Hc]. unfold receive_initial, push_status.
  apply wp_bind, wp_lift. destruct (json_at env "x3dh") as [x3dh|]; [|done].
  apply wp_bind, wp_lift. destruct (json_value_string x3dh _ _) as [ik|]; [|done].
  apply wp_bind. unfold get_conv. apply wp_bind, wp_gets. cbn. rewrite Hc. apply wp_ret.
  destruct (negb _ && _).
  - apply wp_bind. eapply wp_mono; [by apply dead_post| |done]. intros [] w1 Hw1. by apply wp_ret.
  - apply wp_bind, wp_gets, wp_bind. pose proof Hw as [[R1 R2 R3 R4 R5 R6 R7] HS].
    destruct (null_state_refused (crypto_ w) (encrypted_state_ w) x3dh (proj2 (R4 HS)))
      as (e & ch' & Hcall).
    apply wp_zoom. unfold get_shared_secret_passive in Hcall. unfold wp. rewrite Hcall.
    by split; [split|].
Qed.

Lemma dead_deliver frame : keeps (dead false) (on_deliver_message frame).
Proof.
  unfold on_deliver_message, push_status, at_string. apply keeps_bind; [live_solve|]. intros sender.
  apply keeps_bind; [live_solve|]. intros _. apply keeps_try; [|live_solve].
  do 4 (apply keeps_bind; [live_solve|]; intros ?). apply dead_with_lock. intros w Hw.
  apply wp_bind. eapply wp_mono; [exact (dead_emplace _ _ _ (λ _ _, False) Hw)| |done].
  intros [] w1 [Hw1 (c & Hc & Hr)]. cbn beta. apply wp_bind. unfold get_conv.
  apply wp_bind, wp_gets. cbn. rewrite Hc. apply wp_ret. rewrite Hr. cbn [str_empty andb negb].
  apply wp_bind. destruct a2.
  - eapply wp_mono; [apply dead_receive_initial; [done|by eexists]| |done].
    intros r w2 [-> Hw2]. by apply wp_ret.
  - apply wp_bind. eapply wp_mono; [by apply dead_post| |done].
    intros [] w2 Hw2. by apply wp_ret, wp_ret.
Qed.

Lemma dead_key_bundle_response frame : keeps (dead false) (on_key_bundle_response frame).
Proof.
  unfold on_key_bundle_response. apply keeps_bind; [live_solve|]. intros peer.
  apply keeps_bind; [live_solve|]. intros _. apply dead_with_lock. intros w Hw.
  apply wp_bind, wp_gets. destruct Hw as [R HS]. destruct (rd_quiet true false true w R) as [_ ->].
  rewrite lookup_empty. by apply dead_log.
Qed.

Lemma dead_on_error frame : keeps (dead false) (on_error frame).
Proof.
  unfold on_error, App.remove_conversation, push_status.
  apply keeps_bind; [live_solve|]. intros code. apply keeps_bind; [live_solve|]. intros detail.
  apply keeps_bind; [live_solve|]. intros _.
  case_bool_decide; [|live_solve]. apply keeps_bind; [live_solve|]. intros target.
  cbv zeta. set (name := if str_empty target then quoted_name detail else target).
  apply keeps_when, keeps_bind; [|live_solve]. apply dead_with_lock.
  apply keeps_bind; [|intros _]; apply keeps_modify; intros w [[R1 R2 [R3 R3'] R4 R5 R6 R7] HS].
  - split; [|done]. split; try done. split; [done|]. cbn. by rewrite R3', delete_empty.
  - destruct (conversations_ w !! name); [|by split; [split|]].
    case_bool_decide; [|by split; [split|]].
    split; [|done]. split; try done. split; [|done].
    intros k. unfold has_session. cbn. destruct (decide (k = name)) as [->|];
      [by rewrite lookup_delete_eq|]. rewrite lookup_delete_ne by done. apply R3.
Qed.

Lemma dead_auth_confirmed : keeps (dead false) auth_confirmed.
Proof.
  intros w Hw. unfold auth_confirmed, push_status. apply wp_bind.
  assert (wp try_unlock (λ r w', r = None ∧ dead false w') (λ _, dead false) w) as Hu.
  { pose proof Hw as [[R1 R2 R3 R4 R5 R6 R7] HS]. unfold try_unlock, with_lock, wp. rewrite R1.
    unfold mbind, M_bind, gets, modify, mret, M_ret. cbn.
    rewrite (proj1 (R4 HS)). by split; [|split; [split|]]. }
  eapply wp_mono; [exact Hu| |done]. intros r w1 [-> Hw1]. cbn beta. apply wp_bind, wp_gets.
  apply wp_bind. unfold run_on_ui_abort. apply wp_bind, wp_gets.
  rewrite (rd_screen _ _ _ _ (proj1 Hw1)).
  eapply wp_mono; [by apply dead_post| |done]. intros [] w2 Hw2. by apply dead_post.
Qed.

Lemma dead_handle_ws_frame s : keeps (dead false) (handle_ws_frame s).
Proof.
  unfold handle_ws_frame, push_status. apply keeps_bind; [live_solve|]. intros _.
  destruct (json_parse s) as [frame|]; [|live_solve].
  apply keeps_bind; [live_solve|]. intros type. apply keeps_bind; [live_solve|]. intros _.
  destruct (_ && _).
  - apply keeps_bind; [live_solve|]. intros name. apply keeps_bind; [live_solve|]. intros user.
    apply keeps_when, dead_auth_confirmed.
  - repeat case_bool_decide;
      [apply dead_deliver|apply dead_key_bundle_response|apply dead_on_error|apply dead_log].
Qed.

(** ** The handlers *)

Inductive ClientEvent : Type :=
| CE_register (username password pin : string)
| CE_login (username password pin : string)
| CE_send (recipient text : string)
| CE_forward (recipient body : string)
| CE_delete (id : Z) (both : bool)
| CE_edit (id : Z) (text : string)
| CE_logout
| CE_posted
| CE_frame (text : string)
| CE_drop (reason : string).

Definition run_event (ev : ClientEvent) : M World unit :=
  match ev with
  | CE_register u p k => do_register u p k
  | CE_login u p k => do_login u p k
  | CE_send r t => do_send r t
  | CE_forward r t => do_forward r t
  | CE_delete id both => do_delete id both
  | CE_edit id t => do_edit id t
  | CE_logout => do_logout
  | CE_posted => run_posted
  | CE_frame s => handle_ws_frame s
  | CE_drop r => on_disconnect r
  end.

(** When a handler can run: login and registration from the login screen, frames
    while there is a connection and before the PIN counter overflows, the drop
    callback once the connection is marked down. *)
Definition can_run (ev : ClientEvent) w : Prop :=
  match ev with
  | CE_register _ _ _ | CE_login _ _ _ => quiet w
  | CE_frame _ => is_Some (connection_ w) ∧ pin_fail_count_ w < 31
  | CE_drop _ => is_online w = false
  | _ => True
  end.

Lemma client_inv_ready w :
  client_inv w → quiet w → ready false false false w.
Proof. intros [C1 C2 C3 C4 C5] Hq. split; try done. intros HS. by apply C3. Qed.

Lemma client_inv_cases w :
  client_inv w → (is_Some (store_ w) ∧ is_Some (connection_ w) ∧ live [] false w) ∨
    (store_ w = None ∧ ready false false false w) ∨
    (connection_ w = None ∧ ready false false false w).
Proof.
  intros Hw. pose proof Hw as [C1 C2 C3 C4 C5].
  destruct (store_ w) eqn:HS; [|right; left; split; [done|apply client_inv_ready; [done|by apply C3]]].
  destruct (connection_ w) eqn:HC;
    [|right; right; split; [done|apply client_inv_ready; [done|by apply C4]]].
  left. split_and!; [by eexists..|]. apply client_inv_live; [done|by rewrite HS; eexists|by rewrite HC; eexists].
Qed.

Lemma from_live {A} (m : M World A) w :
  live [] false w → keeps (live [] false) m → wp m (λ _, client_inv) (λ _, client_inv) w.
Proof.
  intros Hw Hm. eapply wp_mono; [by apply Hm|..]; intros ? ?; apply live_client_inv.
Qed.
Lemma from_ready {A} s c (m : M World A) w :
  ready false s c w → keeps (ready false s c) m → wp m (λ _, client_inv) (λ _, client_inv) w.
Proof.
  intros Hw Hm. eapply wp_mono; [by apply Hm|..]; intros ? ?; apply ready_client_inv.
Qed.

(** Sending while offline only reports it. *)
Lemma offline_do_send r t w :
  ready false false false w → is_online w = false →
  wp (do_send r t) (λ _, client_inv) (λ _, client_inv) w.
Proof.
  intros Hw Hoff. unfold do_send, push_status. apply wp_bind, wp_modify.
  apply wp_bind, wp_gets. change (is_online _) with (is_online w) at 1. rewrite Hoff. cbn [negb].
  apply (from_ready false false); [|live_solve]. by destruct Hw.
Qed.
Lemma offline_do_forward r t w :
  ready false false false w → is_online w = false →
  wp (do_forward r t) (λ _, client_inv) (λ _, client_inv) w.
Proof.
  intros Hw Hoff. unfold do_forward, push_status. apply wp_bind, wp_gets. rewrite Hoff. cbn [negb].
  apply (from_ready false false); [done|live_solve].
Qed.

Lemma not_live_offline w :
  client_inv w → (store_ w = None ∨ connection_ w = None) → is_online w = false.
Proof.
  intros [C1 C2 C3 C4 C5] Hn. destruct (is_online w) eqn:Ho; [|done]. exfalso.
  destruct Hn as [Hn|Hn]; [destruct (C5 eq_refl); congruence|].
  unfold is_online in Ho. by rewrite Hn in Ho.
Qed.

(** Handlers that do nothing without a store. *)
Lemma from_store (m : M World unit) w :
  client_inv w → keeps (live [] false) m → keeps (ready false true false) m →
  (store_ w = None → m w = (Ret tt, w)) → wp m (λ _, client_inv) (λ _, client_inv) w.
Proof.
  intros Hw Hl Hr Hn. destruct (store_ w) as [st|] eqn:HS.
  - destruct (client_inv_cases w Hw) as [(_ & _ & L)|[[HS' R]|[HC R]]];
      [by apply from_live|congruence|].
    apply (from_ready true false); [|done]. destruct R. by split; try (intros _; rewrite HS).
  - unfold wp. by rewrite (Hn eq_refl).
Qed.

Lemma keeps_run_posted : keeps client_inv run_posted.
Proof.
  intros w Hw. unfold run_posted. apply wp_bind, wp_gets.
  destruct (posted (app_ w)) as [|t q]; [by apply wp_ret|]. apply wp_bind, wp_modify.
  assert (client_inv (set_app (run_task t (set_posted q (app_ w))) w)) as Hw1.
  { destruct Hw as [C1 C2 C3 C4 C5]. split; try done.
    change (screen_ptr_ (run_task t (set_posted q (app_ w))) = true). by rewrite run_task_screen. }
  destruct t; [by apply wp_ret..|by apply keeps_abort].
Qed.

Lemma frame_keeps text w :
  client_inv w → is_Some (connection_ w) → pin_fail_count_ w < 31 →
  wp (handle_ws_frame text) (λ _, client_inv) (λ _, client_inv) w.
Proof.
  intros Hw HC Hn. destruct (store_ w) as [st|] eqn:HS.
  - eapply wp_mono; [apply live_handle_ws_frame; [|done]|..];
      [apply client_inv_live; [done|by rewrite HS; eexists|done]|..];
      intros ? ?; apply live_client_inv.
  - assert (dead false w) as Hd.
    { split; [|done]. pose proof (client_inv_ready w Hw (proj1 (ci_store w Hw HS))) as [].
      by split. }
    eapply wp_mono; [by apply dead_handle_ws_frame|..];
      intros ? ? [? _]; by eapply ready_client_inv.
Qed.

Lemma client_event_keeps ev w :
  client_inv w → can_run ev w → wp (run_event ev) (λ _, client_inv) (λ _, client_inv) w.
Proof.
  intros Hw Hrun. destruct ev; cbn [run_event can_run] in *.
  - apply (from_ready false false); [by apply client_inv_ready|apply ready_do_register].
  - apply (from_ready false false); [by apply client_inv_ready|apply ready_do_login].
  - destruct (client_inv_cases w Hw) as [(_ & _ & L)|[[HS R]|[HC R]]];
      [apply from_live; [done|apply live_do_send]|..];
      (apply offline_do_send; [done|apply not_live_offline; auto]).
  - destruct (client_inv_cases w Hw) as [(_ & _ & L)|[[HS R]|[HC R]]];
      [apply from_live; [done|apply live_do_forward]|..];
      (apply offline_do_forward; [done|apply not_live_offline; auto]).
  - apply from_store; [done|apply live_do_delete|apply ready_do_delete|]. intros HS.
    unfold do_delete, mbind, M_bind, gets. by rewrite HS.
  - apply from_store; [done|apply live_do_edit|apply ready_do_edit|]. intros HS.
    unfold do_edit, mbind, M_bind, gets. by rewrite HS.
  - by apply keeps_do_logout.
  - by apply keeps_run_posted.
  - by apply frame_keeps; destruct Hrun.
  - by apply keeps_on_disconnect.
Qed.

(** ** Runs *)

(** Handlers in any order, with the network and the user in between: the
    connection may change state or go down by itself, and typing changes the
    UI's fields. *)
Inductive reachable (w0 : World) : World → Prop :=
| reach_refl : reachable w0 w0
| reach_event w ev o w' :
    reachable w0 w → can_run ev w → run_event ev w = (o, w') → reachable w0 w'
| reach_network w t t' :
    reachable w0 w → connection_ w = Some t →
    (tr_is_connected t' = true → tr_is_connected t = true) →
    reachable w0 (set_connection (Some t') (outside w) w)
| reach_user w a :
    reachable w0 w → screen_ptr_ a = true → reachable w0 (set_app a w).

Lemma reachable_inv w0 w : client_inv w0 → reachable w0 w → client_inv w.
Proof.
  intros Hw0. induction 1 as [|w ev o w' _ IH Hc Hr|w t t' _ IH Ht Hon|w a _ IH Ha]; [done|..].
  - pose proof (client_event_keeps ev w IH Hc) as Hk. unfold wp in Hk. rewrite Hr in Hk.
    by destruct o.
  - destruct IH as [C1 C2 C3 C4 C5]. split; try done. intros Ho. apply C5.
    unfold is_online in *. cbn in Ho. rewrite Ht. by apply Hon.
  - destruct IH as [C1 C2 C3 C4 C5]. by split.
Qed.
End safety.

(** The client as [main] starts it, once the UI loop runs. *)
Definition initial_world `{NlohmannJson} `{EvpCodec} `{Subprocess} `{Sqlite} `{Transport}
    (host : string) (port : Z) (files : gmap string Db) (ch : child) (net : tr_env) : World :=
  mkWorld host port "" 0 "" false json_null json_null "" false ∅ ∅ None ch None
    (set_screen_ptr true new_app) files net 0 [] [].

Lemma initial_world_inv `{NlohmannJson} `{EvpCodec} `{Subprocess} `{Sqlite} `{Transport}
    `{!NlohmannJsonLaws} host port files ch net :
  client_inv (initial_world host port files ch net).
Proof.
  assert (∀ k, has_session k (initial_world host port files ch net) = false) as Hs.
  { intros k. unfold has_session. cbn. by rewrite lookup_empty. }
  split; try done. intros _. split; [done|]. split; apply is_null_null.
Qed.

