(* ===== verification/Https.v ===== *)
(** * Https: the one-shot HTTPS POST of [client/src/client/Client.cpp], lines 58-128

    The request registration sends outside the WebSocket session, over the same
    network interface as [Connection], and the parsing of the response. *)

From S2P Require Import Prelude Connection Client.
Local Open Scope Z_scope.

(** ** Parsing the response *)

(** The text before the first [c] and the text after it. *)
Fixpoint break_at (c : ascii) (s : string) : option (string * string) :=
  match s with
  | EmptyString => None
  | String d rest =>
    if bool_decide (d = c) then Some ("", rest)
    else (λ lr, (String d lr.1, lr.2)) <$> break_at c rest
  end.

(** [response.substr(response.find("\r\n\r\n") + 4)], or the empty string. *)
Fixpoint body_of (s : string) : string :=
  if String.prefix (crlf +:+ crlf) s then String.substring 4 (String.length s - 4) s
  else match s with EmptyString => "" | String _ rest => body_of rest end.

(** The digits at the front, as a number; [None] when there is none. *)
Fixpoint digits (cs : list ascii) (acc : option Z) : option Z :=
  match cs with
  | c :: cs' =>
    if isdigit c then digits cs' (Some (10 * default 0 acc + (byte_of_ascii c - 48))) else acc
  | [] => acc
  end.

(** [std::stoi]: white space, a sign, digits; anything may follow. *)
Definition stoi (s : string) : result Z :=
  let cs := drop_space (String.list_ascii_of_string s) in
  let '(sign, cs) :=
    match cs with
    | "-"%char :: cs => (-1, cs)
    | "+"%char :: cs => (1, cs)
    | _ => (1, cs)
    end in
  match digits cs None with
  | Some v => if bool_decide (in_s 32 (sign * v)) then Ok (sign * v) else Err "stoi"
  | None => Err "stoi"
  end.

Definition parse_response (response : string) : result HttpResponse :=
  match break_at " " response with
  | None => Err "malformed HTTP response from server"
  | Some (_, r1) =>
    match break_at " " r1 with
    | None => Err "malformed HTTP response from server"
    | Some (code, _) =>
      status ← stoi code;
      Ok (mkHttpResponse status (body_of response))
    end
  end.

(** ** The exchange *)

Definition http_request (host path json_body : string) : string :=
  "POST " +:+ path +:+ " HTTP/1.1" +:+ crlf +:+
  "Host: " +:+ host +:+ crlf +:+
  "Content-Type: application/json" +:+ crlf +:+
  "Content-Length: " +:+ pretty (String.length json_body) +:+ crlf +:+
  "Connection: close" +:+ crlf +:+ crlf +:+ json_body.

Section https.
Context `{NetIo}.

Definition net_op {A} (f : net → net * A) : M net A := λ s, let '(s', a) := f s in (Ret a, s').

Fixpoint post_write (fuel : nat) (data : bytes) : M net unit :=
  match data with
  | [] => mret tt
  | _ =>
    match fuel with
    | O => stuck "https_post: out of fuel"
    | S fuel =>
      r ← net_op (λ s, SSL_write s data);
      match r with
      | inl k => post_write fuel (drop k data)
      | inr _ => throw "SSL_write failed during registration"
      end
    end
  end.

(** Reads until the server closes: [SSL_ERROR_ZERO_RETURN] is 6, [SSL_ERROR_SYSCALL]
    is 5. *)
Fixpoint post_read (fuel : nat) (response : bytes) : M net bytes :=
  match fuel with
  | O => stuck "https_post: out of fuel"
  | S fuel =>
    r ← net_op (λ s, SSL_read s (Z.to_nat 4096));
    match r with
    | inl bs => post_read fuel (response ++ bs)
    | inr err =>
      if (err =? 6) || (err =? 5) then mret response
      else throw "SSL_read failed during registration"
    end
  end.

Definition https_post (fuel : nat) (host : string) (port : Z) (path json_body : string)
  : M net HttpResponse :=
  r ← net_op (λ s, tcp_connect_io s host port);
  match r with
  | inr what => throw what
  | inl _ =>
    ok ← net_op SSL_new;
    if negb ok then throw "SSL_new failed"
    else
      net_op (λ s, SSL_set_tlsext_host_name s host) ;;
      net_op (λ s, SSL_set1_host s host) ;;
      ok ← net_op SSL_connect;
      if negb ok then s ← gets id; throw (connect_error s)
      else
        let request := bytes_of_string (http_request host path json_body) in
        post_write (length request) request ;;
        response ← post_read fuel [];
        lift (parse_response (string_of_bytes response))
  end.
End https.

(** ** Properties *)

Lemma break_at_none c s : c ∉ String.list_ascii_of_string s → break_at c s = None.
Proof.
  induction s as [|d s IH]; [done|]. cbn. intros Hn. apply not_elem_of_cons in Hn as [Hd Hn].
  rewrite bool_decide_false by congruence. by rewrite IH.
Qed.

Lemma break_at_app c s t :
  c ∉ String.list_ascii_of_string s → break_at c (s +:+ String c t) = Some (s, t).
Proof.
  induction s as [|d s IH]; intros Hn;
    [rewrite string_nil_app; cbn; by rewrite bool_decide_true|].
  cbn in Hn. apply not_elem_of_cons in Hn as [Hd Hn]. rewrite string_cons_app. cbn.
  rewrite bool_decide_false by congruence. by rewrite IH.
Qed.

(** A response with a status line of three words is read as its status code and
    whatever follows the first blank line. *)
Theorem parse_response_ok version code rest status :
  " "%char ∉ String.list_ascii_of_string version →
  " "%char ∉ String.list_ascii_of_string code →
  stoi code = Ok status →
  parse_response (version +:+ " " +:+ code +:+ " " +:+ rest)
  = Ok (mkHttpResponse status (body_of (version +:+ " " +:+ code +:+ " " +:+ rest))).
Proof.
  intros Hv Hc Hs. rewrite !string_cons_app, !string_nil_app. unfold parse_response.
  rewrite (break_at_app " " version) by done.
  rewrite (break_at_app " " code rest) by done. by rewrite Hs.
Qed.

Section post_facts.
Context `{NetIo} `{!NetIoLaws}.

Lemma post_write_total fuel data s :
  (length data ≤ fuel)%nat →
  wp (post_write fuel data) (λ _ s', outgoing s' = outgoing s ++ data ∧ incoming s' = incoming s)
    (λ _ s', incoming s' = incoming s) s.
Proof.
  revert data s. induction fuel as [|fuel IH]; intros [|b data] s Hf; cbn in Hf; try lia.
  1-2: apply wp_ret; by rewrite (right_id_L [] (++)).
  cbn [post_write]. apply wp_bind. unfold wp at 1, net_op.
  destruct (SSL_write s (b :: data)) as [s1 [k|e]] eqn:Hw.
  - apply SSL_write_ok in Hw as (Hk & Hout & Hin); [|done].
    eapply wp_mono; [apply IH; rewrite length_drop; cbn in *; lia| |].
    + intros _ s2 [Ho Hi]. rewrite Ho, Hout, Hi, Hin, <-(assoc_L (++)), take_drop. done.
    + intros e s2 Hi. congruence.
  - apply SSL_write_err in Hw as [Hin _]. by apply wp_throw.
Qed.

Lemma post_read_total fuel response s :
  (length (incoming s) < fuel)%nat →
  wp (post_read fuel response)
    (λ r s', ∃ got, r = response ++ got ∧ incoming s = got ++ incoming s' ∧
      outgoing s' = outgoing s) (λ _ s', outgoing s' = outgoing s) s.
Proof.
  revert response s. induction fuel as [|fuel IH]; intros response s Hf; [lia|].
  cbn [post_read]. apply wp_bind. unfold wp at 1, net_op.
  destruct (SSL_read s (Z.to_nat 4096)) as [s1 [bs|e]] eqn:Hr.
  - apply SSL_read_ok in Hr as (Hl & Hin & Hout); [|apply Nat.ltb_lt; vm_compute; reflexivity].
    eapply wp_mono; [apply IH; rewrite Hin, length_app in Hf; lia| |].
    + intros r s2 (got & -> & Hi & Ho). exists (bs ++ got).
      rewrite <-!(assoc_L (++)), Hin, Hi, Ho. done.
    + intros e s2 Ho. congruence.
  - apply SSL_read_err in Hr as [Hin Hout]. destruct (_ || _).
    + apply wp_ret. exists []. by rewrite (right_id_L [] (++)), Hin.
    + by apply wp_throw.
Qed.
End post_facts.

(** Rounds that are enough for reading the response. *)
Definition https_fuel `{NetIo} `{!NetIoLaws} (host : string) (port : Z) (s : net) : nat :=
  let s := (tcp_connect_io s host port).1 in
  let s := (SSL_new s).1 in
  let s := (SSL_set_tlsext_host_name s host).1 in
  let s := (SSL_set1_host s host).1 in
  S (length (incoming (SSL_connect s).1)).

Lemma https_post_spec `{NetIo} `{!NetIoLaws} fuel host port path body s :
  (https_fuel host port s ≤ fuel)%nat →
  wp (https_post fuel host port path body)
    (λ resp s', ∃ s0 got, incoming s0 = got ++ incoming s' ∧
      outgoing s' = outgoing s0 ++ bytes_of_string (http_request host path body) ∧
      parse_response (string_of_bytes got) = Ok resp)
    (λ _ _, True) s.
Proof.
  unfold https_fuel. intros Hf.
  destruct (tcp_connect_io s host port) as [s1 r1] eqn:E1. cbn in Hf.
  destruct (SSL_new s1) as [s2 x2] eqn:E2. cbn in Hf.
  destruct (SSL_set_tlsext_host_name s2 host) as [s3 x3] eqn:E3. cbn in Hf.
  destruct (SSL_set1_host s3 host) as [s4 x4] eqn:E4. cbn in Hf.
  destruct (SSL_connect s4) as [s5 x5] eqn:E5. cbn in Hf. unfold https_post, net_op.
  apply wp_bind. unfold wp at 1. rewrite E1. destruct r1; [|by apply wp_throw].
  apply wp_bind. unfold wp at 1. rewrite E2. destruct x2; [|by apply wp_throw]. cbn [negb].
  apply wp_bind. unfold wp at 1. rewrite E3. apply wp_bind. unfold wp at 1. rewrite E4.
  apply wp_bind. unfold wp at 1. rewrite E5.
  destruct x5; [|by apply wp_bind, wp_gets, wp_throw]. cbn [negb].
  apply wp_bind. eapply wp_mono; [by apply post_write_total| |done].
  intros [] s6 [Ho6 Hi6]. cbn beta. apply wp_bind.
  eapply wp_mono; [apply (post_read_total fuel []); rewrite Hi6; lia| |done].
  intros r s7 (got & -> & Hi7 & Ho7). cbn beta. apply wp_lift. cbn [app].
  destruct (parse_response (string_of_bytes got)) as [resp|] eqn:Ep; [|done].
  exists s5, got. split_and!; [congruence|congruence|done].
Qed.

(** C36: The registration exchange always finishes: a round per byte the server sends
    once the TLS session is up, and one more, is enough.  When it succeeds the whole
    request was sent on that session, and the response is what the parser makes of
    bytes read from it. *)
Theorem https_post_total `{NetIo} `{!NetIoLaws} fuel host port path body s :
  (https_fuel host port s ≤ fuel)%nat →
  wp (https_post fuel host port path body)
    (λ resp s', ∃ s0 got, incoming s0 = got ++ incoming s' ∧
      outgoing s' = outgoing s0 ++ bytes_of_string (http_request host path body) ∧
      parse_response (string_of_bytes got) = Ok resp)
    (λ _ _, True) s.
Proof. apply https_post_spec. Qed.
