(* ===== verification/RefHttps.v ===== *)
(** * RefHttps: the registration exchange over the reference network *)

From S2P Require Import Prelude Connection ConnectionFacts Codec RefBase64 RefNet Client Https.
Local Open Scope Z_scope.

Definition created_response : string :=
  "HTTP/1.1 201 Created" +:+ crlf +:+ "Content-Length: 2" +:+ crlf +:+ crlf +:+ "{}".

(** The server answers and closes. *)
Definition register_server : net := ref_server created_response [].

Lemma parse_response_ok_witness :
  parse_response ("HTTP/1.1" +:+ " " +:+ "201" +:+ " " +:+ "Created" +:+ crlf +:+ crlf +:+ "{}")
  = Ok (mkHttpResponse 201 "{}").
Proof.
  apply (parse_response_ok "HTTP/1.1" "201" ("Created" +:+ crlf +:+ crlf +:+ "{}") 201).
  - apply (bool_decide_unpack _). vm_compute. done.
  - apply (bool_decide_unpack _). vm_compute. done.
  - vm_compute. reflexivity.
Defined.

Lemma register_run :
  (Https.https_post (https_fuel "h" 443 register_server) "h" 443 "/backend/register" "{}"
     register_server).1 = Ret (mkHttpResponse 201 "{}").
Proof. vm_compute. reflexivity. Qed.

Lemma https_post_total_witness :
  ∃ got, parse_response (string_of_bytes got) = Ok (mkHttpResponse 201 "{}").
Proof.
  destruct (wp_run_ret (Https.https_post _ _ _ _ _) _ _ register_server _
    (https_post_total (https_fuel "h" 443 register_server) "h" 443 "/backend/register" "{}"
       register_server (le_n _)) register_run) as (s0 & got & _ & _ & Hp).
  exists got. exact Hp.
Defined.
