(* ===== verification/ClientTransport.v ===== *)
(** * ClientTransport: [Connection] keeps what the client relies on

    The instance of the client's [Transport] interface given by the WebSocket
    connection and the HTTPS exchange, and the proof of its laws.  Everything
    proved about the client over the interface therefore holds of the client over
    the connection. *)

From S2P Require Import Prelude Connection ConnectionFacts Client Https.
Local Open Scope Z_scope.

#[global] Instance conn_transport `{NetIo} `{!NetIoLaws} : Transport := {|
  transport := Conn;
  tr_env := net;
  tr_new e h p t := new_connection h p t e;
  tr_env_of := io;
  tr_connect := connect;
  tr_send_text := Connection.send_text;
  tr_disconnect := disconnect;
  tr_is_connected := connected_;
  tr_tls := tls_;
  tr_cert_fingerprint := server_cert_fp_;
  tr_https_post e h p path body :=
    let '(o, e') := Https.https_post (https_fuel h p e) h p path body e in
    (e', match o with
         | Ret r => Ok r
         | Exn what => Err what
         | Stuck what => Err what
         end);
|}.

(** The last case of [tr_https_post] does not occur. *)
Lemma https_post_not_stuck `{NetIo} `{!NetIoLaws} h p path body e what e' :
  Https.https_post (https_fuel h p e) h p path body e ≠ (Stuck what, e').
Proof.
  intros Heq. pose proof (https_post_spec _ h p path body e (le_n _)) as Hw.
  unfold wp in Hw. by rewrite Heq in Hw.
Qed.

(** A text the server reads from a frame. *)
Definition text_frame (text : string) (frame : bytes) : Prop :=
  Z.of_nat (String.length text) < 2 ^ 64 →
  rfc_server_decode frame = Some (true, 0x01, bytes_of_string text).

(** One frame leaves, or an exception; what is to be read stays. *)
Lemma send_text_spec `{NetIo} `{!NetIoLaws} s c :
  wp (Connection.send_text s)
    (λ _ c', connected_ c = true ∧ ∃ frame, writes frame c c' ∧ text_frame s frame)
    (λ _ c', incoming (io c') = incoming (io c) ∧ only_io c c' ∧ (c' = c ∨ ¬ Reliable) ∧
       (Reliable → connected_ c = false)) c.
Proof.
  unfold Connection.send_text. apply wp_bind, wp_gets.
  destruct (connected_ c); [|apply wp_throw; split_and!; [done|reflexivity|by left|done]].
  eapply wp_mono; [apply ws_send_frame_spec| |].
  - intros [] c' (mask & Hm & _ & Hw). split; [done|]. eexists. split; [exact Hw|]. intros Hlen.
    apply client_frame_decodes; [lia|rewrite length_bytes_of_string; lia|done].
  - intros e c' (Hin & Ho & Hr). split_and!; [done|done|by right|done].
Qed.

Lemma send_text_io `{NetIo} `{!NetIoLaws} s c :
  wp (Connection.send_text s) (λ _, only_io c) (λ _, only_io c) c.
Proof.
  eapply wp_mono; [apply send_text_spec|..].
  - by intros [] c' (_ & frame & (_ & _ & Ho) & _).
  - by intros e c' (_ & Ho & _).
Qed.

#[global] Instance conn_transport_laws `{NetIo} `{!NetIoLaws} : TransportLaws.
Proof.
  split; cbn.
  - done.
  - done.
  - intros t. pose proof (disconnect_spec t) as Hw. unfold wp in Hw.
    destruct (disconnect t) as [[[]|e|x] t']; [|done..]. exists t'. split; [done|]. by destruct Hw as [[? _] _].
  - intros pin t t' Heq. pose proof (connect_spec pin t) as Hw. unfold wp in Hw. rewrite Heq in Hw.
    destruct Hw as (Hc & _ & _ & _ & _ & Ht). split; [done|]. intros Htls. by apply Ht.
  - intros pin t e t' Heq. pose proof (connect_spec pin t) as Hw. unfold wp in Hw. rewrite Heq in Hw.
    by destruct Hw.
  - intros pin t x t' Heq. pose proof (connect_spec pin t) as Hw. unfold wp in Hw. by rewrite Heq in Hw.
  - intros s t x t' Heq. pose proof (send_text_io s t) as Hw. unfold wp in Hw. by rewrite Heq in Hw.
  - intros s t Hc. unfold Connection.send_text, mbind, M_bind, gets. rewrite Hc. by eexists.
  - intros s t o t' Heq. pose proof (send_text_io s t) as Hw. unfold wp in Hw. rewrite Heq in Hw.
    destruct o; [..|done]; unfold only_io in Hw; by rewrite Hw.
  - intros s t o t' Heq. pose proof (send_text_io s t) as Hw. unfold wp in Hw. rewrite Heq in Hw.
    destruct o; [..|done]; unfold only_io in Hw; by rewrite Hw.
Qed.
