(* ===== verification/ClientFacts.v ===== *)
(** * ClientFacts: what the client's operations do

    Storage encryption, the order of password and PIN, the lockout policy,
    certificate and identity-key pinning, and what a received message does to the
    conversation, the store and the UI. *)

From S2P Require Import Prelude Json Message Conversation MessageStore.
From S2P Require Import Codec CryptoProxy CryptoProxyFacts App Client.
Local Open Scope Z_scope.

(** ** What a statement leaves alone *)

Section frames.
Context `{NlohmannJson} `{EvpCodec} `{Subprocess} `{Sqlite} `{Transport} `{ClientEnv}.
Implicit Types w : World.

Section primitives.
Context {B : Type} (f : World → B).

Lemma same_modify g : (∀ w, f (g w) = f w) → moves (same f) (modify g).
Proof. intros Hg w. apply Hg. Qed.

Lemma same_crypto m ps : (∀ c w, f (set_crypto c w) = f w) → moves (same f) (crypto_call m ps).
Proof.
  intros Hf w. unfold crypto_call, zoom. destruct (abs_call m ps (crypto_ w)) as [o c]. apply Hf.
Qed.

Lemma same_with_store {A} (g : Store → A * Store) :
  (∀ s d w, f (set_store s d w) = f w) → moves (same f) (with_store g).
Proof.
  intros Hf w. unfold with_store. destruct (store_ w) as [[p l]|]; [|done].
  destruct (g _) as [a st]. apply Hf.
Qed.

Lemma same_open p : (∀ s d w, f (set_store s d w) = f w) → moves (same f) (open_message_store p).
Proof.
  intros Hf w. unfold open_message_store. destruct (sqlite_open_error p); [done|].
  destruct (open_store _) as [[u|e|x] d]; [apply Hf..|done].
Qed.

Lemma same_with_connection {A} (m : M transport A) :
  (∀ c e w, f (set_connection c e w) = f w) → moves (same f) (with_connection m).
Proof.
  intros Hf w. unfold with_connection. destruct (connection_ w); [|done].
  destruct (m _). apply Hf.
Qed.

Lemma same_reset_connection :
  (∀ c e w, f (set_connection c e w) = f w) → moves (same f) reset_connection.
Proof.
  intros Hf w. unfold reset_connection. destruct (connection_ w); [|done].
  destruct (mutex_ w); [done|]. destruct (tr_disconnect _). apply Hf.
Qed.

Lemma same_now : (∀ t l s w, f (set_trace t l s w) = f w) → moves (same f) now_ms.
Proof. intros Hf w. apply Hf. Qed.

Lemma same_with_lock {A} (m : M World A) :
  (∀ b w, f (set_mutex b w) = f w) → moves (same f) m → moves (same f) (with_lock m).
Proof.
  intros Hf Hm w. unfold with_lock. destruct (mutex_ w); [done|].
  specialize (Hm (set_mutex true w)). destruct (m _) as [o w']. cbn in *.
  unfold same in *. by rewrite Hf, Hm, Hf.
Qed.
End primitives.
End frames.

(** Decomposes a statement and checks that every primitive leaves [f] alone. *)
Ltac same_prim :=
  first
    [ apply same_crypto; done | apply same_with_store; done | apply same_open; done
    | apply same_with_connection; done | apply same_reset_connection; done | apply same_now; done
    | apply same_modify; done ].
Ltac same_solve :=
  repeat (intros; first
    [ solve [eauto 2 with moves nocore typeclass_instances]
    | apply moves_bind; [apply _| |] | apply moves_try; [apply _| |]
    | apply moves_when; [apply _|] | apply moves_for_each; [apply _|]
    | apply same_with_lock; [done|]
    | same_prim
    | match goal with |- moves _ (match ?x with _ => _ end) => destruct x end ]).

Section login.
Context `{NlohmannJson} `{EvpCodec} `{Subprocess} `{Sqlite} `{Transport} `{ClientEnv}.

(** What neither the store, the network, the trace, the PIN fields nor the UI hold. *)
Lemma do_login_same {B} (f : World → B) u p k :
  (∀ b d w, f (set_store b d w) = f w) → (∀ c e w, f (set_connection c e w) = f w) →
  (∀ t l s w, f (set_trace t l s w) = f w) →
  (∀ q w, f (set_pin (pin_fail_count_ w) q w) = f w) →
  (∀ c d s w, f (set_session c d s w) = f w) →
  (∀ q w, f (set_server_cert_pin q w) = f w) → (∀ a w, f (set_app a w) = f w) →
  moves (same f) (do_login u p k).
Proof.
  intros F1 F2 F3 F4 F5 F6 F7.
  unfold do_login, load_blob, new_connection_object, send_login_frame, send_json, send_text,
    epic_log, on_app, store_query, store_exec, set_encrypted_dek, set_encrypted_state,
    set_current_user.
  same_solve.
Qed.

(** The password is checked before the PIN matters: logging in never talks to the
    crypto subprocess (whatever key material it holds stays locked), starts no
    conversation, sends no queued text and does not touch the PIN counter. *)
Theorem login_leaves_keys_locked u p k :
  moves (same (λ w, (crypto_ w, conversations_ w, pending_sends_ w, pin_fail_count_ w)))
    (do_login u p k).
Proof. by apply do_login_same. Qed.
End login.

(** ** Symbolic execution of the primitives *)

Section wp_primitives.
Context `{NlohmannJson} `{EvpCodec} `{Subprocess} `{Sqlite} `{Transport} `{ClientEnv}.
Implicit Types w : World.

Lemma open_store_not_stuck d x d' : open_store d ≠ (Stuck x, d').
Proof.
  unfold open_store, recreate_table, mbind, M_bind, modify, gets, throw, mret, M_ret.
  repeat case_match; congruence.
Qed.

Lemma wp_open_store p (Q : unit → World → Prop) (E : string → World → Prop) w :
  (∀ d, Q tt (set_store (Some (p, 0)) d w)) → (∀ e, E e w) →
  (∀ e d, E e (set_store (store_ w) d w)) → wp (open_message_store p) Q E w.
Proof.
  intros HQ HE HE'. unfold wp, open_message_store. destruct (sqlite_open_error p); [done|].
  destruct (open_store _) as [[u|e|x] d] eqn:Ho; [done..|]. by apply open_store_not_stuck in Ho.
Qed.

(** The open database file. *)
Definition db_of w : Db :=
  match store_ w with Some (path, _) => default empty_db (disk w !! path) | None => empty_db end.

Lemma db_of_store path last d dk w :
  db_of (set_store (Some (path, last)) (<[path := d]> dk) w) = d.
Proof. unfold db_of. cbn. by rewrite lookup_insert_eq. Qed.

Lemma wp_with_store {A} (f : Store → A * Store) (Q : A → World → Prop) E w path last :
  store_ w = Some (path, last) →
  Q (f (mkStore (db_of w) last)).1
    (set_store (Some (path, st_last_rowid (f (mkStore (db_of w) last)).2))
       (<[path := st_db (f (mkStore (db_of w) last)).2]> (disk w)) w) →
  wp (with_store f) Q E w.
Proof.
  intros HS HQ. unfold wp, with_store. unfold db_of in HQ. rewrite HS in *.
  by destruct (f _) as [a st].
Qed.

Lemma wp_store_query {A} (f : Db → A) (Q : A → World → Prop) E w path last :
  store_ w = Some (path, last) →
  Q (f (db_of w)) (set_store (Some (path, last)) (<[path := db_of w]> (disk w)) w) →
  wp (store_query f) Q E w.
Proof. intros HS HQ. by eapply wp_with_store. Qed.

Lemma wp_store_exec (f : Db → Db) (Q : unit → World → Prop) E w path last :
  store_ w = Some (path, last) →
  Q tt (set_store (Some (path, last)) (<[path := f (db_of w)]> (disk w)) w) →
  wp (store_exec f) Q E w.
Proof. intros HS HQ. by eapply wp_with_store. Qed.

Lemma wp_with_connection {A} (m : M transport A) (Q : A → World → Prop) E w t :
  connection_ w = Some t →
  wp m (λ a t', Q a (set_connection (Some t') (outside w) w))
    (λ e t', E e (set_connection (Some t') (outside w) w)) t →
  wp (with_connection m) Q E w.
Proof. intros HC. unfold wp, with_connection. rewrite HC. by destruct (m t) as [[] t']. Qed.

Lemma wp_reset_connection `{!TransportLaws} (Q : unit → World → Prop) E w :
  mutex_ w = false →
  (∀ e, Q tt (set_connection None e w)) → (connection_ w = None → Q tt w) →
  wp reset_connection Q E w.
Proof.
  intros Hm HQ HN. unfold wp, reset_connection. rewrite Hm. destruct (connection_ w) as [t|]; [|by apply HN].
  destruct (tr_disconnect_ok t) as (t' & -> & _). apply HQ.
Qed.

Lemma wp_new_connection `{!TransportLaws} (Q : unit → World → Prop) E w :
  mutex_ w = false →
  (∀ e, Q tt (set_connection (Some (tr_new e (host_ w) (port_ w) (port_ w =? 443))) e w)) →
  wp new_connection_object Q E w.
Proof.
  intros Hm HQ. unfold new_connection_object.
  apply wp_bind, wp_reset_connection; [done|intros e|intros _];
    apply wp_modify, HQ.
Qed.

Lemma wp_with_lock {A} (m : M World A) (Q : A → World → Prop) (E : string → World → Prop) w :
  mutex_ w = false →
  wp m (λ a w', Q a (set_mutex false w')) (λ e w', E e (set_mutex false w')) (set_mutex true w) →
  wp (with_lock m) Q E w.
Proof. intros Hm. unfold wp, with_lock. rewrite Hm. by destruct (m _) as [[] w']. Qed.

Lemma wp_load_blob get set load (I : World → Prop) w path last :
  I w → store_ w = Some (path, last) →
  (∀ w d, I w → I (set_store (store_ w) d w)) → (∀ j w, I w → I (set j w)) →
  wp (load_blob get set load) (λ _, I) (λ _, I) w.
Proof.
  intros HI HS HI1 HI2. unfold load_blob. apply wp_bind, wp_gets.
  destruct (json_is_null (get w)); [|by apply wp_ret].
  apply wp_bind. eapply wp_store_query; [done|].
  assert (∀ d, I (set_store (Some (path, last)) d w)) as Hd by (intros d; rewrite <-HS; auto).
  destruct (load (db_of w)) as [text|]; [|by apply wp_ret].
  apply wp_bind, wp_lift. destruct (json_parse text); [|apply Hd]. apply wp_modify. auto.
Qed.
End wp_primitives.

(** ** Trusting the server *)

Section trust.
Context `{NlohmannJson} `{EvpCodec} `{Subprocess} `{Sqlite} `{Transport} `{ClientEnv}.
Context `{!TransportLaws}.
Implicit Types w : World.

(** What a failed login leaves alone. *)
Definition at_rest w : list string * bool := (sent_ w, mutex_ w).

(** While the login is being prepared. *)
Record preparing w w1 : Prop := {
  prep_sent : at_rest w1 = at_rest w;
  prep_store : is_Some (store_ w1);
  prep_pin : server_cert_pin_ w1 = server_cert_pin_ w;
  prep_host : host_ w1 = host_ w;
  prep_port : port_ w1 = port_ w;
}.

(** The credentials are on the wire, to the server whose certificate is pinned. *)
Record logged_in_to username password w w1 : Prop := {
  li_connection : ∃ t, connection_ w1 = Some t ∧ tr_is_connected t = true ∧
    tr_cert_fingerprint t = server_cert_pin_ w1;
  li_pin : server_cert_pin_ w ≠ "" → server_cert_pin_ w1 = server_cert_pin_ w;
  li_sent : ∃ text, json_dump (json_of_object
      [("username", json_of_string username); ("password", json_of_string password)]) = Ok text ∧
    sent_ w1 = sent_ w ++ [text];
}.

Lemma wp_prepare u k (rest : M World unit) Q w :
  (∀ w1, preparing w w1 → wp rest Q (λ _ w2, at_rest w2 = at_rest w) w1) →
  wp (open_message_store (db_path_for u) ;;
      load_blob encrypted_dek_ set_encrypted_dek (load_dek u) ;;
      modify (λ w, set_pin (pin_fail_count_ w) k w) ;;
      load_blob encrypted_state_ set_encrypted_state (load_encrypted_state u) ;;
      modify (set_current_user u) ;; rest)
    Q (λ _ w1, at_rest w1 = at_rest w) w.
Proof.
  intros Hrest.
  assert (∀ get set load w1, (∀ j w', preparing w w' → preparing w (set j w')) →
    preparing w w1 → wp (load_blob get set load) (λ _, preparing w) (λ _ w1, at_rest w1 = at_rest w) w1)
    as Hb.
  { intros get set load w1 Hset Hw1. destruct (prep_store _ _ Hw1) as [[path last] HS].
    eapply wp_mono; [eapply (wp_load_blob _ _ _ (preparing w))| |]; eauto.
    - intros w' d [? ? ? ? ?]. by split.
    - by intros e w' [? _ _ _ _]. }
  apply wp_bind, wp_open_store; [|done..]. intros d. apply wp_bind.
  eapply wp_mono; [apply Hb| |done]; [by intros j w' []|by split|].
  intros [] w1 Hw1. apply wp_bind, wp_modify, wp_bind.
  eapply wp_mono; [apply Hb| |done]; [by intros j w' []|by destruct Hw1|].
  intros [] w2 []. apply wp_bind, wp_modify, Hrest. by split.
Qed.

(** Connecting with the pin [pin], then pinning the certificate on first use. *)
Lemma wp_connect_and_pin (rest : M World unit) Q w w1 host t :
  (∀ w2, at_rest w2 = at_rest w →
    (server_cert_pin_ w ≠ "" → server_cert_pin_ w2 = server_cert_pin_ w) →
    (∃ t', connection_ w2 = Some t' ∧ tr_is_connected t' = true ∧
        tr_cert_fingerprint t' = server_cert_pin_ w2) →
    wp rest Q (λ _ w3, at_rest w3 = at_rest w) w2) →
  connection_ w1 = Some t → tr_tls t = true → is_Some (store_ w1) → at_rest w1 = at_rest w →
  (server_cert_pin_ w ≠ "" → server_cert_pin_ w1 = server_cert_pin_ w) →
  wp (pin ← gets server_cert_pin_;
      with_connection (tr_connect pin) ;;
      when (str_empty pin)
        (fp ← with_connection (gets tr_cert_fingerprint);
         modify (set_server_cert_pin fp) ;;
         store_exec (save_server_cert host fp)) ;; rest)
    Q (λ _ w2, at_rest w2 = at_rest w) w1.
Proof.
  intros Hrest HC Htls [[path last] HS] Hsent Hpin. apply wp_bind, wp_gets, wp_bind.
  eapply wp_with_connection; [done|]. unfold wp at 1.
  destruct (tr_connect (server_cert_pin_ w1) t) as [[[]|e|x] t'] eqn:Hconn; [|done|].
  2:{ by apply tr_connect_safe in Hconn. }
  apply tr_connect_ok in Hconn as [Hon Hfp]. specialize (Hfp Htls). apply wp_bind, wp_when.
  destruct (str_empty (server_cert_pin_ w1)) eqn:Hemp.
  - apply str_empty_true in Hemp. apply wp_bind. eapply wp_with_connection; [done|].
    apply wp_gets, wp_bind, wp_modify. eapply wp_store_exec; [exact HS|].
    apply Hrest; [done|..].
    + intros Hne. by specialize (Hpin Hne); rewrite Hemp in Hpin; destruct Hne.
    + by exists t'.
  - apply str_empty_false in Hemp. apply Hrest; [done..|].
    exists t'. split; [done|]. split; [done|]. cbn. by destruct Hfp.
Qed.

Lemma wp_login_frame u p w w1 :
  at_rest w1 = at_rest w →
  (server_cert_pin_ w ≠ "" → server_cert_pin_ w1 = server_cert_pin_ w) →
  (∃ t, connection_ w1 = Some t ∧ tr_is_connected t = true ∧
    tr_cert_fingerprint t = server_cert_pin_ w1) →
  wp (send_login_frame u p) (λ _, logged_in_to u p w) (λ _ w2, at_rest w2 = at_rest w) w1.
Proof.
  intros Hs Hpin (t & HC & Hon & Hfp). injection Hs as Hs Hm. unfold send_login_frame, send_json, send_text.
  apply wp_bind, wp_lift. destruct (json_dump _) as [text|e] eqn:Hd; [|unfold at_rest; cbn; congruence].
  apply wp_bind. eapply wp_with_connection; [done|]. unfold wp.
  destruct (tr_send_text text t) as [[[]|e|x] t'] eqn:Ht;
    [|unfold at_rest; cbn; congruence|by apply tr_send_text_safe in Ht].
  split; [|done|].
  - exists t'. apply tr_send_text_connected in Ht as Hc. apply tr_send_text_fingerprint in Ht as Hf.
    cbn. split; [done|]. split; congruence.
  - exists text. cbn. by rewrite Hs.
Qed.

(** C16: Over TLS, [do_login] always returns, and either it has given up, without a
    connection and without having sent anything, or the credentials went over a
    connection whose certificate is the pinned one: the one pinned before, if
    there was one, and otherwise the one the server showed. *)
Theorem login_pins_server username password key_pin w :
  mutex_ w = false → port_ w = 443 →
  ∃ w', do_login username password key_pin w = (Ret tt, w') ∧
    ((connection_ w' = None ∧ sent_ w' = sent_ w) ∨ logged_in_to username password w w').
Proof.
  intros Hm Hport.
  assert (wp (do_login username password key_pin)
    (λ _ w', (connection_ w' = None ∧ sent_ w' = sent_ w) ∨ logged_in_to username password w w')
    (λ _ _, False) w) as Hw.
  2:{ destruct (wp_returns _ _ _ Hw) as ([] & w' & ? & ?). by exists w'. }
  unfold do_login. apply wp_bind, wp_modify, wp_try.
  set (w0 := set_trace _ _ _ w). change (sent_ w) with (sent_ w0).
  change (port_ w) with (port_ w0) in Hport. change (mutex_ w) with (mutex_ w0) in Hm.
  eapply (wp_mono _ (λ _, logged_in_to username password w0) _ (λ _ w1, at_rest w1 = at_rest w0));
    [|intros [] w1 []; by right; split|].
  - apply wp_prepare. intros w1 [P1 P2 P3 P4 P5]. apply wp_bind, wp_new_connection.
    { by injection P1 as _ ->. }
    intros e. apply wp_bind, wp_gets, wp_bind, wp_gets, wp_bind, wp_when.
    set (w2 := set_connection _ _ w1). set (t := tr_new _ _ _ _) in *.
    assert (tr_tls t = true) as Ht.
    { unfold t. rewrite tr_new_tls, P5, Hport. done. }
    destruct (str_empty (server_cert_pin_ w2)) eqn:Hemp.
    + apply str_empty_true in Hemp. destruct P2 as [[path last] HS].
      apply wp_bind. eapply wp_store_query; [done|].
      assert (server_cert_pin_ w0 = "") as Hp by (rewrite <-P3; done).
      destruct (load_server_cert _ _) as [fp|];
        [apply wp_modify|apply wp_ret];
        (eapply wp_connect_and_pin; [apply wp_login_frame|done|exact Ht|by eexists|exact P1|]);
        by rewrite Hp.
    + eapply wp_connect_and_pin; [apply wp_login_frame|done|exact Ht|done|exact P1|done].
  - intros raw w1 Hs. injection Hs as Hs Hm1. apply wp_bind, wp_modify, wp_bind, wp_modify.
    apply wp_reset_connection; [by transitivity (mutex_ w0)|by left|by left].
Qed.
End trust.

(** ** Storage encryption *)

Section storage.
Context `{NlohmannJson} `{EvpCodec} `{Subprocess} `{Sqlite} `{Transport} `{ClientEnv}.
Context `{!StorageCipher} `{!NlohmannJsonLaws} `{!EvpCodecLaws} `{!StorageCipherLaws}.
Implicit Types w : World.

(** Under the key [d], [blob] decrypts to [text], whatever else the client's state
    is, and nothing but the subprocess's state changes. *)
Definition opens (d : option dek) (blob text : string) : Prop :=
  ∀ w, dek_of (crypto_ w) = d →
    ∃ ch, storage_decrypt blob w = (Ret text, set_crypto ch w) ∧ dek_of ch = d.

Lemma storage_encrypt_opens s w blob w' :
  storage_encrypt s w = (Ret blob, w') →
  (∃ ch, w' = set_crypto ch w ∧ dek_of ch = dek_of (crypto_ w)) ∧
  nul_free blob = true ∧ opens (dek_of (crypto_ w)) blob s.
Proof.
  unfold storage_encrypt, encrypt_for_storage, crypto_call, zoom, mbind, M_bind.
  destruct (abs_call _ _ (crypto_ w)) as [[r|e|x] ch] eqn:Hc; [|done..].
  destruct (json_dump r) as [text|] eqn:Hd; [|done]. intros Heq. cbn in Heq.
  injection Heq as <- <-.
  destruct (encrypt_storage_ok _ _ _ _ Hc) as (Hdek & n & c & -> & Hdec).
  split; [by exists ch|]. split; [by eapply dump_nul_free|]. intros w2 Hw2.
  destruct (Hdec (crypto_ w2) Hw2) as (ch2 & Hr & Hd2).
  exists ch2. split; [|congruence]. unfold storage_decrypt.
  destruct (dump_object_brace _ _ Hd) as [t Ht].
  assert (String.prefix "{" text = true) as -> by (rewrite Ht; by destruct t).
  cbn [negb]. unfold try_catch, mbind, M_bind.
  rewrite (parse_dump_object [("nonce", json_of_string n); ("ciphertext", json_of_string c)] text)
    by first [exact Hd|cbn; eauto using Forall_nil, Forall_cons_2, roundtrips_string].
  cbn [lift mret M_ret]. rewrite !contains_object. cbn [fmap list_fmap fst].
  rewrite !bool_decide_true by json_keys. cbn [negb orb].
  revert Hr. unfold decrypt_from_storage, mbind, M_bind.
  rewrite (at_object _ "nonce" (json_of_string n)) by json_keys.
  rewrite (at_object _ "ciphertext" (json_of_string c)) by json_keys.
  cbn [lift mret M_ret]. intros Hr. unfold crypto_call, zoom. rewrite Hr.
  rewrite (at_object _ "plaintext" (json_of_string (b64_encode s))) by json_keys.
  cbn [lift mret M_ret]. rewrite get_string_string. cbn [lift mret M_ret].
  by rewrite b64_decode_encode.
Qed.

(** Text that does not look like a blob is passed through: rows written before
    encryption was introduced stay readable. *)
Lemma opens_legacy d text : String.prefix "{" text = false → opens d text text.
Proof.
  intros Hp w Hw. exists (crypto_ w). split; [|done]. unfold storage_decrypt. rewrite Hp.
  by destruct w.
Qed.
End storage.

(** C11: What the client stores encrypted it reads back: a blob made by
    [storage_encrypt] is NUL-free text, so SQLite stores all of it, and as long as
    the subprocess holds the same key [storage_decrypt] returns the original
    bytes, in any later state of the client; neither touches anything but the
    subprocess. *)
Theorem storage_roundtrip `{NlohmannJson} `{EvpCodec} `{Subprocess} `{Sqlite} `{Transport}
    `{ClientEnv} `{!StorageCipher} `{!NlohmannJsonLaws} `{!EvpCodecLaws} `{!StorageCipherLaws}
    s w blob w1 w2 :
  storage_encrypt s w = (Ret blob, w1) → dek_of (crypto_ w2) = dek_of (crypto_ w1) →
  c_str blob = blob ∧ w1 = set_crypto (crypto_ w1) w ∧
  ∃ w3, storage_decrypt blob w2 = (Ret s, w3) ∧ w3 = set_crypto (crypto_ w3) w2.
Proof.
  intros He Hd. destruct (storage_encrypt_opens _ _ _ _ He) as ((ch & -> & Hch) & Hn & Ho).
  split; [by apply c_str_nul_free|]. split; [done|]. destruct (Ho w2) as (ch2 & -> & _).
  - rewrite Hd. apply Hch.
  - by eexists.
Qed.
