(* ===== verification/ClientSession.v ===== *)
(** * ClientSession: opening and closing a session

    What the right and the wrong PIN do, what a login restores from the store, and
    what each way of ending a session leaves behind. *)

From S2P Require Import Prelude Json Message Conversation MessageStore Codec.
From S2P Require Import CryptoProxy CryptoProxyFacts App Client ClientSafety ClientFacts.
Local Open Scope Z_scope.

(** ** Restoring the conversations *)

Section restore.
Context `{NlohmannJson} `{EvpCodec} `{Subprocess} `{Sqlite} `{Transport} `{ClientEnv}.
Context `{!StorageCipher}.
Implicit Types (w : World) (raw conv : Conversation).

(** [conv] is the stored conversation [raw] with everything encrypted opened. *)
Record restores (d : option dek) raw conv : Prop := {
  rest_peer : peer_ conv = peer_ raw;
  rest_pin : pinned_ik_pub_ conv = pinned_ik_pub_ raw;
  rest_state : opens d (ratchet_state_ raw) (ratchet_state_ conv);
  rest_ad : opens d (associated_data_ raw) (associated_data_ conv);
  rest_messages : Forall2 (λ m m', ∃ text, opens d (msg_body m) text ∧ m' = set_body text m)
    (messages_ raw) (messages_ conv);
}.

Lemma run_decrypt_messages d ms ms' (acc : M World Conversation) conv w ch :
  acc w = (Ret conv, set_crypto ch w) → dek_of ch = d →
  Forall2 (λ m m', ∃ text, opens d (msg_body m) text ∧ m' = set_body text m) ms ms' →
  ∃ ch', foldl (λ acc m, conv ← acc; body ← storage_decrypt (msg_body m);
                         mret (add_message (set_body body m) conv)) acc ms w
    = (Ret (set_messages (messages_ conv ++ ms') conv), set_crypto ch' w) ∧ dek_of ch' = d.
Proof.
  intros Hacc Hd Hms. revert acc conv ch Hacc Hd.
  induction Hms as [|m m' ms ms' (text & Ho & ->) _ IH]; intros acc conv ch Hacc Hd.
  - exists ch. cbn [foldl]. split; [|done]. rewrite Hacc, app_nil_r. by destruct conv.
  - cbn [foldl]. destruct (Ho (set_crypto ch w)) as (ch' & Hs & Hd'); [done|].
    destruct (IH (conv ← acc; body ← storage_decrypt (msg_body m);
                  mret (add_message (set_body body m) conv))
                (add_message (set_body text m) conv) ch') as (ch2 & Hrun & Hd2); [|done|].
    + unfold mbind, M_bind. rewrite Hacc. by rewrite Hs.
    + exists ch2. split; [|done]. rewrite Hrun. cbn. by rewrite <-app_assoc.
Qed.

Lemma run_load_peer d raw conv w :
  restores d raw conv → dek_of (crypto_ w) = d →
  ∃ ch, load_peer (peer_ raw) raw w = (Ret conv, set_crypto ch w) ∧ dek_of ch = d.
Proof.
  intros [R1 R2 R3 R4 R5] Hw. unfold load_peer, decrypt_messages, mbind, M_bind.
  destruct (R3 w Hw) as (ch & -> & Hch). destruct (R4 (set_crypto ch w) Hch) as (ch' & -> & Hch').
  set (w' := set_crypto ch' (set_crypto ch w)).
  destruct (run_decrypt_messages d _ _ (mret (set_pinned_ik_pub (pinned_ik_pub_ raw)
     (set_associated_data (associated_data_ conv) (set_ratchet_state (ratchet_state_ conv)
        (new_conversation (peer_ raw)))))) _ w' ch' eq_refl Hch' R5) as (ch2 & Hrun & Hch2).
  exists ch2. split; [|done]. etrans; [exact Hrun|]. destruct conv. cbn in R1, R2 |- *. by subst.
Qed.

Lemma load_conversation_peer peer d raw : load_conversation peer d = Some raw → peer_ raw = peer.
Proof.
  unfold load_conversation. destruct (select_messages peer d); [done|]. intros [= <-].
  by repeat case_match.
Qed.

(** The state after the conversations of [peers] have been loaded as [C]. *)
Record loaded (C : string → Conversation) (peers : list string) w w' : Prop := {
  ld_store : store_ w' = store_ w;
  ld_db : db_of w' = db_of w;
  ld_dek : dek_of (crypto_ w') = dek_of (crypto_ w);
  ld_app : app_ w' = app_ w;
  ld_convs k : conversations_ w' !! k =
    if bool_decide (k ∈ peers) then Some (C k) else conversations_ w !! k;
}.

Lemma wp_load_peers C peers w :
  is_Some (store_ w) →
  (∀ peer, peer ∈ peers → ∃ raw, load_conversation peer (db_of w) = Some raw ∧
    restores (dek_of (crypto_ w)) raw (C peer)) →
  wp (load_peers peers) (λ convs w', convs = C <$> peers ∧ loaded C peers w w')
    (λ _ _, False) w.
Proof.
  revert w. induction peers as [|peer peers IH]; intros w Hst HC; [done|].
  destruct (HC peer ltac:(left)) as (raw & Hraw & Hrest). destruct Hst as [[path last] HS].
  cbn [load_peers]. apply wp_bind. eapply wp_store_query; [done|]. rewrite Hraw.
  set (w1 := set_store _ _ w). assert (db_of w1 = db_of w) as Hdb by apply db_of_store.
  destruct (run_load_peer (dek_of (crypto_ w)) raw (C peer) w1) as (ch & Hrun & Hch); [done..|].
  rewrite (load_conversation_peer _ _ _ Hraw) in Hrun.
  apply wp_bind. unfold wp at 1. rewrite Hrun. apply wp_bind, wp_modify, wp_bind.
  set (w2 := set_crypto ch w1). set (w3 := Client.set_conversations _ w2).
  eapply wp_mono; [apply (IH w3)| |done]; [by eexists|..].
  - intros peer' Hp. change (db_of w3) with (db_of w1). change (crypto_ w3) with ch.
    rewrite Hdb, Hch. apply HC. by right.
  - intros convs w4 [-> [L1 L2 L3 L4 L5]]. split; [done|]. split.
    + by rewrite L1, HS.
    + by rewrite L2.
    + rewrite L3. exact Hch.
    + done.
    + intros k. rewrite L5. change (conversations_ w3) with (<[peer:=C peer]> (conversations_ w)).
      destruct (decide (k = peer)) as [->|Hne].
      * rewrite (bool_decide_true (peer ∈ peer :: peers)) by left.
        rewrite lookup_insert_eq. by case_bool_decide.
      * rewrite lookup_insert_ne by done.
        by rewrite (bool_decide_ext (k ∈ peer :: peers) (k ∈ peers)) by (rewrite elem_of_cons; tauto).
Qed.

(** C12: A login restores what was stored: when the blobs in the database open under
    the key just unlocked, every peer with messages gets its conversation back
    (messages in order, session state, pinned identity key), the UI is given
    exactly those conversations, most recent first, and the database is
    unchanged. *)
Theorem login_restores_conversations C w :
  is_Some (store_ w) → mutex_ w = false →
  (∀ peer, peer ∈ list_peers (db_of w) → ∃ raw,
    load_conversation peer (db_of w) = Some raw ∧
    restores (dek_of (crypto_ w)) raw (C peer)) →
  ∃ w', load_conversations w = (Ret tt, w') ∧ db_of w' = db_of w ∧
    (∀ k, conversations_ w' !! k =
       if bool_decide (k ∈ list_peers (db_of w)) then Some (C k) else conversations_ w !! k) ∧
    app_ w' = (if bool_decide (list_peers (db_of w) = []) then app_ w
               else App.set_conversations (C <$> list_peers (db_of w)) (app_ w)).
Proof.
  intros Hst Hm HC.
  assert (wp load_conversations (λ _ w', db_of w' = db_of w ∧
      (∀ k, conversations_ w' !! k =
         if bool_decide (k ∈ list_peers (db_of w)) then Some (C k) else conversations_ w !! k) ∧
      app_ w' = (if bool_decide (list_peers (db_of w) = []) then app_ w
                 else App.set_conversations (C <$> list_peers (db_of w)) (app_ w)))
    (λ _ _, False) w) as Hwp.
  2:{ destruct (wp_returns _ _ _ Hwp) as ([] & w' & ? & ?). by exists w'. }
  apply wp_with_lock; [done|]. set (w1 := set_mutex true w).
  apply wp_bind, wp_gets, wp_bind. destruct Hst as [[path last] HS].
  change (store_ w1) with (store_ w). rewrite HS. apply wp_bind.
  eapply wp_store_query; [done|]. change (db_of w1) with (db_of w).
  set (w2 := set_store _ _ w1). assert (db_of w2 = db_of w) as Hdb by apply db_of_store.
  eapply wp_mono; [apply (wp_load_peers C); [by eexists|by rewrite Hdb]| |done].
  intros convs w3 [-> [L1 L2 L3 L4 L5]]. apply wp_when.
  rewrite (bool_decide_ext (C <$> list_peers (db_of w) = []) (list_peers (db_of w) = []))
    by (by destruct (list_peers (db_of w))).
  case_bool_decide as Hnil; cbn [negb]; [|apply wp_modify]; split_and!; try done;
    try (by rewrite <-Hdb). by cbn; rewrite L4.
Qed.
End restore.

(** ** The PIN *)

Section pin.
Context `{NlohmannJson} `{EvpCodec} `{Subprocess} `{Sqlite} `{Transport} `{ClientEnv}.
Implicit Types w : World.

(** What the subprocess says to the pending PIN. *)
Definition unlock_attempt w : outcome unit * child :=
  unlock_dek abs_call (pending_key_pin_ w) (current_user_ w) (encrypted_dek_ w) (crypto_ w).

Lemma run_try_unlock w o ch :
  mutex_ w = false → json_is_null (encrypted_dek_ w) = false → unlock_attempt w = (o, ch) →
  match o with
  | Stuck _ => True
  | _ => try_unlock w =
      (Ret (Some (match o with Ret _ => true | _ => false end)),
       set_mutex false (set_pin (pin_fail_count_ w) "" (set_crypto ch (set_mutex true w))))
  end.
Proof.
  intros Hm Hd Ha. unfold unlock_attempt, unlock_dek, mbind, M_bind in Ha.
  unfold try_unlock, with_lock, mbind, M_bind, gets, modify, mret, M_ret. rewrite Hm.
  change (encrypted_dek_ (set_mutex true w)) with (encrypted_dek_ w). rewrite Hd.
  unfold try_catch, unlock_dek, crypto_call, zoom, mbind, M_bind, mret, M_ret.
  cbn [crypto_ set_mutex pending_key_pin_ current_user_ encrypted_dek_].
  destruct (abs_call _ _ (crypto_ w)) as [[r|e|x] ch']; injection Ha as <- <-; done.
Qed.

(** What the user sees after the [n]th wrong PIN: how many attempts are left, or a
    lockout that doubles from 5 seconds up to 300. *)
Definition wrong_pin_feedback (n : Z) : App → App :=
  if n <? 3 then
    push_status ("Incorrect PIN — " +:+ pretty (3 - n) +:+ " attempt(s) remaining before lockout.")
  else start_lockout (Z.min (5 * 2 ^ (n - 3)) 300).

(** C15: A wrong PIN keeps the user out: when the subprocess refuses the PIN, the
    confirmation of the password leads to no session. The failure is counted, the
    PIN is forgotten, the session is aborted on the UI thread, the user is told
    or locked out; nothing is decrypted, stored or sent, and the screen stays. *)
Theorem wrong_pin_keeps_out w e ch :
  mutex_ w = false → screen_ptr_ (app_ w) = true → 0 ≤ pin_fail_count_ w < 31 →
  json_is_null (encrypted_dek_ w) = false → unlock_attempt w = (Exn e, ch) →
  ∃ w', auth_confirmed w = (Ret tt, w') ∧
    w' = set_app (post T_run_on_ui (wrong_pin_feedback (pin_fail_count_ w + 1) (app_ w)))
           (set_pin (pin_fail_count_ w + 1) "" (set_crypto ch w)).
Proof.
  intros Hm Hs Hn Hd Ha. eexists. split; [|done].
  unfold auth_confirmed, mbind, M_bind. rewrite (run_try_unlock w (Exn e) ch Hm Hd Ha).
  unfold wrong_pin, run_on_ui_abort, mbind, M_bind, gets, modify, on_app, modify, wrong_pin_feedback.
  cbn -[Z.ltb Z.min Z.pow Z.add Z.mul Z.sub pretty App.post start_lockout lockout_delay].
  assert (∀ f, (∀ a, screen_ptr_ (f a) = screen_ptr_ a) → screen_ptr_ (f (app_ w)) = true) as Hf
    by (intros f Hf; by rewrite Hf).
  destruct (Z.ltb_spec (pin_fail_count_ w + 1) 3) as [Hlt|Hge].
  - cbn -[App.post pretty]. rewrite (Hf (push_status _) (post_screen _)).
    destruct w; cbn in *; by subst.
  - rewrite lockout_delay_some by lia. cbn -[App.post start_lockout Z.min Z.pow Z.add Z.mul Z.sub].
    rewrite (Hf (start_lockout _) (start_lockout_screen _)). destruct w; cbn in *; by subst.
Qed.
End pin.

(** The delay is within [int] and doubles from 5 seconds at the third failure up to
    the cap of 300 seconds, for failures 3 to 31; from the 32nd on the expression
    overflows a signed [int] before [std::min] is applied, which is undefined. *)
Theorem lockout_delay_policy n :
  3 ≤ n →
  (n ≤ 31 → ∃ d, lockout_delay n = Some d ∧ 5 ≤ d ≤ 300 ∧
     (n ≤ 30 → lockout_delay (n + 1) = Some (Z.min (2 * d) 300))) ∧
  (32 ≤ n → lockout_delay n = None).
Proof.
  intros Hn. split.
  - intros Hn'. exists (Z.min (5 * 2 ^ (n - 3)) 300). rewrite lockout_delay_some by lia.
    assert (0 < 2 ^ (n - 3)) by (apply Z.pow_pos_nonneg; lia).
    split; [done|]. split; [lia|]. intros Hn2. rewrite lockout_delay_some by lia.
    replace (n + 1 - 3) with (Z.succ (n - 3)) by lia. rewrite Z.pow_succ_r by lia. f_equal. lia.
  - intros Hn'. unfold lockout_delay.
    assert (2 ^ 29 ≤ 2 ^ (n - 3)) by (apply Z.pow_le_mono_r; lia).
    rewrite (bool_decide_false (in_s 32 _)) by (unfold in_s; cbn; lia). by rewrite andb_false_r.
Qed.

(** ** Ending a session *)

Section ending.
Context `{NlohmannJson} `{EvpCodec} `{Subprocess} `{Sqlite} `{Transport} `{ClientEnv}.
Context `{!TransportLaws} `{!NlohmannJsonLaws}.
Implicit Types w : World.

(** Nothing of the session is left in memory; what is on disk stays. *)
Record session_over w w' : Prop := {
  so_user : current_user_ w' = "";
  so_convs : conversations_ w' = ∅;
  so_pending : pending_sends_ w' = ∅;
  so_dek : encrypted_dek_ w' = json_null;
  so_state : encrypted_state_ w' = json_null;
  so_store : store_ w' = None;
  so_mutex : mutex_ w' = false;
  so_disk : disk w' = disk w;
  so_sent : sent_ w' = sent_ w;
}.

(** What [clear_session] does, and what it leaves alone. *)
Record forgotten w w' : Prop := {
  fg_over : current_user_ w' = "" ∧ conversations_ w' = ∅ ∧ pending_sends_ w' = ∅ ∧
    encrypted_dek_ w' = json_null ∧ encrypted_state_ w' = json_null;
  fg_disk : disk w' = disk w ∧ sent_ w' = sent_ w;
  fg_rest : mutex_ w' = mutex_ w ∧ connection_ w' = connection_ w ∧ app_ w' = app_ w ∧
    pin_fail_count_ w' = pin_fail_count_ w;
}.

Lemma wp_clear_session (rest : M World unit) Q E w :
  (∀ w', forgotten w w' → wp rest Q E w') → wp (clear_session ;; rest) Q E w.
Proof.
  intros Hrest. unfold clear_session. apply wp_bind.
  do 4 apply wp_bind, wp_modify. apply wp_modify, Hrest. by split.
Qed.


(** Aborting a login ends the session the same way, forgets the PIN and drops the
    connection, but keeps the failure count, so that it survives a login. *)
Theorem abort_keeps_failure_count w :
  mutex_ w = false →
  ∃ w', abort_login_session w = (Ret tt, w') ∧ session_over w w' ∧ connection_ w' = None ∧
    pending_key_pin_ w' = "" ∧ pin_fail_count_ w' = pin_fail_count_ w ∧ app_ w' = app_ w.
Proof.
  intros Hm.
  assert (wp abort_login_session (λ _ w', session_over w w' ∧ connection_ w' = None ∧
    pending_key_pin_ w' = "" ∧ pin_fail_count_ w' = pin_fail_count_ w ∧ app_ w' = app_ w)
    (λ _ _, False) w) as Hw.
  2:{ destruct (wp_returns _ _ _ Hw) as ([] & w' & ? & ?). by exists w'. }
  unfold abort_login_session, abort_login, reset_store.
  apply wp_bind, wp_modify, wp_bind, wp_with_lock; [done|].
  apply wp_clear_session. intros w1 [(F1 & F2 & F3 & F4 & F5) [F6 F7] (F8 & F9 & F10 & F11)]. wp_run.
  apply wp_reset_connection; [done|intros e|intros HC]; by (split; [split|]).
Qed.

(** A drop of the connection ends the session, but (unlike an abort) it also resets
    the failure count, and the reason is never seen: the text posted for it is
    erased by the return to the login screen posted right behind it. *)
Theorem disconnect_hides_reason reason w :
  mutex_ w = false → quit_ w = false → screen_ptr_ (app_ w) = true →
  ∃ w', on_disconnect reason w = (Ret tt, w') ∧ session_over w w' ∧ pin_fail_count_ w' = 0 ∧
    posted (app_ w') = posted (app_ w) ++ [T_status (disconnect_text reason); T_return_to_login] ∧
    status_msg_ (foldl (flip run_task) (app_ w') (posted (app_ w'))) = "".
Proof.
  intros Hm Hq Hs.
  assert (wp (on_disconnect reason) (λ _ w', session_over w w' ∧ pin_fail_count_ w' = 0 ∧
    posted (app_ w') = posted (app_ w) ++ [T_status (disconnect_text reason); T_return_to_login])
    (λ _ _, False) w) as Hw.
  2:{ destruct (wp_returns _ _ _ Hw) as ([] & w' & ? & ? & ? & Hp). exists w'.
      split_and!; [done..|]. rewrite Hp. by rewrite !foldl_app. }
  unfold on_disconnect, reset_store. apply wp_bind, wp_modify, wp_bind, wp_modify.
  apply wp_bind, wp_gets. change (quit_ _) with (quit_ w) at 1. rewrite Hq.
  apply wp_bind, wp_with_lock; [done|].
  apply wp_clear_session. intros w1 [(F1 & F2 & F3 & F4 & F5) [F6 F7] (F8 & F9 & F10 & F11)]. wp_run.
  split_and!; [by split|done|]. cbn. rewrite F10.
  unfold push_status, return_to_login, post. cbn. rewrite Hs. cbn. rewrite Hs. cbn.
  by rewrite <-app_assoc.
Qed.

(** The handler of a drop always completes, and leaves the connection object. *)
Lemma wp_on_disconnect reason w E :
  mutex_ w = false →
  wp (on_disconnect reason) (λ _ w', connection_ w' = connection_ w ∧ (quit_ w = false → session_over w w')) E w.
Proof.
  intros Hm. unfold on_disconnect, reset_store. apply wp_bind, wp_modify, wp_bind, wp_modify.
  apply wp_bind, wp_gets. change (quit_ (set_app _ _)) with (quit_ w). destruct (quit_ w); [by apply wp_ret|].
  apply wp_bind, wp_with_lock; [done|].
  apply wp_clear_session. intros w1 [(F1 & F2 & F3 & F4 & F5) [F6 F7] (F8 & F9 & F10 & F11)]. wp_run.
  by split.
Qed.

(** *** Logging in again *)

(** Key material in memory stays what it is. *)
Definition keeps_keys (f : World → json) w w' : Prop := json_is_null (f w) = false → f w' = f w.

#[global] Instance keeps_keys_preorder (f : World → json) : PreOrder (keeps_keys f).
Proof.
  split; unfold keeps_keys; [done|]. intros w1 w2 w3 H12 H23 Hn. rewrite <-H12 by done.
  apply H23. by rewrite H12.
Qed.

Lemma same_keeps_keys {A} (f : World → json) (m : M World A) :
  moves (same f) m → moves (keeps_keys f) m.
Proof. intros Hm w _. apply Hm. Qed.

Lemma load_blob_keeps_keys f set load : moves (keeps_keys f) (load_blob f set load).
Proof. intros w Hn. unfold load_blob, mbind, M_bind, gets. by rewrite Hn. Qed.

Lemma do_login_keeps_keys f u p k :
  f = encrypted_dek_ ∨ f = encrypted_state_ → moves (keeps_keys f) (do_login u p k).
Proof.
  intros Hf. unfold do_login.
  assert (∀ A (m : M World A), moves (same f) m → moves (keeps_keys f) m) as Hsame
    by (intros; by apply same_keeps_keys).
  apply moves_bind; [apply _|apply Hsame; destruct Hf as [-> | ->]; unfold epic_log; same_solve|]. intros [].
  apply moves_try; [apply _| |].
  2:{ intros e. apply Hsame. destruct Hf as [-> | ->]; unfold epic_log; same_solve. }
  apply moves_bind; [apply _|apply Hsame; destruct Hf as [-> | ->]; same_solve|]. intros [].
  apply moves_bind; [apply _| |intros []].
  { destruct Hf as [-> | ->]; [apply load_blob_keeps_keys|]. apply Hsame.
    unfold load_blob, store_query, set_encrypted_dek. same_solve. }
  apply moves_bind; [apply _|apply Hsame; destruct Hf as [-> | ->]; same_solve|]. intros [].
  apply moves_bind; [apply _| |intros []].
  { destruct Hf as [-> | ->]; [|apply load_blob_keeps_keys]. apply Hsame.
    unfold load_blob, store_query, set_encrypted_state. same_solve. }
  apply Hsame. destruct Hf as [-> | ->];
  unfold new_connection_object, send_login_frame, send_json, send_text, store_query, store_exec,
    set_current_user; same_solve.
Qed.

(** Key material a failed login has left in memory is used by the next one, whoever
    logs in: two logins in a row, the second as another user, leave the encrypted DEK
    and the encrypted state exactly as the first had them. *)
Theorem login_reuses_keys u1 p1 k1 u2 p2 k2 w :
  let w1 := (do_login u1 p1 k1 w).2 in
  let w2 := (do_login u2 p2 k2 w1).2 in
  (json_is_null (encrypted_dek_ w1) = false → encrypted_dek_ w2 = encrypted_dek_ w1) ∧
  (json_is_null (encrypted_state_ w1) = false → encrypted_state_ w2 = encrypted_state_ w1).
Proof.
  intros w1 w2. split; apply do_login_keeps_keys; [by left|by right].
Qed.

(** *** Logging in while the old connection drops *)

(** The first statements of [do_login], which do not take [mutex_], with the handler of
    the old connection's drop, on its read thread, after the first. *)
Definition login_interleaved (reason username key_pin : string) : M World unit :=
  open_message_store (db_path_for username) ;;
  on_disconnect reason ;;
  load_blob encrypted_dek_ set_encrypted_dek (load_dek username) ;;
  modify (λ w, set_pin (pin_fail_count_ w) key_pin w).

(** The handler of a drop ends the session of the login under way. *)
Lemma wp_drop reason w (Q : unit → World → Prop) E :
  mutex_ w = false → quit_ w = false →
  (∀ w', store_ w' = None → encrypted_dek_ w' = json_null → Q tt w') →
  wp (on_disconnect reason) Q E w.
Proof.
  intros Hm Hq HQ. eapply wp_mono; [by apply (wp_on_disconnect _ _ (λ _ _, False))| |done].
  intros [] w' [_ Hover]. destruct (Hover Hq). by apply HQ.
Qed.

End ending.
