(* ===== verification/ClientMessages.v ===== *)
(** * ClientMessages: sending and receiving

    A text the user sends ends up in the conversation and on the screen exactly
    when sending it went through; queued texts go out in order once the peer's keys
    arrive; a received message is stored encrypted and shown; editing and deleting
    take effect locally whatever happens to the other side. *)

From S2P Require Import Prelude Json Message Conversation MessageStore Codec CryptoProxy.
From S2P Require Import StoreFacts CryptoProxyFacts App Client ClientSafety ClientFacts.
Local Open Scope Z_scope.

Section sending.
Context `{NlohmannJson} `{EvpCodec} `{Subprocess} `{Sqlite} `{Transport} `{ClientEnv}.
Context `{!NlohmannJsonLaws} `{!TransportLaws}.
Implicit Types w : World.

(** The conversation with [k] as the user sees it. *)
Definition chat (k : string) w : list Message :=
  match conversations_ w !! k with Some c => messages_ c | None => [] end.

(** What sending is about: the conversation, the updates on their way to the
    screen, the user and the queued texts. *)
Definition tracked (k : string) w
  : list Message * list UiTask * string * gmap string (list string) :=
  (chat k w, posted (app_ w), current_user_ w, pending_sends_ w).

(** A statement that runs in a session and leaves [f] alone. *)
Lemma wp_same {A B} (f : World → B) K b (m : M World A) w :
  keeps (live K b) m → moves (same f) m → live K b w →
  wp m (λ _ w', live K b w' ∧ f w' = f w) (λ _ w', live K b w' ∧ f w' = f w) w.
Proof.
  intros Hk Hm Hw. specialize (Hk w Hw). specialize (Hm w). unfold wp, same in *.
  by destruct (m w) as [[] w'].
Qed.

Lemma chat_alter k k' g w :
  (∀ c, messages_ (g c) = messages_ c) →
  chat k (set_conversations (alter g k' (conversations_ w)) w) = chat k w.
Proof.
  intros Hg. unfold chat. cbn. destruct (decide (k = k')) as [->|Hne].
  - rewrite lookup_alter_eq. destruct (conversations_ w !! k'); [apply Hg|done].
  - by rewrite lookup_alter_ne.
Qed.

Lemma tracked_on_conv k k' g :
  (∀ c, messages_ (g c) = messages_ c) → moves (same (tracked k)) (on_conv k' g).
Proof. intros Hg w. unfold same, tracked. cbn. by rewrite (chat_alter k k' g w Hg). Qed.

Lemma tracked_emplace k k' : moves (same (tracked k)) (emplace_conv k').
Proof.
  intros w. unfold same, tracked, chat. cbn. destruct (conversations_ w !! k') eqn:Hk'; [done|].
  cbn. destruct (decide (k = k')) as [->|Hne]; [by rewrite lookup_insert_eq, Hk'|].
  by rewrite lookup_insert_ne.
Qed.

Lemma tracked_get k k' : moves (same (tracked k)) (get_conv k').
Proof. unfold get_conv. same_solve. Qed.

Hint Resolve tracked_emplace tracked_get : moves.
Hint Extern 1 (moves (same (tracked _)) (on_conv _ _)) => by apply tracked_on_conv : moves.

Lemma tracked_storage_encrypt k s : moves (same (tracked k)) (storage_encrypt s).
Proof. unfold storage_encrypt, encrypt_for_storage. same_solve. Qed.
Hint Resolve tracked_storage_encrypt : moves.

Lemma tracked_send_json k j : moves (same (tracked k)) (send_json j).
Proof. unfold send_json, send_text. same_solve. Qed.
Hint Resolve tracked_send_json : moves.

Lemma tracked_ratchet_encrypt k k' c : moves (same (tracked k)) (ratchet_encrypt k' c).
Proof. unfold ratchet_encrypt, encrypt_message, store_exec. same_solve. Qed.
Hint Resolve tracked_ratchet_encrypt : moves.

(** One message more, in the conversation and on its way to the screen alike. *)
Record one_sent (k plaintext : string) (type : MessageType) w w' (m : Message) : Prop := {
  os_chat : chat k w' = chat k w ++ [m];
  os_screen : posted (app_ w') = posted (app_ w) ++ [T_push_sent_message m];
  os_user : current_user_ w' = current_user_ w;
  os_pending : pending_sends_ w' = pending_sends_ w;
  os_body : msg_body m = plaintext;
  os_type : msg_type m = type;
  os_sender : msg_sender m = current_user_ w;
}.

Lemma tracked_eq k w w' :
  tracked k w' = tracked k w → chat k w' = chat k w ∧
  posted (app_ w') = posted (app_ w) ∧ current_user_ w' = current_user_ w ∧
  pending_sends_ w' = pending_sends_ w.
Proof. unfold tracked. by intros [= -> -> -> ->]. Qed.

Lemma one_sent_from k pt ty w w0 w' m :
  tracked k w0 = tracked k w → one_sent k pt ty w0 w' m → one_sent k pt ty w w' m.
Proof. intros (E1 & E2 & E3 & E4)%tracked_eq [? ? ? ? ? ? ?]. split; congruence. Qed.

Lemma chat_add k m w c :
  conversations_ w !! k = Some c →
  chat k (set_conversations (alter (add_message m) k (conversations_ w)) w) = chat k w ++ [m].
Proof. intros Hc. unfold chat. cbn. by rewrite lookup_alter_eq, Hc. Qed.

(** [wp] of a statement that leaves what is tracked alone, then the rest. *)
Lemma wp_tracked_bind {A B} k K b (m : M World A) (f : A → M World B) Q w w0 :
  keeps (live K b) m → moves (same (tracked k)) m → live K b w → tracked k w = tracked k w0 →
  (∀ a w', live K b w' → tracked k w' = tracked k w0 →
    wp (f a) Q (λ _ w2, live K b w2 ∧ tracked k w2 = tracked k w0) w') →
  wp (m ≫= f) Q (λ _ w2, live K b w2 ∧ tracked k w2 = tracked k w0) w.
Proof.
  intros Hk Hm Hw Ht Hf. apply wp_bind.
  eapply wp_mono; [by apply (wp_same (tracked k))| |].
  - intros a w' [Hw' Ht']. apply Hf; [done|congruence].
  - intros e w' [Hw' Ht']. split; [done|congruence].
Qed.

Lemma wp_record_sent K b (announce : option string) k peer pt ty wc mid w w0 :
  k ∈ K → live K b w → tracked k w = tracked k w0 →
  wp (record_sent (match announce with Some l => epic_log l | None => mret tt end)
        k peer pt ty wc mid)
    (λ _ w', live K b w' ∧ ∃ m, one_sent k pt ty w0 w' m)
    (λ _ w', live K b w' ∧ tracked k w' = tracked k w0) w.
Proof.
  intros Hk Hw Ht. unfold record_sent, push_sent_message. apply wp_bind, wp_gets.
  pose proof (tracked_eq _ _ _ Ht) as (_ & _ & Hu & _). rewrite Hu.
  eapply wp_tracked_bind; [apply live_now|same_solve|done|done|]. intros ts w1 Hw1 Ht1.
  eapply wp_tracked_bind; [apply live_storage_encrypt|same_solve|done|done|]. intros blob w2 Hw2 Ht2.
  eapply wp_tracked_bind; [apply live_with_store|same_solve|done|done|]. intros id w3 Hw3 Ht3.
  set (m := set_body _ _).
  pose proof (live_convs _ _ _ Hw3 k Hk) as [c Hc]. apply wp_bind.
  eapply (wp_mono _ (λ _ w', live K b w' ∧ chat k w' = chat k w0 ++ [m] ∧
    posted (app_ w') = posted (app_ w0) ∧ current_user_ w' = current_user_ w0 ∧
    pending_sends_ w' = pending_sends_ w0) _ (λ _ _, False)).
  { pose proof (live_on_conv K b k (add_message m) w3 Hw3) as Hl. unfold wp in *. cbn in *.
    split; [done|]. apply tracked_eq in Ht3 as (E1 & E2 & E3 & E4).
    rewrite (chat_add k m w3 c Hc). split_and!; cbn; congruence. }
  2: done.
  intros [] w4 (Hw4 & E1 & E2 & E3 & E4). apply wp_bind.
  assert (∀ w5, live K b w5 → tracked k w5 = tracked k w4 →
    wp (on_app (App.post (T_push_sent_message m)))
      (λ _ w', live K b w' ∧ ∃ m, one_sent k pt ty w0 w' m)
      (λ _ w', live K b w' ∧ tracked k w' = tracked k w0) w5) as Hend.
  { intros w5 Hw5 (F1 & F2 & F3 & F4)%tracked_eq.
    pose proof (live_post K b (T_push_sent_message m) w5 Hw5) as Hl. unfold wp in *. cbn in *.
    split; [done|]. exists m. split; try done; cbn.
    - change (chat k w5 = chat k w0 ++ [m]). congruence.
    - unfold App.post. rewrite (live_screen _ _ _ Hw5). cbn. congruence.
    - congruence.
    - congruence. }
  destruct announce as [l|]; [|by apply Hend].
  apply wp_modify, Hend; [|done]. by apply (live_log K b l w4).
Qed.

(** What every sender does before the message is recorded. *)
Lemma wp_encrypt_and_send K b k pt w :
  k ∈ K → live K b w →
  wp (encrypt_and_send k pt) (λ _ w', live K b w' ∧ ∃ m, one_sent k pt Standard w w' m)
    (λ _ w', live K b w' ∧ tracked k w' = tracked k w) w.
Proof.
  intros Hk Hw. unfold encrypt_and_send, epic_log.
  eapply wp_tracked_bind; [by apply live_get_conv|apply tracked_get|done|done|].
  intros conv w1 Hw1 Ht1.
  eapply wp_tracked_bind; [apply live_log|same_solve|done|done|]. intros _ w2 Hw2 Ht2.
  eapply wp_tracked_bind; [by apply live_ratchet_encrypt|same_solve|done|done|]. intros em w3 Hw3 Ht3.
  eapply wp_tracked_bind; [apply keeps_lift|same_solve|done|done|]. intros wc w4 Hw4 Ht4.
  eapply wp_tracked_bind; [apply live_new_mid|unfold new_mid; same_solve|done|done|].
  intros mid w5 Hw5 Ht5.
  eapply wp_tracked_bind; [apply live_send_chat_frame|unfold send_chat_frame; same_solve|done|done|].
  intros _ w6 Hw6 Ht6.
  by apply (wp_record_sent K b (Some "encrypt_and_send: frame sent, pushing to UI")).
Qed.

Lemma live_trace K b t l s w : live K b w → live K b (set_trace t l s w).
Proof. by intros []. Qed.

Lemma live_nil K b w : live K b w → live [] b w.
Proof. apply live_weaken. intros k []%not_elem_of_nil. Qed.

Hint Resolve live_log live_now live_post live_crypto live_with_store live_send_text live_on_conv
  live_store_exec live_store_query live_send_json live_storage_encrypt live_storage_decrypt
  live_new_mid live_at_string live_set_state live_send_chat_frame : keeps.

(** Steps over statements that leave what is tracked alone. *)
Ltac tracked_step :=
  lazymatch goal with
  | Hw : live ?K ?b ?w, Ht : tracked ?k ?w = tracked ?k _ |- wp (mbind _ _) _ _ ?w =>
    eapply wp_tracked_bind;
      [ solve [keeps_solve]
      | unfold epic_log, new_mid, send_chat_frame, at_string, store_exec; solve [same_solve]
      | exact Hw | exact Ht | ];
    clear Hw Ht; try clear w; intros ? w Hw Ht
  end.

Lemma wp_start_session K b peer bundle pt w w0 :
  live K b w → tracked peer w = tracked peer w0 →
  wp (start_session_and_send peer bundle pt)
    (λ _ w', live K b w' ∧ ∃ m, one_sent peer pt Standard w0 w' m)
    (λ _ w', live K b w' ∧ tracked peer w' = tracked peer w0) w.
Proof.
  intros Hw Ht.
  unfold start_session_and_send, get_shared_secret_active, encrypt_initial_message.
  repeat tracked_step. apply wp_bind.
  eapply (wp_mono _ (λ _ w', live (peer :: K) b w' ∧ tracked peer w' = tracked peer w0) _
    (λ _ _, False)); [|cbn beta|done].
  { pose proof (wp_emplace_conv K b peer w (λ _ _, False) Hw) as Hl.
    pose proof (tracked_emplace peer peer w) as Hm. unfold same in Hm. rewrite Ht in Hm. by split. }
  clear Hw Ht w. intros [] w [Hw Ht].
  eapply (wp_mono _ (λ _ w', live (peer :: K) b w' ∧ ∃ m, one_sent peer pt Standard w0 w' m) _
    (λ _ w', live (peer :: K) b w' ∧ tracked peer w' = tracked peer w0));
    [|intros ? ? [? ?]; (split; [|done]); eapply live_weaken; [|done]; by right..].
  repeat tracked_step. apply (wp_record_sent (peer :: K) b None); [left|done..].
Qed.

(** *** Texts queued until the keys arrive *)

(** The messages [ms] carry [texts]; they were added to the conversation and sent
    to the screen in this order. *)
Record all_sent (k : string) (texts : list string) w w' (ms : list Message) : Prop := {
  as_chat : chat k w' = chat k w ++ ms;
  as_screen : posted (app_ w') = posted (app_ w) ++ (T_push_sent_message <$> ms);
  as_user : current_user_ w' = current_user_ w;
  as_pending : pending_sends_ w' = pending_sends_ w;
  as_bodies : msg_body <$> ms = texts;
  as_mine : Forall (λ m, msg_sender m = current_user_ w ∧ msg_type m = Standard) ms;
}.

Lemma all_sent_nil k w w' : tracked k w' = tracked k w → all_sent k [] w w' [].
Proof.
  intros (E1 & E2 & E3 & E4)%tracked_eq. split; try done; by rewrite app_nil_r.
Qed.

Lemma all_sent_cons k text texts w w1 w2 m ms :
  one_sent k text Standard w w1 m → all_sent k texts w1 w2 ms →
  all_sent k (text :: texts) w w2 (m :: ms).
Proof.
  intros [O1 O2 O3 O4 O5 O6 O7] [A1 A2 A3 A4 A5 A6]. split; try congruence.
  - by rewrite A1, O1, <-app_assoc.
  - by rewrite A2, O2, <-app_assoc.
  - by rewrite fmap_cons, O5, A5.
  - apply Forall_cons. split; [done|]. by rewrite O3 in A6.
Qed.

Definition send_one (peer : string) (frame : json) (text : string) : M World unit :=
  established ← gets (has_session peer);
  if (established : bool) then encrypt_and_send peer text
  else start_session_and_send peer frame text.

Lemma wp_send_one K b peer frame text w :
  live K b w →
  wp (send_one peer frame text) (λ _ w', live K b w' ∧ ∃ m, one_sent peer text Standard w w' m)
    (λ _ w', live K b w' ∧ tracked peer w' = tracked peer w) w.
Proof.
  intros Hw. unfold send_one. apply wp_bind, wp_gets.
  destruct (has_session peer w) eqn:Hs; [|by apply wp_start_session].
  eapply wp_mono; [apply (wp_encrypt_and_send (peer :: K) b); [left|by apply has_session_live]|..];
    intros ? ? [? ?]; (split; [|done]); eapply live_weaken; [|done| |done]; by right.
Qed.

Lemma wp_send_all K b peer frame texts w :
  live K b w →
  wp (for_each texts (send_one peer frame))
    (λ _ w', live K b w' ∧ ∃ ms, all_sent peer texts w w' ms)
    (λ _ w', live K b w' ∧ ∃ n ms, (n < length texts)%nat ∧ all_sent peer (take n texts) w w' ms) w.
Proof.
  revert w. induction texts as [|text texts IH]; intros w Hw.
  - apply wp_ret. split; [done|]. exists []. by apply all_sent_nil.
  - cbn [for_each]. apply wp_bind. eapply wp_mono; [by apply (wp_send_one K b)|..].
    + intros [] w1 [Hw1 [m Hm]]. eapply wp_mono; [by apply IH|..].
      * intros [] w2 [Hw2 [ms Hms]]. split; [done|]. exists (m :: ms). by eapply all_sent_cons.
      * intros e w2 [Hw2 (n & ms & Hn & Hms)]. split; [done|]. exists (S n), (m :: ms).
        split; [cbn; lia|]. by eapply all_sent_cons.
    + intros e w1 [Hw1 Ht]. split; [done|]. exists 0%nat, []. split; [cbn; lia|].
      by apply all_sent_nil.
Qed.


(** *** The user presses Send *)

(** The conversation is as it was and the user is told why. *)
Definition only_told (k text : string) w w' : Prop :=
  chat k w' = chat k w ∧ posted (app_ w') = posted (app_ w) ++ [T_status text].

Definition send_outcome (recipient text : string) w w' : Prop :=
  match is_online w, has_session recipient w with
  | false, _ =>
    only_told recipient "Not connected — log in first." w w' ∧ pending_sends_ w' = pending_sends_ w
  | true, true =>
    pending_sends_ w' = pending_sends_ w ∧
    ((∃ m, one_sent recipient text Standard w w' m) ∨
     only_told recipient "Message could not be sent." w w')
  | true, false =>
    pending_sends_ w' =
      <[recipient := default [] (pending_sends_ w !! recipient) ++ [text]]> (pending_sends_ w) ∧
    (chat recipient w' = chat recipient w ∧ posted (app_ w') = posted (app_ w) ∨
     only_told recipient "Message could not be sent." w w')
  end.

Lemma wp_tell K b k text w w0 (Q : unit → World → Prop) E :
  live K b w → tracked k w = tracked k w0 →
  (∀ w', live K b w' → only_told k text w0 w' → pending_sends_ w' = pending_sends_ w0 → Q tt w') →
  wp (on_app (push_status text)) Q E w.
Proof.
  intros Hw (E1 & E2 & E3 & E4)%tracked_eq HQ. apply wp_modify, HQ.
  - by apply (live_post K b (T_status text) w).
  - split; [exact E1|]. cbn. unfold push_status, App.post. rewrite (live_screen _ _ _ Hw). cbn.
    congruence.
  - exact E4.
Qed.

Lemma live_unlock K w : live K true w → live [] false (set_mutex false w).
Proof. intros Hw%live_nil. by destruct Hw. Qed.

(** The handler of a failed send. *)
Lemma wp_send_failed K recipient e wb w :
  live K true w → tracked recipient w = tracked recipient wb →
  wp (epic_log ("do_send: exception: " +:+ e) ;; on_app (push_status "Message could not be sent."))
    (λ _ w', live [] false w' ∧ only_told recipient "Message could not be sent." wb w' ∧
      pending_sends_ w' = pending_sends_ wb) (λ _ _, False) (set_mutex false w).
Proof.
  intros Hw Ht. apply wp_bind, wp_modify.
  eapply (wp_tell [] false recipient _ _ wb); [by eapply live_trace, live_unlock|exact Ht|]. auto.
Qed.

(** Sending a text always completes.  Offline, the user is told.  In a session the
    text becomes one new message, in the conversation and on the screen, or
    neither changes and the user is told.  Without a session the text is queued
    behind the earlier ones, and the user is told when the keys could not be
    requested. *)
Theorem do_send_outcome recipient text w :
  live [] false w →
  ∃ w', do_send recipient text w = (Ret tt, w') ∧ live [] false w' ∧
    send_outcome recipient text w w'.
Proof.
  intros Hw.
  assert (wp (do_send recipient text) (λ _ w', live [] false w' ∧ send_outcome recipient text w w')
    (λ _ _, False) w) as Hwp.
  2:{ destruct (wp_returns _ _ _ Hwp) as ([] & w' & ? & ?). by exists w'. }
  unfold do_send. apply wp_bind, wp_modify, wp_bind, wp_gets. set (w1 := set_trace _ _ _ w).
  assert (live [] false w1 ∧ tracked recipient w1 = tracked recipient w) as [Hw1 Ht1]
    by by destruct Hw.
  unfold send_outcome. change (is_online w1) with (is_online w).
  destruct (is_online w); cbn [negb].
  2:{ apply wp_bind, wp_modify. eapply (wp_tell [] false recipient _ _ w);
        [by apply live_trace|exact Ht1|]. auto. }
  apply wp_try, wp_with_lock; [by destruct Hw1|]. apply wp_bind, wp_gets.
  set (w2 := set_mutex true w1).
  assert (live [] true w2 ∧ tracked recipient w2 = tracked recipient w) as [Hw2 Ht2]
    by by destruct Hw1.
  change (has_session recipient w2) with (has_session recipient w).
  destruct (has_session recipient w) eqn:Hs.
  - apply wp_bind, wp_modify. set (w3 := set_trace _ _ _ w2).
    assert (live [recipient] true w3 ∧ tracked recipient w3 = tracked recipient w) as [Hw3 Ht3].
    { split; [|exact Ht2]. apply has_session_live; [|done]. by apply live_trace. }
    eapply wp_mono; [apply (wp_encrypt_and_send [recipient] true); [left|done]|..]; cbn beta.
    + intros [] w4 [Hw4 [m Hm]]. split; [by eapply live_unlock|].
      apply (one_sent_from _ _ _ w) in Hm; [|done]. destruct Hm. split; [done|].
      left. exists m. by split.
    + intros e w4 [Hw4 Ht4]. eapply wp_mono; [eapply (wp_send_failed [recipient] recipient e w)|..|done]; cbn beta;
        [done|congruence|]. intros [] w5 (? & ? & ?). by auto.
  - unfold queue_send. apply wp_bind, wp_modify, wp_bind, wp_modify. set (w3 := set_pending_sends _ _).
    assert (live [] true w3) as Hw3 by by destruct Hw2.
    unfold request_key_bundle. eapply wp_mono;
      [apply (wp_same (tracked recipient) [] true); [apply live_send_json|apply tracked_send_json|done]|..];
      cbn beta.
    + intros [] w4 [Hw4 (E1 & E2 & E3 & E4)%tracked_eq]. split; [by eapply live_unlock|].
      split; [exact E4|]. left. split; [exact E1|exact E2].
    + intros e w4 [Hw4 Ht4]. eapply wp_mono; [by apply (wp_send_failed [] recipient e w3)|..|done].
      intros [] w5 (? & [F1 F2] & F3). split; [done|]. split; [exact F3|]. right.
      split; [exact F1|exact F2].
Qed.
End sending.

(** ** Receiving *)

Section receiving.
Context `{NlohmannJson} `{EvpCodec} `{Subprocess} `{Sqlite} `{Transport} `{ClientEnv}.
Context `{!StorageCipher} `{!NlohmannJsonLaws} `{!EvpCodecLaws} `{!StorageCipherLaws}.
Implicit Types w : World.

Lemma wp_storage_encrypt s w (Q : string → World → Prop) (E : string → World → Prop) :
  (∀ blob ch, opens (dek_of (crypto_ w)) blob s → nul_free blob = true →
     dek_of ch = dek_of (crypto_ w) → Q blob (set_crypto ch w)) →
  (∀ e ch, E e (set_crypto ch w)) → wp (storage_encrypt s) Q E w.
Proof.
  intros HQ HE. destruct (storage_encrypt s w) as [[blob|e|x] w'] eqn:Hs; unfold wp; rewrite Hs.
  - destruct (storage_encrypt_opens _ _ _ _ Hs) as ((ch & -> & Hd) & Hn & Ho). by apply HQ.
  - revert Hs. unfold storage_encrypt, encrypt_for_storage, crypto_call, zoom, mbind, M_bind.
    destruct (abs_call _ _ (crypto_ w)) as [[r|e'|x] ch]; [|by intros [= <- <-]|done].
    destruct (json_dump r); [done|]. by intros [= <- <-].
  - revert Hs. unfold storage_encrypt, encrypt_for_storage, crypto_call, zoom, mbind, M_bind.
    destruct (abs_call _ _ (crypto_ w)) as [[r|e'|y] ch] eqn:Ha; [by destruct (json_dump r)|done|].
    pose proof (abs_call_safe "encrypt_with_dek"
      (json_of_object [("plaintext", json_of_string (b64_encode s))]) (crypto_ w)
      (λ _ _, True) (λ _ _, True)) as Hw.
    unfold wp in Hw. rewrite Ha in Hw. by destruct Hw.
Qed.

(** A received message other than an edit or a deletion. *)
Definition received (sender user : string) (ts : Z) (c : ParsedContent) (wire_ct mid : string)
  (id : Z) : Message :=
  mkMessage id sender sender user ts (pc_type c) (pc_body c) false false None "" wire_ct mid.

(** A received message is kept the same way everywhere: the one appended to the
    conversation, the one sent to the screen and the row added to the store carry
    the same id, sender, time, type and ids; the row's body is a blob that opens to
    the body the others show.  When the body cannot be encrypted, nothing is
    added anywhere. *)
Theorem received_message_kept sender c wire_ct mid w path last k conv :
  store_ w = Some (path, last) → conversations_ w !! sender = Some conv →
  screen_ptr_ (app_ w) = true →
  prepare_ok all_cols (db_of w) = true → new_rowid (rows (db_of w)) = Some k →
  pc_type c ≠ Edit → pc_type c ≠ Delete →
  wp (apply_content sender c wire_ct mid)
    (λ _ w', ∃ ts blob, let m := received sender (current_user_ w) ts c wire_ct mid (u64 k) in
       chat sender w' = chat sender w ++ [m] ∧
       posted (app_ w') = posted (app_ w) ++ [T_push_message m] ∧
       rows (db_of w') = <[k := row_of_message (set_body blob m)]> (rows (db_of w)) ∧
       opens (dek_of (crypto_ w)) blob (pc_body c))
    (λ _ w', tracked sender w' = tracked sender w ∧ db_of w' = db_of w) w.
Proof.
  intros HS HC Hscr Hcols Hk Hne1 Hne2.
  assert (∀ type, type ≠ Edit → type ≠ Delete → pc_type c = type →
    wp (user ← gets current_user_;
        ts ← now_ms;
        let msg := mkMessage 0 sender sender user ts type (pc_body c) false false None "" wire_ct mid in
        blob ← storage_encrypt (pc_body c);
        id ← with_store (save_message (set_body blob msg));
        let msg := set_id id msg in
        on_conv sender (add_message msg) ;;
        epic_log "on_deliver_message: calling push_message" ;;
        on_app (push_message msg))
    (λ _ w', ∃ ts blob, let m := received sender (current_user_ w) ts c wire_ct mid (u64 k) in
       chat sender w' = chat sender w ++ [m] ∧
       posted (app_ w') = posted (app_ w) ++ [T_push_message m] ∧
       rows (db_of w') = <[k := row_of_message (set_body blob m)]> (rows (db_of w)) ∧
       opens (dek_of (crypto_ w)) blob (pc_body c))
    (λ _ w', tracked sender w' = tracked sender w ∧ db_of w' = db_of w) w) as Hmain.
  2:{ unfold apply_content. destruct (pc_type c) eqn:Ht; try done; by apply Hmain. }
  intros type _ _ Ht. apply wp_bind, wp_gets, wp_bind. unfold wp at 1, now_ms.
  apply wp_bind, wp_storage_encrypt; [|done]. intros blob ch Ho Hn Hd.
  apply wp_bind. eapply wp_with_store; [exact HS|].
  change (db_of (set_crypto _ _)) with (db_of w).
  unfold save_message. cbn [st_db msg_id set_body]. rewrite Z.eqb_refl, Hcols, Hk. cbn beta iota.
  cbn [fst snd st_db st_last_rowid].
  apply wp_bind, wp_modify, wp_bind, wp_modify, wp_modify.
  exists (system_clock (ticks w)), blob. cbn zeta. split_and!.
  - unfold chat. cbn. rewrite lookup_alter_eq, HC. cbn. unfold received. by rewrite Ht.
  - unfold push_message, App.post. cbn. rewrite Hscr. cbn. unfold received. by rewrite Ht.
  - etrans; [apply f_equal; exact (db_of_store path k _ (disk w) w)|]. rewrite rows_set_rows.
    unfold received, row_of_message. cbn. by rewrite Ht.
  - done.
Qed.

(** *** The identity key of a peer *)

(** The parts of a delivered frame. *)
Record delivers (frame : json) (sender : string) (env dr x3dh : json) (ik : string) : Prop := {
  dl_sender : json_value_string frame "sender" "" = Ok sender;
  dl_env : ∃ j ct, json_at frame "ciphertext" = Ok j ∧ json_get_string j = Ok ct ∧
    json_parse ct = Ok env;
  dl_dr : json_at env "dr" = Ok dr;
  dl_x3dh : json_at env "x3dh" = Ok x3dh ∧ json_is_null x3dh = false;
  dl_ik : json_value_string x3dh "identity_key" "" = Ok ik;
}.

Definition impersonation_warning (sender : string) : string :=
  "WARNING: identity key for '" +:+ sender +:+
  "' changed — possible impersonation. Message dropped.".

(** C24: A first message under another identity key than the one pinned for the sender is
    dropped: nothing is decrypted, no session is made, nothing is stored, shown or
    sent; the user is warned. *)
Theorem identity_change_dropped frame sender env dr x3dh ik conv w :
  delivers frame sender env dr x3dh ik → mutex_ w = false →
  conversations_ w !! sender = Some conv → ratchet_state_ conv = "" →
  pinned_ik_pub_ conv ≠ "" → pinned_ik_pub_ conv ≠ ik →
  on_deliver_message frame w =
  (Ret tt, set_app (push_status (impersonation_warning sender) (app_ w))
     (set_trace (ticks w) (log_ w ++ [c_str ("on_deliver_message: from=" +:+ sender)]) (sent_ w) w)).
Proof.
  intros [D1 (j & ct & D2 & D3 & D4) D5 [D6 D7] D8] Hm HC Hr Hp Hne.
  unfold on_deliver_message, mbind, M_bind, lift. rewrite D1. cbn [mret M_ret].
  unfold epic_log, modify, try_catch, at_string, mbind, M_bind, lift.
  rewrite D2. cbn [mret M_ret]. rewrite D3. cbn [mret M_ret]. rewrite D4. cbn [mret M_ret].
  rewrite D5. cbn [mret M_ret]. rewrite (at_contains _ _ _ D6), D6. cbn [mret M_ret]. rewrite D7.
  cbn [negb]. unfold with_lock. cbn [mutex_ set_trace]. rewrite Hm.
  unfold emplace_conv, modify. cbn [conversations_ set_mutex set_trace]. rewrite HC.
  unfold get_conv, mbind, M_bind, gets. cbn [conversations_ set_mutex set_trace id]. rewrite HC.
  cbn [mret M_ret]. rewrite Hr. cbn [str_empty andb]. unfold receive_initial, mbind, M_bind, lift.
  rewrite D6. cbn [mret M_ret]. rewrite D8. cbn [mret M_ret].
  unfold get_conv, mbind, M_bind, gets. cbn [conversations_ set_mutex set_trace id]. rewrite HC.
  cbn [mret M_ret]. rewrite (proj2 (str_empty_false _) Hp), (bool_decide_false _ Hne). cbn [negb andb].
  unfold on_app, modify. cbn [mret M_ret app_ set_mutex set_trace]. unfold impersonation_warning.
  f_equal. destruct w. cbn in *. by subst.
Qed.

(** C38: Once there is a session with a peer, an invitation of that peer is not looked at: the
    message is decrypted in the session there is, and when that fails it is dropped; the
    session stays as it was, nothing is stored, and the user is told.  Two first
    messages that cross are both lost, and a peer that starts over is not heard
    again. *)
Theorem invitation_in_session_ignored frame sender env dr x3dh ik conv rs e ch w :
  delivers frame sender env dr x3dh ik → mutex_ w = false →
  conversations_ w !! sender = Some conv → ratchet_state_ conv ≠ "" →
  json_parse (ratchet_state_ conv) = Ok rs →
  decrypt_message abs_call rs dr (associated_data_ conv) (crypto_ w) = (Exn e, ch) →
  on_deliver_message frame w =
  (Ret tt, set_app (push_status ("Failed to decrypt message from '" +:+ sender +:+ "': " +:+ e) (app_ w))
     (set_crypto ch (set_trace (ticks w)
        (log_ w ++ [c_str ("on_deliver_message: from=" +:+ sender)]) (sent_ w) w))).
Proof.
  intros [D1 (j & ct & D2 & D3 & D4) D5 [D6 D7] D8] Hm HC Hr Hp Hdec.
  unfold on_deliver_message, mbind, M_bind, lift. rewrite D1. cbn [mret M_ret].
  unfold epic_log, modify, try_catch, at_string, mbind, M_bind, lift.
  rewrite D2. cbn [mret M_ret]. rewrite D3. cbn [mret M_ret]. rewrite D4. cbn [mret M_ret].
  rewrite D5. cbn [mret M_ret]. rewrite (at_contains _ _ _ D6), D6. cbn [mret M_ret]. rewrite D7.
  cbn [negb]. unfold with_lock. cbn [mutex_ set_trace]. rewrite Hm.
  unfold emplace_conv, modify. cbn [conversations_ set_mutex set_trace]. rewrite HC.
  unfold get_conv, mbind, M_bind, gets. cbn [conversations_ set_mutex set_trace id]. rewrite HC.
  cbn [mret M_ret]. rewrite (proj2 (str_empty_false _) Hr). cbn [negb andb].
  unfold receive_ratchet, get_conv, mbind, M_bind, gets, lift.
  cbn [conversations_ set_mutex set_trace id]. rewrite HC. cbn [mret M_ret]. rewrite Hp. cbn [mret M_ret].
  unfold decrypt_message, crypto_call, zoom in *. cbn [crypto_ set_mutex set_trace]. rewrite Hdec.
  unfold on_app, modify. f_equal. destruct w. cbn in *. by subst.
Qed.

(** *** Edits and deletions by the other side *)

(** C40: A remote edit names a message by its id alone: the row it rewrites may belong to
    a conversation with someone else than the sender. *)
Theorem remote_edit_reaches_any_conversation sender body target wire_ct mid w path last k r :
  store_ w = Some (path, last) → prepare_ok ["body"; "edited"; "mid"] (db_of w) = true →
  rows (db_of w) !! k = Some r → r_mid r = c_str target → r_peer r ≠ sender →
  wp (apply_content sender (mkParsedContent Edit body target) wire_ct mid)
    (λ _ w', ∃ blob, opens (dek_of (crypto_ w)) blob body ∧
       rows (db_of w') !! k = Some (row_edit blob r) ∧
       app_ w' = App.update_message_body_by_mid target body (app_ w))
    (λ _ w', db_of w' = db_of w ∧ app_ w' = app_ w) w.
Proof.
  intros HS Hp Hk Hmid _. unfold apply_content. cbn [pc_type pc_body pc_target_mid].
  apply wp_bind, wp_storage_encrypt; [|done]. intros blob ch Ho Hn _.
  apply wp_bind. eapply wp_store_exec; [exact HS|]. change (db_of (set_crypto _ _)) with (db_of w).
  apply wp_bind, wp_modify, wp_modify. exists blob. split; [done|]. split; [|done].
  etrans; [apply (f_equal (λ d, rows d !! k)); exact (db_of_store path last _ (disk w) w)|].
  unfold MessageStore.update_message_body_by_mid, update_rows. rewrite Hp, rows_set_rows.
  rewrite map_lookup_imap, Hk. cbn. by rewrite bool_decide_true, c_str_nul_free.
Qed.
End receiving.

(** ** Editing and deleting *)

Section local_changes.
Context `{NlohmannJson} `{EvpCodec} `{Subprocess} `{Sqlite} `{Transport} `{ClientEnv}.
Context `{!NlohmannJsonLaws} `{!TransportLaws}.
Implicit Types w : World.

(** Every copy of the messages: the rows, the conversations, the screen. *)
Definition copies w : gmap Z Row * gmap string (list Message) * list UiTask :=
  (rows (db_of w), messages_ <$> conversations_ w, posted (app_ w)).

Lemma copies_on_conv k g :
  (∀ c, messages_ (g c) = messages_ c) → moves (same copies) (on_conv k g).
Proof.
  intros Hg w. unfold same, copies, on_conv, modify. cbn. do 2 f_equal. apply map_eq. intros k'.
  rewrite !lookup_fmap. destruct (decide (k' = k)) as [->|Hne].
  - rewrite lookup_alter_eq. destruct (conversations_ w !! k); cbn; [|done]. by rewrite Hg.
  - by rewrite lookup_alter_ne.
Qed.

Lemma copies_store_exec f :
  (∀ d, rows (f d) = rows d) → moves (same copies) (store_exec f).
Proof.
  intros Hf w. unfold same, copies, store_exec, with_store. destruct (store_ w) as [[p l]|] eqn:HS;
    [|done].
  assert (db_of (set_store (Some (p, l)) (<[p := f (default empty_db (disk w !! p))]> (disk w)) w)
    = f (db_of w)) as E by (rewrite db_of_store; unfold db_of; by rewrite HS).
  do 2 f_equal. etrans; [exact (f_equal rows E)|apply Hf].
Qed.

Lemma copies_send_ratchet_control k c : moves (same copies) (send_ratchet_control k c).
Proof.
  assert (∀ p s, moves (same copies) (store_exec (save_ratchet_state p s))) as Hs
    by (intros; by apply copies_store_exec).
  assert (∀ s, moves (same copies) (on_conv k (set_ratchet_state s))) as Hc
    by (intros; by apply copies_on_conv).
  unfold send_ratchet_control, get_conv, ratchet_encrypt, encrypt_message, storage_encrypt,
    encrypt_for_storage, new_mid, send_chat_frame, send_json, send_text.
  repeat (intros; first [apply Hs|apply Hc|same_solve; fail|apply moves_bind; [apply _| |]]).
  all: same_solve.
Qed.

Lemma wp_propagate mid peer c w :
  live [] true w →
  wp (propagate mid peer c) (λ _ w', copies w' = copies w) (λ _ w', copies w' = copies w) w.
Proof.
  intros Hw. eapply wp_mono; [apply (wp_same copies [] true)|by intros ? ? []..]; [..|done].
  - apply live_propagate.
  - unfold propagate. pose proof (λ k c, copies_send_ratchet_control k c) as Hs.
    destruct (_ && _); [|apply moves_ret, _]. apply moves_bind; [apply _|apply moves_gets, _|].
    intros est. apply moves_when; [apply _|]. apply moves_bind; [apply _|apply moves_lift, _|].
    intros x. apply Hs.
Qed.

(** A change of the messages on this device, then its propagation. *)
Lemma wp_local_change (f : Db → Db) (g : Conversation → Conversation) t mid peer c w :
  live [] true w →
  let after w' := copies w' = (rows (f (db_of w)), (λ c, messages_ (g c)) <$> conversations_ w,
    posted (app_ w) ++ [t]) in
  wp (store_exec f ;;
      modify (λ w, set_conversations (g <$> conversations_ w) w) ;;
      on_app (App.post t) ;;
      propagate mid peer c) (λ _, after) (λ _, after) w.
Proof.
  intros Hw after. destruct (live_store _ _ _ Hw) as [[path last] HS].
  apply wp_bind. eapply wp_store_exec; [exact HS|]. apply wp_bind, wp_modify, wp_bind, wp_modify.
  set (w4 := set_app _ _).
  assert (after w4) as Hc.
  { unfold after, copies. f_equal; [f_equal|].
    - exact (f_equal rows (db_of_store path last _ (disk w) w)).
    - change (conversations_ w4) with (g <$> conversations_ w). by rewrite <-map_fmap_compose.
    - unfold w4, App.post. cbn. by rewrite (live_screen _ _ _ Hw). }
  assert (live [] true w4) as Hw4.
  { destruct Hw as [L1 L2 L3 L4 L5]. split; [by eexists|done| |done|by intros k []%not_elem_of_nil].
    etrans; [exact (post_screen t (app_ w))|done]. }
  eapply wp_mono; [by apply wp_propagate|..]; intros ? w5 Hw5; unfold after; rewrite <-Hc; exact Hw5.
Qed.

(** Deleting a message takes effect on this device whatever happens to the other
    side: whether the deletion can be propagated, or an exception is on its way,
    the row is marked, the message is marked in its conversation and the screen is
    told; nothing else about the messages changes. *)
Theorem delete_is_local_first id both w :
  live [] false w →
  let after w' := copies w' =
    (rows (MessageStore.mark_message_deleted id (db_of w)),
     (λ c, messages_ (Conversation.mark_message_deleted id c)) <$> conversations_ w,
     posted (app_ w) ++ [T_mark_deleted id]) in
  wp (do_delete id both) (λ _, after) (λ _, after) w.
Proof.
  intros Hw. unfold do_delete. apply wp_bind, wp_gets.
  destruct (live_store _ _ _ Hw) as [st HS]. rewrite HS.
  apply wp_with_lock; [by destruct Hw|]. set (w1 := set_mutex true w).
  apply wp_bind, wp_gets. destruct (find_owner id (conv_list w1) "") as [mid peer].
  eapply wp_mono; [apply (wp_local_change (MessageStore.mark_message_deleted id)
    (Conversation.mark_message_deleted id) (T_mark_deleted id)); by destruct Hw|..];
    by intros ? w' ?.
Qed.
End local_changes.

Section local_edit.
Context `{NlohmannJson} `{EvpCodec} `{Subprocess} `{Sqlite} `{Transport} `{ClientEnv}.
Context `{!StorageCipher} `{!NlohmannJsonLaws} `{!EvpCodecLaws} `{!StorageCipherLaws}.
Context `{!TransportLaws}.
Implicit Types w : World.

(** The same for an edit: either the new text cannot be encrypted and no copy of the
    message changes, or the row's body becomes a blob that opens to the new text and
    the conversation and the screen get the new text, whatever happens to the
    propagation. *)
Theorem edit_is_local_first id text w :
  live [] false w →
  let after w' := ∃ blob, opens (dek_of (crypto_ w)) blob text ∧ copies w' =
    (rows (MessageStore.update_message_body id blob (db_of w)),
     (λ c, messages_ (Conversation.update_message_body id text c)) <$> conversations_ w,
     posted (app_ w) ++ [T_update_body id text]) in
  wp (do_edit id text) (λ _, after) (λ _ w', copies w' = copies w ∨ after w') w.
Proof.
  intros Hw after. unfold do_edit. apply wp_bind, wp_gets.
  destruct (live_store _ _ _ Hw) as [st HS]. rewrite HS.
  apply wp_with_lock; [by destruct Hw|]. set (w1 := set_mutex true w).
  apply wp_bind, wp_gets. destruct (find_owner id (conv_list w1) "") as [mid peer].
  apply wp_bind, wp_storage_encrypt; [|by left]. intros blob ch Ho Hn Hd.
  eapply wp_mono; [apply (wp_local_change (MessageStore.update_message_body id blob)
    (Conversation.update_message_body id text) (T_update_body id text)); by destruct Hw|..];
    [|intros ? ? ?; right]; by exists blob.
Qed.
End local_edit.
