(* ===== verification/EndToEnd.v ===== *)
(** * EndToEnd: from one client's keyboard to the other client's screen

    The client of the sender and the client of the receiver, composed over the server
    that relays a frame and over the promises of the two subprocesses ([Ratchet]):
    what one side hands to the server the other side shows, in order and with the same
    text, message id and ciphertext.  The two clients have their own states, clocks and
    environments. *)

From S2P Require Import Prelude Json Message Conversation MessageStore Codec CryptoProxy.
From S2P Require Import CryptoProxyFacts Ratchet App Client ClientSafety ClientFacts ClientMessages Entries.
Local Open Scope Z_scope.

(** ** On the wire *)

Section wire.
Context `{NlohmannJson}.

(** The frame [handle_send_message] of the server makes of a [send_message] frame; the
    sender's name is the one the connection was authenticated with. *)
Definition deliver_message_frame (sender : string) (frame : json) : result json :=
  ciphertext ← json_at frame "ciphertext";
  mid ← json_at frame "mid";
  Ok (json_of_object
    [("type", json_of_string "deliver_message"); ("sender", json_of_string sender);
     ("ciphertext", ciphertext); ("mid", mid)]).

(** The text [delivered] is what the server makes of the text [sent]. *)
Definition relayed (sender sent delivered : string) : Prop :=
  ∃ frame out, json_parse sent = Ok frame ∧ deliver_message_frame sender frame = Ok out ∧
    json_parse delivered = Ok out.

(** A message on its way: the text, its encryption, the header of the key agreement,
    the ciphertext field and the id. *)
Record Packet : Type := mkPacket {
  pk_body : string;
  pk_em : json;
  pk_x3dh : option json;
  pk_wire : string;
  pk_mid : string;
}.

(** [frame] is the text of a [send_message] frame with the packet. *)
Definition sent_as (recipient : string) (frame : string) (p : Packet) : Prop :=
  json_parse frame = Ok (json_of_object
    [("type", json_of_string "send_message"); ("recipient", json_of_string recipient);
     ("ciphertext", json_of_string (pk_wire p)); ("mid", json_of_string (pk_mid p))]) ∧
  json_parse (pk_wire p) = Ok (envelope (pk_em p) (pk_x3dh p)).

(** The queue entry of a packet with content of type [ty]; of a text. *)
Definition carries_as (ty : MessageType) (target : string) (p : Packet) (e : json * string) : Prop :=
  pk_em p = e.1 ∧
  json_dump (json_of_object (content_members (pk_body p) ty target)) = Ok e.2.
Definition carries : Packet → json * string → Prop := carries_as Standard "".

(** The message a client keeps for a packet. *)
Definition kept_as (p : Packet) (m : Message) : Prop :=
  msg_body m = pk_body p ∧ msg_wire_ciphertext m = pk_wire p ∧ msg_mid m = pk_mid p ∧
  msg_type m = Standard ∧ msg_edited m = false ∧ msg_deleted m = false.

(** The message its author keeps. *)
Definition authored (author : string) (p : Packet) (m : Message) : Prop :=
  kept_as p m ∧ msg_sender m = author ∧ stamped author (pk_mid p).

(** The first packet to an invited receiver brings the header. *)
Definition first_header (r : receiver) (ps : list Packet) : Prop :=
  match r, ps with Invited _ h, p :: _ => pk_x3dh p = Some h | _, _ => True end.
End wire.

(** ** The sender *)

Section sender.
Context `{NlohmannJson} `{EvpCodec} `{Subprocess} `{Sqlite} `{Transport} `{ClientEnv}.
Context `{!StorageCipher} `{!Ratchet}.
Context `{!NlohmannJsonLaws} `{!EvpCodecLaws} `{!StorageCipherLaws} `{!RatchetLaws} `{!TransportLaws}.
Implicit Types w : World.

(** What sending is about, apart from the session. *)
Definition seen w : gmap string Conversation * list string * string :=
  (conversations_ w, sent_ w, current_user_ w).

(** The conversation with [k] holds the sender's end of the session. *)
Definition speaking (cs : gmap string Conversation) (k : string) (q : list (json * string))
    (r : receiver) (ad : string) : Prop :=
  ∃ conv a, cs !! k = Some conv ∧ peer_ conv = k ∧ associated_data_ conv = ad ∧
    json_parse (ratchet_state_ conv) = Ok a ∧ in_flight a q r ad.

Lemma wp_seen_bind {A B} K b (m : M World A) (f : A → M World B) Q E w :
  keeps (live K b) m → moves (same seen) m → live K b w →
  (∀ a w', live K b w' → seen w' = seen w → wp (f a) Q E w') →
  (∀ e w', live K b w' → seen w' = seen w → E e w') →
  wp (m ≫= f) Q E w.
Proof.
  intros Hk Hm Hw Hf HE. apply wp_bind. eapply wp_mono; [by apply (wp_same seen)|..].
  - intros a w' [Hw' Hs]. by apply Hf.
  - intros e w' [Hw' Hs]. by apply HE.
Qed.

Lemma wp_crypto_call method params w (Q : json → World → Prop) (E : string → World → Prop) :
  (∀ r ch, abs_call method params (crypto_ w) = (Ret r, ch) → Q r (set_crypto ch w)) →
  (∀ e ch, abs_call method params (crypto_ w) = (Exn e, ch) → E e (set_crypto ch w)) →
  wp (crypto_call method params) Q E w.
Proof.
  intros HQ HE. apply wp_zoom.
  pose proof (abs_call_safe method params (crypto_ w) (λ _ _, True) (λ _ _, True)) as Hsafe.
  unfold wp in *. destruct (abs_call method params (crypto_ w)) as [[r|e|x] ch]; [by apply HQ|by apply HE|].
  by apply Hsafe.
Qed.

Lemma seen_storage_encrypt s : moves (same seen) (storage_encrypt s).
Proof. unfold storage_encrypt, encrypt_for_storage. same_solve. Qed.

(** Encrypting for an established session: the queue grows by one. *)
Lemma wp_ratchet_encrypt K b k pt q r ad w :
  live K b w → speaking (conversations_ w) k q r ad →
  wp (ratchet_encrypt k (content_to_message pt Standard ""))
    (λ em w', live K b w' ∧ ∃ text,
       json_dump (json_of_object (content_members pt Standard "")) = Ok text ∧
       roundtrips em ∧ speaking (conversations_ w') k (q ++ [(em, text)]) r ad ∧
       sent_ w' = sent_ w ∧ chat k w' = chat k w ∧ current_user_ w' = current_user_ w)
    (λ _ w', live K b w' ∧ sent_ w' = sent_ w) w.
Proof.
  intros Hw (conv & a & Hc & Hp & Had & Hrs & Hfl). unfold ratchet_encrypt.
  apply wp_bind. unfold get_conv. apply wp_bind, wp_gets. cbn [id]. rewrite Hc. apply wp_ret.
  apply wp_bind, wp_lift. rewrite Hrs. apply wp_bind, wp_lift. unfold content_to_message.
  destruct (json_dump _) as [text|] eqn:Hd; cbn [mbind result_bind]; [|done].
  apply wp_bind, wp_crypto_call.
  2:{ intros e ch _. split; [|done]. revert Hw. by apply live_frame. }
  intros enc ch Henc.
  assert (live K b (set_crypto ch w)) as Hw1 by (revert Hw; by apply live_frame).
  rewrite Had in Henc. destruct (ratchet_sends _ _ _ _ _ _ _ _ Hfl Henc) as (a' & em & E1 & E2 & Hfl').
  destruct (abs_call_member _ _ _ _ _ _ _ Henc E1) as [Hra [rs Hds]].
  destruct (abs_call_member _ _ _ _ _ _ _ Henc E2) as [Hrem _].
  apply wp_bind, wp_lift. rewrite E1. apply wp_bind, wp_lift. rewrite Hds.
  apply wp_bind, wp_modify. cbn [conversations_ set_crypto].
  set (w2 := set_conversations _ _).
  assert (live K b w2) as Hw2 by exact (live_on_conv K b k (set_ratchet_state rs) _ Hw1).
  assert (chat k w2 = chat k w) as Hchat by exact (chat_alter k k (set_ratchet_state rs) _ (λ _, eq_refl)).
  assert (speaking (conversations_ w2) k (q ++ [(em, text)]) r ad) as Hsp.
  { exists (set_ratchet_state rs conv), a'. unfold w2. cbn. rewrite lookup_alter_eq, Hc.
    split_and!; try done. by apply Hra. }
  assert (sent_ w2 = sent_ w ∧ current_user_ w2 = current_user_ w) as [Hs2 Hu2] by done.
  clearbody w2. clear Hw1.
  eapply wp_seen_bind; [apply live_storage_encrypt|apply seen_storage_encrypt|done|..];
    [intros blob w3 Hw3 Hs3|intros e w3 Hw3 [= _ Hs3 _]; split; [done|congruence]].
  eapply wp_seen_bind; [apply live_store_exec|unfold store_exec; same_solve|done|..];
    [intros [] w4 Hw4 Hs4|intros e w4 Hw4 Hs4; split; [done|unfold seen in *; congruence]].
  apply wp_lift. rewrite E2. rewrite Hs3 in Hs4. injection Hs4 as F1 F2 F3.
  split; [done|]. exists text. split; [done|]. split; [done|]. rewrite F1.
  split; [done|]. split; [congruence|]. unfold chat in *. rewrite F1. split; [done|congruence].
Qed.

Lemma envelope_roundtrips em x :
  roundtrips em → (∀ h, x = Some h → roundtrips h) → roundtrips (envelope em x).
Proof.
  intros Hem Hx. apply roundtrips_object. cbn. apply Forall_cons. split; [done|].
  apply Forall_singleton. destruct x as [h|]; [by apply Hx|]. apply roundtrips_null.
Qed.

Lemma frame_roundtrips kvs : Forall (λ v, ∃ s, v = json_of_string s) (kvs.*2) →
  roundtrips (json_of_object kvs).
Proof.
  intros Hkvs. apply roundtrips_object. eapply Forall_impl; [exact Hkvs|].
  intros v [s ->]. apply roundtrips_string.
Qed.

(** A frame handed to the connection, or nothing. *)
Lemma wp_send_chat_frame K b k em x mid wire w :
  live K b w → roundtrips em → (∀ h, x = Some h → roundtrips h) →
  json_dump (envelope em x) = Ok wire →
  wp (send_chat_frame k em x mid)
    (λ _ w', live K b w' ∧ ∃ f, sent_ w' = sent_ w ++ [f] ∧ conversations_ w' = conversations_ w ∧
       current_user_ w' = current_user_ w ∧ ∀ body, sent_as k f (mkPacket body em x wire mid))
    (λ _ w', live K b w' ∧ sent_ w' = sent_ w) w.
Proof.
  intros Hw Hem Hx Hwire. unfold send_chat_frame, send_json.
  apply wp_bind, wp_lift. rewrite Hwire. apply wp_bind, wp_lift.
  destruct (json_dump (json_of_object (("type", _) :: _))) as [f|] eqn:Hf; [|done]. unfold send_text.
  destruct (live_connection _ _ _ Hw) as [t HC]. apply wp_bind.
  eapply wp_with_connection; [exact HC|]. unfold wp at 1.
  assert (∀ t', live K b (set_connection (Some t') (outside w) w)) as Hw'.
  { intros t'. by destruct Hw. }
  destruct (tr_send_text f t) as [[[]|e|z] t'] eqn:Ht; [|by split|by apply tr_send_text_safe in Ht].
  apply wp_modify. split; [by apply live_trace|]. exists f. split; [done|]. split; [done|].
  split; [done|]. intros body. split; cbn.
  - revert f Hf Ht. refine (λ f Hf _, frame_roundtrips _ _ _ Hf). cbn. repeat (constructor; [by eexists|]).
    constructor.
  - by apply envelope_roundtrips.
Qed.

(** The tail of the senders. *)
Lemma wp_record_packet K b (announce : option string) k peer p w q r ad :
  live K b w → speaking (conversations_ w) k q r ad →
  wp (record_sent (match announce with Some l => epic_log l | None => mret tt end)
        k peer (pk_body p) Standard (pk_wire p) (pk_mid p))
    (λ _ w', live K b w' ∧ speaking (conversations_ w') k q r ad ∧ sent_ w' = sent_ w ∧
       current_user_ w' = current_user_ w ∧
       ∃ m, chat k w' = chat k w ++ [m] ∧ kept_as p m ∧ msg_sender m = current_user_ w)
    (λ _ w', live K b w' ∧ sent_ w' = sent_ w) w.
Proof.
  intros Hw Hsp. unfold record_sent, push_sent_message. apply wp_bind, wp_gets.
  eapply wp_seen_bind; [apply live_now|same_solve|done|..];
    [intros ts w1 Hw1 E1|intros e w1 Hw1 [= _ E1 _]; by split].
  eapply wp_seen_bind; [apply live_storage_encrypt|apply seen_storage_encrypt|done|..];
    [intros blob w2 Hw2 E2|intros e w2 Hw2 E2; rewrite E1 in E2; injection E2 as _ E2 _; by split].
  eapply wp_seen_bind; [apply live_with_store|same_solve|done|..];
    [intros id w3 Hw3 E3|intros e w3 Hw3 E3; rewrite E2, E1 in E3; injection E3 as _ E3 _; by split].
  rewrite E2, E1 in E3. injection E3 as F1 F2 F3. clear w1 w2 Hw1 Hw2 E1 E2.
  set (m := set_body _ _).
  destruct Hsp as (conv & a & Hc & Hp & Had & Hrs & Hfl).
  apply wp_bind, wp_modify. set (w4 := set_conversations _ _).
  assert (live K b w4) as Hw4 by exact (live_on_conv K b k (add_message m) _ Hw3).
  assert (chat k w4 = chat k w ++ [m]) as Hchat.
  { unfold w4. rewrite (chat_add k m w3 conv) by congruence. unfold chat. by rewrite F1. }
  assert (speaking (conversations_ w4) k q r ad) as Hsp.
  { exists (add_message m conv), a. unfold w4. cbn. rewrite F1, lookup_alter_eq, Hc. by split_and!. }
  assert (sent_ w4 = sent_ w ∧ current_user_ w4 = current_user_ w) as [Hs4 Hu4] by done.
  clearbody w4.
  assert (∀ w5, live K b w5 → seen w5 = seen w4 →
    wp (on_app (App.post (T_push_sent_message m))) (λ _ w', live K b w' ∧
       speaking (conversations_ w') k q r ad ∧ sent_ w' = sent_ w ∧
       current_user_ w' = current_user_ w ∧
       ∃ m, chat k w' = chat k w ++ [m] ∧ kept_as p m ∧ msg_sender m = current_user_ w)
    (λ _ w', live K b w' ∧ sent_ w' = sent_ w) w5) as Hend.
  { intros w5 Hw5 [= G1 G2 G3]. apply wp_modify.
    split; [exact (live_post K b (T_push_sent_message m) w5 Hw5)|]. cbn. rewrite G1.
    split; [done|]. split; [congruence|]. split; [congruence|]. exists m.
    split; [|done]. rewrite <-Hchat. unfold chat. cbn. by rewrite G1. }
  apply wp_bind. destruct announce as [l|]; [|by apply Hend].
  apply wp_modify, Hend; [|done]. by apply (live_log K b l w4).
Qed.

(** The outcome of one send: [done] when it went through; in any case at most this one
    frame has left, and if so the receiver can decrypt it next. *)
Definition one_packet (k pt : string) (q : list (json * string)) (r : receiver) (ad : string)
    w w' (p : Packet) (e : json * string) : Prop :=
  ∃ f, sent_ w' = sent_ w ++ [f] ∧ sent_as k f p ∧ carries p e ∧ pk_body p = pt ∧
    first_header r (if decide (q = []) then [p] else []) ∧ ∃ a, in_flight a (q ++ [e]) r ad.

Definition sent_one k pt q r ad w w' : Prop :=
  ∃ p e m, one_packet k pt q r ad w w' p e ∧ speaking (conversations_ w') k (q ++ [e]) r ad ∧
    current_user_ w' = current_user_ w ∧ chat k w' = chat k w ++ [m] ∧ authored (current_user_ w) p m.

Definition maybe_sent k pt q r ad w w' : Prop :=
  sent_ w' = sent_ w ∨ ∃ p e, one_packet k pt q r ad w w' p e.

Lemma wp_new_mid_bind {B} K b k (f : string → M World B) Q E w :
  live K b w →
  (∀ mid w', live K b w' → seen w' = seen w → stamped (current_user_ w) mid → wp (f mid) Q E w') →
  wp (new_mid k ≫= f) Q E w.
Proof.
  intros Hw Hf. unfold new_mid. apply wp_bind, wp_bind. unfold wp at 1, now_ms.
  apply wp_bind, wp_gets, wp_ret, Hf; [by destruct Hw|done|by eexists].
Qed.

(** What the two senders share: the frame, then the record. *)
Lemma wp_frame_and_record K b announce k pt em text x wire q r ad w w0 :
  live K b w → roundtrips em → (∀ h, x = Some h → roundtrips h) →
  json_dump (envelope em x) = Ok wire →
  json_dump (json_of_object (content_members pt Standard "")) = Ok text →
  speaking (conversations_ w) k (q ++ [(em, text)]) r ad →
  (q = [] → ∀ st h, r = Invited st h → x = Some h) →
  sent_ w = sent_ w0 → chat k w = chat k w0 → current_user_ w = current_user_ w0 →
  wp (mid ← new_mid k;
      send_chat_frame k em x mid ;;
      record_sent (match announce with Some l => epic_log l | None => mret tt end) k k pt Standard wire mid)
    (λ _ w', live K b w' ∧ sent_one k pt q r ad w0 w')
    (λ _ w', live K b w' ∧ maybe_sent k pt q r ad w0 w') w.
Proof.
  intros Hw Hem Hx Hwire Htext Hsp Hhd Hs0 Hc0 Hu0.
  eapply wp_new_mid_bind; [done|]. intros mid w1 Hw1 [= E1 E2 E3] Hst. rewrite Hu0 in Hst. apply wp_bind.
  eapply wp_mono; [by apply (wp_send_chat_frame K b k em x mid wire)|..].
  2:{ intros e w2 [Hw2 E]. split; [done|]. left. congruence. }
  intros [] w2 (Hw2 & f & F1 & F2 & F3 & F4). set (p := mkPacket pt em x wire mid).
  assert (∃ a, in_flight a (q ++ [(em, text)]) r ad) as Hfl
    by (destruct Hsp as (? & a & ? & ? & ? & ? & ?); by exists a).
  assert (∀ w', sent_ w' = sent_ w2 → one_packet k pt q r ad w0 w' p (em, text)) as Hone.
  { intros w' Hw'. exists f. split; [congruence|]. split; [apply F4|]. split; [done|]. split; [done|].
    split; [|done]. destruct (decide (q = [])) as [Hq|]; [|by destruct r].
    destruct r as [st h|]; [|done]. exact (Hhd Hq st h eq_refl). }
  assert (speaking (conversations_ w2) k (q ++ [(em, text)]) r ad) as Hsp2 by (by rewrite F2, E1).
  eapply wp_mono; [exact (wp_record_packet K b announce k k p w2 _ r ad Hw2 Hsp2)|..].
  - intros [] w3 (Hw3 & Hsp3 & G1 & G2 & m & G3 & G4 & G5). split; [done|].
    exists p, (em, text), m. split; [by apply Hone|]. split; [done|]. split; [congruence|].
    split; [|split; [done|split; [congruence|done]]]. rewrite G3. f_equal. unfold chat in *. by rewrite F2, E1.
  - intros e w3 [Hw3 G1]. split; [done|]. right. exists p, (em, text). by apply Hone.
Qed.

(** Sending in an established session. *)
Lemma wp_send_packet K b k pt q r ad w :
  live K b w → speaking (conversations_ w) k q r ad → (q = [] → ∃ rs, r = Joined rs) →
  wp (encrypt_and_send k pt)
    (λ _ w', live K b w' ∧ sent_one k pt q r ad w w')
    (λ _ w', live K b w' ∧ maybe_sent k pt q r ad w w') w.
Proof.
  intros Hw Hsp Hq. unfold encrypt_and_send.
  pose proof Hsp as (conv & a & Hc & Hp & _). apply wp_bind. unfold get_conv. apply wp_bind, wp_gets.
  cbn [id]. rewrite Hc. apply wp_ret. rewrite Hp.
  eapply wp_seen_bind; [apply live_log|unfold epic_log; same_solve|done|..].
  2:{ intros e w1 Hw1 [= _ E _]. split; [done|]. by left. }
  intros [] w1 Hw1 [= E1 E2 E3]. apply wp_bind.
  eapply wp_mono; [apply (wp_ratchet_encrypt K b k pt q r ad w1); [done|by rewrite E1]|..].
  2:{ intros e w2 [Hw2 E]. split; [done|]. left. congruence. }
  intros em w2 (Hw2 & text & Htext & Hem & Hsp2 & F1 & F2 & F3).
  apply wp_bind, wp_lift. destruct (json_dump (envelope em None)) as [wire|] eqn:Hwire.
  2:{ split; [done|]. left. congruence. }
  eapply (wp_frame_and_record K b (Some "encrypt_and_send: frame sent, pushing to UI") k pt em text None
    wire q r ad w2 w); try done; [|congruence|..|congruence].
  - intros Hq' st h ->. by destruct (Hq Hq').
  - rewrite F2. unfold chat. by rewrite E1.
Qed.

(** A step that leaves what sending is about alone, with what holds if it throws. *)
Lemma wp_quiet_bind {A B} K b (m : M World A) (f : A → M World B) Q (E : string → World → Prop) w s :
  keeps (live K b) m → moves (same seen) m → live K b w → seen w = s →
  (∀ e w', live K b w' → seen w' = s → E e w') →
  (∀ a w', live K b w' → seen w' = s → wp (f a) Q E w') →
  wp (m ≫= f) Q E w.
Proof.
  intros Hk Hm Hw Hs HE Hf. eapply wp_seen_bind; [done..| |].
  - intros a w' Hw' E'. apply Hf; [done|congruence].
  - intros e w' Hw' E'. apply HE; [done|congruence].
Qed.

Lemma wp_lift_bind {A B} (r : result A) (f : A → M World B) Q (E : string → World → Prop) w :
  (∀ e, r = Err e → E e w) → (∀ a, r = Ok a → wp (f a) Q E w) → wp (lift r ≫= f) Q E w.
Proof. intros HE HQ. apply wp_bind, wp_lift. destruct r; auto. Qed.

Lemma wp_at_string_bind {B} j k (f : string → M World B) Q (E : string → World → Prop) w :
  (∀ e, E e w) → (∀ s, member_string j k = Ok s → wp (f s) Q E w) →
  wp (at_string j k ≫= f) Q E w.
Proof.
  intros HE HQ. unfold at_string, member_string in *. apply wp_bind, wp_bind, wp_lift.
  destruct (json_at j k) as [v|]; [|apply HE]. apply wp_lift. cbn in HQ.
  destruct (json_get_string v); auto.
Qed.

Ltac quiet HE :=
  lazymatch goal with
  | Hw : live ?K ?b ?w, Hs : seen ?w = _ |- wp (mbind _ _) _ _ ?w =>
    eapply wp_quiet_bind;
      [ solve [keeps_solve]
      | unfold epic_log, store_exec; solve [eauto 2 using seen_storage_encrypt with nocore|same_solve]
      | exact Hw | exact Hs | exact HE | ];
    clear Hw Hs; try clear w; intros ? w Hw Hs
  end.

Hint Resolve live_log live_now live_store_exec live_storage_encrypt live_set_state : keeps.

(** The conversation of a new session. *)
Lemma speaking_new cs k ad rs ik a q r :
  (∀ c, cs !! k = Some c → peer_ c = k) → json_parse rs = Ok a → in_flight a q r ad →
  let cs0 := match cs !! k with Some _ => cs | None => <[k := new_conversation k]> cs end in
  let cs' := alter (set_pinned_ik_pub ik) k
    (alter (set_ratchet_state rs) k (alter (set_associated_data ad) k cs0)) in
  speaking cs' k q r ad ∧
  (∃ c', cs' !! k = Some c' ∧ ratchet_state_ c' = rs ∧
    messages_ c' = match cs !! k with Some c => messages_ c | None => [] end).
Proof.
  intros Hp Hrs Hfl cs0 cs'. destruct (cs !! k) as [c|] eqn:Hc.
  - assert (cs' !! k = Some (set_pinned_ik_pub ik (set_ratchet_state rs (set_associated_data ad c))))
      as Hk by (unfold cs', cs0; by rewrite !lookup_alter_eq, Hc).
    split; [|by eexists]. do 2 eexists. split; [exact Hk|]. split_and!; try done. cbn. by apply Hp.
  - assert (cs' !! k = Some (set_pinned_ik_pub ik (set_ratchet_state rs (set_associated_data ad
      (new_conversation k))))) as Hk by (unfold cs', cs0; by rewrite !lookup_alter_eq, lookup_insert_eq).
    split; [|by eexists]. do 2 eexists. split; [exact Hk|]. by split_and!.
Qed.

Lemma wp_on_conv_bind {B} K b k g (f : unit → M World B) Q E w cs l u :
  live K b w → seen w = (cs, l, u) →
  (∀ w', live K b w' → seen w' = (alter g k cs, l, u) → wp (f tt) Q E w') →
  wp (on_conv k g ≫= f) Q E w.
Proof.
  intros Hw [= E1 E2 E3] Hf. apply wp_bind, wp_modify, Hf; [by apply (live_on_conv K b k g w)|].
  unfold seen. cbn. congruence.
Qed.

Lemma wp_emplace_bind {B} K b k (f : unit → M World B) Q E w cs l u :
  live K b w → seen w = (cs, l, u) →
  (∀ w', live K b w' →
     seen w' = (match cs !! k with Some _ => cs | None => <[k := new_conversation k]> cs end, l, u) →
     wp (f tt) Q E w') →
  wp (emplace_conv k ≫= f) Q E w.
Proof.
  intros Hw [= E1 E2 E3] Hf. apply wp_bind, wp_modify, Hf; [by apply (live_emplace_conv K b k w)|].
  unfold seen. rewrite E1. destruct (cs !! k); cbn; congruence.
Qed.

(** The first message to a peer: the session is made on the way. *)
Lemma wp_send_invitation K b k bundle pt ik otpks bob st w w0 :
  (∀ c, conversations_ w0 !! k = Some c → peer_ c = k) →
  json_value_string bundle "identity_key" "" = Ok ik → bundle_otpks bundle = Ok otpks →
  bob_bundle ik bundle otpks = Ok bob → published st bob →
  live K b w → seen w = seen w0 →
  wp (start_session_and_send k bundle pt)
    (λ _ w', live K b w' ∧ ∃ h ad, sent_one k pt [] (Invited st h) ad w0 w')
    (λ _ w', live K b w' ∧
       (sent_ w' = sent_ w0 ∨ ∃ h ad p e, one_packet k pt [] (Invited st h) ad w0 w' p e)) w.
Proof.
  intros Hpeer Hik Hotpks Hbob Hpub Hw Hs. unfold start_session_and_send.
  match goal with |- wp _ _ ?E _ => set (Ex := E) end.
  assert (∀ e w', live K b w' → seen w' = seen w0 → Ex e w') as HE.
  { intros e w' Hw' [= _ E _]. split; [done|]. by left. }
  quiet HE. apply wp_lift_bind; [congruence|]. intros ik' Hik'. rewrite Hik in Hik'. injection Hik' as <-.
  quiet HE. apply wp_lift_bind; [congruence|]. intros otpks' E'. rewrite Hotpks in E'. injection E' as <-.
  quiet HE. apply wp_lift_bind; [congruence|]. intros bob' E'. rewrite Hbob in E'. injection E' as <-.
  quiet HE. apply wp_bind, wp_gets.
  apply wp_bind, wp_crypto_call; [|intros e ch _; apply HE; [revert Hw; by apply live_frame|exact Hs]].
  intros ss ch Hss. assert (live K b (set_crypto ch w)) as Hw1 by (revert Hw; by apply live_frame).
  assert (seen (set_crypto ch w) = seen w0) as Hs1 by exact Hs.
  set (st0 := encrypted_state_ w) in Hss. set (ch0 := crypto_ w) in Hss. clearbody st0 ch0.
  clear Hw Hs. generalize dependent (set_crypto ch w). clear w. intros w Hw Hs.
  apply wp_lift_bind; [intros; by apply HE|]. intros st' Hst'. quiet HE. quiet HE.
  apply wp_at_string_bind; [intros; by apply HE|]. intros secret Hsecret.
  apply wp_at_string_bind; [intros; by apply HE|]. intros rp Hrp.
  apply wp_lift_bind; [intros; by apply HE|]. intros content Hcontent.
  apply wp_at_string_bind; [intros; by apply HE|]. intros ad Had.
  unfold content_to_message in Hcontent.
  destruct (json_dump (json_of_object (content_members pt Standard ""))) as [text|] eqn:Htext; [|done].
  injection Hcontent as <-.
  apply wp_bind, wp_crypto_call; [|intros e ch2 _; apply HE; [revert Hw; by apply live_frame|exact Hs]].
  intros enc ch2 Henc. assert (live K b (set_crypto ch2 w)) as Hw2 by (revert Hw; by apply live_frame).
  assert (seen (set_crypto ch2 w) = seen w0) as Hs2 by exact Hs.
  set (ch3 := crypto_ w) in Henc. clearbody ch3. clear Hw Hs.
  generalize dependent (set_crypto ch2 w). clear w. intros w Hw Hs.
  quiet HE.
  destruct (x3dh_invites _ _ _ _ _ _ _ _ _ text _ _ _ Hpub Hss Hsecret Hrp Had Henc)
    as (h & ar & em & Hh & Ha & Hem & Hfl).
  destruct (abs_call_member _ _ _ _ _ _ _ Henc Ha) as [Hra [rs Hds]].
  destruct (abs_call_member _ _ _ _ _ _ _ Henc Hem) as [Hrem _].
  destruct (abs_call_member _ _ _ _ _ _ _ Hss Hh) as [Hrh _].
  destruct (speaking_new (conversations_ w0) k ad rs ik ar [(em, text)] (Invited st h) Hpeer (Hra _ Hds) Hfl)
    as [Hsp (c' & Hc' & Hrs' & Hms')].
  assert (∀ w', conversations_ w' !! k = Some c' → chat k w' = chat k w0) as Hchat.
  { intros w' E. unfold chat. by rewrite E, Hms'. }
  eapply wp_emplace_bind; [exact Hw|exact Hs|]. clear w Hw Hs. intros w Hw Hs.
  eapply wp_on_conv_bind; [exact Hw|exact Hs|]. clear w Hw Hs. intros w Hw Hs.
  apply wp_lift_bind; [congruence|]. intros ? E. rewrite Ha in E. injection E as <-.
  apply wp_lift_bind; [congruence|]. intros ? E. rewrite Hds in E. injection E as <-.
  eapply wp_on_conv_bind; [exact Hw|exact Hs|]. clear w Hw Hs. intros w Hw Hs.
  eapply wp_on_conv_bind; [exact Hw|exact Hs|]. clear w Hw Hs. intros w Hw Hs.
  generalize dependent (alter (set_pinned_ik_pub ik) k
    (alter (set_ratchet_state rs) k (alter (set_associated_data ad) k
       match conversations_ w0 !! k with Some _ => conversations_ w0
       | None => <[k := new_conversation k]> (conversations_ w0) end))).
  intros cs Hsp Hc' Hs. clear HE.
  assert (∀ e w', live K b w' → seen w' = (cs, sent_ w0, current_user_ w0) → Ex e w') as HE.
  { intros e w' Hw' [= _ E _]. split; [done|]. by left. }
  quiet HE. quiet HE. quiet HE. quiet HE. quiet HE. apply wp_bind, wp_gets. 
  apply wp_lift_bind; [intros; by apply HE|]. intros st_text _. quiet HE.
  apply wp_lift_bind; [congruence|]. intros ? E. rewrite Hh in E. injection E as <-.
  apply wp_lift_bind; [congruence|]. intros ? E. rewrite Hem in E. injection E as <-.
  apply wp_lift_bind; [intros; by apply HE|]. intros wire Hwire.
  injection Hs as F1 F2 F3.
  eapply wp_mono; [eapply (wp_frame_and_record K b None k pt em text (Some h) wire [] (Invited st h) ad w w0)|..].
  all: try done.
  - by intros ? [= ->].
  - by rewrite F1.
  - by intros _ ? ? [= -> ->].
  - apply Hchat. by rewrite F1.
  - intros [] w' [Hw' Hs']. split; [done|]. by exists h, ad.
  - intros e w' [Hw' [Hs'|(p & q & Hs')]]; (split; [done|]); [by left|]. right. by exists h, ad, p, q.
Qed.

(** A session one can speak in is established. *)
Lemma speaking_session w k q r ad : speaking (conversations_ w) k q r ad → has_session k w = true.
Proof.
  intros (c & a & Hc & _ & _ & Hrs & _). unfold has_session. rewrite Hc.
  destruct (str_empty (ratchet_state_ c)) eqn:Hemp; [|done]. apply str_empty_true in Hemp.
  destruct parse_empty as [e He]. rewrite Hemp, He in Hrs. done.
Qed.

(** The packets [ps] have left, with the queue entries [es] behind [q]. *)
Definition handed (k : string) (q : list (json * string)) (r : receiver) (ad : string)
    w w' (ps : list Packet) (es : list (json * string)) : Prop :=
  ∃ fs, sent_ w' = sent_ w ++ fs ∧ Forall2 (sent_as k) fs ps ∧ Forall2 carries ps es ∧
    (q = [] → first_header r ps) ∧ (es = [] ∨ ∃ a, in_flight a (q ++ es) r ad).

Lemma handed_nil k q r ad w w' : sent_ w' = sent_ w → handed k q r ad w w' [] [].
Proof.
  intros Hs. exists []. rewrite app_nil_r. split; [done|]. split; [constructor|].
  split; [constructor|]. split; [by destruct r|by left].
Qed.

Lemma handed_cons k pt q r ad w w1 w2 p e ps es :
  one_packet k pt q r ad w w1 p e → handed k (q ++ [e]) r ad w1 w2 ps es →
  handed k q r ad w w2 (p :: ps) (e :: es).
Proof.
  intros (f & S1 & S2 & S3 & _ & Hh & Ha) (fs & T1 & T2 & T3 & _ & Hfl).
  exists (f :: fs). split; [by rewrite T1, S1, <-app_assoc|].
  split; [by constructor|]. split; [by constructor|]. split.
  - intros ->. rewrite decide_True in Hh by done. by destruct r.
  - right. destruct Hfl as [->|Hfl]; [done|]. by rewrite <-app_assoc in Hfl.
Qed.

Lemma handed_one k pt q r ad w w' p e :
  one_packet k pt q r ad w w' p e → handed k q r ad w w' [p] [e].
Proof. intros Hone. eapply handed_cons; [exact Hone|]. by apply handed_nil. Qed.

(** The texts [texts] in an established session. *)
Lemma wp_send_packets K b k frame texts q r ad w :
  live K b w → speaking (conversations_ w) k q r ad → (q = [] → ∃ rs, r = Joined rs) →
  wp (for_each texts (send_one k frame))
    (λ _ w', live K b w' ∧ ∃ ps es ms, handed k q r ad w w' ps es ∧ pk_body <$> ps = texts ∧
       speaking (conversations_ w') k (q ++ es) r ad ∧ current_user_ w' = current_user_ w ∧
       chat k w' = chat k w ++ ms ∧ Forall2 (authored (current_user_ w)) ps ms)
    (λ _ w', live K b w' ∧ ∃ n ps es, handed k q r ad w w' ps es ∧ pk_body <$> ps = take n texts) w.
Proof.
  revert q w. induction texts as [|pt texts IH]; intros q w Hw Hsp Hq.
  { apply wp_ret. split; [done|]. exists [], [], []. split; [by apply handed_nil|].
    split; [done|]. rewrite !app_nil_r. by split_and!. }
  cbn [for_each]. apply wp_bind. unfold send_one at 1. apply wp_bind, wp_gets.
  rewrite (speaking_session _ _ _ _ _ Hsp).
  eapply wp_mono; [by apply (wp_send_packet K b k pt q r ad)|..].
  - intros [] w1 (Hw1 & p & e & m & Hone & Hsp1 & Hu & Hc1 & Hk1).
    pose proof Hone as (f & _ & _ & _ & Hbody & _).
    eapply wp_mono; [apply (IH (q ++ [e]) w1 Hw1 Hsp1)|..].
    + by intros [_ ?]%app_eq_nil.
    + intros [] w2 (Hw2 & ps & es & ms & Hh & Hb & Hsp2 & Hu2 & Hc & Hk). split; [done|]. rewrite Hu in Hk.
      exists (p :: ps), (e :: es), (m :: ms). split; [by eapply handed_cons|].
      split; [by rewrite fmap_cons, Hbody, Hb|]. split; [by rewrite <-app_assoc in Hsp2|].
      split; [congruence|]. split; [by rewrite Hc, Hc1, <-app_assoc|]. by constructor.
    + intros x w2 (Hw2 & n & ps & es & Hh & Hb). split; [done|]. exists (S n), (p :: ps), (e :: es).
      split; [by eapply handed_cons|]. by rewrite fmap_cons, Hbody, Hb.
  - intros x w1 (Hw1 & [Hs|(p & e & Hone)]); (split; [done|]).
    + exists 0%nat, [], []. split; [by apply handed_nil|done].
    + pose proof Hone as (f & _ & _ & _ & Hbody & _). exists 1%nat, [p], [e].
      split; [by eapply handed_one|]. cbn. by rewrite Hbody, take_0.
Qed.

(** The queued texts, the first of which makes the session. *)
Lemma wp_send_invited K b k frame ik otpks bob st texts w :
  (∀ c, conversations_ w !! k = Some c → peer_ c = k) → has_session k w = false →
  json_value_string frame "identity_key" "" = Ok ik → bundle_otpks frame = Ok otpks →
  bob_bundle ik frame otpks = Ok bob → published st bob → live K b w →
  wp (for_each texts (send_one k frame))
    (λ _ w', live K b w' ∧ ∃ h ad ps es ms, handed k [] (Invited st h) ad w w' ps es ∧
       pk_body <$> ps = texts ∧ (texts ≠ [] → speaking (conversations_ w') k es (Invited st h) ad) ∧
       current_user_ w' = current_user_ w ∧ chat k w' = chat k w ++ ms ∧
       Forall2 (authored (current_user_ w)) ps ms)
    (λ _ w', live K b w' ∧ ∃ h ad n ps es, handed k [] (Invited st h) ad w w' ps es ∧
       pk_body <$> ps = take n texts) w.
Proof.
  intros Hp Hno Hik Hot Hbob Hpub Hw. destruct texts as [|pt texts].
  { apply wp_ret. split; [done|]. exists json_null, "", [], [], []. split; [by apply handed_nil|].
    split; [done|]. split; [done|]. rewrite app_nil_r. by split_and!. }
  cbn [for_each]. apply wp_bind. unfold send_one at 1. apply wp_bind, wp_gets. rewrite Hno.
  eapply wp_mono; [by apply (wp_send_invitation K b k frame pt ik otpks bob st w w)|..].
  - intros [] w1 (Hw1 & h & ad & p & e & m & Hone & Hsp1 & Hu & Hc1 & Hk1).
    pose proof Hone as (f & _ & _ & _ & Hbody & _).
    eapply wp_mono; [apply (wp_send_packets K b k frame texts ([] ++ [e]) (Invited st h) ad w1 Hw1 Hsp1)|..].
    + done.
    + intros [] w2 (Hw2 & ps & es & ms & Hh & Hb & Hsp2 & Hu2 & Hc & Hk). split; [done|]. rewrite Hu in Hk.
      exists h, ad, (p :: ps), (e :: es), (m :: ms). split; [by eapply handed_cons|].
      split; [by rewrite fmap_cons, Hbody, Hb|]. split; [done|]. split; [congruence|].
      split; [by rewrite Hc, Hc1, <-app_assoc|]. by constructor.
    + intros x w2 (Hw2 & n & ps & es & Hh & Hb). split; [done|]. exists h, ad, (S n), (p :: ps), (e :: es).
      split; [by eapply handed_cons|]. by rewrite fmap_cons, Hbody, Hb.
  - intros x w1 (Hw1 & [Hs|(h & ad & p & e & Hone)]); (split; [done|]).
    + exists json_null, "", 0%nat, [], []. split; [by apply handed_nil|done].
    + pose proof Hone as (f & _ & _ & _ & Hbody & _). exists h, ad, 1%nat, [p], [e].
      split; [by eapply handed_one|]. cbn. by rewrite Hbody, take_0.
Qed.
End sender.

(** ** The receiver *)

Section recipient.
Context `{NlohmannJson} `{EvpCodec} `{Subprocess} `{Sqlite} `{Transport} `{ClientEnv}.
Context `{!StorageCipher} `{!Ratchet}.
Context `{!NlohmannJsonLaws} `{!EvpCodecLaws} `{!StorageCipherLaws} `{!RatchetLaws}.
Implicit Types w : World.

(** A connection that takes what is sent; the receiver publishes new keys when a
    session is made. *)
Context (up : transport → Prop).
Context (up_sends : ∀ t s, up t → ∃ t', tr_send_text s t = (Ret tt, t') ∧ up t').

(** A client that can receive: store and connection are open, the UI loop runs and
    the subprocess has the key; [b] says whether the mutex is held. *)
Record listening (b : bool) w : Prop := {
  li_store : is_Some (store_ w);
  li_up : ∃ t, connection_ w = Some t ∧ up t;
  li_screen : screen_ptr_ (app_ w) = true;
  li_mutex : mutex_ w = b;
  li_dek : is_Some (dek_of (crypto_ w));
}.

(** The receiver's end of the session with [k]. *)
Definition hearing w (k : string) (r : receiver) (ad : string) : Prop :=
  match r with
  | Joined b => ∃ conv, conversations_ w !! k = Some conv ∧ peer_ conv = k ∧
      associated_data_ conv = ad ∧ json_parse (ratchet_state_ conv) = Ok b
  | Invited st h => encrypted_state_ w = st ∧ ∀ conv, conversations_ w !! k = Some conv →
      peer_ conv = k ∧ ratchet_state_ conv = "" ∧
      (pinned_ik_pub_ conv = "" ∨ json_value_string h "identity_key" "" = Ok (pinned_ik_pub_ conv))
  end.

Lemma listening_frame b w w' :
  is_Some (store_ w') → connection_ w' = connection_ w → screen_ptr_ (app_ w') = true →
  mutex_ w' = b → dek_of (crypto_ w') = dek_of (crypto_ w) → listening b w → listening b w'.
Proof. intros E1 E2 E3 E4 E5 [L1 L2 L3 L4 L5]. split; [done|by rewrite E2|done|done|by rewrite E5]. Qed.

(** With the key in memory the storage cipher works. *)
Lemma wp_storage_works s w (Q : string → World → Prop) E b :
  listening b w →
  (∀ blob ch, listening b (set_crypto ch w) → Q blob (set_crypto ch w)) →
  wp (storage_encrypt s) Q E w.
Proof.
  intros Hw HQ. unfold storage_encrypt. apply wp_bind, wp_zoom. unfold wp at 1.
  destruct (encrypt_storage_works s (crypto_ w) (li_dek _ _ Hw)) as (r & ch & Hr).
  destruct (encrypt_storage_ok _ _ _ _ Hr) as [Hd _]. destruct (abs_call_dumps _ _ _ _ _ Hr) as [t Ht].
  unfold encrypt_for_storage in Hr. rewrite Hr. apply wp_lift. rewrite Ht. apply HQ.
  eapply listening_frame; [..|exact Hw]; try done; by destruct Hw.
Qed.

Lemma wp_store_listening f w (Q : unit → World → Prop) E b :
  listening b w →
  (∀ s d, listening b (set_store s d w) → Q tt (set_store s d w)) →
  wp (store_exec f) Q E w.
Proof.
  intros Hw HQ. destruct (li_store _ _ Hw) as [[path last] HS].
  eapply wp_store_exec; [exact HS|]. apply HQ.
  eapply listening_frame; [..|exact Hw]; try done; by destruct Hw.
Qed.

Lemma wp_save_listening m w (Q : Z → World → Prop) E b :
  listening b w →
  (∀ id s d, listening b (set_store s d w) → Q id (set_store s d w)) →
  wp (with_store (save_message m)) Q E w.
Proof.
  intros Hw HQ. destruct (li_store _ _ Hw) as [[path last] HS].
  eapply wp_with_store; [exact HS|]. apply HQ.
  eapply listening_frame; [..|exact Hw]; try done; by destruct Hw.
Qed.

(** What decrypting leaves alone; in a session nothing is sent, while an invited receiver
    publishes new keys. *)
Definition shown (r : receiver) (k : string) w : list Message * App * string * list string :=
  (chat k w, app_ w, current_user_ w, match r with Joined _ => sent_ w | Invited _ _ => [] end).

(** The receiver is past the message at the head, and what it has sent itself can still be
    received. *)
Definition joined_as (r : receiver) q ad a rs : Prop :=
  in_flight a q (Joined rs) ad ∧
  match r with
  | Joined b => ∀ q', in_flight b q' (Joined a) ad → in_flight rs q' (Joined a) ad
  | Invited _ _ => in_flight rs [] (Joined a) ad
  end.

(** The same with nothing sent by the receiver so far. *)
Definition caught_up (r : receiver) q ad a rs : Prop :=
  in_flight a q (Joined rs) ad ∧
  (match r with Joined b => in_flight b [] (Joined a) ad | Invited _ _ => True end → in_flight rs [] (Joined a) ad).

Lemma joined_caught_up r q ad a rs : joined_as r q ad a rs → caught_up r q ad a rs.
Proof. intros [Hq Hr]. split; [done|]. destruct r; auto. Qed.

Definition advanced (k : string) (b : bool) (r : receiver) q ad a w w' : Prop :=
  listening b w' ∧ shown r k w' = shown r k w ∧
  ∃ rs, joined_as r q ad a rs ∧ hearing w' k (Joined rs) ad.

Lemma wp_receive_ratchet k b em text q rs ad a w :
  listening b w → hearing w k (Joined rs) ad → in_flight a ((em, text) :: q) (Joined rs) ad →
  wp (receive_ratchet k em) (λ t w', t = b64_encode text ∧ advanced k b (Joined rs) q ad a w w')
    (λ _ _, False) w.
Proof.
  intros Hw (conv & Hc & Hp & Had & Hrs) Hfl. unfold receive_ratchet.
  destruct (ratchet_receives _ _ _ _ _ _ (crypto_ w) Hfl) as (dec & rs' & ch & Hdec & Ht & Hrs' & Hfl' & Hd).
  destruct (abs_call_member _ _ _ _ _ _ _ Hdec Hrs') as [Hr [s Hs]].
  apply wp_bind. unfold get_conv. apply wp_bind, wp_gets. cbn [id]. rewrite Hc. apply wp_ret.
  apply wp_bind, wp_lift. rewrite Hrs. apply wp_bind, wp_zoom. unfold wp at 1. rewrite Had.
  unfold decrypt_message in *. rewrite Hdec.
  apply wp_bind, wp_lift. rewrite Hrs'. apply wp_bind, wp_lift. rewrite Hs.
  apply wp_bind, wp_modify. set (w1 := set_conversations _ _).
  assert (listening b w1) as Hw1 by (eapply listening_frame; [..|exact Hw]; try done; by destruct Hw).
  assert (shown (Joined rs) k w1 = shown (Joined rs) k w) as Hsh
    by (unfold shown, w1; by rewrite (chat_alter k k (set_ratchet_state s) (set_crypto ch w) (λ _, eq_refl))).
  assert (hearing w1 k (Joined rs') ad) as Hh.
  { exists (set_ratchet_state s conv). unfold w1. cbn. rewrite lookup_alter_eq, Hc.
    split_and!; [done..|]. by apply Hr. }
  clearbody w1. apply wp_bind. eapply wp_storage_works; [exact Hw1|]. intros blob ch2 Hw2.
  apply wp_bind. eapply wp_store_listening; [exact Hw2|]. intros st d Hw3.
  unfold at_string. unfold member_string in Ht.
  destruct (json_at dec "plaintext") as [v|] eqn:Hv; [|done]. cbn in Ht.
  apply wp_bind, wp_lift. apply wp_lift. rewrite Ht. split; [done|].
  split; [done|]. split; [exact Hsh|]. exists rs'. split; [|exact Hh]. split; [done|].
  intros q' Hback. by eapply ratchet_receives_sends.
Qed.

Lemma wp_at_string_ok {B} j k s (f : string → M World B) Q E w :
  member_string j k = Ok s → wp (f s) Q E w → wp (at_string j k ≫= f) Q E w.
Proof.
  unfold at_string, member_string. intros Hj HQ. apply wp_bind, wp_bind, wp_lift.
  destruct (json_at j k) as [v|]; [|done]. apply wp_lift. cbn in Hj. by rewrite Hj.
Qed.

(** Publishing the keys that replace the used ones. *)
Lemma wp_publish_new b bundle w :
  listening b w → parsed bundle → bundle_members bundle →
  wp (send_key_bundle bundle)
    (λ _ w', listening b w' ∧ conversations_ w' = conversations_ w ∧ app_ w' = app_ w ∧
       current_user_ w' = current_user_ w) (λ _ _, False) w.
Proof.
  intros Hw Hp (ik & spk & sig & otpks & E1 & E2 & E3 & E4). unfold send_key_bundle.
  apply wp_bind, wp_lift. rewrite E4. destruct (json_empty otpks); [by apply wp_ret|].
  apply wp_bind, wp_lift. rewrite E1. apply wp_bind, wp_lift. rewrite E2.
  apply wp_bind, wp_lift. rewrite E3. unfold send_json. apply wp_bind, wp_lift.
  match goal with |- context [json_dump (json_of_object ?kvs)] =>
    destruct (dump_object_ok kvs) as [text Ht] end.
  { assert (∀ k v, json_at bundle k = Ok v → ∃ s, json_dump v = Ok s) as Hm
      by (intros k v Hat; by eapply parsed_roundtrips, parsed_member).
    intros k v Hin. repeat (apply elem_of_cons in Hin as [[= -> ->]|Hin]; [split; [by apply dump_ascii|]|]);
      [by apply dump_ascii|by eapply Hm..|by apply elem_of_nil in Hin]. }
  rewrite Ht. unfold send_text. destruct (li_up _ _ Hw) as (t & HC & Hup).
  destruct (up_sends t text Hup) as (t' & Hsend & Hup'). apply wp_bind.
  eapply wp_with_connection; [exact HC|]. unfold wp at 1. rewrite Hsend. apply wp_modify.
  split; [|done]. destruct Hw. split; try done. by exists t'.
Qed.

(** The first message, by an invitation: the session is made. *)
Lemma wp_receive_initial k b env em text q st h ad a w :
  listening b w → is_Some (conversations_ w !! k) → hearing w k (Invited st h) ad →
  in_flight a ((em, text) :: q) (Invited st h) ad → json_at env "x3dh" = Ok h →
  wp (receive_initial k env em)
    (λ t w', t = Some (b64_encode text) ∧ advanced k b (Invited st h) q ad a w w')
    (λ _ _, False) w.
Proof.
  intros Hw [conv Hc] [Hst Hpin] Hfl Hx. destruct (Hpin conv Hc) as (Hpe & Hrs & Hp). unfold receive_initial.
  destruct (x3dh_joins _ _ _ _ _ _ _ (crypto_ w) Hfl (li_dek _ _ Hw))
    as (_ & [ik Hik] & ss & ch & st' & secret & priv & Hss & Hd & Hst' & Hbundle & Hsecret & Hpriv & Had & Hdec).
  apply wp_bind, wp_lift. rewrite Hx. apply wp_bind, wp_lift. rewrite Hik.
  apply wp_bind. unfold get_conv. apply wp_bind, wp_gets. cbn [id]. rewrite Hc. apply wp_ret.
  assert (negb (str_empty (pinned_ik_pub_ conv)) && negb (bool_decide (pinned_ik_pub_ conv = ik)) = false)
    as ->.
  { destruct Hp as [->|Hp]; [done|]. rewrite Hik in Hp. injection Hp as ->.
    rewrite bool_decide_true by done. apply andb_false_r. }
  apply wp_bind, wp_gets. rewrite Hst. apply wp_bind, wp_zoom. unfold wp at 1.
  pose proof Hss as Hss'. unfold get_shared_secret_passive in Hss'. unfold get_shared_secret_passive.
  rewrite Hss'. apply wp_bind, wp_lift. rewrite Hst'. apply wp_bind, wp_modify.
  set (w1 := set_encrypted_state _ _).
  assert (listening b w1) as Hw1 by (eapply listening_frame; [..|exact Hw]; try done; by destruct Hw).
  assert (conversations_ w1 = conversations_ w ∧ shown (Invited st h) k w1 = shown (Invited st h) k w)
    as [Hcs1 Hsh1] by done.
  clearbody w1. apply wp_bind.
  eapply (wp_mono _ (λ _ w2, listening b w2 ∧ conversations_ w2 = conversations_ w ∧
    shown (Invited st h) k w2 = shown (Invited st h) k w) _ (λ _ _, False)); [|clear w1 Hw1 Hcs1 Hsh1|done].
  { apply wp_when. destruct (json_contains ss "bundle") eqn:Hb; [|done].
    destruct (contains_at _ _ Hb) as [bj Hbj]. apply wp_bind, wp_lift. rewrite Hbj.
    eapply wp_mono; [apply wp_publish_new; [exact Hw1| |by apply Hbundle]| |done].
    - destruct (abs_call_parsed _ _ _ _ _ Hss) as [?| ->]; [by eapply parsed_member|].
      by apply empty_object_at in Hbj.
    - intros [] w2 (Hw2 & F1 & F2 & F3). split; [done|]. split; [congruence|].
      rewrite <-Hsh1. unfold shown, chat. by rewrite F1, F2, F3. }
  intros [] w2 (Hw2 & Hcs2 & Hsh2).
  apply wp_at_string_ok with secret; [done|]. apply wp_at_string_ok with priv; [done|].
  apply wp_at_string_ok with ad; [done|].
  destruct (Hdec (crypto_ w2)) as (dec & rs' & ch3 & Hdec' & Ht & Hrs' & Hfl' & Hback & Hd3).
  destruct (abs_call_member _ _ _ _ _ _ _ Hdec' Hrs') as [Hr [s Hs]].
  apply wp_bind, wp_zoom. unfold wp at 1. unfold decrypt_initial_message in *. rewrite Hdec'.
  apply wp_bind, wp_modify.
  apply wp_bind, wp_lift. rewrite Hrs'. apply wp_bind, wp_lift. rewrite Hs.
  apply wp_bind, wp_modify, wp_bind, wp_modify. set (w3 := set_conversations _ _).
  assert (listening b w3) as Hw3 by (eapply listening_frame; [..|exact Hw2]; try done; by destruct Hw2).
  set (conv' := set_pinned_ik_pub ik (set_ratchet_state s (set_associated_data ad conv))).
  assert (conversations_ w3 !! k = Some conv') as Hc3
    by (unfold w3; cbn; by rewrite !lookup_alter_eq, Hcs2, Hc).
  assert (shown (Invited st h) k w3 = shown (Invited st h) k w) as Hsh3.
  { injection Hsh2 as _ G2 G3. unfold shown, chat. rewrite Hc3, Hc. unfold w3, conv'. cbn. congruence. }
  clearbody w3. clear w2 Hw2 Hcs2 Hsh2 Hdec' Hd3.
  apply wp_bind. eapply wp_store_listening; [exact Hw3|]. intros s4 d4 Hw4.
  apply wp_bind. eapply wp_storage_works; [exact Hw4|]. intros blob5 ch5 Hw5.
  apply wp_bind. eapply wp_store_listening; [exact Hw5|]. intros s6 d6 Hw6.
  apply wp_bind. eapply wp_storage_works; [exact Hw6|]. intros blob7 ch7 Hw7.
  apply wp_bind. eapply wp_store_listening; [exact Hw7|]. intros s8 d8 Hw8.
  apply wp_bind, wp_gets. destruct (abs_call_member _ _ _ _ _ _ _ Hss Hst') as [_ [stt Hstt]].
  apply wp_bind, wp_lift. rewrite Hstt.
  apply wp_bind. eapply wp_store_listening; [exact Hw8|]. intros s9 d9 Hw9.
  apply wp_at_string_ok with (b64_encode text); [done|]. apply wp_ret.
  split; [done|]. split; [exact Hw9|]. split; [exact Hsh3|]. exists rs'. split; [done|].
  exists conv'. split; [exact Hc3|]. split; [exact Hpe|]. split; [done|]. by apply Hr.
Qed.

(** A decrypted text is stored, kept and shown. *)
Lemma wp_show_text k b body wire mid w conv :
  listening b w → conversations_ w !! k = Some conv →
  wp (apply_content k (mkParsedContent Standard body "") wire mid)
    (λ _ w', listening b w' ∧ current_user_ w' = current_user_ w ∧
       (∀ rs ad, hearing w k (Joined rs) ad → hearing w' k (Joined rs) ad) ∧
       ∃ m, chat k w' = chat k w ++ [m] ∧
         posted (app_ w') = posted (app_ w) ++ [T_push_message m] ∧
         msg_body m = body ∧ msg_wire_ciphertext m = wire ∧ msg_mid m = mid ∧
         msg_type m = Standard ∧ msg_edited m = false ∧ msg_deleted m = false ∧ msg_sender m = k)
    (λ _ _, False) w.
Proof.
  intros Hw Hc. unfold apply_content. cbn [pc_type pc_body pc_target_mid].
  apply wp_bind, wp_gets, wp_bind. unfold wp at 1, now_ms.
  assert (∀ t l s, listening b (set_trace t l s w)) as Hw1 by (intros; by destruct Hw).
  apply wp_bind. eapply wp_storage_works; [apply Hw1|]. intros blob ch Hw2.
  apply wp_bind. eapply wp_save_listening; [exact Hw2|]. intros id s d Hw3.
  apply wp_bind, wp_modify, wp_bind, wp_modify, wp_modify.
  split.
  { eapply listening_frame; [..|exact Hw3]; try done; [by destruct Hw3| |by destruct Hw3].
    etrans; [apply post_screen|]. by destruct Hw. }
  split; [done|]. split.
  { intros rs ad (c & Hc' & E1 & E2 & E3). rewrite Hc in Hc'. injection Hc' as <-.
    eexists. split; [cbn; rewrite lookup_alter_eq, Hc; reflexivity|by split_and!]. }
  eexists. split_and!.
  - unfold chat. cbn. by rewrite lookup_alter_eq, Hc.
  - unfold push_message, App.post. cbn. by rewrite (li_screen _ _ Hw).
  - done.
  - done.
  - done.
  - done.
  - done.
  - done.
  - done.
Qed.

(** What the server delivers of a packet. *)
Definition delivered_object (sender wire mid : string) : json :=
  json_of_object [("type", json_of_string "deliver_message"); ("sender", json_of_string sender);
    ("ciphertext", json_of_string wire); ("mid", json_of_string mid)].

Lemma relayed_object sender recipient f d p :
  sent_as recipient f p → relayed sender f d →
  json_parse d = Ok (delivered_object sender (pk_wire p) (pk_mid p)).
Proof.
  intros [Hf _] (frame & out & E1 & E2 & E3). rewrite Hf in E1. injection E1 as <-.
  rewrite E3, <-E2. unfold deliver_message_frame.
  rewrite (at_object _ "ciphertext" (json_of_string (pk_wire p))) by json_keys. cbn [mbind result_bind].
  by rewrite (at_object _ "mid" (json_of_string (pk_mid p))) by json_keys.
Qed.

Lemma delivered_value sender wire mid d :
  json_value_string (delivered_object sender wire mid) "type" d = Ok "deliver_message" ∧
  json_value_string (delivered_object sender wire mid) "sender" d = Ok sender ∧
  json_value_string (delivered_object sender wire mid) "ciphertext" d = Ok wire ∧
  json_value_string (delivered_object sender wire mid) "mid" d = Ok mid ∧
  member_string (delivered_object sender wire mid) "ciphertext" = Ok wire ∧
  json_contains (delivered_object sender wire mid) "username" = false.
Proof.
  unfold delivered_object. split_and!; try (apply value_string_object; json_keys).
  - unfold member_string. rewrite (at_object _ "ciphertext" (json_of_string wire)) by json_keys.
    cbn [mbind result_bind]. apply get_string_string.
  - rewrite contains_object. by apply bool_decide_eq_false_2, (bool_decide_unpack _).
Qed.

Lemma envelope_members em x :
  json_at (envelope em x) "dr" = Ok em ∧ json_at (envelope em x) "x3dh" = Ok (default json_null x) ∧
  json_contains (envelope em x) "x3dh" = true.
Proof.
  unfold envelope. split_and!; [apply at_object; json_keys..|].
  rewrite contains_object. by apply bool_decide_eq_true_2, (bool_decide_unpack _).
Qed.

(** The branches of [on_deliver_message] that decrypt. *)
Definition decrypt_branch (k : string) (env dr : json) (has_x3dh : bool) : M World (option string) :=
  conv ← get_conv k;
  if str_empty (ratchet_state_ conv) && has_x3dh then receive_initial k env dr
  else if negb (str_empty (ratchet_state_ conv)) then
    text ← receive_ratchet k dr; mret (Some text)
  else
    on_app (push_status ("Dropped message from '" +:+ k +:+
      "': no session and no X3DH header.")) ;;
    mret None.

Lemma wp_decrypt_branch k b p e q r ad a w :
  listening b w → is_Some (conversations_ w !! k) → hearing w k r ad → in_flight a (e :: q) r ad →
  pk_em p = e.1 → first_header r [p] →
  wp (decrypt_branch k (envelope (pk_em p) (pk_x3dh p)) (pk_em p)
        (negb (json_is_null (default json_null (pk_x3dh p)))))
    (λ t w', t = Some (b64_encode e.2) ∧ advanced k b r q ad a w w') (λ _ _, False) w.
Proof.
  intros Hw [conv Hc] Hh Hfl Hem Hhd. destruct e as [em text]. cbn in Hem. rewrite Hem.
  unfold decrypt_branch. apply wp_bind. unfold get_conv. apply wp_bind, wp_gets. cbn [id].
  rewrite Hc. apply wp_ret. destruct r as [st h|rs].
  - destruct Hh as [Hst Hpin]. pose proof (Hpin conv Hc) as (_ & Hrs & _). rewrite Hrs.
    pose proof (x3dh_joins _ _ _ _ _ _ _ (crypto_ w) Hfl (li_dek _ _ Hw)) as [Hnull _].
    cbn in Hhd. rewrite Hhd. cbn [default from_option id]. rewrite Hnull. cbn [negb str_empty andb].
    eapply wp_receive_initial; [done| |by split|done|].
    + by exists conv.
    + apply (envelope_members em (Some h)).
  - pose proof Hh as (conv' & Hc' & _ & Had & Hrs). rewrite Hc in Hc'. injection Hc' as <-.
    destruct (str_empty (ratchet_state_ conv)) eqn:Hemp.
    { apply str_empty_true in Hemp. destruct parse_empty as [x Hx]. congruence. }
    cbn [andb negb]. apply wp_bind.
    eapply wp_mono; [by eapply wp_receive_ratchet| |done]. intros t w' [-> Hadv]. apply wp_ret. by split.
Qed.

(** After [try_emplace] the receiver still hears the sender. *)
Lemma emplaced b k r ad w :
  listening b w → hearing w k r ad →
  let w' := match conversations_ w !! k with
            | Some _ => w
            | None => set_conversations (<[k := new_conversation k]> (conversations_ w)) w
            end in
  listening b w' ∧ is_Some (conversations_ w' !! k) ∧ hearing w' k r ad ∧ shown r k w' = shown r k w.
Proof.
  intros Hw Hh. destruct (conversations_ w !! k) as [c|] eqn:Hc; cbn zeta.
  - split; [done|]. by split; [eexists|].
  - split; [by destruct Hw|]. cbn. rewrite lookup_insert_eq. split; [by eexists|]. split.
    + destruct r as [st h|rs]; cbn; rewrite lookup_insert_eq.
      * destruct Hh as [Hst _]. split; [done|]. intros c [= <-]. split; [done|]. split; [done|by left].
      * destruct Hh as (c & Hc' & _). congruence.
    + unfold shown, chat. cbn. by rewrite lookup_insert_eq, Hc.
Qed.

(** One delivered packet: what is left is to apply its content. *)
Lemma wp_deliver_content ty target k recipient f d p e q r ad a w (Q : World → Prop) :
  listening false w → hearing w k r ad → in_flight a (e :: q) r ad → type_wf ty →
  carries_as ty target p e → first_header r [p] → sent_as recipient f p → relayed k f d →
  (∀ w' rs, listening true w' → shown r k w' = shown r k w → joined_as r q ad a rs →
     hearing w' k (Joined rs) ad →
     wp (apply_content k (mkParsedContent ty (pk_body p) target) (pk_wire p) (pk_mid p))
       (λ _ w2, Q (set_mutex false w2)) (λ _ _, False) w') →
  wp (handle_ws_frame d) (λ _, Q) (λ _ _, False) w.
Proof.
  intros Hw Hh Hfl Hty [Hem Htext] Hhd Hsent Hrel HQ.
  pose proof (relayed_object _ _ _ _ _ Hsent Hrel) as Hd.
  destruct (delivered_value k (pk_wire p) (pk_mid p) "") as (V1 & V2 & V3 & V4 & V5 & V6).
  destruct (envelope_members (pk_em p) (pk_x3dh p)) as (M1 & M2 & M3). destruct Hsent as [_ Henv].
  unfold handle_ws_frame. apply wp_bind, wp_modify. rewrite Hd.
  apply wp_bind, wp_lift. rewrite V1. apply wp_bind, wp_modify. rewrite V6.
  cbn [andb]. rewrite (bool_decide_true (_ = "deliver_message")) by done.
  unfold on_deliver_message. apply wp_bind, wp_lift. rewrite V2. apply wp_bind, wp_modify.
  apply wp_try. apply wp_at_string_ok with (pk_wire p); [done|].
  apply wp_bind, wp_lift. rewrite Henv. apply wp_bind, wp_lift. rewrite M1, M3, M2.
  apply wp_bind, wp_bind, wp_lift, wp_ret.
  apply wp_with_lock; [by destruct Hw|]. set (w1 := set_mutex true _).
  assert (listening true w1 ∧ hearing w1 k r ad ∧ shown r k w1 = shown r k w) as (Hw1 & Hh1 & Hs1)
    by (split; [by destruct Hw|by destruct r]).
  clearbody w1. apply wp_bind, wp_modify. set (w2 := match _ with Some _ => w1 | None => _ end).
  assert (listening true w2 ∧ is_Some (conversations_ w2 !! k) ∧ hearing w2 k r ad ∧
    shown r k w2 = shown r k w1) as (Hw2 & Hc2 & Hh2 & Hs2) by by apply emplaced.
  clearbody w2. apply wp_assoc, wp_bind.
  eapply wp_mono; [exact (wp_decrypt_branch k true p e q r ad a w2 Hw2 Hc2 Hh2 Hfl Hem Hhd)| |done].
  intros t w3 (-> & Hw3 & Hs3 & rs & Hfl3 & Hh3). cbn beta iota.
  apply wp_bind, wp_lift. rewrite (content_decodes _ ty _ _ Hty Htext).
  apply wp_bind, wp_lift. rewrite V3. apply wp_bind, wp_lift. rewrite V4. apply wp_bind, wp_modify.
  eapply wp_mono; [eapply (HQ (set_trace _ _ _ w3) rs)|done..]; [by destruct Hw3|..|done|exact Hh3].
  rewrite <-Hs1, <-Hs2. exact Hs3.
Qed.

(** A delivered text. *)
Lemma wp_deliver k recipient f d p e q r ad a w :
  listening false w → hearing w k r ad → in_flight a (e :: q) r ad → carries p e →
  first_header r [p] → sent_as recipient f p → relayed k f d →
  wp (handle_ws_frame d)
    (λ _ w', listening false w' ∧ current_user_ w' = current_user_ w ∧
       (∃ rs, caught_up r q ad a rs ∧ hearing w' k (Joined rs) ad) ∧
       ∃ m, chat k w' = chat k w ++ [m] ∧
         posted (app_ w') = posted (app_ w) ++ [T_push_message m] ∧
         kept_as p m ∧ msg_sender m = k)
    (λ _ _, False) w.
Proof.
  intros Hw Hh Hfl Hcar Hhd Hsent Hrel.
  eapply (wp_deliver_content Standard "" k recipient f d p e q r ad a w); try done.
  intros w4 rs Hw4 [= S1 S2 S3 _] Hfl4 Hh4. pose proof Hh4 as (conv & Hc4 & _).
  eapply wp_mono; [exact (wp_show_text k true (pk_body p) (pk_wire p) (pk_mid p) w4 conv Hw4 Hc4)| |done].
  intros [] w5 (Hw5 & Hu5 & Hh5 & m & Hc5 & Hp5 & Hbody & Hwire & Hmid & Hty & Hed & Hdel & Hsend).
  split; [by destruct Hw5|]. split; [by transitivity (current_user_ w4)|]. split.
  { exists rs. split; [by apply joined_caught_up|]. exact (Hh5 rs ad Hh4). }
  exists m. split; [change (chat k w5 = chat k w ++ [m]); congruence|].
  split; [|by split_and!]. change (posted (app_ w5) = posted (app_ w) ++ [T_push_message m]). congruence.
Qed.

(** Delivered packets, one after the other. *)
Lemma wp_deliver_all k recipient fs ds ps es r ad a w :
  listening false w → hearing w k r ad → in_flight a es r ad → es ≠ [] → Forall2 carries ps es →
  first_header r ps → Forall2 (sent_as recipient) fs ps → Forall2 (relayed k) fs ds →
  wp (for_each ds handle_ws_frame)
    (λ _ w', listening false w' ∧ current_user_ w' = current_user_ w ∧
       (∃ rs, caught_up r [] ad a rs ∧ hearing w' k (Joined rs) ad) ∧
       ∃ ms, chat k w' = chat k w ++ ms ∧
         posted (app_ w') = posted (app_ w) ++ (T_push_message <$> ms) ∧
         Forall2 kept_as ps ms ∧ Forall (λ m, msg_sender m = k) ms)
    (λ _ _, False) w.
Proof.
  intros Hw Hh Hfl Hne Hcar. revert r fs ds w Hw Hh Hfl Hne.
  induction Hcar as [|p e ps es Hpe Hcar IH]; [done|]. intros r fs ds w Hw Hh Hfl _ Hhd Hsent Hrel.
  inversion Hsent as [|f p' fs' ps' Hf Hsent' E1 E2]; subst.
  inversion Hrel as [|f' d fs'' ds' Hd Hrel' E1 E2]; subst.
  cbn [for_each]. apply wp_bind.
  eapply wp_mono; [eapply (wp_deliver k recipient f d p e es r ad a w); try done; by destruct r| |done].
  intros [] w1 (Hw1 & Hu1 & (rs & [Hfl1 Hb1] & Hh1) & m & Hc1 & Hp1 & Hk1 & Hs1).
  destruct (decide (es = [])) as [->|Hne].
  - inversion Hcar; subst. inversion Hsent'; subst. inversion Hrel'; subst. apply wp_ret.
    split; [done|]. split; [done|]. split; [by exists rs|]. exists [m]. split; [done|]. split; [done|].
    split; (constructor; [done|constructor]).
  - eapply wp_mono; [by eapply (IH (Joined rs) fs' ds' w1)| |done].
    intros [] w2 (Hw2 & Hu2 & (rs2 & [Hfl2 Hb2] & Hh2) & ms & Hc2 & Hp2 & Hk2 & Hs2).
    split; [done|]. split; [congruence|]. split; [exists rs2; split; [split; [done|auto]|done]|]. exists (m :: ms).
    split; [by rewrite Hc2, Hc1, <-app_assoc|]. split; [by rewrite Hp2, Hp1, <-app_assoc|].
    split; by constructor.
Qed.
End recipient.

(** ** The two clients *)

Section end_to_end.
Context `{NlohmannJson} `{EvpCodec} `{Subprocess} `{Sqlite} `{Transport}.
Context `{!StorageCipher} `{!Ratchet}.
Context `{!NlohmannJsonLaws} `{!EvpCodecLaws} `{!StorageCipherLaws} `{!RatchetLaws} `{!TransportLaws}.
Context (EA EB : ClientEnv).
Context (up : transport → Prop).
Context (up_sends : ∀ t s, up t → ∃ t', tr_send_text s t = (Ret tt, t') ∧ up t').

(** [alice]'s client [wA] and [bob]'s client [wB] hold the two ends of a session, with
    nothing on its way from her to him. *)
Definition in_session (alice bob : string) (wA wB : World) : Prop :=
  ∃ rs ad, speaking (conversations_ wA) bob [] (Joined rs) ad ∧ hearing wB alice (Joined rs) ad.

(** A text sent in an established session reaches the other side: either the user is
    told that it could not be sent, or one frame leaves, the text is in the sender's
    conversation, and the other client, given what the server makes of the frame, shows
    the same text under the same message id with the same ciphertext; then the two are
    in session again. *)
Theorem sent_text_delivered alice bob text wA wB :
  live [] false wA → is_online wA = true → listening up false wB → in_session alice bob wA wB →
  ∃ wA', do_send (H4 := EA) bob text wA = (Ret tt, wA') ∧
    ((∃ a, app_ wA' = push_status "Message could not be sent." a) ∨
     ∃ f m, sent_ wA' = sent_ wA ++ [f] ∧ chat bob wA' = chat bob wA ++ [m] ∧ msg_body m = text ∧
       ∀ d, relayed alice f d → ∃ wB' m', handle_ws_frame (H4 := EB) d wB = (Ret tt, wB') ∧
         chat alice wB' = chat alice wB ++ [m'] ∧
         posted (app_ wB') = posted (app_ wB) ++ [T_push_message m'] ∧
         msg_body m' = text ∧ msg_mid m' = msg_mid m ∧
         msg_wire_ciphertext m' = msg_wire_ciphertext m ∧ msg_sender m' = alice ∧
         listening up false wB' ∧ in_session alice bob wA' wB').
Proof.
  intros Hw Hon HwB (rs & ad & Hsp & Hh).
  eapply (λ Hwp, wp_returns_ret (do_send (H4 := EA) bob text) _ wA Hwp).
  unfold do_send. apply wp_bind, wp_modify, wp_bind, wp_gets.
  change (is_online (set_trace _ _ _ wA)) with (is_online wA). rewrite Hon. cbn [negb].
  apply wp_try, wp_with_lock; [by destruct Hw|]. set (w1 := set_mutex true _).
  assert (live [] true w1 ∧ speaking (conversations_ w1) bob [] (Joined rs) ad) as [Hw1 Hsp1]
    by (split; [by destruct Hw|done]).
  assert (sent_ w1 = sent_ wA ∧ chat bob w1 = chat bob wA) as [Es Ec] by done. clearbody w1.
  apply wp_bind, wp_gets. rewrite (speaking_session _ _ _ _ _ Hsp1). apply wp_bind, wp_modify.
  set (w2 := set_trace _ _ _ w1).
  eapply wp_mono;
    [apply (wp_send_packet (H4 := EA) [] true bob text [] (Joined rs) ad w2); [by destruct Hw1|done|eauto]|..].
  2:{ intros e w3 _. apply wp_bind, wp_modify, wp_modify. left. by eexists. }
  intros [] w3 (Hw3 & p & e & m & (f & Hf & Hsent & Hcar & Hbody & _) & Hsp3 & _ & Hc3 & Hk3).
  right. exists f, m. split; [change (sent_ w3 = sent_ wA ++ [f]); rewrite Hf; by rewrite <-Es|].
  split; [change (chat bob w3 = chat bob wA ++ [m]); rewrite Hc3; by rewrite <-Ec|].
  destruct Hk3 as ((K1 & K2 & K3 & _) & _). split; [congruence|]. intros d Hd.
  destruct Hsp3 as (conv & a & Hcv & Hpe & Had & Hrs & Hfl).
  destruct (wp_returns _ _ _ (wp_deliver (H4 := EB) up up_sends alice bob f d p e [] (Joined rs) ad a wB
    HwB Hh Hfl Hcar I Hsent Hd)) as ([] & wB' & Hrun & HwB' & _ & (rs' & [Hfl' _] & Hh') & m' & Hc' & Hp' &
      (K1' & K2' & K3' & _) & Hs').
  exists wB', m'. split; [done|]. split; [done|]. split; [done|]. split; [congruence|].
  split; [congruence|]. split; [congruence|]. split; [done|]. split; [done|].
  exists rs', ad. split; [|done]. by exists conv, a.
Qed.

(** What the receiver shows of the packets [ps]. *)
Record received_all (alice : string) (ps : list Packet) (wB wB' : World) : Prop := {
  ra_listening : listening up false wB';
  ra_user : current_user_ wB' = current_user_ wB;
  ra_packets : ∃ ms, chat alice wB' = chat alice wB ++ ms ∧
    posted (app_ wB') = posted (app_ wB) ++ (T_push_message <$> ms) ∧
    Forall2 kept_as ps ms ∧ Forall (λ m, msg_sender m = alice) ms;
}.

Lemma handed_delivers alice bob r ad wA wA' wB ps es :
  handed bob [] r ad wA wA' ps es → listening up false wB → hearing wB alice r ad →
  ∃ fs, sent_ wA' = sent_ wA ++ fs ∧ length fs = length ps ∧
  ∀ ds, Forall2 (relayed alice) fs ds →
    ∃ wB', for_each ds (handle_ws_frame (H4 := EB)) wB = (Ret tt, wB') ∧ received_all alice ps wB wB' ∧
      ∀ a, es ≠ [] → in_flight a es r ad →
        ∃ rs, caught_up r [] ad a rs ∧ hearing wB' alice (Joined rs) ad.
Proof.
  intros (fs & Hs & Hf & Hcar & Hhd & Hfl) HwB Hh. exists fs. split; [done|].
  split; [by eapply Forall2_length|]. intros ds Hds. specialize (Hhd eq_refl).
  assert (∀ a, es ≠ [] → in_flight a es r ad → ∃ wB',
    for_each ds (handle_ws_frame (H4 := EB)) wB = (Ret tt, wB') ∧ received_all alice ps wB wB' ∧
    ∃ rs, caught_up r [] ad a rs ∧ hearing wB' alice (Joined rs) ad) as Hrun.
  { intros a Hne Ha.
    destruct (wp_returns _ _ _ (wp_deliver_all (H4 := EB) up up_sends alice bob fs ds ps es r ad a wB
      HwB Hh Ha Hne Hcar Hhd Hf Hds)) as ([] & wB' & Hr & Hl & Hu & Hj & Hms).
    exists wB'. split; [done|]. by split. }
  destruct (decide (es = [])) as [->|Hne].
  - inversion Hcar; subst. inversion Hf; subst. inversion Hds; subst. exists wB.
    split; [done|]. split; [|done]. split; [done|done|]. exists []. rewrite !app_nil_r. by split_and!.
  - destruct Hfl as [->|[a Ha]]; [done|]. destruct (Hrun a Hne Ha) as (wB' & Hr & Hrec & _).
    exists wB'. split; [done|]. split; [done|]. intros a' _ Ha'.
    destruct (Hrun a' Hne Ha') as (wB2 & Hr2 & _ & Hj).
    assert (wB2 = wB') as -> by congruence. done.
Qed.

End end_to_end.
