(* ===== verification/Replica.v ===== *)
(** * Replica: the two copies of a conversation converge

    What the clients write, forward, edit and delete in a conversation becomes operations on
    [Entries], which the frames carry to the other side.  The two clients act and the server
    delivers the frames of each direction in order, interleaved in any way: once those on
    their way have arrived, both sides have the same entries.  Both are in the session
    already; [FirstContact] has the first messages, which make it. *)

From S2P Require Import Prelude Json Message Conversation MessageStore Codec CryptoProxy.
From S2P Require Import CryptoProxyFacts Ratchet App Client ClientSafety ClientFacts ClientMessages EndToEnd.
From S2P Require Import Entries.
Local Open Scope Z_scope.

Section clients.
Context `{NlohmannJson} `{EvpCodec} `{Subprocess} `{Sqlite} `{Transport}.
Context `{!StorageCipher} `{!Ratchet}.
Context `{!NlohmannJsonLaws} `{!EvpCodecLaws} `{!StorageCipherLaws} `{!RatchetLaws}.
Context (up : transport → Prop).
Context (up_sends : ∀ t s, up t → ∃ t', tr_send_text s t = (Ret tt, t') ∧ up t').
Implicit Types w : World.
Local Abbreviation listening := (listening up).

(** The entries of the conversation with [k]. *)
Definition entries (k : string) w : list Entry := entry <$> chat k w.

(** A letter: a packet and what its content is. *)
Record Letter : Type := mkLetter {
  lt_packet : Packet;
  lt_type : MessageType;
  lt_target : string;
}.

Definition lt_op (l : Letter) : Op :=
  op_of (lt_type l) (pk_body (lt_packet l)) (lt_target l) (pk_wire (lt_packet l)) (pk_mid (lt_packet l)).

Definition lt_carries (l : Letter) (e : json * string) : Prop :=
  type_wf (lt_type l) ∧ carries_as (lt_type l) (lt_target l) (lt_packet l) e.

(** The end of the session with [k], whose other end has the ratchet state [rs]: [q] is on its
    way to it and [q'] is on its way here. *)
Definition talking w (k ad : string) (rs : json) (q q' : list (json * string)) : Prop :=
  ∃ a, hearing w k (Joined a) ad ∧ in_flight a q (Joined rs) ad ∧ in_flight rs q' (Joined a) ad.

Lemma talking_speaking w k ad rs q q' :
  talking w k ad rs q q' → speaking (conversations_ w) k q (Joined rs) ad.
Proof. intros (a & (conv & ? & ? & ? & ?) & ? & _). by exists conv, a. Qed.

Lemma talking_session w k ad rs q q' : talking w k ad rs q q' → has_session k w = true.
Proof. intros Hsp%talking_speaking. by eapply speaking_session. Qed.

(** The session is in the conversation, whatever its messages are. *)
Lemma hearing_conv w w' k rs ad conv conv' :
  conversations_ w !! k = Some conv → conversations_ w' !! k = Some conv' → same_session conv conv' →
  hearing w k (Joined rs) ad → hearing w' k (Joined rs) ad.
Proof.
  intros Hc Hc' (E1 & E2 & E3 & _) (c & Hc0 & F1 & F2 & F3). rewrite Hc in Hc0. injection Hc0 as <-.
  exists conv'. split; [done|]. by rewrite E1, E2, E3.
Qed.

Lemma talking_conv w w' k ad rs q q' conv conv' :
  conversations_ w !! k = Some conv → conversations_ w' !! k = Some conv' → same_session conv conv' →
  talking w k ad rs q q' → talking w' k ad rs q q'.
Proof. intros Hc Hc' Hs (a & Hh & Hq). exists a. split; [|done]. by eapply (hearing_conv w w'). Qed.

Lemma talking_same w w' k ad rs q q' :
  conversations_ w' = conversations_ w → talking w k ad rs q q' → talking w' k ad rs q q'.
Proof.
  intros E (a & (conv & Hc & Hconv) & Hq). exists a. split; [|done]. exists conv. by rewrite E.
Qed.

(** ** The listening side *)

Section listener.
Context `{!ClientEnv}.

(** What applying a content leaves: the client listens, in the same session. *)
Definition applied (k : string) (b : bool) (o : Op) w w' : Prop :=
  listening b w' ∧ sent_ w' = sent_ w ∧ current_user_ w' = current_user_ w ∧
  (∀ rs ad, hearing w k (Joined rs) ad → hearing w' k (Joined rs) ad) ∧
  entries k w' = apply_op k (entries k w) o.

Lemma listening_post b t w w' :
  listening b w → is_Some (store_ w') → connection_ w' = connection_ w → mutex_ w' = mutex_ w →
  crypto_ w' = crypto_ w → app_ w' = App.post t (app_ w) → listening b w'.
Proof.
  intros Hw E1 E2 E3 E4 E5. eapply listening_frame; [done|done|..|exact Hw].
  - rewrite E5. etrans; [apply post_screen|]. by destruct Hw.
  - rewrite E3. by destruct Hw.
  - by rewrite E4.
Qed.

(** A change of the messages with [k]. *)
Lemma applied_change k b g o conv w w' :
  conversations_ w' = alter g k (conversations_ w) → conversations_ w !! k = Some conv →
  (∀ c, same_session c (g c)) →
  entry <$> messages_ (g conv) = apply_op k (entry <$> messages_ conv) o → listening b w' →
  sent_ w' = sent_ w → current_user_ w' = current_user_ w → applied k b o w w'.
Proof.
  intros Hcs Hc Hg Ho Hw' Hs Hu. split; [done|]. split; [done|]. split; [done|]. split.
  - intros rs ad. eapply (hearing_conv w w' k rs ad conv (g conv)); [done| |done].
    by rewrite Hcs, lookup_alter_eq, Hc.
  - unfold entries, chat. rewrite Hcs, lookup_alter_eq, Hc. exact Ho.
Qed.

Lemma wp_apply_text k b ty body target wire mid w conv :
  listening b w → conversations_ w !! k = Some conv →
  op_of ty body target wire mid = Op_text ty body wire mid →
  wp (apply_content k (mkParsedContent ty body target) wire mid)
    (λ _, applied k b (Op_text ty body wire mid) w) (λ _ _, False) w.
Proof.
  intros Hw Hc Hty. destruct ty; try discriminate Hty; clear Hty;
    unfold apply_content; cbn [pc_type pc_body pc_target_mid].
  all: apply wp_bind, wp_gets, wp_bind; unfold wp at 1, now_ms.
  all: apply wp_bind; eapply wp_storage_works; [by destruct Hw|]; intros blob ch Hw2.
  all: apply wp_bind; eapply wp_save_listening; [exact Hw2|]; intros id s d Hw3.
  all: apply wp_bind, wp_modify, wp_bind, wp_modify, wp_modify.
  all: eapply applied_change; [reflexivity|exact Hc|done|cbn; by rewrite fmap_app| |done|done].
  all: by eapply listening_post; [exact Hw3|..]; destruct Hw3.
Qed.

(** Applying is the operation, for every type of content. *)
Lemma wp_apply_content k b c wire mid w conv :
  listening b w → conversations_ w !! k = Some conv →
  wp (apply_content k c wire mid)
    (λ _, applied k b (op_of (pc_type c) (pc_body c) (pc_target_mid c) wire mid) w)
    (λ _ _, False) w.
Proof.
  intros Hw Hc. destruct c as [ty body target]. cbn [pc_type pc_body pc_target_mid].
  destruct ty; try (eapply wp_apply_text; done);
    unfold apply_content; cbn [pc_type pc_body pc_target_mid].
  - apply wp_bind. eapply wp_storage_works; [exact Hw|]. intros blob ch Hw2.
    apply wp_bind. eapply wp_store_listening; [exact Hw2|]. intros s d Hw3.
    apply wp_bind, wp_modify, wp_modify.
    eapply applied_change; [reflexivity|exact Hc|done|by apply update_first_fmap| |done|done].
    by eapply listening_post; [exact Hw3|..]; destruct Hw3.
  - apply wp_bind. eapply wp_store_listening; [exact Hw|]. intros s d Hw3.
    apply wp_bind, wp_modify, wp_modify.
    eapply applied_change; [reflexivity|exact Hc|done|by apply update_first_fmap| |done|done].
    by eapply listening_post; [exact Hw3|..]; destruct Hw3.
Qed.

(** The next letter arrives. *)
Lemma wp_letter k recipient f d l e q q' rs ad a w :
  listening false w → hearing w k (Joined rs) ad → in_flight a (e :: q) (Joined rs) ad →
  in_flight rs q' (Joined a) ad → lt_carries l e → sent_as recipient f (lt_packet l) → relayed k f d →
  wp (handle_ws_frame d)
    (λ _ w', listening false w' ∧ current_user_ w' = current_user_ w ∧ sent_ w' = sent_ w ∧
       entries k w' = apply_op k (entries k w) (lt_op l) ∧
       ∃ rs', hearing w' k (Joined rs') ad ∧ in_flight a q (Joined rs') ad ∧ in_flight rs' q' (Joined a) ad)
    (λ _ _, False) w.
Proof.
  intros Hw Hh Hfl Hback [Hty Hcar] Hsent Hrel.
  eapply (wp_deliver_content up up_sends (lt_type l) (lt_target l) k recipient f d _ e q (Joined rs) ad a w);
    try done.
  intros w4 rs' Hw4 [= S1 S2 S3 S4] [Hfl4 Hb4] Hh4. pose proof Hh4 as (conv & Hc4 & _).
  eapply wp_mono; [exact (wp_apply_content k true _ _ _ w4 conv Hw4 Hc4)| |done].
  intros [] w5 (Hw5 & Hs5 & Hu5 & Hh5 & He5). split; [by destruct Hw5|]. split; [exact (eq_trans Hu5 S3)|].
  split; [exact (eq_trans Hs5 S4)|]. split.
  - change (entries k w5 = apply_op k (entries k w) (lt_op l)). rewrite He5. unfold entries. by rewrite S1.
  - exists rs'. split; [exact (Hh5 rs' ad Hh4)|]. split; [done|]. by apply Hb4.
Qed.
End listener.

(** ** The writing side *)

Section writer.
Context (up_connected : ∀ t, up t → tr_is_connected t = true).
Context `{!ClientEnv}.

Lemma listening_online b w : listening b w → is_online w = true.
Proof. intros [_ (t & HC & Hup) _ _ _]. unfold is_online. rewrite HC. by apply up_connected. Qed.

Lemma wp_get_peer {A} k ad rs q q' (f : Conversation → M World A) Q E w :
  talking w k ad rs q q' → (∀ conv, peer_ conv = k → wp (f conv) Q E w) → wp (get_conv k ≫= f) Q E w.
Proof.
  intros (_ & (conv & Hc & Hp & _) & _) Hf. apply wp_bind. unfold get_conv. apply wp_bind, wp_gets.
  cbn [id]. rewrite Hc. by apply wp_ret, Hf.
Qed.

(** In a session, with the key in memory, a content is encrypted. *)
Lemma wp_ratchet_works b k text ad rs q q' w :
  listening b w → talking w k ad rs q q' →
  wp (ratchet_encrypt k (Ok (b64_encode text)))
    (λ em w', listening b w' ∧ roundtrips em ∧ (∃ wire, json_dump (envelope em None) = Ok wire) ∧
       talking w' k ad rs (q ++ [(em, text)]) q' ∧
       sent_ w' = sent_ w ∧ chat k w' = chat k w ∧ current_user_ w' = current_user_ w)
    (λ _ _, False) w.
Proof.
  intros Hw (a & (conv & Hc & Hp & Had & Hrs) & Hfl & Hback). unfold ratchet_encrypt.
  destruct (ratchet_encrypts _ _ _ _ text (crypto_ w) Hfl) as (enc & ch & Henc & Hd).
  destruct (ratchet_sends _ _ _ _ _ _ _ _ Hfl Henc) as (a' & em & E1 & E2 & Hfl').
  pose proof (ratchet_sends_hears _ _ _ _ _ _ _ _ _ Hback Henc E1) as Hback'.
  destruct (abs_call_member _ _ _ _ _ _ _ Henc E1) as [Hra [st Hds]].
  destruct (abs_call_member _ _ _ _ _ _ _ Henc E2) as [Hrem [ems Hems]].
  apply wp_bind. unfold get_conv. apply wp_bind, wp_gets. cbn [id]. rewrite Hc. apply wp_ret.
  apply wp_bind, wp_lift. rewrite Hrs. apply wp_bind, wp_lift. apply wp_bind, wp_zoom. unfold wp at 1.
  rewrite Had. unfold encrypt_message in *. rewrite Henc.
  apply wp_bind, wp_lift. rewrite E1. apply wp_bind, wp_lift. rewrite Hds.
  apply wp_bind, wp_modify. set (w1 := set_conversations _ _).
  assert (listening b w1) as Hw1 by (eapply listening_frame; [..|exact Hw]; try done; by destruct Hw).
  assert (chat k w1 = chat k w) as Hch
    by exact (chat_alter k k (set_ratchet_state st) (set_crypto ch w) (λ _, eq_refl)).
  assert (talking w1 k ad rs (q ++ [(em, text)]) q') as Hsp.
  { exists a'. split; [|done]. exists (set_ratchet_state st conv). unfold w1. cbn.
    rewrite lookup_alter_eq, Hc. split_and!; try done. by apply Hra. }
  assert (sent_ w1 = sent_ w ∧ current_user_ w1 = current_user_ w) as [Hs1 Hu1] by done.
  clearbody w1. apply wp_bind. eapply wp_storage_works; [exact Hw1|]. intros blob ch2 Hw2.
  apply wp_bind. eapply wp_store_listening; [exact Hw2|]. intros s d Hw3.
  apply wp_lift. rewrite E2. split; [exact Hw3|]. split; [done|]. split.
  - apply dump_object_ok. intros k' v [[= -> ->]|[[= -> ->]|[]%elem_of_nil]%elem_of_cons]%elem_of_cons.
    + split; [by apply dump_ascii|by eexists].
    + split; [by apply dump_ascii|apply dump_null].
  - split; [by eapply talking_same|]. by split_and!.
Qed.

(** The frame leaves. *)
Lemma wp_frame_works b k em wire mid w :
  listening b w → roundtrips em → json_dump (envelope em None) = Ok wire → dumpable k → dumpable mid →
  wp (send_chat_frame k em None mid)
    (λ _ w', listening b w' ∧ conversations_ w' = conversations_ w ∧ current_user_ w' = current_user_ w ∧
       ∃ f, sent_ w' = sent_ w ++ [f] ∧ ∀ body, sent_as k f (mkPacket body em None wire mid))
    (λ _ _, False) w.
Proof.
  intros Hw Hem Hwire Hk Hmid. unfold send_chat_frame, send_json.
  apply wp_bind, wp_lift. rewrite Hwire. apply wp_bind, wp_lift.
  match goal with |- context [json_dump (json_of_object ?kvs)] =>
    assert (roundtrips (json_of_object kvs)) as Hrt by (apply frame_roundtrips; cbn;
      repeat (constructor; [by eexists|]); constructor);
    destruct (dump_object_ok kvs) as [f Hf] end.
  { intros k' v Hin.
    repeat (apply elem_of_cons in Hin as [[= -> ->]|Hin]; [split; [by apply dump_ascii|]|]);
      [by apply dump_ascii|exact Hk|by eapply dump_text|exact Hmid|by apply elem_of_nil in Hin]. }
  rewrite Hf. unfold send_text. destruct (li_up _ _ _ Hw) as (t & HC & Hup).
  destruct (up_sends t f Hup) as (t' & Hsend & Hup'). apply wp_bind.
  eapply wp_with_connection; [exact HC|]. unfold wp at 1. rewrite Hsend. apply wp_modify.
  split; [destruct Hw; split; try done; by exists t'|]. split; [done|]. split; [done|]. exists f.
  split; [done|]. intros body. split; [by apply Hrt|]. by apply envelope_roundtrips.
Qed.

Lemma wp_new_mid_works b k w (Q : string → World → Prop) :
  listening b w → dumpable (current_user_ w) → dumpable k →
  (∀ mid w', dumpable mid → stamped (current_user_ w) mid → listening b w' → seen w' = seen w → Q mid w') →
  wp (new_mid k) Q (λ _ _, False) w.
Proof.
  intros Hw Hu Hk HQ. unfold new_mid. apply wp_bind. unfold wp at 1, now_ms.
  apply wp_bind, wp_gets, wp_ret, HQ; [|by eexists|by destruct Hw|done].
  assert (∀ s, is_ascii s = true → dumpable s) as Ha by (intros; by apply dump_ascii).
  repeat apply dumpable_app; first [done|apply Ha; first [done|apply pretty_Z_ascii]].
Qed.

(** A letter has left for [k]; the conversation on this side is [es]. *)
Definition mailed (k : string) (b : bool) ad rs q q' w w' (l : Letter) (es : list Entry) : Prop :=
  listening b w' ∧ current_user_ w' = current_user_ w ∧ entries k w' = es ∧
  op_signed (current_user_ w) (lt_op l) ∧
  ∃ f e, sent_ w' = sent_ w ++ [f] ∧ sent_as k f (lt_packet l) ∧ lt_carries l e ∧
    talking w' k ad rs (q ++ [e]) q'.

(** The sent message is kept. *)
Lemma wp_record_works b (announce : option string) k pt ty wire mid ad rs q q' w :
  listening b w → talking w k ad rs q q' →
  wp (record_sent (match announce with Some l => epic_log l | None => mret tt end) k k pt ty wire mid)
    (λ _ w', listening b w' ∧ talking w' k ad rs q q' ∧ sent_ w' = sent_ w ∧
       current_user_ w' = current_user_ w ∧
       entries k w' = entries k w ++ [mkEntry mid (current_user_ w) ty pt false false wire])
    (λ _ _, False) w.
Proof.
  intros Hw Hsp. pose proof Hsp as (_ & (conv & Hc & _) & _). unfold record_sent.
  apply wp_bind, wp_gets, wp_bind. unfold wp at 1, now_ms.
  apply wp_bind. eapply wp_storage_works; [by destruct Hw|]. intros blob ch Hw2.
  apply wp_bind. eapply wp_save_listening; [exact Hw2|]. intros id st d Hw3.
  apply wp_bind, wp_modify. set (m := set_body _ _).
  assert (∀ w', conversations_ w' = alter (add_message m) k (conversations_ w) →
    talking w' k ad rs q q' ∧
    entries k w' = entries k w ++ [mkEntry mid (current_user_ w) ty pt false false wire]) as Hkept.
  { intros w' E. split.
    - apply (talking_conv w w' _ _ _ _ _ conv (add_message m conv)); [done| |done|done]. by rewrite E, lookup_alter_eq, Hc.
    - unfold entries, chat. rewrite E, lookup_alter_eq, Hc. cbn. by rewrite fmap_app. }
  apply wp_bind. destruct announce as [l|]; [apply wp_modify|apply wp_ret]; apply wp_modify.
  all: split; [by eapply listening_post; [exact Hw3|..]; destruct Hw3|].
  all: match goal with |- talking ?w' _ _ _ _ _ ∧ _ => destruct (Hkept w' eq_refl) as [K1 K2] end.
  all: split; [exact K1|]; split; [done|]; split; [done|exact K2].
Qed.

(** A text is written: both senders. *)
Lemma wp_text_works b line announce k pt ty ad rs q q' w :
  listening b w → talking w k ad rs q q' → type_wf ty →
  (∀ wire mid, op_of ty pt "" wire mid = Op_text ty pt wire mid) →
  dumpable pt → dumpable k → dumpable (current_user_ w) →
  wp (epic_log line ;;
      em ← ratchet_encrypt k (content_to_message pt ty "");
      wire ← lift (json_dump (envelope em None));
      mid ← new_mid k;
      send_chat_frame k em None mid ;;
      record_sent (match announce with Some l => epic_log l | None => mret tt end) k k pt ty wire mid)
    (λ _ w', ∃ l, mailed k b ad rs q q' w w' l (apply_op (current_user_ w) (entries k w) (lt_op l)))
    (λ _ _, False) w.
Proof.
  intros Hw Hsp Hty Hop Hpt Hk Hu. apply wp_bind, wp_modify.
  destruct (content_dumps pt ty "" Hpt ltac:(by apply dump_ascii)) as [text Htext].
  unfold content_to_message. rewrite Htext. cbn [mbind result_bind]. apply wp_bind.
  eapply wp_mono; [eapply (wp_ratchet_works b k text ad rs q q'); [by destruct Hw|exact Hsp]| |done].
  intros em w2 (Hw2 & Hem & [wire Hwire] & Hsp2 & S2 & C2 & U2).
  apply wp_bind, wp_lift. rewrite Hwire. apply wp_bind.
  apply (wp_new_mid_works b); [exact Hw2|by rewrite U2|done|]. intros mid w3 Hmid Hst Hw3 [= C3 S3 U3].
  apply wp_bind. eapply wp_mono; [by eapply (wp_frame_works b k em wire mid)| |done].
  intros [] w4 (Hw4 & C4 & U4 & f & S4 & Hf).
  eapply wp_mono; [apply (wp_record_works b announce k pt ty wire mid ad rs (q ++ [(em, text)]) q' w4 Hw4);
    eapply (talking_same w2); [congruence|exact Hsp2]| |done].
  intros [] w5 (Hw5 & Hsp5 & S5 & U5 & E5). exists (mkLetter (mkPacket pt em None wire mid) ty "").
  assert (current_user_ w4 = current_user_ w) as Hu4 by (rewrite U4, U3; exact U2).
  assert (entries k w4 = entries k w) as He4.
  { unfold entries. f_equal. transitivity (chat k w2); [|exact C2]. unfold chat. by rewrite C4, C3. }
  split; [done|]. split; [congruence|]. split; [unfold lt_op; cbn; by rewrite E5, Hop, He4, Hu4|].
  split; [unfold lt_op; cbn; rewrite Hop; rewrite U2 in Hst; exact Hst|].
  exists f, (em, text). split; [rewrite S5, S4, S3, S2; done|]. split; [apply Hf|]. by split.
Qed.

(** A control message: the conversation on this side stays. *)
Lemma wp_control_works b k pt ty target text ad rs q q' w :
  listening b w → talking w k ad rs q q' → type_wf ty →
  json_dump (json_of_object (content_members pt ty target)) = Ok text →
  dumpable k → dumpable (current_user_ w) →
  (∀ wire mid, op_signed (current_user_ w) (op_of ty pt target wire mid)) →
  wp (send_ratchet_control k (b64_encode text))
    (λ _ w', ∃ p, mailed k b ad rs q q' w w' (mkLetter p ty target) (entries k w) ∧ pk_body p = pt)
    (λ _ _, False) w.
Proof.
  intros Hw Hsp Hty Htext Hk Hu Hsig. unfold send_ratchet_control.
  eapply wp_get_peer; [exact Hsp|]. intros conv ->. apply wp_bind.
  eapply wp_mono; [by eapply (wp_ratchet_works b k text ad rs q q')| |done].
  intros em w2 (Hw2 & Hem & [wire Hwire] & Hsp2 & S2 & C2 & U2). apply wp_bind.
  apply (wp_new_mid_works b); [exact Hw2|by rewrite U2|done|]. intros mid w3 Hmid Hst Hw3 [= C3 S3 U3].
  eapply wp_mono; [by eapply (wp_frame_works b k em wire mid)| |done].
  intros [] w4 (Hw4 & C4 & U4 & f & S4 & Hf). exists (mkPacket pt em None wire mid). split; [|done].
  split; [done|]. split; [congruence|]. split.
  { unfold entries. f_equal. transitivity (chat k w2); [|exact C2]. unfold chat. by rewrite C4, C3. }
  split; [apply Hsig|]. exists f, (em, text). split; [congruence|]. split; [apply Hf|]. split; [done|].
  eapply (talking_same w2); [congruence|exact Hsp2].
Qed.

(** A change of the messages on this side, then its propagation. *)
Lemma wp_change_works (f : Db → Db) (g : Conversation → Conversation) t k mid pt ty ad rs q q' w :
  listening true w → talking w k ad rs q q' → type_wf ty →
  (∀ c, same_session c (g c)) →
  (∀ wire m, entry <$> default [] ((λ c, messages_ (g c)) <$> conversations_ w !! k) =
    apply_op (current_user_ w) (entries k w) (op_of ty pt mid wire m) ∧
    op_signed (current_user_ w) (op_of ty pt mid wire m)) →
  mid ≠ "" → k ≠ "" → dumpable pt → dumpable mid → dumpable k → dumpable (current_user_ w) →
  wp (store_exec f ;;
      modify (λ w, set_conversations (g <$> conversations_ w) w) ;;
      on_app (App.post t) ;;
      propagate mid k (content_to_message pt ty mid))
    (λ _ w', ∃ l, mailed k true ad rs q q' w w' l (apply_op (current_user_ w) (entries k w) (lt_op l)))
    (λ _ _, False) w.
Proof.
  intros Hw Hsp Hty Hg Hop Hmid Hk Hpt Hdm Hdk Hu.
  destruct (content_dumps pt ty mid Hpt Hdm) as [text Htext].
  apply wp_bind. eapply wp_store_listening; [exact Hw|]. intros s d Hw2.
  apply wp_bind, wp_modify, wp_bind, wp_modify. set (w1 := set_app _ _).
  assert (listening true w1) as Hw1 by (by eapply listening_post; [exact Hw2|..]; destruct Hw2).
  assert (talking w1 k ad rs q q') as Hsp1.
  { pose proof Hsp as (_ & (conv & Hc & _) & _).
    apply (talking_conv w w1 _ _ _ _ _ conv (g conv)); [done| |exact (Hg conv)|done].
    unfold w1. cbn. by rewrite lookup_fmap, Hc. }
  assert (entries k w1 = entry <$> default [] ((λ c, messages_ (g c)) <$> conversations_ w !! k)) as He1.
  { unfold entries, chat, w1. cbn. rewrite lookup_fmap. by destruct (conversations_ w !! k). }
  assert (sent_ w1 = sent_ w ∧ current_user_ w1 = current_user_ w) as [S1 U1] by done. clearbody w1.
  unfold propagate. apply str_empty_false in Hmid as ->. apply str_empty_false in Hk as ->. cbn [negb andb].
  apply wp_bind, wp_gets. rewrite (talking_session _ _ _ _ _ _ Hsp1). apply wp_when.
  unfold content_to_message. rewrite Htext. cbn [mbind result_bind]. apply wp_bind, wp_lift.
  eapply wp_mono; [eapply (wp_control_works true k pt ty mid text ad rs q q' w1); try done; rewrite U1;
    [done|]; apply Hop| |done].
  intros [] w2 (p & (Hl & Hu2 & He & Hsig & f' & e & Hs & Hrest) & Hb). exists (mkLetter p ty mid).
  split; [done|]. split; [congruence|]. split.
  { rewrite He, He1. unfold lt_op. cbn. rewrite Hb. apply Hop. }
  split; [by rewrite <-U1|]. exists f', e. split; [congruence|done].
Qed.

(** ** What the writer does *)

Inductive Action : Type :=
  | A_send (text : string)
  | A_forward (text : string)
  | A_edit (id : Z) (text : string)
  | A_delete (id : Z) (for_both_parties : bool).

Definition act (k : string) (a : Action) : M World unit :=
  match a with
  | A_send text => do_send k text
  | A_forward text => do_forward k text
  | A_edit id text => do_edit id text
  | A_delete id both => do_delete id both
  end.

(** [id] is the row of one message this side has written to [k], which both sides know under
    its message id.  The menu of the selection offers edits and deletions of such messages
    only. *)
Definition owned (k : string) (id : Z) w : Prop :=
  ∃ mid, find_owner id (conv_list w) "" = (mid, k) ∧ stamped (current_user_ w) mid ∧ dumpable mid ∧
    ∀ m, m ∈ chat k w → msg_id m = id ↔ msg_mid m = mid.

(** Texts are UTF-8, and the message to change is one of one's own. *)
Definition allowed (k : string) (a : Action) w : Prop :=
  match a with
  | A_send text | A_forward text => dumpable text
  | A_edit id text => dumpable text ∧ owned k id w
  | A_delete id _ => owned k id w
  end.

Lemma chat_update k id mid w (f : Message → Message) (f' : Entry → Entry) :
  (∀ m, m ∈ chat k w → msg_id m = id ↔ msg_mid m = mid) → (∀ m, entry (f m) = f' (entry m)) →
  entry <$> default [] ((λ c, update_first (has_id id) f (messages_ c)) <$> conversations_ w !! k)
  = update_first (named mid) f' (entries k w).
Proof.
  intros Hids Hf. unfold entries, chat in *. destruct (conversations_ w !! k) as [c|]; [|done]. cbn in *.
  apply update_first_fmap; [|done]. intros m Hm. apply bool_decide_ext. symmetry. by apply Hids.
Qed.

(** What an action of the writer amounts to: one operation and one letter. *)
Definition acted k ad rs q q' w w' : Prop :=
  ∃ l, mailed k false ad rs q q' w w' l (apply_op (current_user_ w) (entries k w) (lt_op l)).

Lemma acted_unlock k ad rs q q' w w1 w' :
  seen w1 = seen w →
  (∃ l, mailed k true ad rs q q' w1 w' l (apply_op (current_user_ w1) (entries k w1) (lt_op l))) →
  acted k ad rs q q' w (set_mutex false w').
Proof.
  intros [= C0 S0 U0] (l & H1' & H2' & H3' & H6' & f & e & H4' & H5').
  exists l. split; [by destruct H1'|]. split; [exact (eq_trans H2' U0)|]. split.
  - etrans; [exact H3'|]. rewrite U0. unfold entries, chat. by rewrite C0.
  - rewrite <-U0. split; [done|]. exists f, e. rewrite <-S0. by split.
Qed.

Lemma wp_do_send k text ad rs q q' w :
  listening false w → talking w k ad rs q q' → dumpable text →
  dumpable k → dumpable (current_user_ w) →
  wp (do_send k text) (λ _, acted k ad rs q q' w) (λ _ _, False) w.
Proof.
  intros Hw Hsp Ht Hk Hu. pose proof (listening_online _ _ Hw) as Hon.
  unfold do_send. apply wp_bind, wp_modify, wp_bind, wp_gets. change (is_online (set_trace _ _ _ w)) with (is_online w).
  rewrite Hon. cbn [negb]. apply wp_try, wp_with_lock; [by destruct Hw|]. apply wp_bind, wp_gets.
  change (has_session k (set_mutex _ _)) with (has_session k w). rewrite (talking_session _ _ _ _ _ _ Hsp).
  apply wp_bind, wp_modify. set (w1 := set_trace _ _ _ (set_mutex _ _)).
  assert (listening true w1 ∧ seen w1 = seen w) as [Hw1 Hs1] by (split; [by destruct Hw|done]).
  clearbody w1. pose proof Hs1 as [= C1 S1 U1]. unfold encrypt_and_send.
  assert (talking w1 k ad rs q q') as Hsp1 by by eapply (talking_same w).
  eapply wp_get_peer; [exact Hsp1|]. intros conv ->.
  eapply wp_mono; [apply (wp_text_works true _ (Some "encrypt_and_send: frame sent, pushing to UI")
    k text Standard ad rs q q' w1); try done; by rewrite U1| |done].
  intros [] w2 Hw2. by eapply acted_unlock.
Qed.

Lemma wp_do_forward k text ad rs q q' w :
  listening false w → talking w k ad rs q q' → dumpable text →
  dumpable k → dumpable (current_user_ w) →
  wp (do_forward k text) (λ _, acted k ad rs q q' w) (λ _ _, False) w.
Proof.
  intros Hw Hsp Ht Hk Hu. pose proof (listening_online _ _ Hw) as Hon.
  unfold do_forward. apply wp_bind, wp_gets.
  rewrite Hon. cbn [negb]. apply wp_try, wp_with_lock; [by destruct Hw|]. apply wp_bind, wp_gets.
  change (has_session k (set_mutex _ _)) with (has_session k w). rewrite (talking_session _ _ _ _ _ _ Hsp).
  set (w1 := set_mutex _ _).
  assert (listening true w1 ∧ seen w1 = seen w) as [Hw1 Hs1] by (split; [by destruct Hw|done]).
  clearbody w1. pose proof Hs1 as [= C1 S1 U1]. unfold encrypt_and_send_typed.
  assert (talking w1 k ad rs q q') as Hsp1 by by eapply (talking_same w).
  eapply wp_get_peer; [exact Hsp1|]. intros conv ->.
  eapply wp_mono; [apply (wp_text_works true _ None
    k text Forward ad rs q q' w1); try done; by rewrite U1| |done].
  intros [] w2 Hw2. by eapply acted_unlock.
Qed.

Lemma wp_do_edit k id text ad rs q q' w :
  listening false w → talking w k ad rs q q' → dumpable text → owned k id w →
  k ≠ "" → dumpable k → dumpable (current_user_ w) →
  wp (do_edit id text) (λ _, acted k ad rs q q' w) (λ _ _, False) w.
Proof.
  intros Hw Hsp Ht (mid & Ho & Hst & Hdm & Hids) Hk Hdk Hu. unfold do_edit. apply wp_bind, wp_gets.
  destruct (li_store _ _ _ Hw) as [st ->]. apply wp_with_lock; [by destruct Hw|]. apply wp_bind, wp_gets.
  change (conv_list (set_mutex true w)) with (conv_list w). rewrite Ho. apply wp_bind.
  eapply (wp_storage_works up _ _ _ _ true); [by destruct Hw|]. intros blob ch Hw1.
  assert (seen (set_crypto ch (set_mutex true w)) = seen w) as Hs1 by done.
  generalize dependent (set_crypto ch (set_mutex true w)). intros w1 Hw1 Hs1. pose proof Hs1 as [= C1 S1 U1].
  eapply wp_mono; [apply (wp_change_works _ _ (T_update_body id text) k mid text Edit ad rs q q' w1); try done|..|done].
  - by eapply (talking_same w).
  - intros wire m'. cbn [op_of apply_op op_signed]. split; [|by rewrite U1].
    apply (chat_update k id mid w1); [|done]. intros m. unfold chat. rewrite C1. apply Hids.
  - by eapply stamped_nonempty.
  - by rewrite U1.
  - intros [] w2 Hw2. by eapply acted_unlock.
Qed.

Lemma wp_do_delete k id both ad rs q q' w :
  listening false w → talking w k ad rs q q' → owned k id w →
  k ≠ "" → dumpable k → dumpable (current_user_ w) →
  wp (do_delete id both) (λ _, acted k ad rs q q' w) (λ _ _, False) w.
Proof.
  intros Hw Hsp (mid & Ho & Hst & Hdm & Hids) Hk Hdk Hu. unfold do_delete. apply wp_bind, wp_gets.
  destruct (li_store _ _ _ Hw) as [st ->]. apply wp_with_lock; [by destruct Hw|]. apply wp_bind, wp_gets.
  change (conv_list (set_mutex true w)) with (conv_list w). rewrite Ho.
  set (w1 := set_mutex _ _). assert (listening true w1 ∧ seen w1 = seen w) as [Hw1 Hs1]
    by (split; [by destruct Hw|done]).
  clearbody w1. pose proof Hs1 as [= C1 S1 U1].
  eapply wp_mono; [apply (wp_change_works _ _ (T_mark_deleted id) k mid "" Delete ad rs q q' w1); try done|..|done].
  - by eapply (talking_same w).
  - intros wire m'. cbn [op_of apply_op op_signed]. split; [|by rewrite U1].
    apply (chat_update k id mid w1); [|done]. intros m. unfold chat. rewrite C1. apply Hids.
  - by eapply stamped_nonempty.
  - by apply dump_ascii.
  - by rewrite U1.
  - intros [] w2 Hw2. by eapply acted_unlock.
Qed.

(** Everything the writer does in the conversation is one operation and one letter. *)
Lemma wp_act k a ad rs q q' w :
  listening false w → talking w k ad rs q q' → allowed k a w →
  k ≠ "" → dumpable k → dumpable (current_user_ w) →
  wp (act k a) (λ _, acted k ad rs q q' w) (λ _ _, False) w.
Proof.
  intros Hw Hsp Ha Hk Hdk Hu. destruct a as [text|text|id text|id both]; cbn [act allowed] in *.
  - by apply wp_do_send.
  - by apply wp_do_forward.
  - destruct Ha. by apply wp_do_edit.
  - by apply wp_do_delete.
Qed.
End writer.

(** ** The two clients and the server between them *)

(** The two clients, and what is on its way from the left one and from the right one. *)
Record Net : Type := mkNet {
  n_left : World;
  n_right : World;
  n_ltr : list string;
  n_rtl : list string;
}.

Definition flip_net (n : Net) : Net := mkNet (n_right n) (n_left n) (n_rtl n) (n_ltr n).

(** What a client has handed to the server meanwhile. *)
Definition handed_over w w' : list string := drop (length (sent_ w)) (sent_ w').

(** The left client acts, or the server delivers the oldest frame to it. *)
Inductive left_step (E : ClientEnv) (peer : string) : Net → Net → Prop :=
  | step_act a w wr fs gs o w' :
      allowed peer a w → act (H10 := E) peer a w = (o, w') →
      left_step E peer (mkNet w wr fs gs) (mkNet w' wr (fs ++ handed_over w w') gs)
  | step_hear w wr fs g gs d o w' :
      relayed peer g d → handle_ws_frame (H4 := E) d w = (o, w') →
      left_step E peer (mkNet w wr fs (g :: gs)) (mkNet w' wr (fs ++ handed_over w w') gs).

Definition net_step (EA EB : ClientEnv) (alice bob : string) (n n' : Net) : Prop :=
  left_step EA bob n n' ∨ left_step EB alice (flip_net n) (flip_net n').

(** One direction: the frames [fs] of [me], whose ratchet state is [a], to [peer] with [b].  The
    entries of [me] are [es] at this end and [es'] at the other, once the frames have
    arrived. *)
Definition pending (me peer ad : string) (a b : json) (fs : list string) (es es' : list Entry) : Prop :=
  ∃ ls q, Forall2 (λ f l, sent_as peer f (lt_packet l)) fs ls ∧ Forall2 lt_carries ls q ∧
    in_flight a q (Joined b) ad ∧ Forall (λ l, op_signed me (lt_op l)) ls ∧
    own me es = foldl (apply_op me) (own me es') (lt_op <$> ls).

(** A client at its end of the session, with the conversation in it. *)
Record seated (me peer ad : string) (a : json) w : Prop := {
  st_listening : listening false w;
  st_user : current_user_ w = me;
  st_session : hearing w peer (Joined a) ad;
  st_signed : Forall (signed me peer) (entries peer w);
}.

Definition duplex (alice bob : string) (n : Net) : Prop :=
  ∃ ad a b, seated alice bob ad a (n_left n) ∧ seated bob alice ad b (n_right n) ∧
    pending alice bob ad a b (n_ltr n) (entries bob (n_left n)) (entries alice (n_right n)) ∧
    pending bob alice ad b a (n_rtl n) (entries alice (n_right n)) (entries bob (n_left n)).

Lemma duplex_flip alice bob n : duplex alice bob n → duplex bob alice (flip_net n).
Proof. intros (ad & a & b & H1' & H2' & H3' & H4'). by exists ad, b, a. Qed.

(** Two people whose names keep their message ids apart. *)
Record correspondents (alice bob : string) : Prop := {
  co_distinct : alice ≠ bob;
  co_left : alice ≠ "" ∧ colon_free alice ∧ dumpable alice;
  co_right : bob ≠ "" ∧ colon_free bob ∧ dumpable bob;
}.

Lemma correspondents_flip alice bob : correspondents alice bob → correspondents bob alice.
Proof. intros [? ? ?]. by split. Qed.

Section net.
Context (up_connected : ∀ t, up t → tr_is_connected t = true).
Context (E : ClientEnv).

(** An action of the left client. *)
Lemma duplex_act me peer a n :
  correspondents me peer → duplex me peer n → allowed peer a (n_left n) →
  ∃ w' f, act (H10 := E) peer a (n_left n) = (Ret tt, w') ∧ sent_ w' = sent_ (n_left n) ++ [f] ∧
    duplex me peer (mkNet w' (n_right n) (n_ltr n ++ [f]) (n_rtl n)).
Proof.
  intros [Hne (_ & Hc1 & Hd1) (Hn2 & Hc2 & Hd2)] (ad & x & y & [L1 U1 S1 G1] & Hright & Hout & Hin) Ha.
  destruct Hout as (ls & q & Hf & Hc & Hfl & Hsig & He), Hin as (ls' & q' & Hf' & Hc' & Hfl' & Hsig' & He').
  destruct (wp_returns _ _ _ (wp_act (H10 := E) up_connected peer a ad y q q' (n_left n)
    L1 ltac:(by exists x) Ha Hn2 Hd2 ltac:(by rewrite U1)))
    as ([] & w' & Hrun & l & Lw & Uw & Ew & Gw & f & e & Hs & Hsent & Hcar & x' & Sw & Hfl2 & Hback).
  rewrite U1 in Ew, Gw. exists w', f. split; [done|]. split; [done|].
  destruct (own_apply me peer Hc1 Hc2 me (entries peer (n_left n)) (lt_op l) ltac:(by left) G1 Gw) as [O1 O2].
  exists ad, x', y. split_and!; cbn [n_left n_right n_ltr n_rtl].
  - split; [done|congruence|done|]. rewrite Ew. by apply signed_apply; [left|..].
  - done.
  - exists (ls ++ [l]), (q ++ [e]). rewrite fmap_app, foldl_app, <-He, Ew, O1.
    split_and!; try done; apply Forall2_app || apply Forall_app; auto.
  - exists ls', q'. by rewrite Ew, (O2 peer ltac:(done)).
Qed.

(** A delivery to the left client; nothing is answered. *)
Lemma duplex_hear me peer n g gs d :
  correspondents me peer → duplex me peer n → n_rtl n = g :: gs → relayed peer g d →
  ∃ w', handle_ws_frame (H4 := E) d (n_left n) = (Ret tt, w') ∧ sent_ w' = sent_ (n_left n) ∧
    duplex me peer (mkNet w' (n_right n) (n_ltr n) gs).
Proof.
  intros [Hne (_ & Hc1 & Hd1) (Hn2 & Hc2 & Hd2)] (ad & x & y & [L1 U1 S1 G1] & Hright & Hout & Hin) Hg Hd.
  destruct Hout as (ls & q & Hf & Hc & Hfl & Hsig & He), Hin as (ls' & q' & Hf' & Hc' & Hfl' & Hsig' & He').
  rewrite Hg in Hf'. apply Forall2_cons_inv_l in Hf' as (l & ls2 & Hl & Hf2 & ->).
  apply Forall2_cons_inv_l in Hc' as (e & q2 & Hle & Hc2' & ->). apply Forall_cons in Hsig' as [Gl Hsig2].
  destruct (wp_returns _ _ _ (wp_letter (H10 := E) peer me g d l e q2 q x ad y (n_left n)
    L1 S1 Hfl' Hfl Hle Hl Hd)) as ([] & w' & Hrun & Lw & Uw & Sw & Ew & x' & Hh' & Hfl2 & Hback).
  exists w'. split; [done|]. split; [done|].
  destruct (own_apply me peer Hc1 Hc2 peer (entries peer (n_left n)) (lt_op l) ltac:(by right) G1 Gl) as [O1 O2].
  exists ad, x', y. split_and!; cbn [n_left n_right n_ltr n_rtl].
  - split; [done|congruence|done|]. rewrite Ew. by apply signed_apply; [right|..].
  - done.
  - exists ls, q. by rewrite Ew, (O2 me ltac:(done)).
  - exists ls2, q2. by rewrite Ew, O1.
Qed.

Lemma duplex_left_step me peer n n' :
  correspondents me peer → duplex me peer n → left_step E peer n n' → duplex me peer n'.
Proof.
  intros Hco Hn Hstep. destruct Hstep as [a w wr fs gs o w' Ha Hrun|w wr fs g gs d o w' Hd Hrun].
  - destruct (duplex_act me peer a _ Hco Hn Ha) as (w2 & f & Hr & Hs & Hn'). cbn in Hr, Hs, Hn'.
    rewrite Hrun in Hr. injection Hr as _ <-. unfold handed_over. by rewrite Hs, drop_app_length.
  - destruct (duplex_hear me peer _ g gs d Hco Hn eq_refl Hd) as (w2 & Hr & Hs & Hn'). cbn in Hr, Hs, Hn'.
    rewrite Hrun in Hr. injection Hr as _ <-. unfold handed_over. by rewrite Hs, drop_all, app_nil_r.
Qed.

(** The frames on their way to the left client arrive. *)
Lemma duplex_catches_up me peer ds w wr fs gs :
  correspondents me peer → duplex me peer (mkNet w wr fs gs) → Forall2 (relayed peer) gs ds →
  ∃ w', for_each ds (handle_ws_frame (H4 := E)) w = (Ret tt, w') ∧ duplex me peer (mkNet w' wr fs []).
Proof.
  intros Hco Hn Hds. revert w Hn. induction Hds as [|g d gs ds Hd Hds IH]; intros w Hn.
  - by exists w.
  - destruct (duplex_hear me peer _ g gs d Hco Hn eq_refl Hd) as (w1 & Hr & _ & Hn1). cbn in Hr, Hn1.
    destruct (IH w1 Hn1) as (w2 & Hr2 & Hn2). exists w2. split; [|done].
    cbn [for_each]. unfold mbind, M_bind. by rewrite Hr.
Qed.
End net.

(** [alice]'s client [wA] and [bob]'s client [wB] hold the two ends of a session with nothing
    on its way, and the same entries of either, in the same order. *)
Definition synced (alice bob : string) (wA wB : World) : Prop :=
  ∃ ad a b, seated alice bob ad a wA ∧ seated bob alice ad b wB ∧
    in_flight a [] (Joined b) ad ∧ in_flight b [] (Joined a) ad ∧
    own alice (entries bob wA) = own alice (entries alice wB) ∧
    own bob (entries bob wA) = own bob (entries alice wB).

Lemma synced_duplex alice bob wA wB : synced alice bob wA wB → duplex alice bob (mkNet wA wB [] []).
Proof.
  intros (ad & a & b & HA & HB & Hab & Hba & E1 & E2). exists ad, a, b.
  split; [done|]. split; [done|]. by split; exists [], [].
Qed.

(** With nothing on its way both have the same entries. *)
Lemma duplex_quiet alice bob wl wr :
  correspondents alice bob → duplex alice bob (mkNet wl wr [] []) →
  synced alice bob wl wr ∧ entries bob wl ≡ₚ entries alice wr.
Proof.
  intros [Hne _ _] (ad & a & b & HA & HB & Hout & Hin). cbn [n_left n_right n_ltr n_rtl] in *.
  destruct Hout as (ls & q & ->%Forall2_nil_inv_l & ->%Forall2_nil_inv_l & Hab & _ & E1).
  destruct Hin as (ls & q' & ->%Forall2_nil_inv_l & ->%Forall2_nil_inv_l & Hba & _ & E2). cbn in E1, E2.
  split; [by exists ad, a, b|]. destruct HA as [_ _ _ G1], HB as [_ _ _ G2].
  rewrite <-(own_split alice bob Hne _ G1), <-(own_split bob alice (not_eq_sym Hne) _ G2), E1, E2.
  apply Permutation_app_comm.
Qed.

Section converge.
Context (EA EB : ClientEnv).
Context (up_connected : ∀ t, up t → tr_is_connected t = true).

Lemma duplex_reachable alice bob wA wB n :
  correspondents alice bob → synced alice bob wA wB →
  rtc (net_step EA EB alice bob) (mkNet wA wB [] []) n → duplex alice bob n.
Proof.
  intros Hco Hsy. apply (rtc_ind_r (duplex alice bob)); [by apply synced_duplex|].
  intros n1 n2 _ [Hs|Hs] Hn; [exact (duplex_left_step up_connected EA _ _ _ _ Hco Hn Hs)|].
  destruct n2. exact (duplex_flip _ _ _ (duplex_left_step up_connected EB _ _ _ _
    (correspondents_flip _ _ Hco) (duplex_flip _ _ _ Hn) Hs)).
Qed.

(** C3: The two copies of a conversation converge.  From a session in which both sides have
    the same messages, both clients write, forward, edit and delete what is their own,
    at any time and at once, while the server delivers what has left so far, interleaved in
    any way.  Every action completes and hands exactly one frame to the server; and at any
    time, once the frames on their way in both directions have arrived, both clients have
    the same entries, those of either person in the same order: message ids, senders,
    types, bodies, ciphertexts, marks of edits and deletions. *)
Theorem replicas_converge alice bob wA wB n :
  correspondents alice bob → synced alice bob wA wB →
  rtc (net_step EA EB alice bob) (mkNet wA wB [] []) n →
  (∀ a, allowed bob a (n_left n) → ∃ w' f, act (H10 := EA) bob a (n_left n) = (Ret tt, w') ∧
     sent_ w' = sent_ (n_left n) ++ [f]) ∧
  (∀ a, allowed alice a (n_right n) → ∃ w' f, act (H10 := EB) alice a (n_right n) = (Ret tt, w') ∧
     sent_ w' = sent_ (n_right n) ++ [f]) ∧
  (∀ dl dr, Forall2 (relayed bob) (n_rtl n) dl → Forall2 (relayed alice) (n_ltr n) dr →
     ∃ wA' wB', for_each dl (handle_ws_frame (H4 := EA)) (n_left n) = (Ret tt, wA') ∧
       for_each dr (handle_ws_frame (H4 := EB)) (n_right n) = (Ret tt, wB') ∧
       synced alice bob wA' wB' ∧ entries bob wA' ≡ₚ entries alice wB').
Proof.
  intros Hco Hsy Hsteps. pose proof (duplex_reachable _ _ _ _ _ Hco Hsy Hsteps) as Hn.
  pose proof (correspondents_flip _ _ Hco) as Hco'. pose proof (duplex_flip _ _ _ Hn) as Hn'.
  split_and!.
  - intros a Ha. destruct (duplex_act up_connected EA alice bob a n Hco Hn Ha) as (w' & f & Hr & Hs & _). eauto.
  - intros a Ha. destruct (duplex_act up_connected EB bob alice a _ Hco' Hn' Ha) as (w' & f & Hr & Hs & _). eauto.
  - intros dl dr Hdl Hdr. destruct n as [wl wr fs gs]. cbn [n_left n_right n_ltr n_rtl flip_net] in *.
    destruct (duplex_catches_up EA alice bob dl wl wr fs gs Hco Hn Hdl) as (wA' & HrA & HnA).
    destruct (duplex_catches_up EB bob alice dr wr wA' [] fs Hco' (duplex_flip _ _ _ HnA) Hdr) as (wB' & HrB & HnB).
    exists wA', wB'. split; [done|]. split; [done|]. apply duplex_flip in HnB.
    by apply duplex_quiet.
Qed.
End converge.
End clients.
