(* ===== verification/FirstContact.v ===== *)
(** * FirstContact: the first messages make the session

    From texts that wait for the keys of a peer to the state from which [Replica] goes on: the
    packets leave, the other client makes the session from the first of them, and both have
    the same conversation. *)

From S2P Require Import Prelude Json Message Conversation MessageStore Codec CryptoProxy.
From S2P Require Import CryptoProxyFacts Ratchet App Client ClientSafety ClientFacts ClientMessages EndToEnd.
From S2P Require Import Entries Replica.
Local Open Scope Z_scope.

(** The two messages kept of a packet are the same entry. *)
Lemma authored_entries `{NlohmannJson} author peer ps ms ms' :
  Forall2 (authored author) ps ms → Forall2 kept_as ps ms' → Forall (λ m, msg_sender m = author) ms' →
  entry <$> ms = entry <$> ms' ∧ Forall (signed author peer) (entry <$> ms) ∧
  Forall (signed peer author) (entry <$> ms).
Proof.
  intros Hms. revert ms'. induction Hms as [|p m ps ms Hm Hms IH]; intros ms' Hms' Hs.
  { apply Forall2_nil_inv_l in Hms' as ->. done. }
  apply Forall2_cons_inv_l in Hms' as (m' & ms2 & Hm' & Hms2 & ->). apply Forall_cons in Hs as [Hs1 Hs2].
  destruct (IH ms2 Hms2 Hs2) as (E & G1 & G2). destruct Hm as ((K1 & K2 & K3 & K4 & K5 & K6) & Hu & Hst).
  destruct Hm' as (L1 & L2 & L3 & L4 & L5 & L6).
  assert (stamped (msg_sender m) (msg_mid m)) as Hsg by congruence.
  cbn. split; [|split; (constructor; [|done])].
  - f_equal; [|exact E]. unfold entry. congruence.
  - split; [by left|exact Hsg].
  - split; [by right|exact Hsg].
Qed.

Section first_contact.
Context `{NlohmannJson} `{EvpCodec} `{Subprocess} `{Sqlite} `{Transport}.
Context `{!StorageCipher} `{!Ratchet}.
Context `{!NlohmannJsonLaws} `{!EvpCodecLaws} `{!StorageCipherLaws} `{!RatchetLaws} `{!TransportLaws}.
Context (EA EB : ClientEnv).
Context (up : transport → Prop).
Context (up_sends : ∀ t s, up t → ∃ t', tr_send_text s t = (Ret tt, t') ∧ up t').

(** Both conversations hold the first packets and nothing else. *)
Lemma synced_start alice bob ad a rs ps ms (wA wB wB' : World) :
  listening up false wA → current_user_ wA = alice → hearing wA bob (Joined a) ad →
  chat bob wA = ms → Forall2 (authored alice) ps ms →
  received_all up alice ps wB wB' → current_user_ wB = bob → chat alice wB = [] →
  hearing wB' alice (Joined rs) ad → in_flight a [] (Joined rs) ad → in_flight rs [] (Joined a) ad →
  synced up alice bob wA wB'.
Proof.
  intros LA UA HA CA Hms [LB UB' (ms' & CB & _ & Hk & Hs)] UB HB0 HB Hab Hba. rewrite HB0 in CB. cbn in CB.
  destruct (authored_entries alice bob ps ms ms' Hms Hk Hs) as (E & G1 & G2).
  assert (entries bob wA = entry <$> ms) as EA' by (unfold entries; by rewrite CA).
  assert (entries alice wB' = entry <$> ms) as EB' by (unfold entries; by rewrite CB, E).
  exists ad, a, rs. rewrite EA', EB'. split_and!; try done.
  - split; [done|done|done|by rewrite EA'].
  - split; [done|congruence|done|by rewrite EB'].
Qed.

(** C2: The texts queued for a peer until its keys arrive reach the peer, which makes the
    session from the first of them.  When the keys arrive, the packets [ps] leave: they
    carry the queued texts in order, all of them unless the user is told that it
    failed.  The other client, given what the server makes of the frames, shows
    exactly the texts of the packets, in order, each with its message id and
    ciphertext; when all went through the two are in session, and if these are the first
    messages of the conversation both have the same entries, from where they go on. *)
Theorem first_texts_delivered alice bob frame ik otpks bundle texts wA wB :
  live [] false wA → json_value_string frame "username" "" = Ok bob →
  pending_sends_ wA !! bob = Some texts → has_session bob wA = false →
  (∀ c, conversations_ wA !! bob = Some c → peer_ c = bob) →
  json_value_string frame "identity_key" "" = Ok ik → bundle_otpks frame = Ok otpks →
  bob_bundle ik frame otpks = Ok bundle → published (encrypted_state_ wB) bundle →
  listening up false wB → conversations_ wB !! alice = None →
  ∃ wA', on_key_bundle_response (H4 := EA) frame wA = (Ret tt, wA') ∧
  ∃ (sent : bool) ps fs, sent_ wA' = sent_ wA ++ fs ∧ length fs = length ps ∧
    (if sent then pk_body <$> ps = texts ∧
       ∃ ms, chat bob wA' = chat bob wA ++ ms ∧ Forall2 kept_as ps ms
     else ∃ n e a, pk_body <$> ps = take n texts ∧ app_ wA' = push_status
       ("Failed to start session with '" +:+ bob +:+ "': " +:+ e) a) ∧
    ∀ ds, Forall2 (relayed alice) fs ds →
      ∃ wB', for_each ds (handle_ws_frame (H4 := EB)) wB = (Ret tt, wB') ∧
        received_all up alice ps wB wB' ∧
        (sent = true → texts ≠ [] → in_session alice bob wA' wB' ∧
          (current_user_ wA = alice → current_user_ wB = bob → chat bob wA = [] →
           listening up false wA' → synced up alice bob wA' wB')).
Proof.
  intros Hw Hbob Hpend Hno Hpeer Hik Hot Hbb Hpub HwB Hnone.
  assert (∀ h ad, hearing wB alice (Invited (encrypted_state_ wB) h) ad) as Hh
    by (intros h ad; split; [done|]; congruence).
  eapply (λ Hwp, wp_returns_ret (on_key_bundle_response (H4 := EA) frame) _ wA Hwp).
  unfold on_key_bundle_response. apply wp_bind, wp_lift. rewrite Hbob. apply wp_bind, wp_modify.
  apply wp_with_lock; [by destruct Hw|]. set (w1 := set_mutex true _).
  apply wp_bind, wp_gets. change (pending_sends_ w1) with (pending_sends_ wA). rewrite Hpend.
  apply wp_bind, wp_modify. set (w2 := set_pending_sends _ _).
  assert (live [] true w2 ∧ conversations_ w2 = conversations_ wA ∧ sent_ w2 = sent_ wA) as (Hw2 & Ec & Es)
    by (split; [by destruct Hw|done]).
  assert (chat bob w2 = chat bob wA ∧ has_session bob w2 = false ∧ current_user_ w2 = current_user_ wA)
    as (Ech & Ens & Eu) by done.
  clearbody w2. clear w1. apply wp_try. rewrite <-Ec in Hpeer.
  eapply wp_mono; [exact (wp_send_invited (H4 := EA) [] true bob frame ik otpks bundle _ texts w2
    Hpeer Ens Hik Hot Hbb Hpub Hw2)|..].
  - intros [] w3 (Hw3 & h & ad & ps & es & ms & Hhand & Hb & Hsp & Hu & Hc & Hk).
    destruct (handed_delivers EB up up_sends alice bob _ ad w2 w3 wB ps es Hhand HwB (Hh h ad)) as (fs & Hs & Hlen & Hdel).
    exists true, ps, fs. split; [change (sent_ w3 = sent_ wA ++ fs); congruence|]. split; [done|].
    rewrite Eu in Hk, Hu.
    assert (chat bob (set_mutex false w3) = chat bob wA ++ ms) as Hchat
      by (change (chat bob w3 = chat bob wA ++ ms); congruence).
    split; [split; [done|]; exists ms; split; [done|]; eapply Forall2_impl; [exact Hk|by intros ? ? []]|].
    intros ds Hds. destruct (Hdel ds Hds) as (wB' & Hr & Hrec & Hj). exists wB'. split; [done|].
    split; [done|]. intros _ Hne. destruct (Hsp Hne) as (conv & a & E1 & E2 & E3 & E4 & Hfl).
    assert (es ≠ []) as Hes.
    { intros ->. destruct Hhand as (? & _ & _ & Hcar & _). inversion Hcar; subst. done. }
    destruct (Hj a Hes Hfl) as (rs & [Hfl' Hback] & Hh').
    split; [exists rs, ad; split; [|done]; by exists conv, a|]. intros UA UB HcA HlA.
    rewrite UA in Hk. rewrite HcA in Hchat. eapply (synced_start alice bob ad a rs ps ms); try done.
    + exact (eq_trans Hu UA).
    + by exists conv.
    + unfold chat. by rewrite Hnone.
    + by apply Hback.
  - intros e w3 (Hw3 & h & ad & n & ps & es & Hhand & Hb). apply wp_bind, wp_modify, wp_modify.
    destruct (handed_delivers EB up up_sends alice bob _ ad w2 w3 wB ps es Hhand HwB (Hh h ad)) as (fs & Hs & Hlen & Hdel).
    exists false, ps, fs. split; [change (sent_ w3 = sent_ wA ++ fs); congruence|]. split; [done|].
    split; [by exists n, e; eexists|]. intros ds Hds.
    destruct (Hdel ds Hds) as (wB' & Hr & Hrec & _). exists wB'. by split_and!.
Qed.
End first_contact.
