(* ===== verification/ClientFrames.v ===== *)
(** * ClientFrames: what the client says to the server

    Every text the client hands to the connection is the serialisation of one of the four
    frames the server's schemas know ([server/backend/schemas/ws.py] and the login frame),
    with its members in place; a chat message carries an id of the form
    sender:recipient:milliseconds whose recipient is the frame's. *)

From S2P Require Import Prelude Json Message Conversation MessageStore Codec CryptoProxy CryptoProxyFacts.
From S2P Require Import App Client ClientSafety ClientFacts.
Local Open Scope Z_scope.

Section frames.
Context `{NlohmannJson} `{EvpCodec} `{Subprocess} `{Sqlite} `{Transport} `{ClientEnv}.
Implicit Types w : World.

(** The frames of the protocol, client to server. *)
Inductive client_frame : Type :=
  | F_login (username password : string)
  | F_send_message (user recipient ciphertext : string) (ms : Z)
  | F_request_key_bundle (target_username : string)
  | F_publish_key_bundle (identity_key signed_pre_key signed_pre_key_sig one_time_pre_keys : json).

Definition mid_text (user recipient : string) (ms : Z) : string :=
  user +:+ ":" +:+ recipient +:+ ":" +:+ pretty ms.

Definition frame_json (f : client_frame) : json :=
  json_of_object
    match f with
    | F_login u p => [("username", json_of_string u); ("password", json_of_string p)]
    | F_send_message u r ct ms =>
      [("type", json_of_string "send_message"); ("recipient", json_of_string r);
       ("ciphertext", json_of_string ct); ("mid", json_of_string (mid_text u r ms))]
    | F_request_key_bundle t =>
      [("type", json_of_string "request_key_bundle"); ("target_username", json_of_string t)]
    | F_publish_key_bundle ik spk sig otpks =>
      [("type", json_of_string "publish_key_bundle"); ("identity_key", ik);
       ("signed_pre_key", spk); ("signed_pre_key_sig", sig); ("one_time_pre_keys", otpks)]
    end.

(** A key bundle without one-time keys is not sent; the ciphertext is an envelope. *)
Definition frame_wf (f : client_frame) : Prop :=
  match f with
  | F_send_message _ _ ct _ => ∃ dr x3dh, json_dump (envelope dr x3dh) = Ok ct
  | F_publish_key_bundle _ _ _ otpks => json_empty otpks = false
  | _ => True
  end.

Definition well_typed (text : string) : Prop :=
  ∃ f, frame_wf f ∧ json_dump (frame_json f) = Ok text.

End frames.

(** ** What a handler does to the connection

    A relation between worlds that sending a well-typed frame respects, and that does not
    look beyond the connection and the frames sent, is respected by every handler
    of the read thread and by what the user does in a session. *)
Section talk.
Context `{NlohmannJson} `{EvpCodec} `{Subprocess} `{Sqlite} `{Transport} `{ClientEnv}.
Implicit Types w : World.

Definition spoken w : option transport * list string := (connection_ w, sent_ w).

Context (R : World → World → Prop) `{!PreOrder R}.
Context (R_same : ∀ w w', spoken w' = spoken w → R w w').
Context (R_send : ∀ f, frame_wf f → moves R (send_json (frame_json f))).

Lemma talks_same {A} (m : M World A) : moves (same spoken) m → moves R m.
Proof. intros Hm w. apply R_same, Hm. Qed.

Lemma talks_with_lock {A} (m : M World A) : moves R m → moves R (with_lock m).
Proof.
  intros Hm w. unfold with_lock. destruct (mutex_ w); [reflexivity|].
  specialize (Hm (set_mutex true w)). destruct (m _) as [o w']. cbn in *.
  etrans; [by apply (R_same w (set_mutex true w))|]. etrans; [exact Hm|]. by apply R_same.
Qed.

(** A message id is made for the recipient of the frame. *)
Lemma talks_new_mid {A} k (f : string → M World A) :
  (∀ u ms, moves R (f (mid_text u k ms))) → moves R (new_mid k ≫= f).
Proof.
  intros Hf w. unfold new_mid, now_ms, gets, mbind, M_bind. cbn [mret M_ret].
  etrans; [|apply Hf]. by apply R_same.
Qed.

Lemma talks_send_chat_frame u k em x ms : moves R (send_chat_frame k em x (mid_text u k ms)).
Proof.
  unfold send_chat_frame. intros w. unfold mbind at 1, M_bind at 1, lift.
  destruct (json_dump (envelope em x)) as [env|] eqn:He; [|reflexivity]. cbn [mret M_ret].
  apply (R_send (F_send_message u k env ms)). by exists em, x.
Qed.

Lemma talks_send_key_bundle b : moves R (send_key_bundle b).
Proof.
  unfold send_key_bundle. apply moves_bind; [apply _|apply moves_lift, _|]. intros otpks.
  destruct (json_empty otpks) eqn:He; [apply moves_ret, _|].
  do 3 (apply moves_bind; [apply _|apply moves_lift, _|]; intros ?).
  by apply (R_send (F_publish_key_bundle _ _ _ _)).
Qed.


Lemma talks_request r : moves R (request_key_bundle r).
Proof. by apply (R_send (F_request_key_bundle r)). Qed.

#[local] Hint Constants Opaque : moves.
Hint Resolve talks_send_chat_frame talks_send_key_bundle talks_request : moves.

(** Decomposes a statement down to the frames it sends. *)
Ltac talks_solve :=
  repeat (intros; first
    [ match goal with |- moves _ (match ?x with _ => _ end) => destruct x end
    | solve [eauto 2 with moves nocore typeclass_instances]
    | apply talks_new_mid
    | apply moves_bind; [apply _| |] | apply moves_try; [apply _| |]
    | apply moves_when; [apply _|] | apply moves_for_each; [apply _|]
    | apply talks_with_lock
    | apply talks_same; same_prim ]).

Lemma talks_storage_encrypt s : moves R (storage_encrypt s).
Proof. unfold storage_encrypt, encrypt_for_storage. talks_solve. Qed.
Lemma talks_storage_decrypt s : moves R (storage_decrypt s).
Proof. unfold storage_decrypt, decrypt_from_storage. talks_solve. Qed.
Lemma talks_get_conv k : moves R (get_conv k).
Proof. unfold get_conv. talks_solve. Qed.
Lemma talks_at_string j k : moves R (at_string j k).
Proof. unfold at_string. talks_solve. Qed.
Hint Resolve talks_storage_encrypt talks_storage_decrypt talks_get_conv talks_at_string : moves.

Lemma talks_emplace k : moves R (emplace_conv k).
Proof. apply talks_same. intros w. unfold same, emplace_conv, modify. by case_match. Qed.
Hint Resolve talks_emplace : moves.

Lemma talks_ratchet_encrypt k c : moves R (ratchet_encrypt k c).
Proof. unfold ratchet_encrypt, encrypt_message, on_conv, store_exec. talks_solve. Qed.
Hint Resolve talks_ratchet_encrypt : moves.

Lemma talks_record_sent (an : M World unit) k p pt ty wc mid :
  moves R an → moves R (record_sent an k p pt ty wc mid).
Proof. intros Han. unfold record_sent, on_conv, on_app. talks_solve. Qed.

Lemma talks_encrypt_and_send k pt : moves R (encrypt_and_send k pt).
Proof.
  unfold encrypt_and_send, epic_log.
  repeat first [apply talks_record_sent|talks_solve]; talks_solve.
Qed.

Hint Resolve talks_encrypt_and_send : moves.
Hint Extern 1 (moves R (record_sent _ _ _ _ _ _ _)) => apply talks_record_sent; talks_solve : moves.

Lemma talks_encrypt_and_send_typed k pt ty : moves R (encrypt_and_send_typed k pt ty).
Proof. unfold encrypt_and_send_typed, epic_log. talks_solve. Qed.
Lemma talks_send_ratchet_control k c : moves R (send_ratchet_control k c).
Proof. unfold send_ratchet_control. talks_solve. Qed.
Lemma talks_start_session p b t : moves R (start_session_and_send p b t).
Proof.
  unfold start_session_and_send, get_shared_secret_active, encrypt_initial_message, epic_log, on_conv,
    store_exec, set_encrypted_state. talks_solve.
Qed.
Hint Resolve talks_encrypt_and_send_typed talks_send_ratchet_control talks_start_session : moves.

Lemma talks_do_send r t : moves R (do_send r t).
Proof. unfold do_send, epic_log, on_app, queue_send. talks_solve. Qed.
Lemma talks_do_forward r t : moves R (do_forward r t).
Proof. unfold do_forward, epic_log, on_app, queue_send. talks_solve. Qed.
Lemma talks_propagate mid p c : moves R (propagate mid p c).
Proof. unfold propagate. talks_solve. Qed.
Hint Resolve talks_propagate : moves.
Lemma talks_do_delete id b : moves R (do_delete id b).
Proof. unfold do_delete, store_exec, on_app. talks_solve. Qed.
Lemma talks_do_edit id t : moves R (do_edit id t).
Proof. unfold do_edit, store_exec, on_app. talks_solve. Qed.

Lemma talks_run_on_ui_abort : moves R run_on_ui_abort.
Proof.
  unfold run_on_ui_abort, on_app, join_self, abort_login, clear_session, reset_store, epic_log.
  talks_solve.
Qed.
Hint Resolve talks_run_on_ui_abort : moves.
Lemma talks_on_disconnect r : moves R (on_disconnect r).
Proof. unfold on_disconnect, clear_session, reset_store, epic_log, on_app. talks_solve. Qed.


Lemma talks_publish_key_bundle : moves R publish_key_bundle.
Proof. unfold publish_key_bundle, get_bundle, store_exec, set_encrypted_state. talks_solve. Qed.
Lemma talks_receive_initial k env dr : moves R (receive_initial k env dr).
Proof.
  unfold receive_initial, get_shared_secret_passive, decrypt_initial_message, on_app, on_conv,
    store_exec, set_encrypted_state. talks_solve.
Qed.
Lemma talks_receive_ratchet k dr : moves R (receive_ratchet k dr).
Proof. unfold receive_ratchet, decrypt_message, on_conv, store_exec. talks_solve. Qed.
Lemma talks_apply_content k c wc mid : moves R (apply_content k c wc mid).
Proof. unfold apply_content, on_conv, store_exec, epic_log, on_app. talks_solve. Qed.
Hint Resolve talks_publish_key_bundle talks_receive_initial talks_receive_ratchet talks_apply_content : moves.

Lemma talks_deliver frame : moves R (on_deliver_message frame).
Proof. unfold on_deliver_message, epic_log, on_app. talks_solve. Qed.
Lemma talks_key_bundle_response frame : moves R (on_key_bundle_response frame).
Proof. unfold on_key_bundle_response, epic_log, on_app. talks_solve. Qed.
Lemma talks_on_error frame : moves R (on_error frame).
Proof.
  assert (∀ t, moves R (modify (λ w,
    match conversations_ w !! t with
    | Some c => if bool_decide (messages_ c = [])
                then set_conversations (delete t (conversations_ w)) w else w
    | None => w
    end))) as Hprune.
  { intros t. apply talks_same. intros w. unfold same, modify. cbn. by repeat case_match. }
  unfold on_error, epic_log, on_app. talks_solve.
Qed.

Lemma talks_decrypt_messages ms conv : moves R (decrypt_messages ms conv).
Proof.
  unfold decrypt_messages.
  assert (moves R (mret conv : M World Conversation)) as Hacc by talks_solve. revert Hacc.
  generalize (mret conv : M World Conversation) as acc.
  induction ms as [|m ms IH]; intros acc Hacc; [exact Hacc|]. cbn [foldl]. apply IH. talks_solve.
Qed.
Hint Resolve talks_decrypt_messages : moves.
Lemma talks_load_peer p raw : moves R (load_peer p raw).
Proof. unfold load_peer. talks_solve. Qed.
Hint Resolve talks_load_peer : moves.
Lemma talks_load_peers ps : moves R (load_peers ps).
Proof. induction ps as [|p ps IH]; cbn [load_peers]; unfold store_query; talks_solve. Qed.
Hint Resolve talks_load_peers : moves.
Lemma talks_auth_confirmed : moves R auth_confirmed.
Proof.
  unfold auth_confirmed, try_unlock, unlock_dek, wrong_pin, load_conversations, store_query, on_app.
  talks_solve.
Qed.
Hint Resolve talks_deliver talks_key_bundle_response talks_on_error talks_auth_confirmed : moves.

Lemma talks_handle_ws_frame s : moves R (handle_ws_frame s).
Proof.
  unfold handle_ws_frame, epic_log, on_app. apply moves_bind; [apply _|apply talks_same; same_prim|]. intros [].
  destruct (json_parse s) as [frame|]; [|talks_solve].
  apply moves_bind; [apply _|apply moves_lift, _|]. intros type.
  apply moves_bind; [apply _|apply talks_same; same_prim|]. intros [].
  destruct (_ && _).
  - talks_solve.
  - destruct (bool_decide _); [apply talks_deliver|].
    destruct (bool_decide _); [apply talks_key_bundle_response|].
    destruct (bool_decide _); [apply talks_on_error|]. apply talks_same; same_prim.
Qed.

End talk.

(** ** Only well-typed frames *)

Section says.
Context `{NlohmannJson} `{EvpCodec} `{Subprocess} `{Sqlite} `{Transport} `{ClientEnv}.
Implicit Types w : World.

(** Only well-typed frames are added. *)
Definition says w w' : Prop := ∃ l, sent_ w' = sent_ w ++ l ∧ Forall well_typed l.

#[global] Instance says_preorder : PreOrder says.
Proof.
  split.
  - intros w. exists []. by rewrite app_nil_r.
  - intros w1 w2 w3 (l1 & E1 & F1) (l2 & E2 & F2). exists (l1 ++ l2).
    rewrite E2, E1, app_assoc. split; [done|]. by apply Forall_app.
Qed.

Lemma says_same {A} (m : M World A) : moves (same sent_) m → moves says m.
Proof. intros Hm w. exists []. rewrite app_nil_r. split; [apply Hm|done]. Qed.

Lemma says_with_lock {A} (m : M World A) : moves says m → moves says (with_lock m).
Proof.
  intros Hm w. unfold with_lock. destruct (mutex_ w); [reflexivity|].
  specialize (Hm (set_mutex true w)). by destruct (m _) as [o w'].
Qed.

Lemma says_send_json f : frame_wf f → moves says (send_json (frame_json f)).
Proof.
  intros Hf. unfold send_json, send_text. intros w. unfold mbind, M_bind, lift.
  destruct (json_dump (frame_json f)) as [text|] eqn:Hd; [|reflexivity]. cbn.
  unfold with_connection. destruct (connection_ w) as [t|]; [|reflexivity].
  destruct (tr_send_text text t) as [[[]|e|x] t']; [|by exists []; rewrite app_nil_r..].
  exists [text]. split; [done|]. constructor; [by exists f|constructor].
Qed.

Lemma says_spoken w w' : spoken w' = spoken w → says w w'.
Proof. intros [= _ E]. exists []. by rewrite app_nil_r. Qed.

Lemma says_send_login u p : moves says (send_login_frame u p).
Proof. by apply (says_send_json (F_login u p)). Qed.

#[local] Hint Constants Opaque : moves.
Hint Resolve says_send_login : moves.

Ltac says_solve :=
  repeat (intros; first
    [ match goal with |- moves _ (match ?x with _ => _ end) => destruct x end
    | solve [eauto 2 with moves nocore typeclass_instances]
    | apply moves_bind; [apply _| |] | apply moves_try; [apply _| |]
    | apply moves_when; [apply _|]
    | apply says_with_lock
    | apply says_same; same_prim ]).

Lemma says_do_logout : moves says do_logout.
Proof. unfold do_logout, clear_session, reset_store, epic_log, on_app. says_solve. Qed.

Lemma says_do_login u p k : moves says (do_login u p k).
Proof.
  unfold do_login, load_blob, new_connection_object, epic_log, on_app, store_query, store_exec,
    set_encrypted_dek, set_encrypted_state, set_current_user. says_solve.
Qed.

Hint Resolve says_do_login : moves.
Lemma says_https_post path body : moves says (https_post path body).
Proof.
  apply says_same. intros w. unfold same, https_post.
  by destruct (tr_https_post _ _ _ _ _) as [e [r|x]].
Qed.

Hint Resolve says_https_post : moves.
Lemma says_do_register u p k : moves says (do_register u p k).
Proof.
  unfold do_register, register_account, create_dek, create_state, epic_log, on_app, store_exec,
    set_encrypted_dek, set_encrypted_state, set_current_user. says_solve.
Qed.

Lemma says_run_posted : moves says run_posted.
Proof.
  unfold run_posted, on_app, abort_login_session, abort_login, clear_session, reset_store, epic_log.
  says_solve.
Qed.

Lemma says_event ev : moves says (run_event ev).
Proof.
  pose proof says_spoken as Hs. pose proof says_send_json as Hj.
  destruct ev; [apply says_do_register|apply says_do_login|by apply (talks_do_send says)|by apply (talks_do_forward says)
    |by apply (talks_do_delete says)|by apply (talks_do_edit says)|apply says_do_logout|apply says_run_posted
    |by apply (talks_handle_ws_frame says)|by apply (talks_on_disconnect says)].
Qed.
End says.

