(* ===== verification/ReadLoop.v ===== *)
(** * ReadLoop: from the bytes of the server to the handlers of the client

    [Connection::read_loop] with the two callbacks [do_login] installs: the client over the
    connection itself.  The bytes of the stream become messages, each is handled once and in
    order, and the first exception, of the stream or of a handler, ends the loop. *)

From S2P Require Import Prelude Json Message Conversation MessageStore Codec CryptoProxy CryptoProxyFacts.
From S2P Require Import Connection ConnectionFacts App Client ClientSafety ClientFacts ClientTransport.
From S2P Require Import ClientSession ClientMessages ClientFrames.
Local Open Scope Z_scope.

Section read_loop.
Context `{NlohmannJson} `{EvpCodec} `{Subprocess} `{Sqlite} `{NetIo} `{!NetIoLaws} `{ClientEnv}.
Implicit Types (w : World) (c : Conn).

(** [running_] of the connection whose thread this is. *)
Definition reading w : bool :=
  match connection_ w with Some c => running_ c | None => false end.

(** [connected_ = false], and [running_.exchange(false)]. *)
Definition mark_down : M Conn bool := λ c, (Ret (running_ c), set_flags false false c).

(** The body of the try block, and of its handler. *)
Definition read_message (fuel : nat) : M World unit :=
  msg ← with_connection (ws_decode_frame fuel);
  handle_ws_frame msg.

Definition read_failed (e : string) : M World unit :=
  was_running ← with_connection mark_down;
  when was_running (on_disconnect e).

Fixpoint read_loop (rounds fuel : nat) : M World unit :=
  running ← gets reading;
  if (running : bool) then
    match rounds with
    | O => stuck "read_loop: out of fuel"
    | S rounds => try_catch (read_message fuel) read_failed ;; read_loop rounds fuel
    end
  else mret tt.

(** ** What the handlers leave of the connection *)

(** Frames have left and nothing was read: the bytes are those of the texts in
    [sent_]. *)
Definition wired w w' : Prop :=
  ∃ l, sent_ w' = sent_ w ++ l ∧
  match connection_ w, connection_ w' with
  | Some c, Some c' => only_io c c' ∧ incoming (io c') = incoming (io c) ∧
      (Reliable → ∃ fs, outgoing (io c') = outgoing (io c) ++ concat fs ∧ Forall2 text_frame l fs)
  | None, None => l = []
  | _, _ => False
  end.

Lemma wired_refl w w' : spoken w' = spoken w → wired w w'.
Proof.
  intros [= EC ES]. exists []. rewrite EC, app_nil_r. split; [done|]. destruct (connection_ w); [|done].
  split; [reflexivity|]. split; [done|]. intros _. exists []. by rewrite app_nil_r.
Qed.

#[global] Instance wired_preorder : PreOrder wired.
Proof.
  split; [intros w; by apply wired_refl|].
  intros w1 w2 w3 (l1 & E1 & F1) (l2 & E2 & F2). exists (l1 ++ l2).
  split; [by rewrite E2, E1, app_assoc|].
  destruct (connection_ w1) as [c1|], (connection_ w2) as [c2|], (connection_ w3) as [c3|]; try done.
  - destruct F1 as (O1 & I1 & B1), F2 as (O2 & I2 & B2). split; [by etrans|]. split; [congruence|].
    intros HR. destruct (B1 HR) as (f1 & D1 & G1), (B2 HR) as (f2 & D2 & G2).
    exists (f1 ++ f2). rewrite D2, D1, concat_app, app_assoc. split; [done|]. by apply Forall2_app.
  - by subst.
Qed.

Lemma wired_send f : frame_wf f → moves wired (send_json (frame_json f)).
Proof.
  intros _ w. unfold send_json, send_text, mbind, M_bind, lift.
  destruct (json_dump (frame_json f)) as [text|]; [|reflexivity]. cbn.
  unfold with_connection. destruct (connection_ w) as [c|] eqn:HC; [|reflexivity].
  pose proof (send_text_spec text c) as Hs. unfold wp in Hs. cbn [tr_send_text conn_transport].
  destruct (Connection.send_text text c) as [[[]|e|x] c'] eqn:Ht; [..|done].
  - destruct Hs as (_ & frame & (Ho & Hi & Hio) & Hf). exists [text]. split; [done|]. rewrite HC. cbn.
    split; [done|]. split; [done|]. intros _. exists [frame]. cbn. rewrite app_nil_r. split; [done|].
    by constructor.
  - destruct Hs as (Hi & Hio & Hc & _). exists []. rewrite app_nil_r. split; [done|]. rewrite HC. cbn.
    split; [done|]. split; [done|]. intros HR. destruct Hc as [->|Hc]; [|done]. exists [].
    by rewrite app_nil_r.
Qed.

Lemma wired_handle s : moves wired (handle_ws_frame s).
Proof. apply (talks_handle_ws_frame wired wired_refl wired_send). Qed.

(** The connection a world is wired to. *)
Lemma wired_connection w w' c :
  wired w w' → connection_ w = Some c →
  ∃ c', connection_ w' = Some c' ∧ only_io c c' ∧ incoming (io c') = incoming (io c).
Proof.
  intros (l & _ & Hc) HC. rewrite HC in Hc. destruct (connection_ w') as [c'|]; [|done].
  destruct Hc as (? & ? & _). by exists c'.
Qed.

(** ** What the loop does with a stream *)

(** Bytes were read and pings answered, nothing else happened. *)
Definition took w w' : Prop :=
  ∃ c c', connection_ w = Some c ∧ only_io c c' ∧ w' = set_connection (Some c') (outside w) w.

(** The messages are handled in order, each once, up to the first exception [e]. *)
Inductive handled : list string → World → string → World → Prop :=
  | handled_end ms w e w' : ms = [] → took w w' → handled ms w e w'
  | handled_throw m ms w w1 e w' :
      took w w1 → handle_ws_frame m w1 = (Exn e, w') → handled (m :: ms) w e w'
  | handled_next m ms w w1 w2 e w' :
      took w w1 → handle_ws_frame m w1 = (Ret tt, w2) → handled ms w2 e w' →
      handled (m :: ms) w e w'.

(** The server's bytes for a message the client accepts. *)
Definition carried (m : string) (wire : bytes) : Prop :=
  Z.of_nat (String.length m) ≤ kMaxFramePayload ∧ ∃ pings, message_wire false (bytes_of_string m) pings wire.

(** No message comes out of the rest of the stream: it has ended, or it is closed or
    broken. *)
Definition no_message (tail : bytes) : Prop :=
  ∀ fuel c, incoming (io c) = tail → (length tail < fuel)%nat →
    wp (ws_decode_frame fuel) (λ _ _, False) (λ _ _, True) c.

(** The client is in a session that reads from [c]. *)
Record tuned (tail : bytes) w : Prop := {
  tu_live : live [] false w;
  tu_conn : ∃ c, connection_ w = Some c ∧ running_ c = true ∧ incoming (io c) = tail;
}.

Lemma took_live K b w w' : took w w' → live K b w → live K b w'.
Proof. intros (c & c' & _ & _ & ->) []. by split; [..|eexists| | |]. Qed.

(** One message is read and handled. *)
Lemma wp_read_message m wire rest fuel w :
  Reliable → tuned (wire ++ rest) w → carried m wire → (confirms m = true → pin_fail_count_ w < 31) →
  (length wire ≤ fuel)%nat →
  wp (read_message fuel)
    (λ _ w', tuned rest w' ∧ ∃ w1, took w w1 ∧ handle_ws_frame m w1 = (Ret tt, w'))
    (λ e w', tuned rest w' ∧ ∃ w1, took w w1 ∧ handle_ws_frame m w1 = (Exn e, w')) w.
Proof.
  intros HR [Hw (c & HC & Hrun & Hin)] [Hlen [pings Hwire]] Hpin Hf.
  unfold read_message. apply wp_bind. eapply wp_with_connection; [exact HC|].
  unfold ws_decode_frame. apply wp_bind.
  eapply wp_mono; [eapply (ws_decode_loop_wire HR false _ pings wire Hwire fuel [] rest c); try done| |done].
  { by rewrite app_nil_l, length_bytes_of_string. }
  intros bs c1 (-> & Hin1 & Ho & _). apply wp_ret. cbn beta.
  rewrite app_nil_l, string_of_bytes_of_string. set (w1 := set_connection _ _ _).
  assert (took w w1) as Ht by by exists c, c1.
  pose proof (live_handle_ws_frame m w1 (took_live _ _ _ _ Ht Hw) Hpin) as Hl.
  pose proof (wired_handle m w1) as Hwired. unfold wp in *.
  assert (∀ w2, live [] false w2 → wired w1 w2 → tuned rest w2) as Htuned.
  { intros w2 Hw2 Hw12. split; [done|].
    destruct (wired_connection w1 w2 c1 Hw12 eq_refl) as (c2 & HC2 & Ho2 & Hin2).
    exists c2. split; [done|]. split; [by rewrite Ho2, Ho|congruence]. }
  destruct (handle_ws_frame m w1) as [[[]|e|x] w2] eqn:Hh; [..|done].
  all: split; [by apply Htuned|by exists w1].
Qed.

(** The end of the loop: the connection is marked down and the client told. *)
Definition dropped (e : string) w w' : Prop :=
  ∃ c, connection_ w = Some c ∧
    on_disconnect e (set_connection (Some (set_flags false false c)) (outside w) w) = (Ret tt, w').

Lemma wp_read_failed e tail w :
  tuned tail w → wp (read_failed e) (λ _ w', dropped e w w' ∧ reading w' = false) (λ _ _, False) w.
Proof.
  intros [Hw (c & HC & Hrun & _)]. unfold read_failed. apply wp_bind.
  eapply wp_with_connection; [exact HC|]. unfold wp at 1, mark_down. rewrite Hrun. apply wp_when.
  set (w1 := set_connection _ _ _).
  pose proof (wp_on_disconnect e w1 (λ _ _, False) (live_mutex _ _ _ Hw)) as Hd. unfold wp in *.
  destruct (on_disconnect e w1) as [[[]|x|x] w'] eqn:Hr; [|done..]. destruct Hd as [HC' _].
  split; [by exists c|]. unfold reading. by rewrite HC'.
Qed.

Lemma wp_read_stopped rounds fuel (Q : unit → World → Prop) E w :
  reading w = false → Q tt w → wp (read_loop rounds fuel) Q E w.
Proof. intros Hre HQ. destruct rounds; cbn [read_loop]; apply wp_bind, wp_gets; rewrite Hre; by apply wp_ret. Qed.

(** At most the first message of a connection is a confirmation. *)
Definition orderly (ms : list string) w : Prop :=
  match ms with
  | [] => True
  | m :: ms => (confirms m = true → pin_fail_count_ w < 31) ∧ Forall (λ m, confirms m = false) ms
  end.

Lemma wp_read_loop ms wires tail rounds fuel w :
  Reliable → Forall2 carried ms wires → no_message tail → tuned (concat wires ++ tail) w → orderly ms w →
  (length ms < rounds)%nat → (length (concat wires ++ tail) < fuel)%nat →
  wp (read_loop rounds fuel) (λ _ w', ∃ e w1, handled ms w e w1 ∧ dropped e w1 w') (λ _ _, False) w.
Proof.
  intros HR Hms Htail. revert rounds w. induction Hms as [|m wire ms wires Hm Hms IH];
    intros rounds w Hw Hord Hr Hf; (destruct rounds as [|rounds]; [cbn in Hr; lia|]); cbn [read_loop];
    apply wp_bind, wp_gets; unfold reading at 1; pose proof Hw as [Hl (c & HC & Hrun & Hin)];
    rewrite HC, Hrun; apply wp_bind, wp_try.
  - unfold read_message. apply wp_bind. eapply wp_with_connection; [exact HC|].
    pose proof (Htail fuel c Hin Hf) as Hno. pose proof (ws_decode_frame_spec fuel c) as Hspec.
    rewrite Hin in Hspec. specialize (Hspec Hf). unfold wp in Hno, Hspec. unfold wp at 1.
    destruct (ws_decode_frame fuel c) as [[x|e|x] c'] eqn:Hd; [done| |done].
    destruct Hspec as [_ Ho]. set (w1 := set_connection _ _ _).
    assert (tuned (incoming (io c')) w1) as Hw1.
    { split; [by eapply took_live; [exists c, c'|]|]. exists c'. split; [done|]. split; [by rewrite Ho|done]. }
    eapply wp_mono; [exact (wp_read_failed e _ w1 Hw1)| |done]. intros [] w' [Hdrop Hre].
    assert (handled [] w e w1) as Hh by (constructor; [done|by exists c, c']).
    apply wp_read_stopped; [done|]. by exists e, w1.
  - cbn [concat] in Hw, Hin, Hf. rewrite <-app_assoc in Hw, Hin, Hf. rewrite length_app in Hf.
    destruct Hord as [Hpin Hplain].
    eapply wp_mono; [eapply (wp_read_message m wire); [done|exact Hw|done|done|lia]|..].
    + intros [] w2 (Hw2 & w1 & Ht & Hh). eapply wp_mono; [eapply (IH rounds w2 Hw2)| |done].
      * destruct Hplain as [|m' ms' Hm' Hplain']; [done|]. split; [by rewrite Hm'|done].
      * cbn in Hr. lia.
      * lia.
      * intros [] w' (e & w3 & Hhd & Hdr). exists e, w3. split; [by eapply handled_next|done].
    + intros e w2 (Hw2 & w1 & Ht & Hh).
      eapply wp_mono; [exact (wp_read_failed e _ w2 Hw2)| |done]. intros [] w' [Hdrop Hre].
      assert (handled (m :: ms) w e w2) as Hhd by by eapply handled_throw.
      apply wp_read_stopped; [done|]. by exists e, w2.
Qed.

(** ** Streams that hold no message *)

Lemma no_message_nil : no_message [].
Proof.
  intros fuel c Hin Hf. unfold ws_decode_frame. destruct fuel as [|fuel]; [cbn in Hf; lia|].
  cbn [ws_decode_loop]. apply wp_bind, wp_bind.
  eapply wp_mono; [apply ssl_read_exact_spec| |done]. intros bs c' [Hl (Hin' & _)].
  rewrite Hin in Hin'. symmetry in Hin'. apply app_eq_nil in Hin' as [-> _]. done.
Qed.

Lemma no_message_close payload rest :
  Reliable → (length payload ≤ 125)%nat → no_message (server_frame true 8 payload ++ rest).
Proof.
  intros HR Hp fuel c Hin Hf. unfold ws_decode_frame. destruct fuel as [|fuel]; [lia|]. apply wp_bind.
  eapply (ws_decode_loop_frame HR fuel [] false true 8 payload rest);
    [lia|unfold kMaxFramePayload; lia|done|exact Hin|].
  intros c' _ _. by apply wp_throw.
Qed.

(** The header announces more than 16 KiB. *)
Lemma no_message_oversized b0 b1 rest :
  Reliable → has_length b1 rest → kMaxFramePayload < (rfc_length b1 rest).1 → no_message (b0 :: b1 :: rest).
Proof.
  intros HR Hl Hbig [|fuel] c Hin Hf; [lia|].
  destruct (ws_decode_frame_rejects b0 b1 rest fuel c HR Hl Hin (or_introl Hbig)) as (e & c' & Hd & _).
  unfold wp. by rewrite Hd.
Qed.
End read_loop.

(** C5: The read thread hands the client what the server sent.  The stream carries the
    messages [ms], each in one frame or in fragments, with pings and pongs in between,
    and then nothing that is a message; at most the first one confirms a login.  The
    loop ends: the messages have been handled in order, each exactly once, until a
    handler threw or the stream was over; then the connection was marked down, the
    client told exactly once with the text of the exception, and no exception left the
    thread. *)
Theorem read_loop_delivers `{NlohmannJson} `{EvpCodec} `{Subprocess} `{Sqlite} `{NetIo} `{!NetIoLaws}
    `{ClientEnv} `{!NlohmannJsonLaws} ms wires tail rounds fuel w :
  Reliable → Forall2 carried ms wires → no_message tail → tuned (concat wires ++ tail) w → orderly ms w →
  (length ms < rounds)%nat → (length (concat wires ++ tail) < fuel)%nat →
  ∃ e w1 w', handled ms w e w1 ∧ dropped e w1 w' ∧ read_loop rounds fuel w = (Ret tt, w').
Proof.
  intros HR Hms Ht Hw Ho Hr Hf.
  destruct (wp_returns_ret _ _ _ (wp_read_loop ms wires tail rounds fuel w HR Hms Ht Hw Ho Hr Hf))
    as (w' & Hrun & e & w1 & Hh & Hd). by exists e, w1, w'.
Qed.

(** C6: A message of more than 16 KiB ends the session of the client it is sent to: the read
    thread takes the announced length for an error of the connection, and the client
    forgets the user, the conversations, the queued texts and the keys and closes the
    store.  Nothing limits the size of what another user sends. *)
Theorem oversized_message_ends_session `{NlohmannJson} `{EvpCodec} `{Subprocess} `{Sqlite} `{NetIo}
    `{!NetIoLaws} `{ClientEnv} `{!NlohmannJsonLaws} b0 b1 rest rounds fuel w :
  Reliable → has_length b1 rest → kMaxFramePayload < (rfc_length b1 rest).1 →
  tuned (b0 :: b1 :: rest) w → quit_ w = false → (length (b0 :: b1 :: rest) < fuel)%nat →
  ∃ w', read_loop (S rounds) fuel w = (Ret tt, w') ∧ session_over w w' ∧ is_online w' = false.
Proof.
  intros HR Hl Hbig Hw Hq Hf. pose proof (no_message_oversized b0 b1 rest HR Hl Hbig) as Hno.
  destruct (wp_returns_ret _ _ _ (wp_read_loop [] [] (b0 :: b1 :: rest) (S rounds) fuel w HR
    (Forall2_nil_2 _ _ _) Hno Hw I (Nat.lt_0_succ _) Hf)) as (w' & Hrun & e & w1 & Hh & c & HC & Hd).
  exists w'. split; [done|]. inversion Hh as [ms w2 e2 w3 _ Ht| |]; subst. pose proof Ht as (c0 & c1 & _ & _ & Hw1).
  assert (mutex_ w1 = false ∧ quit_ w1 = false ∧ disk w1 = disk w ∧ sent_ w1 = sent_ w) as (M1 & M2 & M3 & M4)
    by (rewrite Hw1; by destruct Hw as [[] _]).
  clear Hw1. lazymatch type of Hd with on_disconnect e ?w2 = _ => set (w0 := w2) in Hd end.
  pose proof (wp_on_disconnect e w0 (λ _ _, False) M1) as Hwp. unfold wp in Hwp. rewrite Hd in Hwp.
  destruct Hwp as [HC' Hover]. destruct (Hover M2). split; [|unfold is_online; by rewrite HC'].
  split; try done; [by etrans; [eassumption|]..].
Qed.
