(* ===== verification/Wire.v ===== *)
(** * Wire: the two clients over their byte streams

    [Replica] hands the clients whole texts.  Here they have connections: an action writes
    the bytes of one WebSocket frame, and a delivery is what the read thread makes of the
    bytes that have come in, however the server cut them into frames.  The copies of the
    conversation converge all the same. *)

From S2P Require Import Prelude Json Message Conversation MessageStore Codec CryptoProxy CryptoProxyFacts Ratchet.
From S2P Require Import Connection ConnectionFacts App Client ClientSafety ClientFacts ClientTransport.
From S2P Require Import ClientSession ClientMessages ClientFrames EndToEnd Entries Replica ReadLoop.
Local Open Scope Z_scope.

Section wire.
Context `{NlohmannJson} `{EvpCodec} `{Subprocess} `{Sqlite} `{NetIo} `{!NetIoLaws}.
Context `{!StorageCipher} `{!Ratchet}.
Context `{!NlohmannJsonLaws} `{!EvpCodecLaws} `{!StorageCipherLaws} `{!RatchetLaws}.
Implicit Types (w : World) (c : Conn).

Definition connected (c : transport (Transport := conn_transport)) : Prop := Connection.connected_ c = true.

Lemma connected_sends : Reliable →
  ∀ c s, connected c → ∃ c', tr_send_text s c = (Ret tt, c') ∧ connected c'.
Proof.
  intros HR c s Hc. pose proof (send_text_spec s c) as Hs. unfold wp in Hs. cbn.
  destruct (Connection.send_text s c) as [[[]|e|x] c']; [..|done].
  - destruct Hs as (_ & frame & (_ & _ & Ho) & _). exists c'. split; [done|]. unfold connected. by rewrite Ho.
  - destruct Hs as (_ & _ & _ & Hf). specialize (Hf HR). unfold connected in Hc. congruence.
Qed.

(** The bytes that have come in and were not read yet. *)
Definition arrives (bs : bytes) w : Prop := ∃ c, connection_ w = Some c ∧ incoming (io c) = bs.

(** The bytes of one frame, from which the server reads [f], have left. *)
Definition writes_text (f : string) w w' : Prop :=
  ∃ c c' frame, connection_ w = Some c ∧ connection_ w' = Some c' ∧
    outgoing (io c') = outgoing (io c) ++ frame ∧ incoming (io c') = incoming (io c) ∧ text_frame f frame.

Lemma wired_act (E : ClientEnv) k a : moves wired (act (H10 := E) k a).
Proof.
  destruct a; cbn [act].
  - apply (talks_do_send wired wired_refl wired_send).
  - apply (talks_do_forward wired wired_refl wired_send).
  - apply (talks_do_edit wired wired_refl wired_send).
  - apply (talks_do_delete wired wired_refl wired_send).
Qed.

Lemma wired_writes f w w' :
  Reliable → listening connected false w → wired w w' → sent_ w' = sent_ w ++ [f] → writes_text f w w'.
Proof.
  intros HR Hw (l & Hl & Hc) Hs. rewrite Hs in Hl. apply app_inv_head in Hl as <-.
  destruct (li_up _ _ _ Hw) as (c & HC & _). rewrite HC in Hc.
  destruct (connection_ w') as [c'|] eqn:HC'; [|done]. destruct Hc as (_ & Hi & Hfs).
  destruct (Hfs HR) as (fs & Ho & (frame & fs' & Ht & ->%Forall2_nil_inv_l & ->)%Forall2_cons_inv_l).
  cbn in Ho. rewrite app_nil_r in Ho. by exists c, c', frame.
Qed.

(** The bytes of a message become the call of its handler. *)
Lemma read_message_handles (E : ClientEnv) m wire rest fuel w :
  Reliable → arrives (wire ++ rest) w → carried m wire → (length wire ≤ fuel)%nat →
  ∃ w1, took w w1 ∧ arrives rest w1 ∧ read_message fuel w = handle_ws_frame m w1.
Proof.
  intros HR (c & HC & Hin) [Hlen [pings Hwire]] Hf.
  assert (Z.of_nat (length ([] ++ bytes_of_string m)) ≤ kMaxFramePayload) as Hl
    by by rewrite app_nil_l, length_bytes_of_string.
  destruct (wp_returns _ _ _ (ws_decode_loop_wire HR false (bytes_of_string m) pings wire Hwire fuel [] rest c
    (λ _, eq_refl) Hf Hl Hin)) as (bs & c1 & Hrun & -> & Hin1 & Ho & _).
  eexists. split; [by exists c, c1|]. split; [by exists c1|].
  unfold read_message, with_connection, ws_decode_frame, mbind, M_bind. rewrite HC, Hrun. cbn.
  by rewrite string_of_bytes_of_string.
Qed.

(** Reading bytes changes neither the session nor the conversation. *)
Lemma took_duplex me peer w w1 wr fs gs :
  took w w1 → duplex connected me peer (mkNet w wr fs gs) → duplex connected me peer (mkNet w1 wr fs gs).
Proof.
  intros (c & c1 & HC & Ho & ->) (ad & a & b & [L1 U1 S1 G1] & Hr & Hout & Hin). exists ad, a, b.
  split; [|done]. split; [|done|exact S1|exact G1]. destruct L1 as [K1 (c' & HC' & Hup) K3 K4 K5].
  cbn [n_left] in HC'. rewrite HC in HC'. injection HC' as <-. split; [done| |done|done|done].
  exists c1. split; [done|]. unfold connected. by rewrite Ho.
Qed.

(** The left client acts, or its read thread reads the oldest message: the bytes [wire] at
    the front of what has come in. *)
Inductive left_wire_step (E : ClientEnv) (peer : string) : Net → Net → Prop :=
  | wire_act a w wr fs gs o w' :
      allowed peer a w → act (H10 := E) peer a w = (o, w') →
      left_wire_step E peer (mkNet w wr fs gs) (mkNet w' wr (fs ++ handed_over w w') gs)
  | wire_read fuel w wr fs g gs d wire rest o w' :
      relayed peer g d → carried d wire → arrives (wire ++ rest) w → (length wire ≤ fuel)%nat →
      read_message fuel w = (o, w') →
      left_wire_step E peer (mkNet w wr fs (g :: gs)) (mkNet w' wr (fs ++ handed_over w w') gs).

Definition wire_step (EA EB : ClientEnv) (alice bob : string) (n n' : Net) : Prop :=
  left_wire_step EA bob n n' ∨ left_wire_step EB alice (flip_net n) (flip_net n').

(** What the left client does completes. *)
Definition acts_on_wire (E : ClientEnv) (peer : string) (n : Net) : Prop :=
  ∀ a, allowed peer a (n_left n) → ∃ w' f,
    act (H10 := E) peer a (n_left n) = (Ret tt, w') ∧ sent_ w' = sent_ (n_left n) ++ [f] ∧
    writes_text f (n_left n) w'.

Definition reads_off_wire (E : ClientEnv) (peer : string) (n : Net) : Prop :=
  ∀ g gs d wire rest fuel, n_rtl n = g :: gs → relayed peer g d → carried d wire →
    arrives (wire ++ rest) (n_left n) → (length wire ≤ fuel)%nat →
    ∃ w', read_message fuel (n_left n) = (Ret tt, w') ∧ sent_ w' = sent_ (n_left n) ∧ arrives rest w'.

Section side.
Context (HR : Reliable) (E : ClientEnv).
Context (me peer : string) (Hco : correspondents me peer).

Lemma duplex_acts_on_wire n : duplex connected me peer n → acts_on_wire E peer n.
Proof.
  intros Hn a Ha.
  destruct (duplex_act connected (connected_sends HR) (λ _ Hc, Hc) E me peer a n Hco Hn Ha)
    as (w' & f & Hr & Hs & _). exists w', f. split; [done|]. split; [done|].
  destruct Hn as (ad & x & y & [L1 _ _ _] & _). apply wired_writes; try done.
  pose proof (wired_act E peer a (n_left n)) as Hw. by rewrite Hr in Hw.
Qed.

(** The oldest message is read off the bytes. *)
Lemma duplex_read n g gs d wire rest fuel :
  duplex connected me peer n → n_rtl n = g :: gs → relayed peer g d → carried d wire →
  arrives (wire ++ rest) (n_left n) → (length wire ≤ fuel)%nat →
  ∃ w', read_message fuel (n_left n) = (Ret tt, w') ∧ sent_ w' = sent_ (n_left n) ∧ arrives rest w' ∧
    duplex connected me peer (mkNet w' (n_right n) (n_ltr n) gs).
Proof.
  intros Hn Hg Hd Hc Hin Hf.
  destruct (read_message_handles E d wire rest fuel (n_left n) HR Hin Hc Hf) as (w1 & Ht & Hin1 & Hrun).
  destruct n as [w wr fs gs']. cbn [n_left n_right n_ltr n_rtl] in *. rewrite Hg in Hn.
  destruct (duplex_hear connected (connected_sends HR) E me peer _ g gs d Hco (took_duplex _ _ _ _ _ _ _ Ht Hn)
    eq_refl Hd) as (w' & Hr & Hs & Hn'). cbn [n_left n_right n_ltr n_rtl] in *.
  exists w'. split; [by rewrite Hrun|]. destruct Ht as (c & c1 & HC & Ho & Hw1).
  split; [by rewrite Hs, Hw1|]. split; [|done].
  pose proof (wired_handle d w1) as Hw. rewrite Hr in Hw. destruct Hin1 as (c2 & HC2 & Hc2).
  destruct (wired_connection _ _ _ Hw HC2) as (c3 & HC3 & _ & Hc3). exists c3. split; [done|congruence].
Qed.

Lemma duplex_reads_off_wire n : duplex connected me peer n → reads_off_wire E peer n.
Proof.
  intros Hn g gs d wire rest fuel Hg Hd Hc Hin Hf.
  destruct (duplex_read n g gs d wire rest fuel Hn Hg Hd Hc Hin Hf) as (w' & ? & ? & ? & _). by exists w'.
Qed.

Lemma duplex_left_wire_step n n' :
  duplex connected me peer n → left_wire_step E peer n n' → duplex connected me peer n'.
Proof.
  intros Hn Hstep. destruct Hstep as [a w wr fs gs o w' Ha Hrun|fuel w wr fs g gs d wire rest o w' Hd Hc Hin Hf Hrun].
  - by eapply (duplex_left_step connected (connected_sends HR) (λ _ Hc, Hc) E me peer _ _ Hco Hn), step_act.
  - destruct (duplex_read _ g gs d wire rest fuel Hn eq_refl Hd Hc Hin Hf) as (w2 & Hr & Hs & _ & Hn').
    cbn [n_left n_right n_ltr n_rtl] in *. rewrite Hrun in Hr. injection Hr as _ <-.
    unfold handed_over. by rewrite Hs, drop_all, app_nil_r.
Qed.
End side.

(** C4: The copies converge over the bytes of the two connections.  From a session in which
    both sides have the same messages, both clients act and their read threads read, in any
    interleaving, whatever fragments and pings the server's bytes are made of.  At any time
    every action of either side completes and writes exactly one frame, from which the
    server reads the text handed over; what the server makes of the oldest frame of the
    other side, once its bytes are there, is read and handled without an exception, its
    bytes and no others are consumed and nothing is sent; and when nothing is on its way
    both clients have the same entries. *)
Theorem bytes_converge (EA EB : ClientEnv) alice bob wA wB n :
  Reliable → correspondents alice bob → synced connected alice bob wA wB →
  rtc (wire_step EA EB alice bob) (mkNet wA wB [] []) n →
  acts_on_wire EA bob n ∧ acts_on_wire EB alice (flip_net n) ∧
  reads_off_wire EA bob n ∧ reads_off_wire EB alice (flip_net n) ∧
  (n_ltr n = [] → n_rtl n = [] →
     synced connected alice bob (n_left n) (n_right n) ∧ entries bob (n_left n) ≡ₚ entries alice (n_right n)).
Proof.
  intros HR Hco Hsy Hsteps. pose proof (correspondents_flip _ _ Hco) as Hco'.
  assert (duplex connected alice bob n) as Hn.
  { eapply (rtc_ind_r (duplex connected alice bob)); [by apply synced_duplex| |exact Hsteps].
    intros n1 n2 _ [Hs|Hs] Hn; [exact (duplex_left_wire_step HR EA _ _ Hco _ _ Hn Hs)|].
    destruct n2. exact (duplex_flip _ _ _ _ (duplex_left_wire_step HR EB _ _ Hco' _ _ (duplex_flip _ _ _ _ Hn) Hs)). }
  pose proof (duplex_flip _ _ _ _ Hn) as Hn'.
  split; [by eapply duplex_acts_on_wire|]. split; [by eapply duplex_acts_on_wire|].
  split; [by eapply duplex_reads_off_wire|]. split; [by eapply duplex_reads_off_wire|].
  destruct n as [wl wr fs gs]. cbn. intros -> ->. by apply duplex_quiet.
Qed.
End wire.
