(* ===== verification/Main.v ===== *)
(** * Main: [client/src/main.cpp] and [Client::run]

    The program from [main] on: the command line, the log terminal, the construction of
    the client, the start of the crypto subprocess, the UI loop and the shutdown.  The
    command-line parser and FTXUI's loop are third-party code: what the parser answers
    and the loop are arguments.  The state is the machine's terminal, the client and the
    subprocess bridge; while the loop runs the client sees the subprocess through
    [abs_call], which [CryptoProxyFacts] shows the bridge implements. *)

From S2P Require Import Prelude Json Message Conversation MessageStore Codec CryptoProxy CryptoProxyFacts.
From S2P Require Import CryptoProxyLifecycle App AppView Client ClientSafety ClientFacts Log.
Local Open Scope Z_scope.

(** ** Where the program is *)

(** [readlink("/proc/self/exe")], the working directory, and
    [std::filesystem::weakly_canonical]. *)
Class ProgramEnv := {
  readlink_self : option string;
  current_path : string;
  weakly_canonical : string → string;
}.

Fixpoint drop_while {A} (p : A → bool) (l : list A) : list A :=
  match l with
  | [] => []
  | x :: l' => if p x then drop_while p l' else l
  end.

(** [std::filesystem::path::parent_path] of a path without a root name: all up to the
    last separator, without it unless it is the root. *)
Definition parent_path (p : string) : string :=
  let rev_dir := drop_while (λ c, negb (bool_decide (c = "/"%char)))
                   (reverse (String.list_ascii_of_string p)) in
  let stripped := drop_while (λ c, bool_decide (c = "/"%char)) rev_dir in
  String.string_of_list_ascii (reverse
    (match stripped with [] => take 1 rev_dir | _ => stripped end)).

(** [bin_dir]: the buffer takes 4095 bytes of the link. *)
Definition bin_dir `{ProgramEnv} : string :=
  match readlink_self with
  | None | Some "" => current_path
  | Some link => parent_path (String.substring 0 4095 link)
  end.

Definition script_path `{ProgramEnv} : string :=
  weakly_canonical (path_join (path_join bin_dir "..") "subprocess_handler.py").

(** ** The program *)

Section program.
Context `{NlohmannJson} `{EvpCodec} `{Subprocess} `{Sqlite} `{Transport} `{ClientEnv}.
Context `{PosixIo} `{Shell} `{ProgramEnv}.

(** The subprocess behind the bridge's pipes. *)
Context (behind : os → child).

Record Program : Type := mkProgram {
  pg_terminal : Terminal;
  pg_client : World;
  pg_proxy : Proxy;
}.

Definition set_terminal (t : Terminal) (s : Program) : Program :=
  mkProgram t (pg_client s) (pg_proxy s).
Definition set_client (w : World) (s : Program) : Program :=
  mkProgram (pg_terminal s) w (pg_proxy s).
Definition set_proxy (p : Proxy) (s : Program) : Program :=
  mkProgram (pg_terminal s) (pg_client s) p.

Definition on_terminal {A} (m : M Terminal A) : M Program A := zoom pg_terminal set_terminal m.
Definition on_client {A} (m : M World A) : M Program A := zoom pg_client set_client m.
Definition on_proxy {A} (m : M Proxy A) : M Program A := zoom pg_proxy set_proxy m.

(** [Client::Client], with the files, the network and the subprocess there are. *)
Definition new_client (host : string) (port : Z) (files : gmap string Db) (ch : child)
    (net : tr_env) : World :=
  mkWorld host port "" 0 "" false json_null json_null "" false ∅ ∅ None ch None new_app files net
    0 [] [].

(** From here on the client's calls go to the subprocess behind the bridge. *)
Definition attach (s : Program) : Program :=
  set_client (set_crypto (behind (sys (pg_proxy s))) (pg_client s)) s.

(** [Client::run]; [Loop] is FTXUI's event loop inside [App::run]. *)
Definition run (Loop : M Program unit) : M Program unit :=
  on_client (Client.epic_log "Client::run start") ;;
  on_proxy (modify (λ p, new_proxy (sys p))) ;;
  on_proxy (start script_path "python3") ;;
  modify attach ;;
  on_client (on_app (run_begin true 0)) ;;
  Loop ;;
  on_client (on_app run_end) ;;
  on_client shut_down ;;
  on_proxy stop.

Definition host_name : string := "1bit2qbit.theburkenator.com".

(** [main]: what CLI11 makes of the command line is an exit code or the flag. *)
Definition main (command_line : Z + bool) (Loop : M Program unit) : M Program Z :=
  match command_line with
  | inl code => mret code
  | inr log_terminal =>
    when log_terminal (on_terminal open_log_terminal) ;;
    modify (λ s, set_client (new_client host_name 443 (disk (pg_client s)) (crypto_ (pg_client s))
      (outside (pg_client s))) s) ;;
    run Loop ;;
    mret 0
  end.

(** ** The way out *)

Context `{!NlohmannJsonLaws} `{!TransportLaws} `{!FdLaws}.

(** Nothing of the program is left behind: the connection is down and no thread of the
    UI is left, the subprocess is reaped and its pipes are closed. *)
Record closed_down (s0 s : Program) : Prop := {
  cd_quit : quit_ (pg_client s) = true;
  cd_offline : is_online (pg_client s) = false;
  cd_screen : screen_ptr_ (app_ (pg_client s)) = false;
  cd_lockout : lockout_thread_ (app_ (pg_client s)) = NotJoinable;
  cd_proxy : idle (pg_proxy s);
  cd_resources : resources (pg_proxy s) = resources (pg_proxy s0);
}.

Lemma started_moves p0 p p' :
  started p0 p → same_fds p p' → resources p' = resources p → started p0 p'.
Proof.
  intros [S1 S2 S3 S4 S5 S6] (E1 & E2 & E3) [= R1 R2].
  split; rewrite ?E1, ?E2, ?E3, ?R1, ?R2; done.
Qed.

Lemma wp_on_client {A} (m : M World A) Q E s :
  wp m (λ a w, Q a (set_client w s)) (λ e w, E e (set_client w s)) (pg_client s) →
  wp (on_client m) Q E s.
Proof. apply wp_zoom. Qed.

Lemma wp_on_proxy {A} (m : M Proxy A) Q E s :
  wp m (λ a p, Q a (set_proxy p s)) (λ e p, E e (set_proxy p s)) (pg_proxy s) →
  wp (on_proxy m) Q E s.
Proof. apply wp_zoom. Qed.

(** The end of [run] from any state the loop leaves. *)
Lemma wp_run_finish s0 s (E : string → Program → Prop) :
  started (pg_proxy s0) (pg_proxy s) →
  wp (on_client (on_app run_end) ;; on_client shut_down ;; on_proxy stop)
    (λ _ s', closed_down s0 s') E s.
Proof.
  intros Hst. apply wp_bind, wp_on_client, wp_modify. rewrite run_end_joins.
  apply wp_bind, wp_on_client. unfold shut_down. apply wp_bind, wp_modify, wp_bind, wp_gets.
  destruct (stop_started _ _ Hst) as (p' & Hstop & Hidle & Hres & _).
  destruct (connection_ (pg_client s)) as [t|] eqn:HC;
    cbn [connection_ set_quit set_app pg_client set_client]; rewrite HC.
  - eapply wp_with_connection; [exact HC|]. unfold wp at 1.
    destruct (tr_disconnect_ok t) as (t' & -> & Hoff). apply wp_on_proxy.
    unfold wp. change (pg_proxy (set_client _ _)) with (pg_proxy s). rewrite Hstop. by split.
  - apply wp_ret, wp_on_proxy. unfold wp. change (pg_proxy (set_client _ _)) with (pg_proxy s).
    rewrite Hstop. split; try done. unfold is_online. cbn. by rewrite HC.
Qed.

(** The event loop runs handlers, which are safe in a consistent client, and leaves the
    bridge's descriptors and process alone. *)
Context (Loop : M Program unit).
Context (loop_handlers : ∀ s, client_inv (pg_client s) → wp Loop
  (λ _ s', same_fds (pg_proxy s) (pg_proxy s') ∧ resources (pg_proxy s') = resources (pg_proxy s))
  (λ _ _, True) s).

(** How [run] ends by an exception: [start] has thrown and nothing is left open, or a
    handler has thrown out of the loop. *)
Definition escapes (s0 : Program) (e : string) (s : Program) : Prop :=
  resources (pg_proxy s) = resources (pg_proxy s0) ∨ ∃ s1, Loop s1 = (Exn e, s).

Lemma new_client_inv host port files ch ch' net t l :
  client_inv (set_app (run_begin true 0 new_app)
    (set_crypto ch' (set_trace t l [] (new_client host port files ch net)))).
Proof.
  pose proof (initial_world_inv host port files ch net) as [I1 I2 I3 I4 I5]. split; try done.
Qed.

Lemma wp_run s0 host port files ch net :
  pg_client s0 = new_client host port files ch net →
  wp (run Loop) (λ _ s, closed_down s0 s) (λ e s, escapes s0 e s) s0.
Proof.
  intros Hc. unfold run. apply wp_bind, wp_on_client, wp_modify, wp_bind, wp_on_proxy, wp_modify.
  apply wp_bind, wp_on_proxy. rewrite Hc.
  set (p0 := new_proxy _).
  assert (resources p0 = resources (pg_proxy s0) ∧ idle p0) as [Hr0 Hi0] by done.
  eapply wp_mono; [exact (start_spec script_path "python3" p0 Hi0)|..].
  2:{ intros e p1 [_ Hr1]. left. by transitivity (resources p0). }
  intros [] p1 Hst. apply wp_bind, wp_modify, wp_bind, wp_on_client, wp_modify, wp_bind.
  set (s1 := set_client _ _).
  assert (client_inv (pg_client s1)) as Hinv by exact (new_client_inv host port files ch _ net _ _).
  pose proof (loop_handlers s1 Hinv) as Hl.
  change (pg_proxy s1) with p1 in Hl. clearbody s1. unfold wp in Hl |- * at 1.
  destruct (Loop s1) as [[[]|e|x] s2] eqn:HL; [|right; by exists s1|done].
  destruct Hl as [Hf Hr]. eapply wp_mono; [apply (wp_run_finish (set_proxy p0 s0))| |done].
  - by eapply started_moves.
  - intros [] s3 [C1 C2 C3 C4 C5 C6]. by split.
Qed.

End program.
