(* ===== verification/RefWorld.v ===== *)
(** * RefWorld: a reference client

    The client over the reference JSON library, Base64, SQLite and subprocess, with a
    reference server that accepts one connection and answers every registration.  It
    makes the handlers computable, and every theorem about the client is applied
    here to a concrete state. *)

From S2P Require Import Prelude Json RefJson Message Conversation MessageStore RefSqlite StoreFacts Codec RefBase64.
From S2P Require Import CryptoProxy CryptoProxyFacts RefCrypto App Client ClientSafety ClientFacts ClientSession ClientMessages ClientFrames.
Local Open Scope Z_scope.

(** ** The surroundings *)

(** A connection to a server with the certificate [server_cert]. *)
Record RefConn : Type := mkRefConn {
  rt_connected : bool;
  rt_tls : bool;
  rt_fingerprint : string;
}.

Definition server_cert : string := "c0ffee".

#[global] Instance ref_transport : Transport := {|
  transport := RefConn;
  tr_env := unit;
  tr_new _ _ _ tls := mkRefConn false tls "";
  tr_env_of _ := tt;
  tr_connect pin t :=
    if rt_tls t && negb (str_empty pin) && negb (bool_decide (pin = server_cert))
    then (Exn "pin mismatch", mkRefConn false (rt_tls t) (rt_fingerprint t))
    else (Ret tt, mkRefConn true (rt_tls t) (if rt_tls t then server_cert else ""));
  tr_send_text _ t := if rt_connected t then (Ret tt, t) else (Exn "not connected", t);
  tr_disconnect t := (Ret tt, mkRefConn false (rt_tls t) (rt_fingerprint t));
  tr_is_connected := rt_connected;
  tr_tls := rt_tls;
  tr_cert_fingerprint := rt_fingerprint;
  tr_https_post _ _ _ _ _ := (tt, Ok (mkHttpResponse 201 ""));
|}.

#[global] Instance ref_transport_laws : TransportLaws.
Proof.
  split; cbn.
  - done.
  - done.
  - intros t. by eexists.
  - intros pin t t'. destruct (rt_tls t) eqn:Ht; cbn [andb].
    + destruct (str_empty pin) eqn:Hp; cbn [negb andb].
      { intros [= <-]. split; [done|]. intros _. left. by apply str_empty_true. }
      case_bool_decide as Hpin; cbn [negb]; [|done]. intros [= <-]. split; [done|]. by right.
    + intros [= <-]. done.
  - intros pin t e t'. case_match; [|done]. by intros [= <- <-].
  - intros pin t e t'. by case_match.
  - intros s t e t'. by case_match.
  - intros s t ->. by eexists.
  - intros s t o t'. case_match; by intros [= <- <-].
  - intros s t o t'. case_match; by intros [= <- <-].
Qed.

#[global] Instance ref_env : ClientEnv := {|
  system_clock n := 1700000000000 + Z.of_nat n;
  xdg_data_home := Some "/data";
  home := None;
  sqlite_open_error p := if bool_decide (p = "") then Some "no name" else None;
|}.

(** ** A session, from registration to logout *)

Definition fresh_client : World :=
  initial_world "server.example.com" 443 ∅ (mkRefChild 0 None) tt.

(** The handlers, one after the other, as long as each returns. *)
Definition run_events (evs : list ClientEvent) (w : World) : option World :=
  foldl (λ ow ev, w ← ow; match run_event ev w with (Ret _, w') => Some w' | _ => None end)
    (Some w) evs.

Definition confirm (user : string) : ClientEvent :=
  CE_frame (t_dump (t_obj [("username", t_str user)])).

Definition bundle_frame (peer : string) : string :=
  t_dump (t_obj [("type", t_str "key_bundle_response"); ("username", t_str peer);
    ("identity_key", t_str "bob-ik"); ("signed_pre_key", t_str "spk");
    ("signed_pre_key_sig", t_str "sig"); ("one_time_pre_key", t_null)]).

Definition chatting : option World :=
  run_events [CE_register "alice" "password" "1234"; confirm "alice"; CE_send "bob" "hello";
    CE_send "bob" "still there?"; CE_frame (bundle_frame "bob"); CE_send "bob" "good"] fresh_client.

(** Two texts wait for the keys, the third finds the session; all are kept in order. *)
Example chatting_messages :
  ((λ w, (msg_body <$> chat "bob" w, length (sent_ w), pending_sends_ w)) <$> chatting)
  = Some (["hello"; "still there?"; "good"], 7%nat, ∅).
Proof. vm_compute. reflexivity. Qed.

(** After logging out and in again, the conversation is back from the store. *)
Example relogin_messages :
  ((λ w, (msg_body <$> chat "bob" w, has_session "bob" w, active_screen_ (foldl (flip run_task) (app_ w) (posted (app_ w)))))
   <$> (w ← chatting; run_events [CE_logout; CE_login "alice" "password" "1234"; confirm "alice"] w))
  = Some (["hello"; "still there?"; "good"], true, 1).
Proof. vm_compute. reflexivity. Qed.

Definition session : World := default fresh_client chatting.
#[local] Opaque session.

Lemma session_live : live [] false session.
Proof.
  split; try (by vm_compute); [..|by intros k []%not_elem_of_nil];
    apply (bool_decide_unpack _); by vm_compute.
Qed.

(** ** The theorems at concrete inputs *)



Lemma login_pins_server_witness :
  ∃ w', do_login "alice" "password" "1234" fresh_client = (Ret tt, w') ∧
    ((connection_ w' = None ∧ sent_ w' = sent_ fresh_client) ∨
     logged_in_to "alice" "password" fresh_client w').
Proof. by apply login_pins_server. Defined.

Lemma storage_roundtrip_witness :
  ∃ w3, storage_decrypt (t_dump (t_obj [("nonce", t_str "1234"); ("ciphertext", t_str "aGk=")])) session
    = (Ret "hi", w3).
Proof.
  destruct (storage_roundtrip "hi" session
    (t_dump (t_obj [("nonce", t_str "1234"); ("ciphertext", t_str "aGk=")]))
    (storage_encrypt "hi" session).2 session) as (_ & _ & w3 & Hw3 & _).
  - apply run_ret. by vm_compute.
  - by vm_compute.
  - by exists w3.
Defined.

Lemma lockout_delay_policy_witness :
  lockout_delay 9 = Some 300 ∧ lockout_delay 40 = None.
Proof.
  split.
  - destruct (proj1 (lockout_delay_policy 8 ltac:(lia)) ltac:(lia)) as (d & Hd & _ & Hn).
    vm_compute in Hd. injection Hd as <-. exact (Hn ltac:(lia)).
  - apply (proj2 (lockout_delay_policy 40 ltac:(lia))). lia.
Defined.


Lemma abort_keeps_failure_count_witness :
  ∃ w', abort_login_session session = (Ret tt, w') ∧ session_over session w' ∧
    connection_ w' = None ∧ pending_key_pin_ w' = "" ∧
    pin_fail_count_ w' = pin_fail_count_ session ∧ app_ w' = app_ session.
Proof. apply (abort_keeps_failure_count session). by vm_compute. Defined.

(** The user never reads why the login failed. *)
Lemma disconnect_hides_reason_witness :
  disconnect_text "closed by server: 4001" = "Incorrect password." ∧
  ∃ w', on_disconnect "closed by server: 4001" session = (Ret tt, w') ∧
    status_msg_ (foldl (flip run_task) (app_ w') (posted (app_ w'))) = "".
Proof.
  split; [done|].
  destruct (disconnect_hides_reason "closed by server: 4001" session) as (w' & Hr & _ & _ & _ & Hs);
    [by vm_compute..|]. exists w'. split; [exact Hr|exact Hs].
Defined.

(** After alice's login, bob logs in: her key material is still there. *)
Lemma login_reuses_keys_witness :
  let w1 := (do_login "alice" "password" "1234" (run_event (CE_register "alice" "password" "1234") fresh_client).2).2 in
  let w2 := (do_login "bob" "secret" "5678" w1).2 in
  json_is_null (encrypted_dek_ w1) = false ∧ current_user_ w2 = "bob" ∧
  encrypted_dek_ w2 = encrypted_dek_ w1.
Proof.
  intros w1 w2. assert (json_is_null (encrypted_dek_ w1) = false) as E by (vm_compute; reflexivity).
  split; [exact E|]. split; [vm_compute; reflexivity|].
  exact (proj1 (login_reuses_keys "alice" "password" "1234" "bob" "secret" "5678"
    (run_event (CE_register "alice" "password" "1234") fresh_client).2) E).
Defined.


(** A wrong PIN for the third time. *)
Definition wrong_pin_world : World :=
  set_pin 2 "9999" (run_event (CE_register "alice" "password" "1234") fresh_client).2.
#[local] Opaque wrong_pin_world.

Lemma wrong_pin_frame a n p ch (w : World) :
  pin_fail_count_ (set_app a (set_pin n p (set_crypto ch w))) = n ∧
  conversations_ (set_app a (set_pin n p (set_crypto ch w))) = conversations_ w ∧
  sent_ (set_app a (set_pin n p (set_crypto ch w))) = sent_ w.
Proof. done. Qed.

Lemma wrong_pin_keeps_out_witness :
  ∃ w', auth_confirmed wrong_pin_world = (Ret tt, w') ∧ pin_fail_count_ w' = 3 ∧
    conversations_ w' = conversations_ wrong_pin_world ∧ sent_ w' = sent_ wrong_pin_world ∧
    lockout_remaining_ (app_ w') = 5.
Proof.
  assert (unlock_attempt wrong_pin_world =
    (Exn "CryptoProxy: subprocess error for method 'unlock_dek': wrong PIN",
     (unlock_attempt wrong_pin_world).2)) as Ha.
  { apply (run_exn (unlock_dek abs_call _ _ _)). by vm_compute. }
  assert (mutex_ wrong_pin_world = false ∧ screen_ptr_ (app_ wrong_pin_world) = true ∧
    json_is_null (encrypted_dek_ wrong_pin_world) = false) as (E1 & E2 & E3)
    by (vm_compute; auto).
  assert (0 ≤ pin_fail_count_ wrong_pin_world < 31) as E4 by (vm_compute; split; congruence).
  destruct (wrong_pin_keeps_out wrong_pin_world _ _ E1 E2 E4 E3 Ha) as (w' & Hw & Heq).
  exists w'. split; [exact Hw|]. assert (pin_fail_count_ wrong_pin_world = 2) as E5 by by vm_compute.
  rewrite Heq, E5. destruct (wrong_pin_frame (post T_run_on_ui (wrong_pin_feedback (2 + 1) (app_ wrong_pin_world)))
    (2 + 1) "" (unlock_attempt wrong_pin_world).2 wrong_pin_world) as (F1 & F2 & F3).
  split; [exact F1|]. split; [exact F2|]. split; [exact F3|]. vm_compute. reflexivity.
Defined.

Lemma session_carol :
  is_online session = true ∧ has_session "carol" session = false ∧
  default [] (pending_sends_ session !! "carol") ++ ["hi"] = ["hi"].
Proof. vm_compute. auto. Qed.

Lemma do_send_outcome_witness :
  ∃ w', do_send "carol" "hi" session = (Ret tt, w') ∧ live [] false w' ∧
    pending_sends_ w' = <["carol" := ["hi"]]> (pending_sends_ session).
Proof.
  destruct (do_send_outcome "carol" "hi" session session_live) as (w' & Hr & Hl & Ho).
  exists w'. split; [exact Hr|]. split; [exact Hl|]. unfold send_outcome in Ho.
  destruct session_carol as (E1 & E2 & E3). rewrite E1, E2, E3 in Ho. exact (proj1 Ho).
Defined.

(** Two texts wait for dave's keys. *)
Definition waiting : World :=
  set_pending_sends {["dave" := ["one"; "two"]]} session.
#[local] Opaque waiting.

Lemma waiting_live : live [] false waiting.
Proof.
  split; try (by vm_compute); [..|by intros k []%not_elem_of_nil];
    apply (bool_decide_unpack _); by vm_compute.
Qed.

Definition dave_bundle : json :=
  t_obj [("type", t_str "key_bundle_response"); ("username", t_str "dave");
    ("identity_key", t_str "dave-ik"); ("signed_pre_key", t_str "spk");
    ("signed_pre_key_sig", t_str "sig")].


Lemma session_bob :
  ∃ conv, conversations_ session !! "bob" = Some conv ∧ screen_ptr_ (app_ session) = true ∧
    prepare_ok all_cols (db_of session) = true ∧ new_rowid (rows (db_of session)) = Some 4.
Proof.
  destruct (conversations_ session !! "bob") as [conv|] eqn:E.
  - exists conv. split; [done|]. clear E. vm_compute. auto.
  - apply (f_equal (λ o, bool_decide (is_Some o))) in E. vm_compute in E. discriminate E.
Qed.

Lemma session_store : store_ session = Some ("/data/epic/alice.db", 3).
Proof. vm_compute. reflexivity. Qed.

Lemma received_message_kept_witness :
  wp (apply_content "bob" (mkParsedContent Standard "hi alice" "") "{}" "bob:alice:1")
    (λ _ w', ∃ ts blob, let m := received "bob" (current_user_ session) ts
         (mkParsedContent Standard "hi alice" "") "{}" "bob:alice:1" (u64 4) in
       chat "bob" w' = chat "bob" session ++ [m] ∧
       posted (app_ w') = posted (app_ session) ++ [T_push_message m] ∧
       rows (db_of w') = <[4 := row_of_message (set_body blob m)]> (rows (db_of session)) ∧
       opens (dek_of (crypto_ session)) blob "hi alice")
    (λ _ w', tracked "bob" w' = tracked "bob" session ∧ db_of w' = db_of session) session.
Proof.
  destruct session_bob as (conv & E1 & E2 & E3 & E4).
  exact (received_message_kept "bob" (mkParsedContent Standard "hi alice" "") "{}" "bob:alice:1"
    session _ _ 4 conv session_store E1 E2 E3 E4 ltac:(discriminate) ltac:(discriminate)).
Defined.

(** The first row is a message to bob; mallory edits it. *)
Lemma session_first_row :
  ∃ r, rows (db_of session) !! 1 = Some r ∧ r_mid r = c_str "alice:bob:1700000000000" ∧
    r_peer r ≠ "mallory" ∧ prepare_ok ["body"; "edited"; "mid"] (db_of session) = true.
Proof.
  destruct (rows (db_of session) !! 1) as [r|] eqn:E.
  - exists r. split; [done|].
    assert ((λ r, (r_mid r, r_peer r)) <$> (rows (db_of session) !! 1) = Some (c_str "alice:bob:1700000000000", "bob"))
      as E' by (clear; vm_compute; reflexivity).
    rewrite E in E'. cbn [fmap option_fmap option_map] in E'. injection E' as E1 E2.
    rewrite E2. split; [exact E1|]. split; [discriminate|]. clear. vm_compute. reflexivity.
  - apply (f_equal (λ o, bool_decide (is_Some o))) in E. vm_compute in E. discriminate E.
Qed.

Lemma remote_edit_reaches_any_conversation_witness :
  ∃ r, rows (db_of session) !! 1 = Some r ∧ r_peer r ≠ "mallory" ∧
  wp (apply_content "mallory" (mkParsedContent Edit "gotcha" "alice:bob:1700000000000") "{}" "")
    (λ _ w', ∃ blob, opens (dek_of (crypto_ session)) blob "gotcha" ∧
       rows (db_of w') !! 1 = Some (row_edit blob r) ∧
       app_ w' = App.update_message_body_by_mid "alice:bob:1700000000000" "gotcha" (app_ session))
    (λ _ w', db_of w' = db_of session ∧ app_ w' = app_ session) session.
Proof.
  destruct session_first_row as (r & E1 & E2 & E3 & E4). exists r. split; [exact E1|].
  split; [exact E3|].
  exact (remote_edit_reaches_any_conversation "mallory" "gotcha" "alice:bob:1700000000000" "{}" ""
    session _ _ 1 r session_store E4 E1 E2 E3).
Defined.

(** Eve's key is pinned, there is no session, and a first message comes with another key. *)
Definition eve_conversation : Conversation := set_pinned_ik_pub "eve-ik" (new_conversation "eve").
Definition eve_world : World :=
  set_conversations {["eve" := eve_conversation]} fresh_client.

Definition eve_env : json :=
  t_obj [("dr", t_str "aGk="); ("x3dh", t_obj [("identity_key", t_str "other-ik")])].
Definition eve_frame : json :=
  t_obj [("type", t_str "deliver_message"); ("sender", t_str "eve");
    ("ciphertext", t_str (t_dump eve_env)); ("mid", t_str "eve:alice:1")].

Lemma identity_change_dropped_witness :
  on_deliver_message eve_frame eve_world =
  (Ret tt, set_app (push_status (impersonation_warning "eve") (app_ eve_world))
     (set_trace (ticks eve_world) (log_ eve_world ++ [c_str ("on_deliver_message: from=" +:+ "eve")])
        (sent_ eve_world) eve_world)).
Proof.
  apply (identity_change_dropped eve_frame "eve" eve_env (t_str "aGk=")
    (t_obj [("identity_key", t_str "other-ik")]) "other-ik" eve_conversation).
  - split; [done| |done|done|done]. exists (t_str (t_dump eve_env)), (t_dump eve_env).
    split; [done|]. split; [done|]. apply t_parse_dump.
  - done.
  - by vm_compute.
  - done.
  - done.
  - done.
Defined.

(** Bob starts over; his first message means nothing in the session there is. *)
Definition bob_again_env : json :=
  t_obj [("dr", t_obj []); ("x3dh", t_obj [("identity_key", t_str "bob-ik")])].
Definition bob_again : json :=
  t_obj [("type", t_str "deliver_message"); ("sender", t_str "bob");
    ("ciphertext", t_str (t_dump bob_again_env)); ("mid", t_str "bob:alice:1")].

Lemma session_with_bob :
  ∃ conv rs, conversations_ session !! "bob" = Some conv ∧ ratchet_state_ conv ≠ "" ∧
    json_parse (ratchet_state_ conv) = Ok rs.
Proof.
  destruct (conversations_ session !! "bob") as [conv|] eqn:E.
  - assert ((λ c, match t_parse (ratchet_state_ c) with Ok _ => true | Err _ => false end) <$>
      (conversations_ session !! "bob") = Some true) as E' by (clear; vm_compute; reflexivity).
    rewrite E in E'. cbn [fmap option_fmap option_map] in E'.
    destruct (t_parse (ratchet_state_ conv)) as [rs|] eqn:Hp; [|discriminate E'].
    exists conv, rs. split; [done|]. split; [|exact Hp]. intros He. rewrite He in Hp. discriminate Hp.
  - apply (f_equal (λ o, bool_decide (is_Some o))) in E. vm_compute in E. discriminate E.
Qed.

Lemma ref_decrypt_fails rs ad ch :
  ∃ e ch', decrypt_message abs_call rs (t_obj []) ad ch = (Exn e, ch').
Proof. unfold decrypt_message. rewrite ref_abs_call. do 2 eexists. reflexivity. Qed.

Lemma invitation_in_session_ignored_witness :
  ∃ e ch, on_deliver_message bob_again session =
  (Ret tt, set_app (push_status ("Failed to decrypt message from '" +:+ "bob" +:+ "': " +:+ e) (app_ session))
     (set_crypto ch (set_trace (ticks session)
        (log_ session ++ [c_str ("on_deliver_message: from=" +:+ "bob")]) (sent_ session) session))).
Proof.
  destruct session_with_bob as (conv & rs & E1 & E2 & E3).
  destruct (ref_decrypt_fails rs (associated_data_ conv) (crypto_ session)) as (e & ch & E4).
  assert (mutex_ session = false) as E5 by (vm_compute; reflexivity).
  exists e, ch.
  refine (invitation_in_session_ignored bob_again "bob" bob_again_env (t_obj [])
    (t_obj [("identity_key", t_str "bob-ik")]) "bob-ik" conv rs e ch session _ E5 E1 E2 E3 E4).
  split; [reflexivity| |reflexivity|split; reflexivity|reflexivity].
  exists (t_str (t_dump bob_again_env)), (t_dump bob_again_env).
  split; [reflexivity|]. split; [reflexivity|]. apply t_parse_dump.
Defined.

Lemma delete_is_local_first_witness :
  wp (do_delete 1 true)
    (λ _ w', copies w' = (rows (MessageStore.mark_message_deleted 1 (db_of session)),
       (λ c, messages_ (Conversation.mark_message_deleted 1 c)) <$> conversations_ session,
       posted (app_ session) ++ [T_mark_deleted 1]))
    (λ _ w', copies w' = (rows (MessageStore.mark_message_deleted 1 (db_of session)),
       (λ c, messages_ (Conversation.mark_message_deleted 1 c)) <$> conversations_ session,
       posted (app_ session) ++ [T_mark_deleted 1])) session.
Proof.
  pose proof (delete_is_local_first 1 true session session_live) as Hw. cbv zeta beta in Hw. exact Hw.
Defined.

Lemma edit_is_local_first_witness :
  ∃ o w' blob, do_edit 1 "hello!" session = (o, w') ∧
    opens (dek_of (crypto_ session)) blob "hello!" ∧
    posted (app_ w') = posted (app_ session) ++ [T_update_body 1 "hello!"].
Proof.
  assert ((do_edit 1 "hello!" session).1 = Ret tt) as Hr by (vm_compute; reflexivity).
  pose proof (edit_is_local_first 1 "hello!" session session_live) as Hw.
  cbv zeta beta in Hw. exists (do_edit 1 "hello!" session).1, (do_edit 1 "hello!" session).2.
  destruct (wp_run_ret _ _ _ _ tt Hw Hr) as (blob & Ho & Hc).
  exists blob. split; [apply surjective_pairing|]. split; [exact Ho|].
  exact (f_equal snd Hc).
Defined.

(** A database from before encryption: its bodies are stored as they are. *)
Definition legacy_world : World :=
  set_store (Some ("old.db", 0)) {["old.db" := st_db demo_store]} fresh_client.

Definition legacy_conversation (peer : string) : Conversation :=
  default (new_conversation peer) (load_conversation peer (st_db demo_store)).

Lemma legacy_restores :
  ∀ peer, peer ∈ list_peers (db_of legacy_world) → ∃ raw,
    load_conversation peer (db_of legacy_world) = Some raw ∧
    restores (dek_of (crypto_ legacy_world)) raw (legacy_conversation peer).
Proof.
  intros peer Hp. assert (list_peers (db_of legacy_world) = ["bob"]) as Hl by (vm_compute; reflexivity).
  rewrite Hl in Hp. apply list_elem_of_singleton in Hp as ->.
  exists (legacy_conversation "bob"). split; [vm_compute; reflexivity|].
  split; [done|done| | |].
  - by apply opens_legacy.
  - by apply opens_legacy.
  - apply Forall_Forall2_diag. assert (Forall (λ m, String.prefix "{" (msg_body m) = false)
      (messages_ (legacy_conversation "bob"))) as Hm by (apply (bool_decide_unpack _); by vm_compute).
    eapply Forall_impl; [exact Hm|]. intros m Hp. exists (msg_body m). split; [by apply opens_legacy|].
    by destruct m.
Qed.

Lemma login_restores_conversations_witness :
  ∃ w', load_conversations legacy_world = (Ret tt, w') ∧
    conversations_ w' !! "bob" = Some (legacy_conversation "bob") ∧
    msg_body <$> messages_ (legacy_conversation "bob") = ["first"; "second"].
Proof.
  destruct (login_restores_conversations legacy_conversation legacy_world ltac:(by eexists) eq_refl
    legacy_restores) as (w' & Hr & _ & Hc & _).
  exists w'. split; [exact Hr|]. split; [|vm_compute; reflexivity].
  rewrite (Hc "bob"). rewrite bool_decide_true; [reflexivity|].
  assert (list_peers (db_of legacy_world) = ["bob"]) as -> by (vm_compute; reflexivity). left.
Defined.
