(* ===== verification/RefEndToEnd.v ===== *)
(** * RefEndToEnd: two reference clients talk to each other

    Alice's and Bob's clients over the reference surroundings, with clocks of their own;
    the end-to-end theorems are applied to them, and the whole exchange is computed. *)

From S2P Require Import Prelude Json RefJson Message Conversation MessageStore RefSqlite Codec RefBase64.
From S2P Require Import CryptoProxy CryptoProxyFacts Ratchet RefCrypto RefRatchet App Client ClientSafety.
From S2P Require Import ClientFacts ClientMessages EndToEnd Entries Replica FirstContact RefWorld.
Local Open Scope Z_scope.

(** Bob's machine: another clock and another home. *)
Definition bob_env : ClientEnv := {|
  system_clock n := 1700000123000 + 10 * Z.of_nat n;
  xdg_data_home := None;
  home := Some "/home/bob";
  sqlite_open_error _ := None;
|}.

Definition bob_frame (user : string) : string := t_dump (t_obj [("username", t_str user)]).

(** Bob has logged in. *)
Definition bob_world : World :=
  (handle_ws_frame (H4 := bob_env) (bob_frame "bob")
    (do_register (H4 := bob_env) "bob" "password" "5678" fresh_client).2).2.
#[local] Opaque bob_world.

(** The server relays every frame. *)
Definition relay (sender frame : string) : option string :=
  match t_parse frame with
  | Ok j => match deliver_message_frame (H := ref_json) sender j with
            | Ok out => Some (t_dump out)
            | Err _ => None
            end
  | Err _ => None
  end.

Lemma relay_relayed sender frame d : relay sender frame = Some d → relayed sender frame d.
Proof.
  unfold relay. destruct (t_parse frame) as [j|] eqn:Hj; [|done].
  destruct (deliver_message_frame (H := ref_json) sender j) as [out|] eqn:Ho; [|done]. intros [= <-].
  exists j, out. split; [done|]. split; [done|]. apply t_parse_dump.
Qed.

Definition online (t : transport) : Prop := rt_connected t = true.

Lemma online_sends t s : online t → ∃ t', tr_send_text s t = (Ret tt, t') ∧ online t'.
Proof. unfold online. cbn. intros Ht. rewrite Ht. by exists t. Qed.

Lemma connected_up (w : World) :
  (match connection_ w with Some t => rt_connected t | None => false end) = true →
  ∃ t, connection_ w = Some t ∧ online t.
Proof. destruct (connection_ w) as [t|]; [|done]. intros Ht. by exists t. Qed.

(** The checks of a listening client, by computation. *)
Definition is_listening (w : World) : bool :=
  bool_decide (is_Some (store_ w)) &&
  match connection_ w with Some t => rt_connected t | None => false end &&
  screen_ptr_ (app_ w) && negb (mutex_ w) && bool_decide (is_Some (dek_of (crypto_ w))).

Lemma is_listening_listening w : is_listening w = true → listening online false w.
Proof.
  unfold is_listening. rewrite !andb_true_iff, !bool_decide_eq_true, negb_true_iff.
  intros [[[[H1 H2] H3] H4] H5]. split; [done|by apply connected_up|done|done|done].
Qed.

Lemma bob_listening : listening online false bob_world.
Proof. apply is_listening_listening. by vm_compute. Qed.

(** ** The first messages *)

(** Two texts wait for Bob's keys. *)
Definition alice_waiting : World :=
  default fresh_client (run_events [CE_register "alice" "password" "1234"; confirm "alice";
    CE_send "bob" "hello"; CE_send "bob" "still there?"] fresh_client).
#[local] Opaque alice_waiting.

Lemma alice_waiting_live : live [] false alice_waiting.
Proof.
  split; try (by vm_compute); [..|by intros k []%not_elem_of_nil];
    apply (bool_decide_unpack _); by vm_compute.
Qed.

Definition bob_keys : json :=
  t_obj [("type", t_str "key_bundle_response"); ("username", t_str "bob");
    ("identity_key", t_str "bob-ik"); ("signed_pre_key", t_str "spk");
    ("signed_pre_key_sig", t_str "sig"); ("one_time_pre_key", t_null)].

Lemma first_texts_delivered_witness :
  ∃ wA', on_key_bundle_response (H4 := ref_env) bob_keys alice_waiting = (Ret tt, wA') ∧
  ∃ (sent : bool) ps fs, sent_ wA' = sent_ alice_waiting ++ fs ∧ length fs = length ps ∧
    ∀ ds, Forall2 (relayed "alice") fs ds →
      ∃ wB', for_each ds (handle_ws_frame (H4 := bob_env)) bob_world = (Ret tt, wB') ∧
        received_all online "alice" ps bob_world wB' ∧
        (sent = true → listening online false wA' → synced online "alice" "bob" wA' wB').
Proof.
  assert (∃ bundle, bob_bundle "bob-ik" bob_keys [] = Ok bundle) as [bundle Hb].
  { eexists. vm_compute. reflexivity. }
  assert (pending_sends_ alice_waiting !! "bob" = Some ["hello"; "still there?"]) as E1
    by (vm_compute; reflexivity).
  assert (has_session "bob" alice_waiting = false) as E2 by (vm_compute; reflexivity).
  assert (conversations_ alice_waiting = ∅) as E3 by (vm_compute; reflexivity).
  assert (published (encrypted_state_ bob_world) bundle) as E4 by (vm_compute; reflexivity).
  assert (conversations_ bob_world !! "alice" = None) as E5 by (vm_compute; reflexivity).
  assert (∀ c, conversations_ alice_waiting !! "bob" = Some c → peer_ c = "bob") as E6
    by (intros c Hc; rewrite E3 in Hc; discriminate Hc).
  destruct (first_texts_delivered ref_env bob_env online online_sends "alice" "bob" bob_keys "bob-ik" []
    bundle _ alice_waiting bob_world alice_waiting_live eq_refl E1 E2 E6 eq_refl eq_refl Hb E4
    bob_listening E5) as (wA' & Hr & sent & ps & fs & Hs & Hl & _ & Hd).
  exists wA'. split; [exact Hr|]. exists sent, ps, fs. split; [exact Hs|]. split; [exact Hl|].
  intros ds Hds. destruct (Hd ds Hds) as (wB' & Hr' & Hrec & Hsync). exists wB'. split; [exact Hr'|].
  split; [exact Hrec|]. intros Hsent HlA.
  assert (current_user_ alice_waiting = "alice") as U1 by (vm_compute; reflexivity).
  assert (current_user_ bob_world = "bob") as U2 by (vm_compute; reflexivity).
  assert (chat "bob" alice_waiting = []) as C1 by (vm_compute; reflexivity).
  exact (proj2 (Hsync Hsent ltac:(discriminate)) U1 U2 C1 HlA).
Defined.

(** The exchange, computed: what Bob sees. *)
Example exchange :
  let wA := (on_key_bundle_response (H4 := ref_env) bob_keys alice_waiting).2 in
  let wA := (do_send (H4 := ref_env) "bob" "good" wA).2 in
  let ds := omap (relay "alice") (drop (length (sent_ alice_waiting)) (sent_ wA)) in
  let wB := (for_each ds (handle_ws_frame (H4 := bob_env)) bob_world).2 in
  (λ m, (msg_sender m, msg_body m)) <$> chat "alice" wB =
    [("alice", "hello"); ("alice", "still there?"); ("alice", "good")] ∧
  msg_mid <$> chat "alice" wB = msg_mid <$> chat "bob" wA.
Proof. vm_compute. auto. Qed.

(** ** In a session *)

Definition alice_conversation : Conversation :=
  set_associated_data "ad" (set_ratchet_state (t_dump (t_obj [("n", t_int 7)])) (new_conversation "alice")).
Definition bob_session : World := set_conversations {["alice" := alice_conversation]} bob_world.
#[local] Opaque bob_session.

Lemma bob_session_listening : listening online false bob_session.
Proof. apply is_listening_listening. by vm_compute. Qed.

(** The checks of one end of a session, by computation. *)
Definition is_hearing (w : World) (k ad : string) : bool :=
  match conversations_ w !! k with
  | Some c => bool_decide (peer_ c = k) && bool_decide (associated_data_ c = ad) &&
      match t_parse (ratchet_state_ c) with Ok _ => true | Err _ => false end
  | None => false
  end.

Lemma is_hearing_hearing w k ad : is_hearing w k ad = true → ∃ a, hearing w k (Joined a) ad.
Proof.
  unfold is_hearing. destruct (conversations_ w !! k) as [c|] eqn:Hc; [|done].
  destruct (t_parse (ratchet_state_ c)) as [a|] eqn:Ha; [|by rewrite andb_false_r].
  rewrite !andb_true_iff, !bool_decide_eq_true. intros [[E1 E2] _]. by exists a, c.
Qed.

Lemma alice_bob_session : in_session "alice" "bob" session bob_session.
Proof.
  destruct (is_hearing_hearing session "bob" "ad" ltac:(vm_compute; reflexivity)) as (a & c & E1 & E2 & E3 & E4).
  destruct (is_hearing_hearing bob_session "alice" "ad" ltac:(vm_compute; reflexivity)) as (b & Hb).
  exists b, "ad". split; [|exact Hb]. exists c, a. split; [exact E1|]. split; [exact E2|].
  split; [exact E3|]. split; [exact E4|]. split; [constructor|exact I].
Qed.

Lemma sent_text_delivered_witness :
  ∃ wA', do_send (H4 := ref_env) "bob" "see you" session = (Ret tt, wA') ∧
    ((∃ a, app_ wA' = push_status "Message could not be sent." a) ∨
     ∃ f m, sent_ wA' = sent_ session ++ [f] ∧ msg_body m = "see you" ∧
       ∀ d, relayed "alice" f d → ∃ wB' m',
         handle_ws_frame (H4 := bob_env) d bob_session = (Ret tt, wB') ∧
         chat "alice" wB' = chat "alice" bob_session ++ [m'] ∧ msg_body m' = "see you" ∧
         in_session "alice" "bob" wA' wB').
Proof.
  assert (is_online session = true) as E1 by (vm_compute; reflexivity).
  destruct (sent_text_delivered ref_env bob_env online online_sends "alice" "bob" "see you" session
    bob_session session_live E1 bob_session_listening alice_bob_session) as (wA' & Hr & Ho).
  exists wA'. split; [exact Hr|]. destruct Ho as [Ho|(f & m & Hs & _ & Hb & Hd)]; [left; exact Ho|].
  right. exists f, m. split; [exact Hs|]. split; [exact Hb|]. intros d Hd'.
  destruct (Hd d Hd') as (wB' & m' & R1 & R2 & _ & R3 & _ & _ & _ & _ & R4).
  exists wB', m'. split; [exact R1|]. split; [exact R2|]. split; [exact R3|exact R4].
Defined.
