(* ===== verification/RefReplica.v ===== *)
(** * RefReplica: the copies of a conversation at two reference clients

    The convergence of the two copies applied to the clients of [RefEndToEnd], and the
    case it leaves out: two messages of the same millisecond have the same message id. *)

From S2P Require Import Prelude Json RefJson Message Conversation MessageStore RefSqlite Codec RefBase64.
From S2P Require Import CryptoProxy CryptoProxyFacts Ratchet RefCrypto RefRatchet App Client ClientSafety.
From S2P Require Import ClientFacts ClientMessages EndToEnd Entries Replica RefWorld RefEndToEnd.
Local Open Scope Z_scope.

(** Bob's copy of the conversation is Alice's. *)
Definition bob_copy : World :=
  set_conversations {["alice" := set_messages (chat "bob" session) alice_conversation]} bob_session.
#[local] Opaque bob_copy session bob_session.

Definition show (es : list Entry) : list (string * string * bool * bool) :=
  (λ e, (en_sender e, en_body e, en_edited e, en_deleted e)) <$> es.

(** Every entry is by one of the two, by computation. *)
Definition is_signed (me peer : string) (es : list Entry) : bool :=
  forallb (λ e, (bool_decide (en_sender e = me) || bool_decide (en_sender e = peer)) &&
    bool_decide (String.prefix (en_sender e +:+ ":") (en_mid e) = true)) es.

Lemma prefix_stamped name mid : String.prefix (name +:+ ":") mid = true → stamped name mid.
Proof.
  unfold stamped. revert mid. induction name as [|c name IH]; intros [|c' mid]; [done| |done|].
  - change (String.prefix ("" +:+ ":") (String c' mid)) with
      (if Ascii.ascii_dec ":" c' then String.prefix "" mid else false).
    destruct (Ascii.ascii_dec ":" c') as [<-|]; [|done]. by exists mid.
  - change (String.prefix (String c name +:+ ":") (String c' mid)) with
      (if Ascii.ascii_dec c c' then String.prefix (name +:+ ":") mid else false).
    destruct (Ascii.ascii_dec c c') as [<-|]; [|done]. intros [rest ->]%IH. by exists rest.
Qed.

Lemma is_signed_signed me peer es : is_signed me peer es = true → Forall (signed me peer) es.
Proof.
  unfold is_signed. rewrite forallb_forall. intros Hes. apply Forall_forall. intros e He%list_elem_of_In.
  apply Hes in He. rewrite andb_true_iff, orb_true_iff, !bool_decide_eq_true in He.
  destruct He as [Hs Hp]. split; [done|]. by apply prefix_stamped.
Qed.

Lemma is_seated me peer w :
  is_listening w = true → bool_decide (current_user_ w = me) = true → is_hearing w peer "ad" = true →
  is_signed me peer (entries peer w) = true → ∃ a, seated online me peer "ad" a w.
Proof.
  intros L U%bool_decide_eq_true [a Ha]%is_hearing_hearing G. exists a.
  split; [by apply is_listening_listening|done|done|by apply is_signed_signed].
Qed.

Lemma alice_bob_synced : synced online "alice" "bob" session bob_copy.
Proof.
  destruct (is_seated "alice" "bob" session) as [a HA]; [vm_compute; reflexivity..|].
  destruct (is_seated "bob" "alice" bob_copy) as [b HB]; [vm_compute; reflexivity..|].
  exists "ad", a, b. split; [exact HA|]. split; [exact HB|].
  split; [split; [constructor|exact I]|]. split; [split; [constructor|exact I]|].
  split; vm_compute; reflexivity.
Qed.

(** Alice writes a text and corrects it; Bob writes meanwhile. *)
Definition written : World := (act (H10 := ref_env) "bob" (A_send "see yuo") session).2.
Definition answered : World := (act (H10 := bob_env) "alice" (A_send "not yet") bob_copy).2.
Definition corrected : World := (act (H10 := ref_env) "bob" (A_edit 4 "see you") written).2.

(** One action of each. *)
Lemma alice_acts a w wB fs gs :
  allowed "bob" a w → let w' := (act (H10 := ref_env) "bob" a w).2 in
  net_step ref_env bob_env "alice" "bob" (mkNet w wB fs gs) (mkNet w' wB (fs ++ handed_over w w') gs).
Proof. intros Ha. left. exact (step_act _ _ a w wB fs gs _ _ Ha (surjective_pairing _)). Qed.

Lemma bob_acts a w wA fs gs :
  allowed "alice" a w → let w' := (act (H10 := bob_env) "alice" a w).2 in
  net_step ref_env bob_env "alice" "bob" (mkNet wA w fs gs) (mkNet wA w' fs (gs ++ handed_over w w')).
Proof. intros Ha. right. exact (step_act _ _ a w wA gs fs _ _ Ha (surjective_pairing _)). Qed.

Definition is_owned (k : string) (id : Z) (w : World) : bool :=
  let '(mid, peer) := find_owner id (conv_list w) "" in
  bool_decide (peer = k) && String.prefix (current_user_ w +:+ ":") mid &&
  forallb (λ m, bool_decide (msg_id m = id ↔ msg_mid m = mid)) (chat k w).

Lemma is_owned_owned k id w : is_owned k id w = true → owned k id w.
Proof.
  unfold is_owned, owned. destruct (find_owner id (conv_list w) "") as [mid peer].
  intros [[->%bool_decide_eq_true Hm]%andb_true_iff Hall]%andb_true_iff. exists mid.
  split; [done|]. split; [by apply prefix_stamped|]. split; [by eexists|].
  intros m Hin. rewrite forallb_forall in Hall.
  pose proof (Hall m (proj1 (list_elem_of_In _ _) Hin)) as E. by apply bool_decide_eq_true in E.
Qed.

(** What is on its way when all this has happened. *)
Definition busy : Net :=
  mkNet corrected answered (([] ++ handed_over session written) ++ handed_over written corrected)
    ([] ++ handed_over bob_copy answered).

Lemma alice_and_bob : correspondents "alice" "bob".
Proof. split; [done|..]; (split; [done|]; split; [apply (bool_decide_unpack _); by vm_compute|by eexists]). Qed.

Lemma replicas_converge_witness :
  (length (n_ltr busy), length (n_rtl busy)) = (2%nat, 1%nat) ∧
  ∀ dl dr, Forall2 (relayed "bob") (n_rtl busy) dl → Forall2 (relayed "alice") (n_ltr busy) dr →
    ∃ wA' wB', for_each dl (handle_ws_frame (H4 := ref_env)) corrected = (Ret tt, wA') ∧
      for_each dr (handle_ws_frame (H4 := bob_env)) answered = (Ret tt, wB') ∧
      synced online "alice" "bob" wA' wB' ∧ entries "bob" wA' ≡ₚ entries "alice" wB'.
Proof.
  split; [vm_compute; reflexivity|].
  assert (owned "bob" 4 written) as E3 by (apply is_owned_owned; vm_compute; reflexivity).
  assert (∀ s, dumpable s) as Hd by (intros s; eexists; reflexivity).
  assert (rtc (net_step ref_env bob_env "alice" "bob") (mkNet session bob_copy [] []) busy) as Hsteps.
  { exact (rtc_l _ _ _ _ (alice_acts (A_send "see yuo") session bob_copy [] [] (Hd _))
      (rtc_l _ _ _ _ (bob_acts (A_send "not yet") bob_copy written _ [] (Hd _))
        (rtc_once _ _ (alice_acts (A_edit 4 "see you") written answered _ _ (conj (Hd _) E3))))). }
  destruct (replicas_converge online online_sends ref_env bob_env (λ t Ht, Ht) "alice" "bob" session bob_copy busy
    alice_and_bob alice_bob_synced Hsteps) as (_ & _ & Hc). exact Hc.
Defined.

(** The exchange, computed: the two see each other's messages in the order they arrive. *)
Example corrected_text_arrives :
  let wA := (for_each (omap (relay "bob") (n_rtl busy)) (handle_ws_frame (H4 := ref_env)) corrected).2 in
  let wB := (for_each (omap (relay "alice") (n_ltr busy)) (handle_ws_frame (H4 := bob_env)) answered).2 in
  show (drop 3 (entries "bob" wA)) = [("alice", "see you", true, false); ("bob", "not yet", false, false)] ∧
  show (drop 3 (entries "alice" wB)) = [("bob", "not yet", false, false); ("alice", "see you", true, false)] ∧
  own "alice" (entries "bob" wA) = own "alice" (entries "alice" wB).
Proof. vm_compute. auto. Qed.

(** ** Two messages of one millisecond *)

(** A machine on which both messages are sent within a millisecond. *)
Definition still_env : ClientEnv := {|
  system_clock _ := 1700000099000;
  xdg_data_home := None;
  home := Some "/home/alice";
  sqlite_open_error _ := None;
|}.

(** A message id is made of the two names and the millisecond.  Two texts sent within one
    millisecond share it: an edit of the second one changes the first one at the other
    side. *)
Theorem same_millisecond_edit_misses :
  let wA := (for_each [A_send "tea?"; A_send "coffee?"; A_edit 5 "water?"]
    (act (H10 := still_env) "bob") session).2 in
  let ds := omap (relay "alice") (drop (length (sent_ session)) (sent_ wA)) in
  let wB := (for_each ds (handle_ws_frame (H4 := bob_env)) bob_copy).2 in
  en_body <$> drop 3 (entries "bob" wA) = ["tea?"; "water?"] ∧
  en_body <$> drop 3 (entries "alice" wB) = ["water?"; "coffee?"].
Proof. vm_compute. auto. Qed.
