(* ===== verification/RefWire.v ===== *)
(** * RefWire: the reference clients on byte streams

    The clients of [RefReplica] with connections over the network endpoint of [RefNet], which
    hands out three bytes at a time; the theorems of [ReadLoop] and [Wire] are applied to
    them. *)

From S2P Require Import Prelude Json RefJson Message Conversation MessageStore RefSqlite Codec RefBase64.
From S2P Require Import Connection ConnectionFacts RefNet CryptoProxy CryptoProxyFacts Ratchet RefCrypto RefRatchet.
From S2P Require Import App Client ClientSafety ClientFacts ClientTransport ClientSession ClientMessages.
From S2P Require Import ClientFrames EndToEnd Entries Replica ReadLoop Wire RefWorld RefEndToEnd RefReplica.
Local Open Scope Z_scope.
#[local] Opaque session bob_copy.

Local Abbreviation Wired := (World (H3 := conn_transport)).

(** A client with another connection. *)
Definition plug (bs : bytes) (w : World (H3 := ref_transport)) : Wired :=
  mkWorld (H3 := conn_transport) (host_ w) (port_ w) (current_user_ w) (pin_fail_count_ w) (pending_key_pin_ w)
    (quit_ w) (encrypted_dek_ w) (encrypted_state_ w) (server_cert_pin_ w) (mutex_ w) (conversations_ w)
    (pending_sends_ w) (Some (ref_conn (string_of_bytes bs))) (crypto_ w) (store_ w) (app_ w) (disk w)
    (ref_server "" []) (ticks w) (log_ w) (sent_ w).

Lemma plug_live bs w : live [] false w → live [] false (plug bs w).
Proof. intros [L1 L2 L3 L4 L5]. split; [done|by eexists|done|done|by intros k []%not_elem_of_nil]. Qed.

Lemma plug_seated me peer ad a bs w :
  seated online me peer ad a w → seated connected me peer ad a (plug bs w).
Proof.
  intros [[L1 _ L3 L4 L5] U S G]. split; [|exact U|exact S|exact G].
  split; [exact L1|by eexists|exact L3|exact L4|exact L5].
Qed.

Lemma plug_synced alice bob wA wB bsA bsB :
  synced online alice bob wA wB → synced connected alice bob (plug bsA wA) (plug bsB wB).
Proof.
  intros (ad & a & b & HA & HB & Hrest). exists ad, a, b.
  split; [by apply plug_seated|]. split; [by apply plug_seated|exact Hrest].
Qed.

Lemma plug_arrives bs w : Forall is_byte bs → arrives bs (plug bs w).
Proof. intros Hbs. eexists. split; [reflexivity|]. by apply bytes_of_string_of_bytes. Qed.

(** ** Alice writes to Bob *)

Definition alice_online : Wired := plug [] session.
Definition alice_wrote : Wired := (act (H10 := ref_env) "bob" (A_send "on the wire") alice_online).2.
Definition letter : string := hd "" (handed_over alice_online alice_wrote).
Definition parcel : string := default "" (relay "alice" letter).

(** The server sends it to Bob in two fragments, with a ping between them. *)
Definition parcel_wire : bytes :=
  server_frame false 1 (take 40 (bytes_of_string parcel)) ++ server_frame true 9 [33] ++
  server_frame true 0 (drop 40 (bytes_of_string parcel)).

Definition bob_online : Wired := plug (parcel_wire ++ server_frame true 8 []) bob_copy.

Lemma parcel_carried : carried parcel parcel_wire.
Proof.
  split; [vm_compute; discriminate|]. exists [[33]].
  rewrite <-(take_drop 40 (bytes_of_string parcel)) at 1. apply wire_first; [by left|].
  apply wire_ping; [cbn; lia|]. apply wire_last.
Qed.

Definition all_bytes (bs : bytes) : bool := forallb (λ z, (0 <=? z) && (z <? 256)) bs.

Lemma all_bytes_bytes bs : all_bytes bs = true → Forall is_byte bs.
Proof.
  unfold all_bytes. rewrite forallb_forall. intros Hb. apply Forall_forall. intros z Hz%list_elem_of_In.
  apply Hb in Hz. unfold is_byte. lia.
Qed.

Lemma bob_copy_live : live [] false bob_copy.
Proof.
  assert (is_listening bob_copy = true) as [L1 (t & L2 & _) L3 L4 L5]%is_listening_listening
    by (vm_compute; reflexivity).
  split; [exact L1|by exists t|exact L3|exact L4|by intros k []%not_elem_of_nil].
Qed.

Lemma bob_tuned : tuned (concat [parcel_wire] ++ server_frame true 8 []) bob_online.
Proof.
  split; [apply plug_live, bob_copy_live|].
  eexists. split; [reflexivity|]. split; [reflexivity|]. vm_compute. reflexivity.
Qed.

Lemma read_loop_delivers_witness :
  ∃ e w1 w', handled (H5 := bob_env) [parcel] bob_online e w1 ∧ dropped e w1 w' ∧
    read_loop (H5 := bob_env) 2 1000 bob_online = (Ret tt, w').
Proof.
  apply (read_loop_delivers (H5 := bob_env) [parcel] [parcel_wire] (server_frame true 8 []) 2 1000 bob_online
    ref_net_reliable).
  - constructor; [exact parcel_carried|constructor].
  - rewrite <-(app_nil_r (server_frame true 8 [])). apply no_message_close; [exact ref_net_reliable|cbn; lia].
  - exact bob_tuned.
  - split; [|constructor]. assert (confirms parcel = false) as E by (vm_compute; reflexivity).
    intros E'. rewrite E in E'. discriminate E'.
  - cbn. lia.
  - apply Nat.ltb_lt. vm_compute. reflexivity.
Defined.

(** What the handled messages leave, computed. *)
Example parcel_shown :
  show (drop 3 (entries "alice" (read_message (H5 := bob_env) 1000 bob_online).2)) =
    [("alice", "on the wire", false, false)].
Proof. vm_compute. reflexivity. Qed.

(** A frame that announces 16385 bytes. *)
Definition bob_flooded : Wired := plug [129; 126; 64; 1] bob_copy.

Lemma oversized_message_ends_session_witness :
  ∃ w', read_loop (H5 := bob_env) 1 5 bob_flooded = (Ret tt, w') ∧ session_over bob_flooded w' ∧
    is_online w' = false.
Proof.
  apply (oversized_message_ends_session (H5 := bob_env) 129 126 [64; 1] 0 5 bob_flooded ref_net_reliable).
  - split; [intros _; cbn; lia|intros E; vm_compute in E; discriminate E].
  - vm_compute. reflexivity.
  - split; [apply plug_live, bob_copy_live|].
    eexists. split; [reflexivity|]. split; [reflexivity|]. vm_compute. reflexivity.
  - vm_compute. reflexivity.
  - cbn. lia.
Defined.

(** ** The copies over bytes *)

Definition bob_read : Wired := (read_message (H5 := bob_env) 1000 bob_online).2.
Definition settled : Net (H3 := conn_transport) :=
  mkNet alice_wrote bob_read [] ([] ++ handed_over bob_online bob_read).

Lemma alice_writes_step :
  wire_step ref_env bob_env "alice" "bob" (mkNet alice_online bob_online [] [])
    (mkNet alice_wrote bob_online ([] ++ handed_over alice_online alice_wrote) []).
Proof.
  left. exact (wire_act ref_env "bob" (A_send "on the wire") alice_online bob_online [] [] _ _
    (ex_intro _ _ eq_refl) (surjective_pairing _)).
Qed.

Lemma bob_reads_step :
  wire_step ref_env bob_env "alice" "bob" (mkNet alice_wrote bob_online [letter] []) settled.
Proof.
  right. refine (wire_read bob_env "alice" 1000 bob_online alice_wrote [] letter [] parcel parcel_wire
    (server_frame true 8 []) _ _ _ parcel_carried _ _ (surjective_pairing _)).
  - apply relay_relayed. vm_compute. reflexivity.
  - apply plug_arrives, all_bytes_bytes. vm_compute. reflexivity.
  - apply Nat.leb_le. vm_compute. reflexivity.
Qed.

Lemma bytes_converge_witness :
  synced connected "alice" "bob" alice_wrote bob_read ∧ entries "bob" alice_wrote ≡ₚ entries "alice" bob_read.
Proof.
  assert ([] ++ handed_over alice_online alice_wrote = [letter]) as E1 by (vm_compute; reflexivity).
  assert (n_rtl settled = []) as E2 by (vm_compute; reflexivity).
  assert (rtc (wire_step ref_env bob_env "alice" "bob") (mkNet alice_online bob_online [] []) settled) as Hsteps.
  { refine (rtc_l _ _ _ _ alice_writes_step _). rewrite E1. exact (rtc_once _ _ bob_reads_step). }
  destruct (bytes_converge ref_env bob_env "alice" "bob" alice_online bob_online settled ref_net_reliable
    alice_and_bob (plug_synced _ _ _ _ _ _ alice_bob_synced) Hsteps) as (_ & _ & _ & _ & Hend).
  exact (Hend eq_refl E2).
Defined.
