(* ===== verification/RefMain.v ===== *)
(** * RefMain: the program at a concrete machine

    A machine with one terminal emulator and a process table; the user sends a text and
    quits. *)

From S2P Require Import Prelude Json RefJson Message Conversation MessageStore RefSqlite Codec RefBase64.
From S2P Require Import CryptoProxy CryptoProxyFacts CryptoProxyLifecycle RefCrypto RefProcess App AppView.
From S2P Require Import Client ClientSafety ClientFacts Log Main RefWorld.
Local Open Scope Z_scope.

(** kitty is installed; the log file exists once it was touched. *)
#[global] Instance ref_shell : Shell := {|
  shell := list string;
  touch s f := s ++ [f];
  system s c := (s, if bool_decide (c = which_command "kitty") then 0 else
                    if String.prefix "which" c then 1 else 0);
|}.

Example ref_terminal :
  commands (open_log_terminal (mkTerminal [] [])).2 =
  [which_command "xterm"; which_command "gnome-terminal"; which_command "alacritty";
   which_command "kitty"; "kitty --title 'EPIC Logs' bash -c 'tail -f /tmp/epic-client.log' &"].
Proof. vm_compute. reflexivity. Qed.

#[global] Instance ref_program_env : ProgramEnv := {|
  readlink_self := Some "/opt/epic/build/epic-client";
  current_path := "/root";
  weakly_canonical p := p;
|}.

Example ref_script : script_path = "/opt/epic/build/../subprocess_handler.py".
Proof. vm_compute. reflexivity. Qed.

#[global] Instance ref_log_env : LogEnv := {|
  localtime t := ((t / 3600) mod 24, (t / 60) mod 60, t mod 60);
  fopen_append _ := true;
|}.

#[global] Instance ref_log_env_laws : LogEnvLaws.
Proof.
  split. cbn. intros t h m s [= <- <- <-].
  pose proof (Z.mod_pos_bound (t / 3600) 24). pose proof (Z.mod_pos_bound (t / 60) 60).
  pose proof (Z.mod_pos_bound t 60). lia.
Qed.

Example ref_log :
  (Log.epic_log 1700000000012345678 "do_logout: begin" (Uninitialised "")).2
  = Appending ("[22:13:20.012] do_logout: begin" +:+ String newline "").
Proof. vm_compute. reflexivity. Qed.

(** The machine before the program, with standard input, output and error open. *)
#[local] Existing Instance ref_fds.
#[local] Existing Instance ref_fd_laws.

Definition ref_machine : Program := mkProgram (mkTerminal [] []) fresh_client ref_idle.

(** The user tries to send, edits and logs out. *)
Definition ref_loop : M Program unit :=
  on_client (for_each [CE_send "bob" "hi"; CE_edit 1 "hello"; CE_logout] run_event).

Lemma ref_loop_handlers s :
  client_inv (pg_client s) → wp ref_loop
  (λ _ s', same_fds (pg_proxy s) (pg_proxy s') ∧ resources (pg_proxy s') = resources (pg_proxy s))
  (λ _ _, True) s.
Proof.
  intros Hinv. apply wp_on_client. eapply wp_mono.
  - apply (wp_for_each _ _ client_inv (λ _ _, True)); [exact Hinv|]. intros ev w Hev Hw.
    eapply wp_mono; [apply (client_event_keeps ref_null_state ev w Hw)|by intros|by intros].
    repeat (apply elem_of_cons in Hev as [->|Hev]; [done|]). by apply elem_of_nil in Hev.
  - intros [] w _. by split.
  - by intros.
Qed.

Definition ref_behind (s : @os ref_fds) : @child ref_subprocess := mkRefChild 0 None.

